(** * touchh.world: the tap-context resolution pipeline

    A shallow embedding of the parts of the repository that decide how a
    tap is resolved into one place identification:

    - [VectorMath]              lib/vectorMath.ts          (IEEE binary64)
    - [ConfidenceSmoothing]     lib/confidenceSmoothing.ts (exact rationals)
    - [ConfidenceSmoothingAny]  the same class, at NaN and the infinities
    - [RateLimit]               lib/rateLimit.ts           (finite map, integer clock)
    - [GeoContext]              app/api/geo-context/route.ts
    - [GeoContextAny]           the same route, at any direction
    - [TapContext]              app/api/tap-context/route.ts
    - [TapContextAny]           the same route, at any body and any vision reply
    - [NanoBanana]              app/api/nano-banana-proxy/route.ts
    - [FrameUtils]              lib/frameUtils.ts          (exact rationals)
    - [Page]                    app/page.tsx               (exact rationals)

    JavaScript numbers are modelled in three ways, chosen by what the
    function under study does with them.  Where the question is what
    happens at a zero divisor or whether a NaN can appear, numbers are the
    kernel's binary64 floats.  Where only [+], [*], [min] and [max] occur
    (the smoother) they are exact rationals, so the model evaluates; the
    smoother is given a second time over those rationals extended with
    NaN and the two infinities.  Where trigonometry occurs (great-circle
    distance, bearing) they are real numbers; NaN, infinities and
    rounding are outside that model.

    Strings are sequences of 8-bit code units.

    The two route handlers are modelled twice.  [GeoContext] and
    [TapContext] read the request body and the object parsed from the
    vision model's text at the types the source declares for them: an
    optional field is an [option], a number field of the request body is
    [None] when it is not a number.  Nothing checks those types at run
    time, so [GeoContextAny] and [TapContextAny] are the same handlers
    over values of any JSON type, where a string method called on a value
    that is not a string, or [toFixed] on one that is not a number,
    throws.  Lemmas [geoPOST_declared] and [POST_declared] show that the
    first two are the second two at the inputs of the declared shape.

    A handler is a function from the process environment, the replies of
    the external services, the clock readings and the rate-limit store to
    the new store, the response and the list of calls it made, in order.
    Exceptions are explicit: a service reply may be [Throws], and the
    [try]/[catch] blocks of the source are where the model recovers. *)

From Stdlib Require Import Reals QArith Qminmax ZArith Psatz Bool List Sorted Ascii String.
From Stdlib Require Floats.PrimFloat Floats.FloatOps Floats.FloatAxioms Floats.SpecFloat.
From stdpp Require Import gmap strings.

Import ListNotations.

(* ================================================================== *)
(** * lib/vectorMath.ts *)
(* ================================================================== *)

Module VectorMath.

Import PrimFloat.
Local Open Scope float_scope.

Record Vector2D := mkVector2D { x2 : float; y2 : float }.
Record Vector3D := mkVector3D { x3 : float; y3 : float; z3 : float }.

(** [Math.min] and [Math.max] on two numbers: NaN is contagious and
    [-0] is smaller than [+0]. *)
Definition Math_min (a b : float) : float :=
  if is_nan a || is_nan b then nan
  else if a <? b then a
  else if b <? a then b
  else if get_sign a then a else b.

Definition Math_max (a b : float) : float :=
  if is_nan a || is_nan b then nan
  else if a <? b then b
  else if b <? a then a
  else if get_sign a then b else a.

Definition distance2D (a b : Vector2D) : float :=
  let dx := x2 a - x2 b in
  let dy := y2 a - y2 b in
  sqrt (dx * dx + dy * dy).

Definition distance3D (a b : Vector3D) : float :=
  let dx := x3 a - x3 b in
  let dy := y3 a - y3 b in
  let dz := z3 a - z3 b in
  sqrt (dx * dx + dy * dy + dz * dz).

Definition normalize2D (v : Vector2D) : Vector2D :=
  let length := sqrt (x2 v * x2 v + y2 v * y2 v) in
  if length =? 0 then mkVector2D 0 0
  else mkVector2D (x2 v / length) (y2 v / length).

Definition normalize3D (v : Vector3D) : Vector3D :=
  let length := sqrt (x3 v * x3 v + y3 v * y3 v + z3 v * z3 v) in
  if length =? 0 then mkVector3D 0 0 0
  else mkVector3D (x3 v / length) (y3 v / length) (z3 v / length).

Definition dot3D (a b : Vector3D) : float :=
  x3 a * x3 b + y3 a * y3 b + z3 a * z3 b.

(** The magnitude as [angleBetween3D] computes it for each argument. *)
Definition magnitude3D (a : Vector3D) : float :=
  sqrt (x3 a * x3 a + y3 a * y3 a + z3 a * z3 a).

Section WithAcos.
(** [Math.acos] is not a kernel primitive; it is taken as given. *)
Variable Math_acos : float -> float.

Definition angleBetween3D (a b : Vector3D) : float :=
  let dot := dot3D a b in
  let magA := magnitude3D a in
  let magB := magnitude3D b in
  if (magA =? 0) || (magB =? 0) then 0
  else Math_acos (Math_max (-1) (Math_min 1 (dot / (magA * magB)))).
End WithAcos.

(** A vector every component of which is [=== 0] (either zero sign). *)
Definition isZero2D (v : Vector2D) : bool := (x2 v =? 0) && (y2 v =? 0).
Definition isZero3D (v : Vector3D) : bool :=
  (x3 v =? 0) && (y3 v =? 0) && (z3 v =? 0).

End VectorMath.

(* ================================================================== *)
(** * lib/confidenceSmoothing.ts *)
(* ================================================================== *)

Module ConfidenceSmoothing.

Local Open Scope Q_scope.

(** The only mutable field of the class is [history]. *)
Record ConfidenceSmoother := mkSmoother { history : list Q }.

Definition maxHistorySize : nat := 5.
Definition minConfidence : Q := 0.
Definition maxConfidence : Q := 1.
Definition alpha : Q := 1 # 2.

(** [new ConfidenceSmoother()] *)
Definition new : ConfidenceSmoother := mkSmoother [].

Definition exponentialMovingAverage (h : list Q) : Q :=
  match h with
  | [] => 0
  | [h0] => h0
  | h0 :: rest =>
      fold_left (fun ema hi => alpha * hi + (1 - alpha) * ema) rest h0
  end.

(** [smooth] returns the updated object and the smoothed value.
    [push] appends, [shift] drops the oldest entry. *)
Definition smooth (s : ConfidenceSmoother) (confidence : Q)
  : ConfidenceSmoother * Q :=
  let clamped := Qmax minConfidence (Qmin maxConfidence confidence) in
  let pushed := history s ++ [clamped] in
  let h := if (maxHistorySize <? List.length pushed)%nat
           then List.tl pushed else pushed in
  (mkSmoother h, exponentialMovingAverage h).

Definition reset (s : ConfidenceSmoother) : ConfidenceSmoother :=
  mkSmoother [].

Definition getCurrent (s : ConfidenceSmoother) : Q :=
  match history s with
  | [] => 0
  | _ => exponentialMovingAverage (history s)
  end.

(** A sequence of [smooth] calls on one object, with every value
    returned, in call order. *)
Fixpoint smoothAll (s : ConfidenceSmoother) (inputs : list Q)
  : ConfidenceSmoother * list Q :=
  match inputs with
  | [] => (s, [])
  | v :: vs =>
      let '(s1, r) := smooth s v in
      let '(s2, rs) := smoothAll s1 vs in
      (s2, r :: rs)
  end.

End ConfidenceSmoothing.

(* ================================================================== *)
(** * lib/confidenceSmoothing.ts at any number *)
(* ================================================================== *)

Module ConfidenceSmoothingAny.

Local Open Scope Q_scope.

(** A JavaScript number: NaN, an infinity, or a finite value, which is
    taken exactly. *)
Inductive Number : Type :=
| NaN
| NegInfinity
| Finite (q : Q)
| Infinity.

(** [Math.min] and [Math.max]: NaN is contagious. *)
Definition Math_min (a b : Number) : Number :=
  match a, b with
  | NaN, _ | _, NaN => NaN
  | NegInfinity, _ | _, NegInfinity => NegInfinity
  | Infinity, x | x, Infinity => x
  | Finite p, Finite q => Finite (Qmin p q)
  end.

Definition Math_max (a b : Number) : Number :=
  match a, b with
  | NaN, _ | _, NaN => NaN
  | Infinity, _ | _, Infinity => Infinity
  | NegInfinity, x | x, NegInfinity => x
  | Finite p, Finite q => Finite (Qmax p q)
  end.

(** An infinity times a finite value: NaN at zero, else the infinity of
    the product's sign. *)
Definition scaled (positive : bool) (q : Q) : Number :=
  match q ?= 0 with
  | Eq => NaN
  | Gt => if positive then Infinity else NegInfinity
  | Lt => if positive then NegInfinity else Infinity
  end.

Definition mul (a b : Number) : Number :=
  match a, b with
  | NaN, _ | _, NaN => NaN
  | Finite p, Finite q => Finite (p * q)
  | Infinity, Finite q | Finite q, Infinity => scaled true q
  | NegInfinity, Finite q | Finite q, NegInfinity => scaled false q
  | Infinity, Infinity | NegInfinity, NegInfinity => Infinity
  | Infinity, NegInfinity | NegInfinity, Infinity => NegInfinity
  end.

Definition add (a b : Number) : Number :=
  match a, b with
  | NaN, _ | _, NaN => NaN
  | Finite p, Finite q => Finite (p + q)
  | Infinity, NegInfinity | NegInfinity, Infinity => NaN
  | Infinity, _ | _, Infinity => Infinity
  | NegInfinity, _ | _, NegInfinity => NegInfinity
  end.

Definition sub (a b : Number) : Number :=
  match a, b with
  | NaN, _ | _, NaN => NaN
  | Finite p, Finite q => Finite (p - q)
  | Infinity, Infinity | NegInfinity, NegInfinity => NaN
  | Infinity, _ | _, NegInfinity => Infinity
  | NegInfinity, _ | _, Infinity => NegInfinity
  end.

Record ConfidenceSmoother := mkSmoother { history : list Number }.

Definition maxHistorySize : nat := 5.
Definition minConfidence : Number := Finite 0.
Definition maxConfidence : Number := Finite 1.
Definition alpha : Number := Finite (1 # 2).

Definition new : ConfidenceSmoother := mkSmoother [].

Definition exponentialMovingAverage (h : list Number) : Number :=
  match h with
  | [] => Finite 0
  | [h0] => h0
  | h0 :: rest =>
      fold_left (fun ema hi => add (mul alpha hi) (mul (sub (Finite 1) alpha) ema))
                rest h0
  end.

Definition smooth (s : ConfidenceSmoother) (confidence : Number)
  : ConfidenceSmoother * Number :=
  let clamped := Math_max minConfidence (Math_min maxConfidence confidence) in
  let pushed := history s ++ [clamped] in
  let h := if (maxHistorySize <? List.length pushed)%nat
           then List.tl pushed else pushed in
  (mkSmoother h, exponentialMovingAverage h).

Definition reset (s : ConfidenceSmoother) : ConfidenceSmoother :=
  mkSmoother [].

Definition getCurrent (s : ConfidenceSmoother) : Number :=
  match history s with
  | [] => Finite 0
  | _ => exponentialMovingAverage (history s)
  end.

Fixpoint smoothAll (s : ConfidenceSmoother) (inputs : list Number)
  : ConfidenceSmoother * list Number :=
  match inputs with
  | [] => (s, [])
  | v :: vs =>
      let '(s1, r) := smooth s v in
      let '(s2, rs) := smoothAll s1 vs in
      (s2, r :: rs)
  end.

End ConfidenceSmoothingAny.

(* ================================================================== *)
(** * lib/rateLimit.ts *)
(* ================================================================== *)

Module RateLimit.

Local Open Scope Z_scope.

Record RateLimitEntry := mkEntry { count : Z; resetAt : Z }.

(** The module-level [rateLimitStore]. *)
Abbreviation Store := (gmap string RateLimitEntry).

Definition RATE_LIMIT_WINDOW_MS : Z := 60 * 1000.
Definition RATE_LIMIT_MAX_REQUESTS : Z := 60.

Record RateLimitResult := mkResult {
  allowed : bool;
  remaining : Z;
  result_resetAt : Z
}.

Definition expired (now : Z) (e : RateLimitEntry) : bool := resetAt e <=? now.

Definition cleanupExpiredEntries (now : Z) (store : Store) : Store :=
  filter (fun kv => expired now (snd kv) = false) store.

(** [now] is the reading of [Date.now()] taken by the call. *)
Definition checkRateLimit (now : Z) (identifier : string) (store : Store)
  : Store * RateLimitResult :=
  let fresh :=
    let resetAt' := now + RATE_LIMIT_WINDOW_MS in
    let store1 := <[identifier := mkEntry 1 resetAt']> store in
    let store2 := if (1000 <? size store1)%nat
                  then cleanupExpiredEntries now store1 else store1 in
    (store2, mkResult true (RATE_LIMIT_MAX_REQUESTS - 1) resetAt') in
  match store !! identifier with
  | None => fresh
  | Some entry =>
      if expired now entry then fresh
      else if RATE_LIMIT_MAX_REQUESTS <=? count entry
      then (store, mkResult false 0 (resetAt entry))
      else
        let entry' := mkEntry (count entry + 1) (resetAt entry) in
        (<[identifier := entry']> store,
         mkResult true (RATE_LIMIT_MAX_REQUESTS - count entry') (resetAt entry'))
  end.

(** Request headers read by [getClientIdentifier]; [None] is a header
    that is not set. *)
Record Headers := mkHeaders {
  x_forwarded_for : option string;
  x_real_ip : option string
}.

(** [s.split(',')[0]]: the text before the first comma. *)
Fixpoint beforeComma (s : string) : string :=
  match s with
  | EmptyString => EmptyString
  | String c rest =>
      if Ascii.eqb c ","%char then EmptyString else String c (beforeComma rest)
  end.

(** [a || b] on strings: the empty string is falsy. *)
Definition orElse (a : option string) (b : string) : string :=
  match a with
  | Some s => if String.eqb s "" then b else s
  | None => b
  end.

Definition getClientIdentifier (h : Headers) : string :=
  orElse (option_map beforeComma (x_forwarded_for h))
         (orElse (x_real_ip h) "unknown").

(** A run of calls, each with its clock reading and identifier. *)
Fixpoint checkAll (calls : list (Z * string)) (store : Store)
  : Store * list RateLimitResult :=
  match calls with
  | [] => (store, [])
  | (now, id) :: rest =>
      let '(store1, r) := checkRateLimit now id store in
      let '(store2, rs) := checkAll rest store1 in
      (store2, r :: rs)
  end.

End RateLimit.

(* ================================================================== *)
(** * JavaScript built-ins used by the two route handlers *)
(* ================================================================== *)

Module Js.

Local Open Scope string_scope.

(** ** Strings *)

Definition inRange (lo hi n : nat) : bool := (lo <=? n)%nat && (n <=? hi)%nat.

(** [\s] on 8-bit code units: TAB, LF, VT, FF, CR, space, NBSP. *)
Definition isSpace (c : ascii) : bool :=
  let n := nat_of_ascii c in
  inRange 9 13 n || (n =? 32)%nat || (n =? 160)%nat.

Definition toLowerChar (c : ascii) : ascii :=
  let n := nat_of_ascii c in
  if inRange 65 90 n || (inRange 192 222 n && negb (n =? 215)%nat)
  then ascii_of_nat (n + 32) else c.

Definition toUpperChar (c : ascii) : ascii :=
  let n := nat_of_ascii c in
  if inRange 97 122 n || (inRange 224 254 n && negb (n =? 247)%nat)
  then ascii_of_nat (n - 32) else c.

Fixpoint mapChars (f : ascii -> ascii) (s : string) : string :=
  match s with
  | EmptyString => EmptyString
  | String c r => String (f c) (mapChars f r)
  end.

Definition toLowerCase (s : string) : string := mapChars toLowerChar s.

Fixpoint startsWith (s p : string) : bool :=
  match p, s with
  | EmptyString, _ => true
  | String _ _, EmptyString => false
  | String a p', String b s' => Ascii.eqb a b && startsWith s' p'
  end.

(** [s.includes(sub)] *)
Fixpoint includes (s sub : string) : bool :=
  startsWith s sub ||
  match s with
  | EmptyString => false
  | String _ r => includes r sub
  end.

(** [s.split(/\s+/)]: the pieces between maximal runs of white space;
    a leading or trailing run leaves an empty piece. *)
Fixpoint splitSpacesFrom (cur : string) (skipping : bool) (s : string)
  : list string :=
  match s with
  | EmptyString => [cur]
  | String c r =>
      if isSpace c
      then if skipping then splitSpacesFrom cur true r
           else cur :: splitSpacesFrom EmptyString true r
      else splitSpacesFrom (cur ++ String c EmptyString) false r
  end.

Definition splitSpaces (s : string) : list string :=
  splitSpacesFrom EmptyString false s.

(** [s.split(sep)] for a one-character separator. *)
Fixpoint splitCharFrom (sep : ascii) (cur : string) (s : string) : list string :=
  match s with
  | EmptyString => [cur]
  | String c r =>
      if Ascii.eqb c sep then cur :: splitCharFrom sep EmptyString r
      else splitCharFrom sep (cur ++ String c EmptyString) r
  end.

Definition splitChar (sep : ascii) (s : string) : list string :=
  splitCharFrom sep EmptyString s.

(** [parts.join(sep)] *)
Fixpoint join (sep : string) (parts : list string) : string :=
  match parts with
  | [] => EmptyString
  | [p] => p
  | p :: rest => p ++ sep ++ join sep rest
  end.

(** [a.includes(w)] on an array of strings. *)
Definition arrayIncludes (a : list string) (w : string) : bool :=
  existsb (String.eqb w) a.

Fixpoint dropWhile (p : ascii -> bool) (s : string) : string :=
  match s with
  | EmptyString => EmptyString
  | String c r => if p c then dropWhile p r else s
  end.

Fixpoint rev (s : string) : string :=
  match s with
  | EmptyString => EmptyString
  | String c r => rev r ++ String c EmptyString
  end.

Definition trim (s : string) : string :=
  rev (dropWhile isSpace (rev (dropWhile isSpace s))).

(** [s.substring(0, n)] *)
Definition substring0 (n : nat) (s : string) : string := String.substring 0 n s.

(** Truthiness of an optional string: [undefined], [null] and [''] are
    falsy. *)
Definition truthy (o : option string) : bool :=
  match o with
  | Some s => negb (String.eqb s "")
  | None => false
  end.

(** [a || b] with a string default. *)
Definition orStr (a : option string) (b : string) : string :=
  match a with
  | Some s => if String.eqb s "" then b else s
  | None => b
  end.

(** An optional string inside a template literal. *)
Definition template (o : option string) : string :=
  match o with
  | Some s => s
  | None => "undefined"
  end.

(** [a || b] between two optional strings. *)
Definition orOpt (a b : option string) : option string :=
  if truthy a then a else b.

(** ** Numbers (real-number model) *)

Local Open Scope R_scope.

(** [Math.atan2(y, x)] *)
Definition atan2 (y x : R) : R :=
  if Rlt_dec 0 x then atan (y / x)
  else if Rlt_dec x 0
       then if Rle_dec 0 y then atan (y / x) + PI else atan (y / x) - PI
       else if Rlt_dec 0 y then PI / 2
            else if Rlt_dec y 0 then - PI / 2 else 0.

(** Truthiness of an optional number: [undefined], [null] and [0] are
    falsy. *)
Definition truthyNum (o : option R) : bool :=
  match o with
  | Some v => if Req_dec_T v 0 then false else true
  | None => false
  end.

(** [xs.sort((a, b) => key(b) - key(a))]: descending by [key], stable. *)
Section Sort.
Context {A : Type} (key : A -> R).

Fixpoint insertDesc (a : A) (l : list A) : list A :=
  match l with
  | [] => [a]
  | b :: l' =>
      if Rlt_dec (key a) (key b) then b :: insertDesc a l' else a :: b :: l'
  end.

Definition sortDesc (l : list A) : list A := fold_right insertDesc [] l.
End Sort.

(** [xs.map(f).filter(item => item !== null)] *)
Fixpoint mapFilter {A B : Type} (f : A -> option B) (l : list A) : list B :=
  match l with
  | [] => []
  | a :: l' =>
      match f a with
      | Some b => b :: mapFilter f l'
      | None => mapFilter f l'
      end
  end.

End Js.

(* ================================================================== *)
(** * Shapes of the collaborators' replies, and the geodesy both route
      handlers compute inline *)
(* ================================================================== *)

Module Place.
(** One entry of a Places search [results] array, with the fields the
    handlers read.  [lat] and [lng] are [geometry?.location?.lat] and
    [.lng]; [None] is a missing field.  [name] is always present: the
    handlers call [place.name.toLowerCase()] unguarded. *)
Record t := mk {
  name : string;
  lat : option R;
  lng : option R;
  place_id : option string;
  types : option (list string);
  rating : option R;
  url : option string;
  website : option string
}.
End Place.

Module DetailedPlace.
(** [detailsData.result] of the Place Details reply. *)
Record t := mk {
  name : option string;
  formatted_address : option string;
  formatted_phone_number : option string;
  rating : option R;
  user_ratings_total : option R;
  types : option (list string);
  editorial_overview : option string;     (* editorial_summary?.overview *)
  weekday_text : option (list string);    (* opening_hours?.weekday_text *)
  top_review_text : option string;        (* reviews[0].text, when reviews is non-empty *)
  url : option string;
  website : option string
}.
End DetailedPlace.

Module VisionResult.
(** The object parsed from the vision model's text. *)
Record t := mk {
  name : option string;
  description : option string;
  type : option string;
  details : option string;
  year : option string;
  architecturalStyle : option string;
  significance : option string
}.
End VisionResult.

Module Net.

(** The outcome of [await fetch(url)] followed by [await response.json()]:
    either call may throw; otherwise the reply is OK (status 2xx) with
    its parsed body, or not OK. *)
Inductive Fetch (A : Type) : Type :=
| Throws
| NotOk (status : nat)
| Ok (data : A).
Arguments Throws {A}.
Arguments NotOk {A} status.
Arguments Ok {A} data.

(** A Places search reply: [status] and [results]. *)
Record SearchData := mkSearchData {
  status : string;
  results : option (list Place.t)
}.

(** A Place Details reply: [result]. *)
Record DetailsData := mkDetailsData {
  result : option DetailedPlace.t
}.

(** The text of the vision model's first candidate part,
    [candidates?.[0]?.content?.parts?.[0]?.text]. *)
Record GeminiData := mkGeminiData {
  text : option string
}.

End Net.

Module Geo.

Local Open Scope R_scope.

(** Great-circle distance in metres (Haversine), as written three times
    in the handlers. *)
Definition distance (userLat userLng placeLat placeLng : R) : R :=
  let R0 := 6371000 in
  let dLat := (placeLat - userLat) * PI / 180 in
  let dLng := (placeLng - userLng) * PI / 180 in
  let a := sin (dLat / 2) * sin (dLat / 2) +
           cos (userLat * PI / 180) * cos (placeLat * PI / 180) *
           sin (dLng / 2) * sin (dLng / 2) in
  let c := 2 * Js.atan2 (sqrt a) (sqrt (1 - a)) in
  R0 * c.

(** Initial bearing from the user to the place, in degrees. *)
Definition bearing (userLat userLng placeLat placeLng : R) : R :=
  let dLng := (placeLng - userLng) * PI / 180 in
  let y := sin dLng * cos (placeLat * PI / 180) in
  let x := cos (userLat * PI / 180) * sin (placeLat * PI / 180) -
           sin (userLat * PI / 180) * cos (placeLat * PI / 180) * cos dLng in
  Js.atan2 y x * 180 / PI.

(** The tap direction, [{x, y, z}]. *)
Record Direction := mkDirection { dx : R; dy : R; dz : R }.

(** [Math.atan2(direction.x, direction.z) * 180 / Math.PI] *)
Definition directionBearing (d : Direction) : R :=
  Js.atan2 (dx d) (dz d) * 180 / PI.

End Geo.

(* ================================================================== *)
(** * The world a request runs in, and what a handler leaves behind *)
(* ================================================================== *)

Module Env.
(** The process environment and the replies of the external services.
    Each service answers as a function of what the handler sends it. *)
Record t := mk {
  GOOGLE_API_KEY : option string;
  gemini : string -> Net.Fetch Net.GeminiData;
  textSearch : string -> Net.Fetch Net.SearchData;
  nearbySearch : R -> R -> nat -> Net.Fetch Net.SearchData;
  placeDetails : string -> Net.Fetch Net.DetailsData
}.

(** [requireEnv('GOOGLE_API_KEY')]: [None] when it throws. *)
Definition requireKey (env : t) : option string :=
  if Js.truthy (GOOGLE_API_KEY env) then GOOGLE_API_KEY env else None.
End Env.

Module Http.

(** The calls a handler makes, in order. *)
Inductive Event : Type :=
| ReadBody
| CallGemini (image : string)
| CallTextSearch (query : string)
| CallNearbySearch (radius : nat)
| CallPlaceDetails (placeId : string)
| CallGeoContext.

(** The [X-RateLimit-*] headers, as numbers before formatting.
    [Cache-Control] is not modelled. *)
Record RateLimitHeaders := mkHeaders {
  X_RateLimit_Limit : Z;
  X_RateLimit_Remaining : Z;
  X_RateLimit_Reset : Z
}.

Record Response (A : Type) := mkResponse {
  status : nat;
  headers : option RateLimitHeaders;
  json : A
}.
Arguments mkResponse {A} status headers json.
Arguments status {A} r.
Arguments headers {A} r.
Arguments json {A} r.

(** [response.ok] *)
Definition ok {A} (r : Response A) : bool :=
  (200 <=? status r)%nat && (status r <=? 299)%nat.

Definition limitedHeaders (rl : RateLimit.RateLimitResult) : RateLimitHeaders :=
  mkHeaders 60 0 (RateLimit.result_resetAt rl).

Definition rateHeaders (rl : RateLimit.RateLimitResult) : RateLimitHeaders :=
  mkHeaders 60 (RateLimit.remaining rl) (RateLimit.result_resetAt rl).

End Http.

(* ================================================================== *)
(** * app/api/geo-context/route.ts *)
(* ================================================================== *)

Module GeoContext.

Import Http.
Local Open Scope R_scope.

(** One entry of the [places] array the handler returns. *)
Record GeoPlace := mkGeoPlace {
  name : string;
  latitude : R;
  longitude : R;
  confidence : R;
  type : string;
  url : option string;
  website : option string;
  placeId : option string;
  distance : R;
  bearing : R
}.

Inductive Json : Type :=
| Error (message : string)
| Places (places : list GeoPlace).

(** The request body; [None] in a number field stands for a value that
    is not of type number.  [fov], [bearing] and [queryHint] are read
    and never used. *)
Record Body := mkBody {
  body_latitude : option R;
  body_longitude : option R;
  body_direction : option Geo.Direction
}.

(** The callback of [results.map] *)
Definition rank (latitude longitude : R) (direction : Geo.Direction)
           (place : Place.t) : option GeoPlace :=
  if Js.truthyNum (Place.lat place) && Js.truthyNum (Place.lng place) then
    match Place.lat place, Place.lng place with
    | Some placeLat, Some placeLng =>
        let distance := Geo.distance latitude longitude placeLat placeLng in
        let bearing := Geo.bearing latitude longitude placeLat placeLng in
        let directionBearing := Geo.directionBearing direction in
        let bearingDiff := Rabs (bearing - directionBearing) in
        let directionMatch := 1 - Rmin (bearingDiff / 90) 1 in
        let distanceScore := Rmax 0.3 (1 - distance / 1000) in
        let ratingScore :=
          match Place.rating place with
          | Some r => if Js.truthyNum (Some r) then r / 5 else 0.7
          | None => 0.7
          end in
        let confidence :=
          distanceScore * 0.4 + ratingScore * 0.3 + directionMatch * 0.3 in
        Some (mkGeoPlace (Place.name place) placeLat placeLng confidence
                (Js.orStr (match Place.types place with
                           | Some (t0 :: _) => Some t0
                           | _ => None
                           end) "establishment")
                (Place.url place) (Place.website place) (Place.place_id place)
                distance bearing)
    | _, _ => None
    end
  else None.

Definition rankedPlaces (latitude longitude : R) (direction : Geo.Direction)
           (results : list Place.t) : list GeoPlace :=
  firstn 5
    (Js.sortDesc confidence
       (Js.mapFilter (rank latitude longitude direction) (firstn 10 results))).

Definition outOfRange (latitude longitude : R) : bool :=
  (if Rlt_dec latitude (-90) then true else false) ||
  (if Rlt_dec 90 latitude then true else false) ||
  (if Rlt_dec longitude (-180) then true else false) ||
  (if Rlt_dec 180 longitude then true else false).

(** The handler: the rate-limit store is threaded through, and the
    calls made are returned with the response. *)
Definition POST (env : Env.t) (now : Z) (hdrs : RateLimit.Headers)
           (body : option Body) (store : RateLimit.Store)
  : RateLimit.Store * Response Json * list Event :=
  let clientId := RateLimit.getClientIdentifier hdrs in
  let '(store1, rateLimit) := RateLimit.checkRateLimit now clientId store in
  if negb (RateLimit.allowed rateLimit) then
    (store1, mkResponse 429 (Some (limitedHeaders rateLimit))
               (Error "Rate limit exceeded"), [])
  else
    let empty := mkResponse 200 (Some (rateHeaders rateLimit)) (Places []) in
    match body with
    | None => (store1, mkResponse 500 None (Error "Geo lookup failed"), [ReadBody])
    | Some b =>
        match body_latitude b, body_longitude b, body_direction b with
        | Some latitude, Some longitude, Some direction =>
            if outOfRange latitude longitude then
              (store1, mkResponse 400 None (Error "Invalid coordinates"), [ReadBody])
            else
              match Env.requireKey env with
              | None => (store1, empty, [ReadBody])
              | Some _ =>
                  let radius := 500%nat in
                  let evs := [ReadBody; CallNearbySearch radius] in
                  match Env.nearbySearch env latitude longitude radius with
                  | Net.Throws | Net.NotOk _ => (store1, empty, evs)
                  | Net.Ok placesData =>
                      match Net.results placesData with
                      | Some (r0 :: rs) =>
                          if String.eqb (Net.status placesData) "OK" then
                            (store1,
                             mkResponse 200 (Some (rateHeaders rateLimit))
                               (Places (rankedPlaces latitude longitude direction
                                          (r0 :: rs))),
                             evs)
                          else (store1, empty, evs)
                      | _ => (store1, empty, evs)
                      end
                  end
              end
        | _, _, _ =>
            (store1, mkResponse 400 None (Error "Location and direction required"),
             [ReadBody])
        end
    end.

End GeoContext.

(* ================================================================== *)
(** * app/api/geo-context/route.ts at any direction

    The route tests [latitude] and [longitude] with [typeof] and
    [direction] with [!direction] only: a direction may be any truthy
    value.  [GeoContext] reads it at its declared shape, three numbers;
    this module is the same handler for any direction. *)
(* ================================================================== *)

Module GeoContextAny.

Import Http.
Local Open Scope R_scope.

(** [direction] of the request body.  [NoDirection] is a missing field
    or a falsy value.  Of any other value the handler reads [x] and
    [z] and passes them to [Math.atan2], which converts its arguments
    to numbers: [x] and [z] are the converted values, [Some r] a finite
    number and [None] NaN, as for a missing [x].  Infinite components
    are left out. *)
Inductive DirectionField : Type :=
| NoDirection
| AnyDirection (x z : option R).

(** The direction when both components are numbers. *)
Definition numeric (d : DirectionField) : option Geo.Direction :=
  match d with
  | AnyDirection (Some x) (Some z) => Some (Geo.mkDirection x 0 z)
  | _ => None
  end.

(** One entry of the [places] array.  A [confidence] of [None] is NaN,
    which the JSON of the response spells [null]. *)
Record GeoPlace := mkGeoPlace {
  name : string;
  latitude : R;
  longitude : R;
  confidence : option R;
  type : string;
  url : option string;
  website : option string;
  placeId : option string;
  distance : R;
  bearing : R
}.

Inductive Json : Type :=
| Error (message : string)
| Places (places : list GeoPlace).

Record Body := mkBody {
  body_latitude : option R;
  body_longitude : option R;
  body_direction : DirectionField
}.

(** An entry whose confidence is a number. *)
Definition ranked (g : GeoContext.GeoPlace) : GeoPlace :=
  mkGeoPlace (GeoContext.name g) (GeoContext.latitude g) (GeoContext.longitude g)
             (Some (GeoContext.confidence g)) (GeoContext.type g)
             (GeoContext.url g) (GeoContext.website g) (GeoContext.placeId g)
             (GeoContext.distance g) (GeoContext.bearing g).

(** The callback of [results.map] when [directionBearing] is NaN: so
    are [bearingDiff], [directionMatch] and [confidence]. *)
Definition rankNaN (latitude longitude : R) (place : Place.t) : option GeoPlace :=
  if Js.truthyNum (Place.lat place) && Js.truthyNum (Place.lng place) then
    match Place.lat place, Place.lng place with
    | Some placeLat, Some placeLng =>
        Some (mkGeoPlace (Place.name place) placeLat placeLng None
                (Js.orStr (match Place.types place with
                           | Some (t0 :: _) => Some t0
                           | _ => None
                           end) "establishment")
                (Place.url place) (Place.website place) (Place.place_id place)
                (Geo.distance latitude longitude placeLat placeLng)
                (Geo.bearing latitude longitude placeLat placeLng))
    | _, _ => None
    end
  else None.

(** [slice(0, 10)], [map], [filter], [sort], [slice(0, 5)].  When every
    confidence is NaN the comparator returns NaN for every pair, which
    [sort] takes for 0: the order of the search is kept. *)
Definition rankedPlaces (latitude longitude : R) (direction : DirectionField)
           (results : list Place.t) : list GeoPlace :=
  match numeric direction with
  | Some dir =>
      List.map ranked (GeoContext.rankedPlaces latitude longitude dir results)
  | None =>
      firstn 5 (Js.mapFilter (rankNaN latitude longitude) (firstn 10 results))
  end.

Definition POST (env : Env.t) (now : Z) (hdrs : RateLimit.Headers)
           (body : option Body) (store : RateLimit.Store)
  : RateLimit.Store * Response Json * list Event :=
  let clientId := RateLimit.getClientIdentifier hdrs in
  let '(store1, rateLimit) := RateLimit.checkRateLimit now clientId store in
  if negb (RateLimit.allowed rateLimit) then
    (store1, mkResponse 429 (Some (limitedHeaders rateLimit))
               (Error "Rate limit exceeded"), [])
  else
    let empty := mkResponse 200 (Some (rateHeaders rateLimit)) (Places []) in
    match body with
    | None => (store1, mkResponse 500 None (Error "Geo lookup failed"), [ReadBody])
    | Some b =>
        match body_latitude b, body_longitude b, body_direction b with
        | Some latitude, Some longitude, AnyDirection x z =>
            if GeoContext.outOfRange latitude longitude then
              (store1, mkResponse 400 None (Error "Invalid coordinates"), [ReadBody])
            else
              match Env.requireKey env with
              | None => (store1, empty, [ReadBody])
              | Some _ =>
                  let radius := 500%nat in
                  let evs := [ReadBody; CallNearbySearch radius] in
                  match Env.nearbySearch env latitude longitude radius with
                  | Net.Throws | Net.NotOk _ => (store1, empty, evs)
                  | Net.Ok placesData =>
                      match Net.results placesData with
                      | Some (r0 :: rs) =>
                          if String.eqb (Net.status placesData) "OK" then
                            (store1,
                             mkResponse 200 (Some (rateHeaders rateLimit))
                               (Places (rankedPlaces latitude longitude
                                          (AnyDirection x z) (r0 :: rs))),
                             evs)
                          else (store1, empty, evs)
                      | _ => (store1, empty, evs)
                      end
                  end
              end
        | _, _, _ =>
            (store1, mkResponse 400 None (Error "Location and direction required"),
             [ReadBody])
        end
    end.

End GeoContextAny.

(* ================================================================== *)
(** * app/api/tap-context/route.ts *)
(* ================================================================== *)

Module TapContext.

Import Http.
Local Open Scope string_scope.

(** ** Step 1: the vision hint *)

(** The six regular expressions of the fallback extraction.  For the
    key [name]: the quoted one matches the key, a run of double quotes,
    white space and colons, then a double-quoted value, which it
    captures; the bare one captures a value that runs to the next line
    feed, comma or closing brace.  Both ignore case.  The same two are
    written for [type] and [description]. *)
Inductive Pattern : Type :=
| NameQuoted | NameBare
| TypeQuoted | TypeBare
| DescriptionQuoted | DescriptionBare.

Definition newline : ascii := ascii_of_nat 10.
Definition isQuote (c : ascii) : bool :=
  Ascii.eqb c (ascii_of_nat 34) || Ascii.eqb c (ascii_of_nat 39).

(** The [replace] that drops one leading and one trailing quote
    character, single or double. *)
Definition stripQuotes (s : string) : string :=
  let s1 := match s with
            | String c r => if isQuote c then r else s
            | EmptyString => s
            end in
  match Js.rev s1 with
  | String c r => if isQuote c then Js.rev r else s1
  | EmptyString => s1
  end.

(** [s.replace(/PAT\n?/g, '')] for a literal, non-empty [pat].  [skip]
    counts the characters of a match still to drop; [eat] says a match
    has just ended, so one line feed is dropped with it. *)
Fixpoint removeAll (pat : string) (skip : nat) (eat : bool) (s : string) : string :=
  match s with
  | EmptyString => EmptyString
  | String c r =>
      match skip with
      | S k => removeAll pat k eat r
      | O =>
          if eat && Ascii.eqb c newline then removeAll pat 0 false r
          else if Js.startsWith s pat
               then removeAll pat (String.length pat - 1) true r
               else String c (removeAll pat 0 false r)
      end
  end.

Definition stripFences (jsonText : string) : string :=
  if Js.startsWith jsonText "```"
  then Js.trim (removeAll "```" 0 false (removeAll "```json" 0 false jsonText))
  else jsonText.

Fixpoint fromFirst (c0 : ascii) (s : string) : option string :=
  match s with
  | EmptyString => None
  | String c r => if Ascii.eqb c c0 then Some s else fromFirst c0 r
  end.

(** [s.match(/\{[\s\S]*\}/)]: from the first opening brace to the last
    closing brace after it. *)
Definition matchBraces (s : string) : option string :=
  match fromFirst "{"%char s with
  | None => None
  | Some t =>
      match fromFirst "}"%char (Js.rev t) with
      | None => None
      | Some u => Some (Js.rev u)
      end
  end.

(** [image.includes(',') ? image.split(',')[1] : image] *)
Definition base64Of (image : string) : string :=
  match Js.splitChar ","%char image with
  | _ :: second :: _ => second
  | _ => image
  end.

Section Vision.
(** [JSON.parse] on the brace-delimited text, read at the declared
    type of [visionResult]; [None] when it throws. *)
Variable JSON_parse : string -> option VisionResult.t.
(** [text.match(re)] for each [Pattern]: capture group 1, [None] when
    there is no match. *)
Variable regexGroup : Pattern -> string -> option string.

(** [text.match(quoted) || text.match(bare)], then
    [m[1].trim().replace(...)] *)
Definition extract (quoted bare : Pattern) (text : string) : option string :=
  match regexGroup quoted text with
  | Some g => Some (stripQuotes (Js.trim g))
  | None =>
      match regexGroup bare text with
      | Some g => Some (stripQuotes (Js.trim g))
      | None => None
      end
  end.

(** The object built in the [catch (parseError)] branch. *)
Definition extractFallback (text : string) : VisionResult.t :=
  VisionResult.mk (extract NameQuoted NameBare text)
                  (extract DescriptionQuoted DescriptionBare text)
                  (extract TypeQuoted TypeBare text)
                  None None None None.

(** What [visionResult] becomes for a non-empty reply [text]. *)
Definition parseVisionText (text : string) : option VisionResult.t :=
  match matchBraces (stripFences (Js.trim text)) with
  | Some jsonMatch =>
      match JSON_parse jsonMatch with
      | Some parsed => Some parsed
      | None => Some (extractFallback text)
      end
  | None => None
  end.

(** The whole first [try] block: [visionResult] and the calls made. *)
Definition visionStep (env : Env.t) (image : string)
  : option VisionResult.t * list Event :=
  match Env.requireKey env with
  | None => (None, [])
  | Some _ =>
      let base64Image := base64Of image in
      let evs := [CallGemini base64Image] in
      match Env.gemini env base64Image with
      | Net.Throws => (None, evs)
      | Net.NotOk _ => (None, evs)
      | Net.Ok geminiData =>
          match Net.text geminiData with
          | Some text =>
              if String.eqb text "" then (None, evs)
              else (parseVisionText text, evs)
          | None => (None, evs)
          end
      end
  end.
End Vision.

(** [visionResult?.name] and [visionResult?.type] *)
Definition nameOf (v : option VisionResult.t) : option string :=
  match v with Some r => VisionResult.name r | None => None end.
Definition typeOf (v : option VisionResult.t) : option string :=
  match v with Some r => VisionResult.type r | None => None end.

(** ** Step 2: the tap direction *)

Local Open Scope R_scope.

Definition fov : R := 60.
Definition fovRad : R := fov * PI / 180.

Definition direction (tapX tapY : R) : Geo.Direction :=
  let offsetX := (tapX - 0.5) * 2 in
  let offsetY := (tapY - 0.5) * 2 in
  Geo.mkDirection (sin (offsetX * fovRad / 2) * 0.1)
                  (- sin (offsetY * fovRad / 2) * 0.1)
                  0.95.

(** ** Step 3, strategy 1: text search for the name the vision model read *)

Module Match.
(** An element of [matches]. *)
Record t := mk { place : Place.t; distance : R; nameScore : R; score : R }.
End Match.

(** The name similarity computed inside the [map] callback. *)
Definition nameScoreOf (visionName : option string) (placeName : string) : R :=
  let nameLower := Js.toLowerCase placeName in
  let visionNameLower :=
    match visionName with
    | Some n => Js.toLowerCase n
    | None => EmptyString
    end in
  let present := negb (String.eqb visionNameLower EmptyString) in
  if present && String.eqb nameLower visionNameLower then 1
  else if present && (Js.includes nameLower visionNameLower ||
                      Js.includes visionNameLower nameLower) then 0.7
  else if present then
    let visionWords := Js.splitSpaces visionNameLower in
    let placeWords := Js.splitSpaces nameLower in
    let overlap :=
      List.length (List.filter (Js.arrayIncludes placeWords) visionWords) in
    INR overlap / INR (Nat.max (List.length visionWords) (List.length placeWords))
  else 0.

Definition toMatch (userLat userLng : R) (visionName : option string)
           (place : Place.t) : option Match.t :=
  if Js.truthyNum (Place.lat place) && Js.truthyNum (Place.lng place) then
    match Place.lat place, Place.lng place with
    | Some placeLat, Some placeLng =>
        let distance := Geo.distance userLat userLng placeLat placeLng in
        let nameScore := nameScoreOf visionName (Place.name place) in
        let score := nameScore * 0.7 + (1 - Rmin (distance / 2000) 1) * 0.3 in
        Some (Match.mk place distance nameScore score)
    | _, _ => None
    end
  else None.

Definition matches (userLat userLng : R) (visionName : option string)
           (results : list Place.t) : list Match.t :=
  Js.sortDesc Match.score (Js.mapFilter (toMatch userLat userLng visionName) results).

(** The place strategy 1 takes from one reply: [matches[0]] when it is
    within two kilometres. *)
Definition acceptMatch (ms : list Match.t) : option Place.t :=
  match ms with
  | m0 :: _ => if Rlt_dec (Match.distance m0) 2000 then Some (Match.place m0) else None
  | [] => None
  end.

(** ** Step 3, strategy 2: nearby search ranked by the tap direction *)

Module Scored.
(** An element of [placesWithScores]. *)
Record t := mk { place : Place.t; distance : R; bearing : R; score : R }.
End Scored.

Definition searchRadius : nat := 150.

(** The [some] test of the type bonus, with its guard
    [visionResult?.type && place.types]. *)
Definition typeMatch (visionType : option string) (types : option (list string))
  : bool :=
  if Js.truthy visionType then
    match visionType, types with
    | Some ty, Some ts =>
        existsb (fun t =>
                   Js.includes (Js.toLowerCase t) (Js.toLowerCase ty) ||
                   Js.includes (Js.toLowerCase ty) (Js.toLowerCase t)) ts
    | _, _ => false
    end
  else false.

Definition toScored (userLat userLng : R) (dir : Geo.Direction)
           (visionType : option string) (place : Place.t) : option Scored.t :=
  if Js.truthyNum (Place.lat place) && Js.truthyNum (Place.lng place) then
    match Place.lat place, Place.lng place with
    | Some placeLat, Some placeLng =>
        let bearing := Geo.bearing userLat userLng placeLat placeLng in
        let distance := Geo.distance userLat userLng placeLat placeLng in
        let tapBearing := Geo.directionBearing dir in
        let score0 := 1 / (1 + distance / 50) in
        let bearingDiff := Rabs (bearing - tapBearing) in
        let directionScore :=
          if Rlt_dec bearingDiff 45 then 1 - bearingDiff / 45 else 0 in
        let score1 := score0 + directionScore * 0.5 in
        let score2 :=
          if typeMatch visionType (Place.types place) then score1 + 0.3
          else score1 in
        Some (Scored.mk place distance bearing score2)
    | _, _ => None
    end
  else None.

Definition placesWithScores (userLat userLng : R) (dir : Geo.Direction)
           (visionType : option string) (results : list Place.t)
  : list Scored.t :=
  Js.sortDesc Scored.score
    (Js.mapFilter (toScored userLat userLng dir visionType) results).

(** The place strategy 2 takes: [placesWithScores[0]] when it is inside
    the search radius and scores above 0.2. *)
Definition acceptScored (ps : list Scored.t) : option Place.t :=
  match ps with
  | bestMatch :: _ =>
      if Rlt_dec (Scored.distance bestMatch) (INR searchRadius) then
        if Rlt_dec 0.2 (Scored.score bestMatch) then Some (Scored.place bestMatch)
        else None
      else None
  | [] => None
  end.

(** ** The JSON the handler answers with *)

Local Open Scope string_scope.

(** The object passed to [NextResponse.json] on the paths that resolve
    the tap; a field that a path leaves out, or sets to [null], is
    [None]. *)
Record ResolutionResult := mkResolution {
  title : string;
  subtitle : string;
  description : option string;
  details : option string;
  year : option string;
  confidence : R;
  url : option string
}.

Inductive Json : Type :=
| Error (message : string)
| Resolved (r : ResolutionResult).

Definition nl2 : string := String newline (String newline EmptyString).
Definition dquote : string := String (ascii_of_nat 34) EmptyString.

(** [s.replace(/_/g, ' ')] *)
Definition spaced (s : string) : string :=
  Js.mapChars (fun c => if Ascii.eqb c "_"%char then " "%char else c) s.

(** [word.charAt(0).toUpperCase() + word.slice(1)] *)
Definition capitalize (word : string) : string :=
  match word with
  | EmptyString => EmptyString
  | String c r => String (Js.toUpperChar c) r
  end.

(** The chain [replace], [split(' ')], [map], [join(' ')] applied to a
    type name. *)
Definition formatType (s : string) : string :=
  Js.join " " (List.map capitalize (Js.splitChar " "%char (spaced s))).

(** [x || null] *)
Definition orNull (o : option string) : option string :=
  if Js.truthy o then o else None.

(** [cond ? [text] : []], for the optional entries of a list of parts. *)
Definition part (o : option string) (f : string -> string) : list string :=
  match o with
  | Some s => if Js.truthy o then [f s] else []
  | None => []
  end.

(** The subtitle of the three vision-only answers. *)
Definition visionSubtitle (v : VisionResult.t) : string :=
  match VisionResult.type v with
  | Some ty => if Js.truthy (Some ty) then formatType ty else "Location"
  | None => "Location"
  end.

(** [[details, significance, style].filter(Boolean)] *)
Definition visionDetailParts (v : VisionResult.t) : list string :=
  part (VisionResult.details v) (fun s => s) ++
  part (VisionResult.significance v) (fun s => s) ++
  part (VisionResult.architecturalStyle v) (fun s => "Architectural style: " ++ s).

Definition visionOnly (v : VisionResult.t) (detailsText : string)
  : ResolutionResult :=
  mkResolution (Js.orStr (VisionResult.name v) "Building")
               (visionSubtitle v)
               (Some (Js.orStr (VisionResult.description v) ""))
               (Some detailsText)
               (orNull (VisionResult.year v))
               0.7
               None.

Section Handler.
Variable JSON_parse : string -> option VisionResult.t.
Variable regexGroup : Pattern -> string -> option string.
(** Number formatting: [String(x)] in a template literal, and
    [x.toFixed(digits)]. *)
Variable showNumber : R -> string.
Variable toFixed : nat -> R -> string.

Definition firstType (d : DetailedPlace.t) : option string :=
  match DetailedPlace.types d with
  | Some (t0 :: _) => Some t0
  | _ => None
  end.

Definition combinedDescription (v : option VisionResult.t) (d : DetailedPlace.t)
  : string :=
  let overview := DetailedPlace.editorial_overview d in
  let visionDescription :=
    match v with Some r => VisionResult.description r | None => None end in
  if Js.truthy overview then
    Js.orStr overview "" ++
    (if Js.truthy visionDescription
     then " " ++ Js.orStr visionDescription "" else "")
  else if Js.truthy visionDescription then Js.orStr visionDescription ""
  else
    Js.template (DetailedPlace.name d) ++ " is a " ++
    Js.orStr (option_map spaced (firstType d)) "location" ++
    " located at " ++
    Js.orStr (DetailedPlace.formatted_address d) "this location" ++ ".".

Definition detailsParts (v : option VisionResult.t) (d : DetailedPlace.t)
  : list string :=
  let get (f : VisionResult.t -> option string) :=
    match v with Some r => f r | None => None end in
  let overview := DetailedPlace.editorial_overview d in
  part overview (fun s => s) ++
  (match get VisionResult.details with
   | Some ds =>
       if Js.truthy (Some ds) &&
          negb (match overview with Some o => String.eqb ds o | None => false end)
       then [ds] else []
   | None => []
   end) ++
  part (get VisionResult.significance) (fun s => "Significance: " ++ s) ++
  part (get VisionResult.architecturalStyle)
       (fun s => "Architectural Style: " ++ s) ++
  part (get VisionResult.year) (fun s => "Built: " ++ s) ++
  part (DetailedPlace.formatted_address d) (fun s => "📍 Address: " ++ s) ++
  (match DetailedPlace.rating d with
   | Some r =>
       if Js.truthyNum (Some r) then
         ["⭐ Rating: " ++ showNumber r ++ "/5 (" ++
          showNumber (if Js.truthyNum (DetailedPlace.user_ratings_total d)
                      then match DetailedPlace.user_ratings_total d with
                           | Some n => n | None => 0%R end
                      else 0%R) ++ " reviews)"]
       else []
   | None => []
   end) ++
  part (DetailedPlace.formatted_phone_number d) (fun s => "📞 Phone: " ++ s) ++
  (match DetailedPlace.weekday_text d with
   | Some days => ["🕐 Hours: " ++ List.hd "undefined" days]
   | None => []
   end) ++
  part (DetailedPlace.top_review_text d)
       (fun s => "💬 Review: " ++ dquote ++ Js.substring0 200 s ++
                 (if (200 <? String.length s)%nat then "..." else "") ++ dquote).

(** The answer of the enrichment path. *)
Definition enriched (v : option VisionResult.t) (d : DetailedPlace.t)
  : ResolutionResult :=
  mkResolution
    (Js.orStr (nameOf v) (Js.orStr (DetailedPlace.name d) "Building"))
    (formatType (Js.orStr (typeOf v) (Js.orStr (firstType d) "Location")))
    (Some (combinedDescription v d))
    (Some (Js.join nl2 (detailsParts v d)))
    (orNull (match v with Some r => VisionResult.year r | None => None end))
    0.9
    (Js.orOpt (DetailedPlace.url d) (DetailedPlace.website d)).

(** ** Exceptions and the record of calls

    A computation that may throw and that records the calls it
    makes: [None] is a thrown exception; the calls made up to the
    throw are kept. *)
Definition M (A : Type) : Type := (option A * list Event)%type.

Definition ret {A} (a : A) : M A := (Some a, []).

Definition bind {A B} (m : M A) (k : A -> M B) : M B :=
  match m with
  | (Some a, evs) => let '(b, evs') := k a in (b, (evs ++ evs')%list)
  | (None, evs) => (None, evs)
  end.

Notation "x <- m ;; k" := (bind m (fun x => k))
  (at level 100, m at next level, right associativity).

(** [await fetch(...)] then [await response.json()]: a failure of
    either throws; a reply that is not OK is [None]. *)
Definition call {A} (e : Event) (reply : Net.Fetch A) : M (option A) :=
  match reply with
  | Net.Throws => (None, [e])
  | Net.NotOk _ => (Some None, [e])
  | Net.Ok data => (Some (Some data), [e])
  end.

(** [serverConfig.google.apiKey] *)
Definition apiKey (env : Env.t) : M string :=
  match Env.requireKey env with
  | Some k => ret k
  | None => (None, [])
  end.

(** [try { ... } catch { }] around a block that may return a
    response: a throw leaves no response. *)
Definition tryCatch {A} (m : M (option A)) : option A * list Event :=
  match m with
  | (Some r, evs) => (r, evs)
  | (None, evs) => (None, evs)
  end.

(** ** Step 3 *)

Definition searchQueries (v : VisionResult.t) (latitude longitude : R)
  : list string :=
  let name := Js.template (VisionResult.name v) in
  [ name;
    name ++ " near " ++ showNumber latitude ++ "," ++ showNumber longitude;
    name ++ " " ++ Js.orStr (VisionResult.type v) "" ].

(** The [for] loop over the search queries; the value is the place
    taken, if any. *)
Fixpoint textSearchLoop (env : Env.t) (latitude longitude : R)
         (visionName : option string) (queries : list string)
  : M (option Place.t) :=
  match queries with
  | [] => ret None
  | searchQuery :: rest =>
      reply <- call (CallTextSearch searchQuery) (Env.textSearch env searchQuery) ;;
      match reply with
      | None => textSearchLoop env latitude longitude visionName rest
      | Some textSearchData =>
          if String.eqb (Net.status textSearchData) "REQUEST_DENIED" ||
             String.eqb (Net.status textSearchData) "ZERO_RESULTS"
          then ret None
          else
            match Net.results textSearchData with
            | Some (r0 :: rs) =>
                match acceptMatch (matches latitude longitude visionName (r0 :: rs)) with
                | Some place => ret (Some place)
                | None => textSearchLoop env latitude longitude visionName rest
                end
            | _ => textSearchLoop env latitude longitude visionName rest
            end
      end
  end.

(** Strategy 1, guarded by [visionResult?.name]. *)
Definition strategy1 (env : Env.t) (latitude longitude : R)
           (v : option VisionResult.t) : M (option Place.t) :=
  match v with
  | Some r =>
      if Js.truthy (VisionResult.name r)
      then textSearchLoop env latitude longitude (VisionResult.name r)
             (searchQueries r latitude longitude)
      else ret None
  | None => ret None
  end.

(** Strategy 2: one nearby search, ranked by direction. *)
Definition strategy2 (env : Env.t) (latitude longitude : R)
           (dir : Geo.Direction) (v : option VisionResult.t)
  : M (option Place.t) :=
  reply <- call (CallNearbySearch searchRadius)
                (Env.nearbySearch env latitude longitude searchRadius) ;;
  match reply with
  | None => ret None
  | Some nearbyData =>
      if String.eqb (Net.status nearbyData) "REQUEST_DENIED" then ret None
      else
        match Net.results nearbyData with
        | Some (r0 :: rs) =>
            ret (acceptScored
                   (placesWithScores latitude longitude dir (typeOf v) (r0 :: rs)))
        | _ => ret None
        end
  end.

(** [placeId] after both strategies.  Strategy 2 runs when strategy 1
    left no usable id. *)
Definition findPlaceId (env : Env.t) (latitude longitude : R)
           (dir : Geo.Direction) (v : option VisionResult.t)
  : M (option string) :=
  found1 <- strategy1 env latitude longitude v ;;
  let placeId1 := match found1 with
                  | Some place => Place.place_id place
                  | None => None
                  end in
  if Js.truthy placeId1 then ret placeId1
  else
    found2 <- strategy2 env latitude longitude dir v ;;
    ret (match found2 with
         | Some place => Place.place_id place
         | None => placeId1
         end).

Definition respond (rateLimit : RateLimit.RateLimitResult)
           (r : ResolutionResult) : Response Json :=
  mkResponse 200 (Some (rateHeaders rateLimit)) (Resolved r).

(** The body of the first [if (latitude && longitude)]: the response
    it returns, if it returns one. *)
Definition placeBlock (env : Env.t) (rateLimit : RateLimit.RateLimitResult)
           (latitude longitude : R) (dir : Geo.Direction)
           (v : option VisionResult.t) : M (option (Response Json)) :=
  _ <- apiKey env ;;
  placeId <- findPlaceId env latitude longitude dir v ;;
  if Js.truthy placeId then
    let id := Js.orStr placeId "" in
    reply <- call (CallPlaceDetails id) (Env.placeDetails env id) ;;
    match reply with
    | Some detailsData =>
        match Net.result detailsData with
        | Some detailedPlace => ret (Some (respond rateLimit (enriched v detailedPlace)))
        | None => ret None
        end
    | None => ret None
    end
  else
    match v with
    | Some visionResult =>
        ret (Some (respond rateLimit
                     (visionOnly visionResult
                        (Js.join nl2 (visionDetailParts visionResult)))))
    | None => ret None
    end.

(** ** The nearby-place fallback *)

(** The answer built from [geoData.places[0]]. *)
Definition placeCard (v : option VisionResult.t) (bestPlace : GeoContext.GeoPlace)
  : ResolutionResult :=
  let get (f : VisionResult.t -> option string) :=
    match v with Some r => f r | None => None end in
  let finalName :=
    Js.orStr (nameOf v) (Js.orStr (Some (GeoContext.name bestPlace)) "Unknown Place") in
  let finalType :=
    Js.orStr (typeOf v) (Js.orStr (Some (GeoContext.type bestPlace)) "Location") in
  let description :=
    Js.orStr (get VisionResult.description)
             ("A " ++ Js.toLowerCase finalType ++ " located nearby.") in
  let details :=
    Js.orStr (get VisionResult.details)
             (match get VisionResult.significance with
              | Some sg => if Js.truthy (Some sg) then "Significance: " ++ sg else ""
              | None => ""
              end) in
  mkResolution finalName (formatType finalType) (Some description)
    (Some (Js.orStr (Some details) (Js.orStr (get VisionResult.significance) "")))
    (orNull (get VisionResult.year))
    (if Js.truthyNum (Some (GeoContext.confidence bestPlace))
     then GeoContext.confidence bestPlace else 0.8%R)
    (Js.orOpt (GeoContext.url bestPlace) (GeoContext.website bestPlace)).

(** The body of the second [if (latitude && longitude)].  The
    geo-context handler runs in process, with the headers of this
    request and its own reading of the clock. *)
Definition geoBlock (env : Env.t) (nowGeo : Z) (hdrs : RateLimit.Headers)
           (rateLimit : RateLimit.RateLimitResult)
           (latitude longitude : R) (dir : Geo.Direction)
           (v : option VisionResult.t) (store : RateLimit.Store)
  : RateLimit.Store * option (Response Json) * list Event :=
  let geoBody := GeoContext.mkBody (Some latitude) (Some longitude) (Some dir) in
  let '(store', geoContextResponse, evs) :=
    GeoContext.POST env nowGeo hdrs (Some geoBody) store in
  let answer :=
    if ok geoContextResponse then
      match json geoContextResponse with
      | GeoContext.Places (bestPlace :: _) =>
          Some (respond rateLimit (placeCard v bestPlace))
      | _ =>
          match v with
          | Some visionResult =>
              Some (respond rateLimit
                      (visionOnly visionResult
                         (Js.join " " (visionDetailParts visionResult))))
          | None => None
          end
      end
    else None in
  (store', answer, CallGeoContext :: evs).

(** ** The last two fallbacks *)

(** [latitude && longitude], with the two numbers when it holds. *)
Definition located (latitude longitude : option R) : option (R * R) :=
  if Js.truthyNum latitude && Js.truthyNum longitude then
    match latitude, longitude with
    | Some la, Some lo => Some (la, lo)
    | _, _ => None
    end
  else None.

Definition mockResponse (env : Env.t) (latitude longitude : option R)
           (tapX tapY : R) : ResolutionResult :=
  let '(title, subtitle) :=
    match located latitude longitude with
    | None =>
        ("Location Required",
         "Please enable location permissions to get real information about places you tap on.")
    | Some (la, lo) =>
        if negb (Js.truthy (Env.GOOGLE_API_KEY env)) then
          ("API Key Not Configured",
           "Google Places API key is required. Add GOOGLE_API_KEY to your .env file.")
        else
          ("No Information Found",
           "Location: " ++ toFixed 4 la ++ ", " ++ toFixed 4 lo ++
           ". Try tapping on a visible building or landmark.")
    end in
  mkResolution title
    (Js.orStr (Some subtitle)
       ("Tapped at (" ++ toFixed 0 (tapX * 100)%R ++ "%, " ++
        toFixed 0 (tapY * 100)%R ++ "%)"))
    None None None 0.3%R None.

Definition lastResort (env : Env.t) (rateLimit : RateLimit.RateLimitResult)
           (v : option VisionResult.t) (latitude longitude : option R)
           (tapX tapY : R) : Response Json :=
  match v with
  | Some visionResult =>
      respond rateLimit
        (visionOnly visionResult (Js.orStr (VisionResult.details visionResult) ""))
  | None => respond rateLimit (mockResponse env latitude longitude tapX tapY)
  end.

(** ** The handler *)

(** The request body; [None] in [tapX] or [tapY] stands for a value
    that is not of type number, [None] elsewhere for a missing
    field. *)
Record Body := mkBody {
  image : option string;
  tapX : option R;
  tapY : option R;
  latitude : option R;
  longitude : option R
}.

Definition maxSizeBytes : R := 5 * 1024 * 1024.

Definition tooLarge (image : string) : bool :=
  if Rlt_dec maxSizeBytes (INR (String.length image) * 3 / 4) then true else false.

(** Steps 2 to 5: everything after the vision step, for a request that
    passed validation.  [store] is the rate-limit store after this
    request was counted. *)
Definition resolve (env : Env.t) (nowGeo : Z) (hdrs : RateLimit.Headers)
           (rateLimit : RateLimit.RateLimitResult)
           (latitude longitude : option R) (tx ty : R)
           (visionResult : option VisionResult.t) (store : RateLimit.Store)
  : RateLimit.Store * Response Json * list Event :=
  let dir := direction tx ty in
  match located latitude longitude with
  | Some (la, lo) =>
      match tryCatch (placeBlock env rateLimit la lo dir visionResult) with
      | (Some response, evs2) => (store, response, evs2)
      | (None, evs2) =>
          match geoBlock env nowGeo hdrs rateLimit la lo dir visionResult store with
          | (store2, Some response, evs3) => (store2, response, (evs2 ++ evs3)%list)
          | (store2, None, evs3) =>
              (store2,
               lastResort env rateLimit visionResult latitude longitude tx ty,
               (evs2 ++ evs3)%list)
          end
      end
  | None =>
      (store, lastResort env rateLimit visionResult latitude longitude tx ty, [])
  end.

(** [now] and [nowGeo] are the clock readings of this handler's and of
    the nested geo-context handler's rate-limit check; [body] is
    [None] when [request.json()] throws. *)
Definition POST (env : Env.t) (now nowGeo : Z) (hdrs : RateLimit.Headers)
           (body : option Body) (store : RateLimit.Store)
  : RateLimit.Store * Response Json * list Event :=
  let clientId := RateLimit.getClientIdentifier hdrs in
  let '(store1, rateLimit) := RateLimit.checkRateLimit now clientId store in
  if negb (RateLimit.allowed rateLimit) then
    (store1, mkResponse 429 (Some (limitedHeaders rateLimit))
               (Error "Rate limit exceeded"), [])
  else
    match body with
    | None =>
        (store1, mkResponse 500 None (Error "Context lookup failed"), [ReadBody])
    | Some b =>
        match (if Js.truthy (image b) then image b else None), tapX b, tapY b with
        | Some img, Some tx, Some ty =>
            if tooLarge img then
              (store1, mkResponse 400 None (Error "Frame too large"), [ReadBody])
            else
              let '(visionResult, evs1) :=
                visionStep JSON_parse regexGroup env img in
              let '(store2, response, evs) :=
                resolve env nowGeo hdrs rateLimit (latitude b) (longitude b)
                        tx ty visionResult store1 in
              (store2, response, (ReadBody :: evs1 ++ evs)%list)
        | _, _, _ =>
            (store1,
             mkResponse 400 None (Error "Image and tap coordinates required"),
             [ReadBody])
        end
    end.

End Handler.

End TapContext.

(* ================================================================== *)
(** * app/api/tap-context/route.ts at any input

    [TapContext] reads the request body and the object parsed from the
    vision model's text at the types the source declares for them.
    Nothing checks those types at run time: the body's [latitude] and
    [longitude] and every field of the parsed object may be of any JSON
    type, and only [image], [tapX] and [tapY] are tested.  This module
    is the same handler over such values.  Where a value that is not a
    string or not a number reaches a method call, the call throws; the
    [try] blocks of the source decide where the exception is caught, and
    the outermost one answers 500. *)
(* ================================================================== *)

Module TapContextAny.

Import Http.
Local Open Scope string_scope.

(** ** Values of any JSON type *)

(** A field of the object parsed from the vision model's text.
    [Absent] is a missing field or [null].  [Other] is a number, a
    boolean, an array or an object: the handler tests it, prints it
    ([String(v)], in a template literal or in [join]) or calls a string
    method on it, which throws.  Where the handler copies such a value
    into the answer ([title: visionResult.name || ...]) the answer of
    the model holds its text. *)
Inductive Field : Type :=
| Absent
| Text (s : string)
| Other (truthy : bool) (shown : string).

Definition truthy (f : Field) : bool :=
  match f with
  | Absent => false
  | Text s => negb (String.eqb s "")
  | Other t _ => t
  end.

(** [String(f)] *)
Definition shown (f : Field) : string :=
  match f with
  | Absent => "undefined"
  | Text s => s
  | Other _ s => s
  end.

(** [f || fallback] *)
Definition orText (f : Field) (fallback : string) : string :=
  if truthy f then shown f else fallback.

(** [f || null] *)
Definition orNull (f : Field) : option string :=
  if truthy f then Some (shown f) else None.

(** The field when it is a string. *)
Definition stringOf (f : Field) : option string :=
  match f with
  | Text s => Some s
  | _ => None
  end.

(** [cond ? [text] : []] *)
Definition part (f : Field) (g : string -> string) : list string :=
  if truthy f then [g (shown f)] else [].

(** [f !== o], for [o] a string or [undefined] *)
Definition differs (f : Field) (o : option string) : bool :=
  match f, o with
  | Text s, Some t => negb (String.eqb s t)
  | _, _ => true
  end.

(** The object [JSON.parse] returns for the brace-delimited text. *)
Record VisionObject := mkVision {
  name : Field;
  description : Field;
  type : Field;
  details : Field;
  year : Field;
  architecturalStyle : Field;
  significance : Field
}.

(** [visionResult?.field] *)
Definition fieldOf (v : option VisionObject) (f : VisionObject -> Field) : Field :=
  match v with
  | Some r => f r
  | None => Absent
  end.

(** [latitude] or [longitude] of the request body.  [NoCoordinate] is a
    missing field or [null].  [NotNumber] is any other value that is
    not of type number, with its truthiness, the text a template
    literal makes of it, and the number arithmetic converts it to
    ([None] when that is NaN or an infinity: every distance and bearing
    computed from either is NaN). *)
Inductive Coordinate : Type :=
| NoCoordinate
| Number (r : R)
| NotNumber (truthy : bool) (shown : string) (toNumber : option R).

Definition truthyCoordinate (c : Coordinate) : bool :=
  match c with
  | NoCoordinate => false
  | Number r => Js.truthyNum (Some r)
  | NotNumber t _ _ => t
  end.

(** [typeof c === 'number'], with the number. *)
Definition asNumber (c : Coordinate) : option R :=
  match c with
  | Number r => Some r
  | _ => None
  end.

(** The finite number [c] stands for in arithmetic, if it does. *)
Definition toNumber (c : Coordinate) : option R :=
  match c with
  | NoCoordinate => None
  | Number r => Some r
  | NotNumber _ _ n => n
  end.

(** The position the distances are measured from; [None] when either
    coordinate converts to no finite number, and every distance and
    bearing is NaN. *)
Definition position (latitude longitude : Coordinate) : option (R * R) :=
  match toNumber latitude, toNumber longitude with
  | Some la, Some lo => Some (la, lo)
  | _, _ => None
  end.

(** [image] of the request body.  [NoImage] is a missing field or any
    falsy value that is not a string.  Of an array the handler asks
    [includes(',')]; it passes an array without that element on and
    throws at [split] for one with it.  [ImageOther] is any other
    truthy value: it has no method [includes]. *)
Inductive Image : Type :=
| NoImage
| ImageText (s : string)
| ImageArray (includesComma : bool) (data : string)
| ImageOther.

Definition truthyImage (i : Image) : bool :=
  match i with
  | NoImage => false
  | ImageText s => negb (String.eqb s "")
  | ImageArray _ _ | ImageOther => true
  end.

(** The request body; [None] in [tapX] or [tapY] stands for a value
    that is not of type number. *)
Record Body := mkBody {
  image : Image;
  tapX : option R;
  tapY : option R;
  latitude : Coordinate;
  longitude : Coordinate
}.

(** A thrown exception. *)
Definition throw {A : Type} : TapContext.M A := (None, []).

Notation "x <- m ;; k" := (TapContext.bind m (fun x => k))
  (at level 100, m at next level, right associativity).

(** ** The JSON the handler answers with *)

(** The subtitle of the three vision-only answers; [None] when
    [visionResult.type.replace] throws. *)
Definition visionSubtitle (v : VisionObject) : option string :=
  match type v with
  | Other true _ => None
  | ty => Some (if truthy ty then TapContext.formatType (shown ty) else "Location")
  end.

(** [(type || fallback).replace(...)...]; [None] when it throws. *)
Definition formattedType (ty : Field) (fallback : string) : option string :=
  match ty with
  | Other true _ => None
  | _ => Some (TapContext.formatType (orText ty fallback))
  end.

(** [[details, significance, style].filter(Boolean)] *)
Definition visionDetailParts (v : VisionObject) : list string :=
  part (details v) (fun s => s) ++
  part (significance v) (fun s => s) ++
  part (architecturalStyle v) (fun s => "Architectural style: " ++ s).

Definition visionOnly (v : VisionObject) (detailsText : string)
  : option TapContext.ResolutionResult :=
  match visionSubtitle v with
  | Some subtitle =>
      Some (TapContext.mkResolution
              (orText (name v) "Building")
              subtitle
              (Some (orText (description v) ""))
              (Some detailsText)
              (orNull (year v))
              0.7%R
              None)
  | None => None
  end.

Section Handler.
Variable JSON_parse : string -> option VisionObject.
Variable regexGroup : TapContext.Pattern -> string -> option string.
Variable showNumber : R -> string.
Variable toFixed : nat -> R -> string.
(** The reply to a nearby search whose [location] parameter is spelled
    from coordinates that are not both numbers. *)
Variable nearbySearchAt : string -> string -> nat -> Net.Fetch Net.SearchData.

(** ** Step 1: the vision hint *)

(** The object built in the [catch (parseError)] branch. *)
Definition extractFallback (text : string) : VisionObject :=
  let field (o : option string) :=
    match o with Some s => Text s | None => Absent end in
  mkVision
    (field (TapContext.extract regexGroup TapContext.NameQuoted TapContext.NameBare text))
    (field (TapContext.extract regexGroup TapContext.DescriptionQuoted
                               TapContext.DescriptionBare text))
    (field (TapContext.extract regexGroup TapContext.TypeQuoted TapContext.TypeBare text))
    Absent Absent Absent Absent.

Definition parseVisionText (text : string) : option VisionObject :=
  match TapContext.matchBraces (TapContext.stripFences (Js.trim text)) with
  | Some jsonMatch =>
      match JSON_parse jsonMatch with
      | Some parsed => Some parsed
      | None => Some (extractFallback text)
      end
  | None => None
  end.

(** [image.includes(',') ? image.split(',')[1] : image]: what is sent
    to the vision model, [None] when the expression throws. *)
Definition base64Of (image : Image) : option string :=
  match image with
  | ImageText s => Some (TapContext.base64Of s)
  | ImageArray false data => Some data
  | ImageArray true _ | ImageOther | NoImage => None
  end.

(** The whole first [try] block. *)
Definition visionStep (env : Env.t) (image : Image)
  : option VisionObject * list Event :=
  match Env.requireKey env with
  | None => (None, [])
  | Some _ =>
      match base64Of image with
      | None => (None, [])
      | Some base64Image =>
          let evs := [CallGemini base64Image] in
          match Env.gemini env base64Image with
          | Net.Throws => (None, evs)
          | Net.NotOk _ => (None, evs)
          | Net.Ok geminiData =>
              match Net.text geminiData with
              | Some text =>
                  if String.eqb text "" then (None, evs)
                  else (parseVisionText text, evs)
              | None => (None, evs)
              end
          end
      end
  end.

(** ** Step 3 *)

(** [`${latitude}`] *)
Definition shownCoordinate (c : Coordinate) : string :=
  match c with
  | NoCoordinate => "undefined"
  | Number r => showNumber r
  | NotNumber _ s _ => s
  end.

(** The nearby search at the position the body names. *)
Definition nearbySearch (env : Env.t) (latitude longitude : Coordinate)
           (radius : nat) : Net.Fetch Net.SearchData :=
  match latitude, longitude with
  | Number la, Number lo => Env.nearbySearch env la lo radius
  | _, _ => nearbySearchAt (shownCoordinate latitude) (shownCoordinate longitude) radius
  end.

Definition searchQueries (v : VisionObject) (latitude longitude : Coordinate)
  : list string :=
  let name := shown (name v) in
  [ name;
    name ++ " near " ++ shownCoordinate latitude ++ "," ++ shownCoordinate longitude;
    name ++ " " ++ orText (type v) "" ].

(** A candidate the [map] callbacks score: both coordinates truthy. *)
Definition scoredAt (place : Place.t) : bool :=
  Js.truthyNum (Place.lat place) && Js.truthyNum (Place.lng place).

(** [matches] and the test on [matches[0]].  For a name that is not a
    string, [visionResult.name?.toLowerCase()] throws at the first
    candidate that is scored.  With a NaN position no distance is below
    two kilometres. *)
Definition takeMatch (pos : option (R * R)) (visionName : Field)
           (results : list Place.t) : TapContext.M (option Place.t) :=
  match visionName with
  | Other _ _ => if existsb scoredAt results then throw else TapContext.ret None
  | _ =>
      match pos with
      | Some (userLat, userLng) =>
          TapContext.ret
            (TapContext.acceptMatch
               (TapContext.matches userLat userLng (stringOf visionName) results))
      | None => TapContext.ret None
      end
  end.

Fixpoint textSearchLoop (env : Env.t) (pos : option (R * R))
         (visionName : Field) (queries : list string)
  : TapContext.M (option Place.t) :=
  match queries with
  | [] => TapContext.ret None
  | searchQuery :: rest =>
      reply <- TapContext.call (CallTextSearch searchQuery)
                               (Env.textSearch env searchQuery) ;;
      match reply with
      | None => textSearchLoop env pos visionName rest
      | Some textSearchData =>
          if String.eqb (Net.status textSearchData) "REQUEST_DENIED" ||
             String.eqb (Net.status textSearchData) "ZERO_RESULTS"
          then TapContext.ret None
          else
            match Net.results textSearchData with
            | Some (r0 :: rs) =>
                found <- takeMatch pos visionName (r0 :: rs) ;;
                match found with
                | Some place => TapContext.ret (Some place)
                | None => textSearchLoop env pos visionName rest
                end
            | _ => textSearchLoop env pos visionName rest
            end
      end
  end.

(** Strategy 1, guarded by [visionResult?.name]. *)
Definition strategy1 (env : Env.t) (latitude longitude : Coordinate)
           (v : option VisionObject) : TapContext.M (option Place.t) :=
  match v with
  | Some r =>
      if truthy (name r)
      then textSearchLoop env (position latitude longitude) (name r)
             (searchQueries r latitude longitude)
      else TapContext.ret None
  | None => TapContext.ret None
  end.

(** [placesWithScores] and the test on [placesWithScores[0]].  For a
    truthy type that is not a string, [visionResult.type.toLowerCase()]
    throws at the first scored candidate that has a type tag. *)
Definition takeScored (pos : option (R * R)) (dir : Geo.Direction)
           (visionType : Field) (results : list Place.t)
  : TapContext.M (option Place.t) :=
  let tagged (place : Place.t) :=
    match Place.types place with
    | Some (_ :: _) => true
    | _ => false
    end in
  let throws :=
    match visionType with
    | Other true _ => existsb (fun place => scoredAt place && tagged place) results
    | _ => false
    end in
  if throws then throw
  else
    match pos with
    | Some (userLat, userLng) =>
        TapContext.ret
          (TapContext.acceptScored
             (TapContext.placesWithScores userLat userLng dir
                                          (stringOf visionType) results))
    | None => TapContext.ret None
    end.

(** Strategy 2: one nearby search, ranked by direction. *)
Definition strategy2 (env : Env.t) (latitude longitude : Coordinate)
           (dir : Geo.Direction) (v : option VisionObject)
  : TapContext.M (option Place.t) :=
  reply <- TapContext.call (CallNearbySearch TapContext.searchRadius)
             (nearbySearch env latitude longitude TapContext.searchRadius) ;;
  match reply with
  | None => TapContext.ret None
  | Some nearbyData =>
      if String.eqb (Net.status nearbyData) "REQUEST_DENIED" then TapContext.ret None
      else
        match Net.results nearbyData with
        | Some (r0 :: rs) =>
            takeScored (position latitude longitude) dir (fieldOf v type) (r0 :: rs)
        | _ => TapContext.ret None
        end
  end.

Definition findPlaceId (env : Env.t) (latitude longitude : Coordinate)
           (dir : Geo.Direction) (v : option VisionObject)
  : TapContext.M (option string) :=
  found1 <- strategy1 env latitude longitude v ;;
  let placeId1 := match found1 with
                  | Some place => Place.place_id place
                  | None => None
                  end in
  if Js.truthy placeId1 then TapContext.ret placeId1
  else
    found2 <- strategy2 env latitude longitude dir v ;;
    TapContext.ret (match found2 with
                    | Some place => Place.place_id place
                    | None => placeId1
                    end).

Definition combinedDescription (v : option VisionObject) (d : DetailedPlace.t)
  : string :=
  let overview := DetailedPlace.editorial_overview d in
  let visionDescription := fieldOf v description in
  if Js.truthy overview then
    Js.orStr overview "" ++
    (if truthy visionDescription then " " ++ shown visionDescription else "")
  else if truthy visionDescription then shown visionDescription
  else
    Js.template (DetailedPlace.name d) ++ " is a " ++
    Js.orStr (option_map TapContext.spaced (TapContext.firstType d)) "location" ++
    " located at " ++
    Js.orStr (DetailedPlace.formatted_address d) "this location" ++ ".".

Definition detailsParts (v : option VisionObject) (d : DetailedPlace.t)
  : list string :=
  let overview := DetailedPlace.editorial_overview d in
  TapContext.part overview (fun s => s) ++
  (if truthy (fieldOf v details) && differs (fieldOf v details) overview
   then [shown (fieldOf v details)] else []) ++
  part (fieldOf v significance) (fun s => "Significance: " ++ s) ++
  part (fieldOf v architecturalStyle) (fun s => "Architectural Style: " ++ s) ++
  part (fieldOf v year) (fun s => "Built: " ++ s) ++
  TapContext.part (DetailedPlace.formatted_address d) (fun s => "📍 Address: " ++ s) ++
  (match DetailedPlace.rating d with
   | Some r =>
       if Js.truthyNum (Some r) then
         ["⭐ Rating: " ++ showNumber r ++ "/5 (" ++
          showNumber (if Js.truthyNum (DetailedPlace.user_ratings_total d)
                      then match DetailedPlace.user_ratings_total d with
                           | Some n => n | None => 0%R end
                      else 0%R) ++ " reviews)"]
       else []
   | None => []
   end) ++
  TapContext.part (DetailedPlace.formatted_phone_number d) (fun s => "📞 Phone: " ++ s) ++
  (match DetailedPlace.weekday_text d with
   | Some days => ["🕐 Hours: " ++ List.hd "undefined" days]
   | None => []
   end) ++
  TapContext.part (DetailedPlace.top_review_text d)
       (fun s => "💬 Review: " ++ TapContext.dquote ++ Js.substring0 200 s ++
                 (if (200 <? String.length s)%nat then "..." else "") ++
                 TapContext.dquote).

(** The answer of the enrichment path; [None] when formatting the type
    throws. *)
Definition enriched (v : option VisionObject) (d : DetailedPlace.t)
  : option TapContext.ResolutionResult :=
  match formattedType (fieldOf v type)
                      (Js.orStr (TapContext.firstType d) "Location") with
  | Some subtitle =>
      Some (TapContext.mkResolution
              (orText (fieldOf v name) (Js.orStr (DetailedPlace.name d) "Building"))
              subtitle
              (Some (combinedDescription v d))
              (Some (Js.join TapContext.nl2 (detailsParts v d)))
              (orNull (fieldOf v year))
              0.9%R
              (Js.orOpt (DetailedPlace.url d) (DetailedPlace.website d)))
  | None => None
  end.

(** [return NextResponse.json(...)] for an answer that was built, a
    throw for one that was not. *)
Definition answer (rateLimit : RateLimit.RateLimitResult)
           (r : option TapContext.ResolutionResult)
  : TapContext.M (option (Response TapContext.Json)) :=
  match r with
  | Some built => TapContext.ret (Some (TapContext.respond rateLimit built))
  | None => throw
  end.

(** The body of the first [if (latitude && longitude)]. *)
Definition placeBlock (env : Env.t) (rateLimit : RateLimit.RateLimitResult)
           (latitude longitude : Coordinate) (dir : Geo.Direction)
           (v : option VisionObject)
  : TapContext.M (option (Response TapContext.Json)) :=
  _ <- TapContext.apiKey env ;;
  placeId <- findPlaceId env latitude longitude dir v ;;
  if Js.truthy placeId then
    let id := Js.orStr placeId "" in
    reply <- TapContext.call (CallPlaceDetails id) (Env.placeDetails env id) ;;
    match reply with
    | Some detailsData =>
        match Net.result detailsData with
        | Some detailedPlace => answer rateLimit (enriched v detailedPlace)
        | None => TapContext.ret None
        end
    | None => TapContext.ret None
    end
  else
    match v with
    | Some visionResult =>
        answer rateLimit
               (visionOnly visionResult
                  (Js.join TapContext.nl2 (visionDetailParts visionResult)))
    | None => TapContext.ret None
    end.

(** ** The nearby-place fallback *)

(** The answer built from [geoData.places[0]]; [None] when
    [finalType.toLowerCase()] or [finalType.replace(...)] throws. *)
Definition placeCard (v : option VisionObject) (bestPlace : GeoContext.GeoPlace)
  : option TapContext.ResolutionResult :=
  let finalName :=
    orText (fieldOf v name)
           (Js.orStr (Some (GeoContext.name bestPlace)) "Unknown Place") in
  let placeType := Js.orStr (Some (GeoContext.type bestPlace)) "Location" in
  match formattedType (fieldOf v type) placeType with
  | Some subtitle =>
      let finalType := orText (fieldOf v type) placeType in
      let description :=
        orText (fieldOf v description)
               ("A " ++ Js.toLowerCase finalType ++ " located nearby.") in
      let details :=
        if truthy (fieldOf v details) then shown (fieldOf v details)
        else if truthy (fieldOf v significance)
             then "Significance: " ++ shown (fieldOf v significance)
             else "" in
      Some (TapContext.mkResolution finalName subtitle (Some description)
              (Some details)
              (orNull (fieldOf v year))
              (if Js.truthyNum (Some (GeoContext.confidence bestPlace))
               then GeoContext.confidence bestPlace else 0.8%R)
              (Js.orOpt (GeoContext.url bestPlace) (GeoContext.website bestPlace)))
  | None => None
  end.

(** The body of the second [if (latitude && longitude)].  The nested
    request carries the coordinates as they came: the geo-context
    handler refuses those that are not numbers. *)
Definition geoBlock (env : Env.t) (nowGeo : Z) (hdrs : RateLimit.Headers)
           (rateLimit : RateLimit.RateLimitResult)
           (latitude longitude : Coordinate) (dir : Geo.Direction)
           (v : option VisionObject) (store : RateLimit.Store)
  : RateLimit.Store * option (Response TapContext.Json) * list Event :=
  let geoBody :=
    GeoContext.mkBody (asNumber latitude) (asNumber longitude) (Some dir) in
  let '(store', geoContextResponse, evs) :=
    GeoContext.POST env nowGeo hdrs (Some geoBody) store in
  let built :=
    if ok geoContextResponse then
      match json geoContextResponse with
      | GeoContext.Places (bestPlace :: _) => placeCard v bestPlace
      | _ =>
          match v with
          | Some visionResult =>
              visionOnly visionResult
                         (Js.join " " (visionDetailParts visionResult))
          | None => None
          end
      end
    else None in
  (store', option_map (TapContext.respond rateLimit) built, CallGeoContext :: evs).

(** ** The last two fallbacks *)

(** [latitude && longitude] *)
Definition located (latitude longitude : Coordinate) : bool :=
  truthyCoordinate latitude && truthyCoordinate longitude.

Definition fixedMessage (title subtitle : string) (tapX tapY : R)
  : TapContext.ResolutionResult :=
  TapContext.mkResolution title
    (Js.orStr (Some subtitle)
       ("Tapped at (" ++ toFixed 0 (tapX * 100)%R ++ "%, " ++
        toFixed 0 (tapY * 100)%R ++ "%)"))
    None None None 0.3%R None.

(** The fixed message; [None] when [latitude.toFixed(4)] or
    [longitude.toFixed(4)] throws. *)
Definition mockResponse (env : Env.t) (latitude longitude : Coordinate)
           (tapX tapY : R) : option TapContext.ResolutionResult :=
  if located latitude longitude then
    if negb (Js.truthy (Env.GOOGLE_API_KEY env)) then
      Some (fixedMessage "API Key Not Configured"
              "Google Places API key is required. Add GOOGLE_API_KEY to your .env file."
              tapX tapY)
    else
      match asNumber latitude, asNumber longitude with
      | Some la, Some lo =>
          Some (fixedMessage "No Information Found"
                  ("Location: " ++ toFixed 4 la ++ ", " ++ toFixed 4 lo ++
                   ". Try tapping on a visible building or landmark.")
                  tapX tapY)
      | _, _ => None
      end
  else
    Some (fixedMessage "Location Required"
            "Please enable location permissions to get real information about places you tap on."
            tapX tapY).

(** The answer of the outermost [catch]. *)
Definition failed : Response TapContext.Json :=
  mkResponse 500 None (TapContext.Error "Context lookup failed").

(** The code after the two blocks: it is inside the outermost [try]
    only. *)
Definition lastResort (env : Env.t) (rateLimit : RateLimit.RateLimitResult)
           (v : option VisionObject) (latitude longitude : Coordinate)
           (tapX tapY : R) : Response TapContext.Json :=
  let built :=
    match v with
    | Some visionResult =>
        visionOnly visionResult (orText (details visionResult) "")
    | None => mockResponse env latitude longitude tapX tapY
    end in
  match built with
  | Some r => TapContext.respond rateLimit r
  | None => failed
  end.

(** ** The handler *)

Definition resolve (env : Env.t) (nowGeo : Z) (hdrs : RateLimit.Headers)
           (rateLimit : RateLimit.RateLimitResult)
           (latitude longitude : Coordinate) (tx ty : R)
           (visionResult : option VisionObject) (store : RateLimit.Store)
  : RateLimit.Store * Response TapContext.Json * list Event :=
  let dir := TapContext.direction tx ty in
  if located latitude longitude then
    match TapContext.tryCatch
            (placeBlock env rateLimit latitude longitude dir visionResult) with
    | (Some response, evs2) => (store, response, evs2)
    | (None, evs2) =>
        match geoBlock env nowGeo hdrs rateLimit latitude longitude dir
                       visionResult store with
        | (store2, Some response, evs3) => (store2, response, (evs2 ++ evs3)%list)
        | (store2, None, evs3) =>
            (store2,
             lastResort env rateLimit visionResult latitude longitude tx ty,
             (evs2 ++ evs3)%list)
        end
    end
  else
    (store, lastResort env rateLimit visionResult latitude longitude tx ty, []).

(** The size test applies to an image that is a string. *)
Definition tooLarge (image : Image) : bool :=
  match image with
  | ImageText s => TapContext.tooLarge s
  | _ => false
  end.

Definition POST (env : Env.t) (now nowGeo : Z) (hdrs : RateLimit.Headers)
           (body : option Body) (store : RateLimit.Store)
  : RateLimit.Store * Response TapContext.Json * list Event :=
  let clientId := RateLimit.getClientIdentifier hdrs in
  let '(store1, rateLimit) := RateLimit.checkRateLimit now clientId store in
  if negb (RateLimit.allowed rateLimit) then
    (store1, mkResponse 429 (Some (limitedHeaders rateLimit))
               (TapContext.Error "Rate limit exceeded"), [])
  else
    match body with
    | None => (store1, failed, [ReadBody])
    | Some b =>
        match truthyImage (image b), tapX b, tapY b with
        | true, Some tx, Some ty =>
            if tooLarge (image b) then
              (store1, mkResponse 400 None (TapContext.Error "Frame too large"),
               [ReadBody])
            else
              let '(visionResult, evs1) := visionStep env (image b) in
              let '(store2, response, evs) :=
                resolve env nowGeo hdrs rateLimit (latitude b) (longitude b)
                        tx ty visionResult store1 in
              (store2, response, (ReadBody :: evs1 ++ evs)%list)
        | _, _, _ =>
            (store1,
             mkResponse 400 None
               (TapContext.Error "Image and tap coordinates required"),
             [ReadBody])
        end
    end.

End Handler.

End TapContextAny.

(* ================================================================== *)
(** * app/api/nano-banana-proxy/route.ts *)
(* ================================================================== *)

Module NanoBanana.

Import Http.
Local Open Scope R_scope.

(** The [frame] field of the body is untyped: the handler reads its
    truthiness and, when it is a string, its length. *)
Inductive Frame : Type :=
| Text (s : string)
| Other (isTruthy : bool).

(** The request body; [roi] is read and never used. *)
Record Body := mkBody { frame : option Frame }.

Record Detection := mkDetection {
  fingertip_x : R;
  fingertip_y : R;
  direction : Geo.Direction;
  confidence : R
}.

Inductive Json : Type :=
| Error (message : string)
| Detected (d : Detection).

(** [!frame] is false *)
Definition present (f : option Frame) : bool :=
  match f with
  | Some (Text s) => negb (String.eqb s "")
  | Some (Other isTruthy) => isTruthy
  | None => false
  end.

Definition maxSizeBytes : R := 5 * 1024 * 1024.

(** The size test, made only when [frame] is a string. *)
Definition tooLarge (f : option Frame) : bool :=
  match f with
  | Some (Text s) =>
      if Rlt_dec maxSizeBytes (INR (String.length s) * 3 / 4) then true else false
  | _ => false
  end.

Definition mockResponse : Detection :=
  mkDetection 0.5 0.4 (Geo.mkDirection 0 0 1) 0.85.

Definition POST (now : Z) (hdrs : RateLimit.Headers)
           (body : option Body) (store : RateLimit.Store)
  : RateLimit.Store * Response Json * list Event :=
  let clientId := RateLimit.getClientIdentifier hdrs in
  let '(store1, rateLimit) := RateLimit.checkRateLimit now clientId store in
  if negb (RateLimit.allowed rateLimit) then
    (store1, mkResponse 429 (Some (limitedHeaders rateLimit))
               (Error "Rate limit exceeded"), [])
  else
    match body with
    | None => (store1, mkResponse 500 None (Error "Inference failed"), [ReadBody])
    | Some b =>
        if negb (present (frame b)) then
          (store1, mkResponse 400 None (Error "Frame data required"), [ReadBody])
        else if tooLarge (frame b) then
          (store1, mkResponse 400 None (Error "Frame too large"), [ReadBody])
        else
          (store1,
           mkResponse 200 (Some (rateHeaders rateLimit)) (Detected mockResponse),
           [ReadBody])
    end.

End NanoBanana.

(* ================================================================== *)
(** * lib/frameUtils.ts: the crop rectangle of [extractROI] *)
(* ================================================================== *)

Module FrameUtils.

Local Open Scope Q_scope.

(** The source rectangle that [extractROI] passes to [drawImage]; the
    canvas is given the same width and height.  Drawing and JPEG
    encoding are the browser's and are not modelled. *)
Record Rect := mkRect { cropX : Q; cropY : Q; roiWidth : Q; roiHeight : Q }.

(** [frameWidth] and [frameHeight] are [video.videoWidth] and
    [video.videoHeight]. *)
Definition extractROI_rect (frameWidth frameHeight tapX tapY roiSize : Q) : Rect :=
  let roiWidth := frameWidth * roiSize in
  let roiHeight := frameHeight * roiSize in
  let cropX :=
    Qmax 0 (Qmin (frameWidth - roiWidth) (tapX * frameWidth - roiWidth / 2)) in
  let cropY :=
    Qmax 0 (Qmin (frameHeight - roiHeight) (tapY * frameHeight - roiHeight / 2)) in
  mkRect cropX cropY roiWidth roiHeight.

(** The default of the [roiSize] parameter, and the value the page
    passes. *)
Definition defaultRoiSize : Q := 3 # 10.
Definition pageRoiSize : Q := 4 # 10.

End FrameUtils.

(* ================================================================== *)
(** * app/page.tsx: where the context card is placed *)
(* ================================================================== *)

Module Page.

Local Open Scope Q_scope.

(** The [left] and [top] of the card's style, in pixels. *)
Record Style := mkStyle { left : Q; top : Q }.

(** The position computed by [ContextCardDisplay] for a card at the
    normalised position [(card_x, card_y)]. *)
Definition ContextCardDisplay (card_x card_y innerWidth innerHeight : Q) : Style :=
  let x := card_x * innerWidth in
  let y := card_y * innerHeight in
  let cardY := Qmax 20 (y - 100) in
  let cardX := Qmin (Qmax 20 (x - 150)) (innerWidth - 320) in
  mkStyle cardX cardY.

End Page.

(* ================================================================== *)
(** * Vocabulary of the properties

    The definitions below are not part of the program: they are the
    words in which its properties are stated, and the concrete requests
    on which they are exercised. *)
(* ================================================================== *)

Section SmootherVocabulary.

Local Open Scope Q_scope.

(** Membership of the unit interval. *)
Definition inUnit (q : Q) : Prop := 0 <= q /\ q <= 1.

End SmootherVocabulary.

(** What [Array.prototype.sort] promises for the comparator
    [(a, b) => key(b) - key(a)], stated without reference to any sorting
    algorithm: the result is in descending order of [key], and for every
    key value the elements with that key are the same, in the same order,
    as in the input (a stable rearrangement). *)
Section RankingVocabulary.

Context {A : Type} (key : A -> R).

Definition hasKey (s : R) (a : A) : bool :=
  if Req_dec_T (key a) s then true else false.

Definition Descending (l : list A) : Prop :=
  StronglySorted (fun a b => (key b <= key a)%R) l.

Definition StableDescending (input output : list A) : Prop :=
  Descending output /\
  forall s : R, List.filter (hasKey s) output = List.filter (hasKey s) input.

(** The first element of [l] among those of greatest key. *)
Fixpoint leftmostMax (l : list A) : option A :=
  match l with
  | [] => None
  | a :: l' =>
      match leftmostMax l' with
      | None => Some a
      | Some b => if Rlt_dec (key a) (key b) then Some b else Some a
      end
  end.

End RankingVocabulary.

(** The scoring rules as the specification words them. *)
Module Spec.

Local Open Scope R_scope.

(** Hint tokens that occur among the candidate's tokens, over the larger
    of the two token counts; names compared in lower case. *)
Definition tokenOverlapRatio (hint candidate : string) : R :=
  let hintTokens := Js.splitSpaces (Js.toLowerCase hint) in
  let candidateTokens := Js.splitSpaces (Js.toLowerCase candidate) in
  INR (List.length (List.filter (fun w => existsb (String.eqb w) candidateTokens)
                                hintTokens)) /
  INR (Nat.max (List.length hintTokens) (List.length candidateTokens)).

Definition nameScore (hint candidate : string) : R :=
  if String.eqb (Js.toLowerCase hint) (Js.toLowerCase candidate) then 1
  else if Js.includes (Js.toLowerCase candidate) (Js.toLowerCase hint) ||
          Js.includes (Js.toLowerCase hint) (Js.toLowerCase candidate) then 0.7
  else tokenOverlapRatio hint candidate.

Definition namedScore (nameScore distanceMeters : R) : R :=
  0.7 * nameScore + 0.3 * (1 - Rmin (distanceMeters / 2000) 1).

(** The haversine of an angle, and the Haversine formula for the
    great-circle distance in metres between two points given in
    degrees, on a sphere of radius 6371 km. *)
Definition hav (theta : R) : R := sin (theta / 2) * sin (theta / 2).

Definition haversine (lat1 lng1 lat2 lng2 : R) : R :=
  let phi1 := lat1 * PI / 180 in
  let phi2 := lat2 * PI / 180 in
  let dphi := (lat2 - lat1) * PI / 180 in
  let dlambda := (lng2 - lng1) * PI / 180 in
  2 * 6371000 * asin (sqrt (hav dphi + cos phi1 * cos phi2 * hav dlambda)).

Definition distanceScore (distance : R) : R := 1 / (1 + distance / 50).

Definition directionScore (bearingDiff : R) : R :=
  if Rlt_dec bearingDiff 45 then 1 - bearingDiff / 45 else 0.

(** The hint's type and a type tag, one containing the other. *)
Definition typesContain (hintType tag : string) : Prop :=
  Js.includes (Js.toLowerCase tag) (Js.toLowerCase hintType) = true \/
  Js.includes (Js.toLowerCase hintType) (Js.toLowerCase tag) = true.

(** The candidate earns the type bonus. *)
Definition typeBonusDue (hintType : option string) (tags : option (list string))
  : Prop :=
  exists ty ts tag,
    hintType = Some ty /\ ty <> EmptyString /\
    tags = Some ts /\ In tag ts /\ typesContain ty tag.

Definition typeBonus (due : bool) : R := if due then 0.3 else 0.

Definition directionalScore (distance bearingDiff bonus : R) : R :=
  distanceScore distance + 0.5 * directionScore bearingDiff + bonus.

(** A candidate the handlers score: both coordinates present and non-zero. *)
Definition usable (place : Place.t) (placeLat placeLng : R) : Prop :=
  Place.lat place = Some placeLat /\ Place.lng place = Some placeLng /\
  placeLat <> 0 /\ placeLng <> 0.

(** Degrees to radians. *)
Definition rad (degrees : R) : R := degrees * PI / 180.

(** The point of the unit sphere at a latitude and a longitude given in
    degrees, and the unit vectors that point north and east in the
    horizontal plane at that point. *)
Definition onSphere (lat lng : R) : R * R * R :=
  (cos (rad lat) * cos (rad lng), cos (rad lat) * sin (rad lng), sin (rad lat)).

Definition northAt (lat lng : R) : R * R * R :=
  (- sin (rad lat) * cos (rad lng), - sin (rad lat) * sin (rad lng), cos (rad lat)).

Definition eastAt (lat lng : R) : R * R * R :=
  (- sin (rad lng), cos (rad lng), 0).

Definition dot (a b : R * R * R) : R :=
  let '(ax, ay, az) := a in
  let '(bx, by_, bz) := b in
  ax * bx + ay * by_ + az * bz.

(** [theta], in degrees, is the compass bearing of the horizontal
    direction whose components towards north and towards east are
    [north] and [east]: the angle from north, clockwise, in
    [(-180, 180]]; 0 for the null direction. *)
Definition compassBearing (north east theta : R) : Prop :=
  -180 < theta <= 180 /\
  north = sqrt (north * north + east * east) * cos (rad theta) /\
  east = sqrt (north * north + east * east) * sin (rad theta) /\
  (north = 0 -> east = 0 -> theta = 0).

(** [theta] is the initial bearing from the first point to the second:
    the compass bearing, in the horizontal plane at the first point, of
    the direction in which the second point lies. *)
Definition initialBearing (lat1 lng1 lat2 lng2 theta : R) : Prop :=
  compassBearing (dot (onSphere lat2 lng2) (northAt lat1 lng1))
                 (dot (onSphere lat2 lng2) (eastAt lat1 lng1))
                 theta.

End Spec.

Section RateLimitVocabulary.

Import RateLimit.
Local Open Scope Z_scope.

(** What the [j]-th call (from 0) of one client inside the window opened
    at [t0] is answered. *)
Definition windowResult (t0 j : Z) : RateLimitResult :=
  if j <? RATE_LIMIT_MAX_REQUESTS
  then mkResult true (RATE_LIMIT_MAX_REQUESTS - 1 - j) (t0 + RATE_LIMIT_WINDOW_MS)
  else mkResult false 0 (t0 + RATE_LIMIT_WINDOW_MS).

Fixpoint windowResults (t0 j : Z) (n : nat) : list RateLimitResult :=
  match n with
  | O => []
  | S n' => windowResult t0 j :: windowResults t0 (j + 1) n'
  end.

(** The answers given to [id], out of those of a run of calls. *)
Fixpoint resultsFor (id : string) (calls : list (Z * string))
         (rs : list RateLimitResult) : list RateLimitResult :=
  match calls, rs with
  | (_, id') :: calls', r :: rs' =>
      if String.eqb id' id then r :: resultsFor id calls' rs'
      else resultsFor id calls' rs'
  | _, _ => []
  end.

Fixpoint callsBy (id : string) (calls : list (Z * string)) : nat :=
  match calls with
  | [] => O
  | (_, id') :: calls' =>
      if String.eqb id' id then S (callsBy id calls') else callsBy id calls'
  end.

End RateLimitVocabulary.

Section HandlerVocabulary.

Import TapContext Http.
Local Open Scope string_scope.

Variable showNumber : R -> string.
Variable toFixed : nat -> R -> string.

(** A body that passes the handler's validation: a non-empty image of at
    most 5 MB and numeric tap coordinates. *)
Definition validBody (b : Body) (img : string) (tx ty : R) : Prop :=
  image b = Some img /\ img <> "" /\ tooLarge img = false /\
  tapX b = Some tx /\ tapY b = Some ty.

(** The request is counted and let through by the rate limiter. *)
Definition passesLimit (now : Z) (hdrs : RateLimit.Headers) (store store1 : RateLimit.Store)
           (rateLimit : RateLimit.RateLimitResult) : Prop :=
  RateLimit.checkRateLimit now (RateLimit.getClientIdentifier hdrs) store
  = (store1, rateLimit) /\
  RateLimit.allowed rateLimit = true.

(** The ways the vision collaborator can fail. *)
Inductive VisionFailure (env : Env.t) (img : string) : Prop :=
| NoKey : Env.requireKey env = None -> VisionFailure env img
| CallThrows : Env.gemini env (base64Of img) = Net.Throws -> VisionFailure env img
| CallNotOk (st : nat) :
    Env.gemini env (base64Of img) = Net.NotOk st -> VisionFailure env img
| NoText (data : Net.GeminiData) :
    Env.gemini env (base64Of img) = Net.Ok data ->
    Net.text data = None \/ Net.text data = Some "" ->
    VisionFailure env img
| NoJsonObject (data : Net.GeminiData) (t : string) :
    Env.gemini env (base64Of img) = Net.Ok data ->
    Net.text data = Some t ->
    matchBraces (stripFences (Js.trim t)) = None ->
    VisionFailure env img.




(** The text of the [No Information Found] answer. *)
Definition nothingFound (la lo : R) : ResolutionResult :=
  mkResolution "No Information Found"
    ("Location: " ++ toFixed 4 la ++ ", " ++ toFixed 4 lo ++
     ". Try tapping on a visible building or landmark.")
    None None None 0.3%R None.

Definition keyMissing : ResolutionResult :=
  mkResolution "API Key Not Configured"
    "Google Places API key is required. Add GOOGLE_API_KEY to your .env file."
    None None None 0.3%R None.

Definition locationRequired : ResolutionResult :=
  mkResolution "Location Required"
    "Please enable location permissions to get real information about places you tap on."
    None None None 0.3%R None.

End HandlerVocabulary.

Section ExampleData.

Import TapContext Http.
Local Open Scope R_scope.
Local Open Scope string_scope.

(** A concrete request: a device in San Francisco, and a reply with one
    candidate called after the hint. *)
Definition silentEnv : Env.t :=
  Env.mk None (fun _ => Net.Throws) (fun _ => Net.Throws)
         (fun _ _ _ => Net.Throws) (fun _ => Net.Throws).

Definition ferryHint : VisionResult.t :=
  VisionResult.mk (Some "Ferry Building"%string) None (Some "landmark"%string)
                  None None None None.

Definition ferryPlace : Place.t :=
  Place.mk "Ferry Building"%string (Some 37.7955) (Some (-122.3937))
           (Some "ferry-id"%string) (Some ["tourist_attraction"%string]) None None None.

(** Number formatting on the two coordinates of the examples. *)
Definition showExample (x : R) : string :=
  if Req_dec_T x 37.7749 then "37.7749"
  else if Req_dec_T x (-122.4194) then "-122.4194"
  else "?".

Definition fixedExample (digits : nat) (x : R) : string := showExample x.

Definition noParse (jsonText : string) : option VisionResult.t := None.

Definition noGroup (p : Pattern) (text : string) : option string := None.

Definition noResults : Net.SearchData := Net.mkSearchData "ZERO_RESULTS" (Some []).

(** A configured process whose vision service is down and whose place
    searches find nothing. *)
Definition emptyWorld : Env.t :=
  Env.mk (Some "key")
         (fun _ => Net.NotOk 503)
         (fun _ => Net.Ok noResults)
         (fun _ _ _ => Net.Ok noResults)
         (fun _ => Net.NotOk 404).

(** The same services in a process without [GOOGLE_API_KEY]. *)
Definition keylessWorld : Env.t :=
  Env.mk None
         (fun _ => Net.NotOk 503)
         (fun _ => Net.Ok noResults)
         (fun _ _ _ => Net.Ok noResults)
         (fun _ => Net.NotOk 404).

Definition herePlace : Place.t :=
  Place.mk "Ferry Building" (Some 37.7749%R) (Some (-122.4194)%R)
           (Some "here-id") (Some ["tourist_attraction"]) None None None.

(** A second entry at the same position and under the same name. *)
Definition hereTwin : Place.t :=
  Place.mk "Ferry Building" (Some 37.7749%R) (Some (-122.4194)%R)
           (Some "twin-id") (Some ["tourist_attraction"]) None None None.



Definition noHeaders : RateLimit.Headers := RateLimit.mkHeaders None None.

(** A request from San Francisco, tapped at [(tx, ty)]. *)
Definition tapAt (tx ty : R) : Body :=
  mkBody (Some "aGVsbG8=") (Some tx) (Some ty) (Some 37.7749%R) (Some (-122.4194)%R).

(** The same request with latitude 0. *)
Definition tapAtEquator (tx ty : R) : Body :=
  mkBody (Some "aGVsbG8=") (Some tx) (Some ty) (Some 0%R) (Some (-122.4194)%R).

Definition firstCheck : RateLimit.Store * RateLimit.RateLimitResult :=
  RateLimit.checkRateLimit 1000 (RateLimit.getClientIdentifier noHeaders) ∅.

End ExampleData.

(** Words for the further properties of the limiter, the smoother and
    the handlers. *)
Section FurtherVocabulary.

Import RateLimit.
Local Open Scope Z_scope.

(** Every counter of the store is between 1 and the budget. *)
Definition wellFormed (store : Store) : Prop :=
  forall id e, store !! id = Some e -> 1 <= count e <= RATE_LIMIT_MAX_REQUESTS.

(** The call opens a window: the client has no entry, or an expired one. *)
Definition opensWindow (now : Z) (id : string) (store : Store) : bool :=
  match store !! id with
  | None => true
  | Some e => expired now e
  end.

(** The clamp applied by [smooth] to its argument. *)
Definition clamp (confidence : Q) : Q :=
  Qmax ConfidenceSmoothing.minConfidence
       (Qmin ConfidenceSmoothing.maxConfidence confidence).

(** The last [n] elements of a list. *)
Definition lastn {A : Type} (n : nat) (l : list A) : list A :=
  skipn (List.length l - n) l.

End FurtherVocabulary.

(** The kinds of call a handler makes, for counting them. *)
Section CallVocabulary.

Import Http.

Inductive Kind : Type :=
| BodyRead | VisionCall | TextSearch | NearbySearch | DetailsCall | GeoContextCall.

Definition kindOf (e : Event) : Kind :=
  match e with
  | ReadBody => BodyRead
  | CallGemini _ => VisionCall
  | CallTextSearch _ => TextSearch
  | CallNearbySearch _ => NearbySearch
  | CallPlaceDetails _ => DetailsCall
  | CallGeoContext => GeoContextCall
  end.

Definition sameKind (a b : Kind) : bool :=
  match a, b with
  | BodyRead, BodyRead | VisionCall, VisionCall | TextSearch, TextSearch
  | NearbySearch, NearbySearch | DetailsCall, DetailsCall
  | GeoContextCall, GeoContextCall => true
  | _, _ => false
  end.

(** How many calls of kind [k] the list holds. *)
Definition countKind (k : Kind) (evs : list Event) : nat :=
  List.length (List.filter (fun e => sameKind (kindOf e) k) evs).

(** One call of kind [k0], as a count per kind. *)
Definition callsOf (k0 k : Kind) : nat := if sameKind k0 k then 1%nat else 0%nat.

(** The most calls of each kind that one tap may cause: the body of the
    tap and of the nested geo-context request, one vision call, three
    text searches, the nearby searches of radius 150 and 500, one details
    request and one nested geo-context request. *)
Definition perTap (k : Kind) : nat :=
  match k with
  | BodyRead => 2
  | VisionCall => 1
  | TextSearch => 3
  | NearbySearch => 2
  | DetailsCall => 1
  | GeoContextCall => 1
  end.

End CallVocabulary.

(** Further concrete worlds and stores for the examples. *)
Section FurtherExampleData.

Import TapContext Http.
Local Open Scope string_scope.


(** A configured process whose vision service answers with an object and
    whose place services are down. *)
Definition hintWorld : Env.t :=
  Env.mk (Some "key")
         (fun _ => Net.Ok (Net.mkGeminiData (Some "{}")))
         (fun _ => Net.Throws)
         (fun _ _ _ => Net.Throws)
         (fun _ => Net.Throws).

(** A configured process whose vision service is down and in which only
    the wider nearby search, of radius 500, answers, with one place. *)
Definition nearbyWorld : Env.t :=
  Env.mk (Some "key")
         (fun _ => Net.NotOk 503)
         (fun _ => Net.Throws)
         (fun _ _ radius =>
            if (radius =? 500)%nat
            then Net.Ok (Net.mkSearchData "OK" (Some [herePlace]))
            else Net.Throws)
         (fun _ => Net.Throws).

(** The same request as [tapAt] without a position. *)
Definition tapNowhere (tx ty : R) : Body :=
  mkBody (Some "aGVsbG8=") (Some tx) (Some ty) None None.

(** A store in which the client without headers has used 59 requests of
    the window that ends at 61000, and the check that uses the last. *)
Definition busyStore : RateLimit.Store :=
  <[ RateLimit.getClientIdentifier noHeaders := RateLimit.mkEntry 59 61000 ]> ∅.

Definition lastCheck : RateLimit.Store * RateLimit.RateLimitResult :=
  RateLimit.checkRateLimit 2000 (RateLimit.getClientIdentifier noHeaders) busyStore.

End FurtherExampleData.

(** Words and sample inputs for the properties of the smoother and of
    the two handlers outside the declared types. *)
Section SmootherAnyVocabulary.
Import ConfidenceSmoothingAny.
Local Open Scope Q_scope.

(** A number of the unit interval: finite, and between 0 and 1. *)
Definition inUnitInterval (n : Number) : Prop :=
  match n with
  | Finite q => 0 <= q /\ q <= 1
  | _ => False
  end.

(** The same number: the same special value, or equal finite values. *)
Definition sameNumber (a b : Number) : Prop :=
  match a, b with
  | NaN, NaN | NegInfinity, NegInfinity | Infinity, Infinity => True
  | Finite p, Finite q => p == q
  | _, _ => False
  end.

(** The smoother over finite values, as one over all numbers. *)
Definition finiteSmoother (s : ConfidenceSmoothing.ConfidenceSmoother)
  : ConfidenceSmoother :=
  mkSmoother (List.map Finite (ConfidenceSmoothing.history s)).

End SmootherAnyVocabulary.

(** The inputs of [TapContext] among those of [TapContextAny]. *)
Section DeclaredInputs.

Import TapContextAny.

Definition declaredField (o : option string) : Field :=
  match o with
  | Some s => Text s
  | None => Absent
  end.

Definition declaredVision (v : VisionResult.t) : VisionObject :=
  mkVision (declaredField (VisionResult.name v))
           (declaredField (VisionResult.description v))
           (declaredField (VisionResult.type v))
           (declaredField (VisionResult.details v))
           (declaredField (VisionResult.year v))
           (declaredField (VisionResult.architecturalStyle v))
           (declaredField (VisionResult.significance v)).

Definition declaredCoordinate (o : option R) : Coordinate :=
  match o with
  | Some r => Number r
  | None => NoCoordinate
  end.

Definition declaredImage (o : option string) : Image :=
  match o with
  | Some s => ImageText s
  | None => NoImage
  end.

Definition declaredBody (b : TapContext.Body) : Body :=
  mkBody (declaredImage (TapContext.image b))
         (TapContext.tapX b) (TapContext.tapY b)
         (declaredCoordinate (TapContext.latitude b))
         (declaredCoordinate (TapContext.longitude b)).

(** A parser whose objects have the declared shape. *)
Definition declaredParse (JSON_parse : string -> option VisionResult.t)
           (jsonText : string) : option VisionObject :=
  option_map declaredVision (JSON_parse jsonText).

End DeclaredInputs.

(** Words for the properties of the handler at any input. *)
Section AnyVocabulary.

Import TapContextAny.

(** A body that passes the validation: a truthy image, not too large
    when it is a string, and numeric tap coordinates. *)
Definition validAnyBody (b : Body) (tx ty : R) : Prop :=
  truthyImage (image b) = true /\ tooLarge (image b) = false /\
  tapX b = Some tx /\ tapY b = Some ty.

(** The coordinate is a number, or it is falsy. *)
Definition numberOrFalsy (c : Coordinate) : Prop :=
  truthyCoordinate c = true -> exists r, c = Number r.

(** The field is a string, or it is falsy. *)
Definition stringOrFalsy (f : Field) : Prop :=
  forall s, f <> Other true s.

(** The ways the vision step ends without having read a reply text in
    which an object could be looked for. *)
Inductive VisionFailureAny (env : Env.t) (img : Image) : Prop :=
| AnyNoKey : Env.requireKey env = None -> VisionFailureAny env img
| AnyNothingToSend : base64Of img = None -> VisionFailureAny env img
| AnyCallThrows (sent : string) :
    base64Of img = Some sent ->
    Env.gemini env sent = Net.Throws -> VisionFailureAny env img
| AnyCallNotOk (sent : string) (st : nat) :
    base64Of img = Some sent ->
    Env.gemini env sent = Net.NotOk st -> VisionFailureAny env img
| AnyNoText (sent : string) (data : Net.GeminiData) :
    base64Of img = Some sent ->
    Env.gemini env sent = Net.Ok data ->
    Net.text data = None \/ Net.text data = Some ""%string ->
    VisionFailureAny env img
| AnyNoJsonObject (sent : string) (data : Net.GeminiData) (t : string) :
    base64Of img = Some sent ->
    Env.gemini env sent = Net.Ok data ->
    Net.text data = Some t ->
    TapContext.matchBraces (TapContext.stripFences (Js.trim t)) = None ->
    VisionFailureAny env img.

(** Best-effort extraction of one field from the raw text: the group
    the quoted pattern captures, else the group the bare pattern
    captures, trimmed and without its enclosing quotes; nothing when
    neither pattern matches. *)
Inductive Extracted (regexGroup : TapContext.Pattern -> string -> option string)
          (quoted bare : TapContext.Pattern) (text : string) : Field -> Prop :=
| FromQuoted (g : string) :
    regexGroup quoted text = Some g ->
    Extracted regexGroup quoted bare text (Text (TapContext.stripQuotes (Js.trim g)))
| FromBare (g : string) :
    regexGroup quoted text = None ->
    regexGroup bare text = Some g ->
    Extracted regexGroup quoted bare text (Text (TapContext.stripQuotes (Js.trim g)))
| NothingExtracted :
    regexGroup quoted text = None ->
    regexGroup bare text = None ->
    Extracted regexGroup quoted bare text Absent.

End AnyVocabulary.

(** The exits of the handler at any input. *)
Section AnyExits.

Import TapContextAny Http.
Local Open Scope string_scope.

Variable showNumber : R -> string.
Variable toFixed : nat -> R -> string.

(** How an answer was built, or why none could be. *)
Definition exitOf (env : Env.t) (nowGeo : Z) (hdrs : RateLimit.Headers)
           (rateLimit : RateLimit.RateLimitResult)
           (latitude longitude : Coordinate) (tx ty : R)
           (v : option VisionObject) (store : RateLimit.Store)
           (response : Response TapContext.Json) : Prop :=
  (exists r,
      response = TapContext.respond rateLimit r /\
      ((exists d, enriched showNumber v d = Some r) \/
       (exists vr detailsText, v = Some vr /\ visionOnly vr detailsText = Some r) \/
       (exists g ps,
           located latitude longitude = true /\
           json (snd (fst (GeoContext.POST env nowGeo hdrs
                             (Some (GeoContext.mkBody (asNumber latitude)
                                      (asNumber longitude)
                                      (Some (TapContext.direction tx ty))))
                             store)))
           = GeoContext.Places (g :: ps) /\
           placeCard v g = Some r) \/
       (v = None /\ mockResponse toFixed env latitude longitude tx ty = Some r))) \/
  (response = failed /\
   ((exists vr s, v = Some vr /\ type vr = Other true s) \/
    (v = None /\ located latitude longitude = true /\
     Js.truthy (Env.GOOGLE_API_KEY env) = true /\
     (asNumber latitude = None \/ asNumber longitude = None)))).

End AnyExits.

(** Concrete requests and replies outside the declared shape. *)
Section AnyExampleData.

Import TapContextAny.
Local Open Scope string_scope.

Definition sampleImage : Image := ImageText "aGVsbG8=".

(** The request of [tapAt], as sent by a client that spells its
    latitude as a text. *)
Definition tapWithTextLatitude (tx ty : R) : Body :=
  mkBody sampleImage (Some tx) (Some ty)
         (NotNumber true "37.7749" (Some 37.7749%R)) (Number (-122.4194)%R).

(** A parser that rejects every text. *)
Definition rejectAll (jsonText : string) : option VisionObject := None.

(** The object [{name: 'Ferry Building', type: 7}]. *)
Definition numberTyped : VisionObject :=
  mkVision (Text "Ferry Building") Absent (Other true "7") Absent Absent Absent Absent.

Definition parseNumberTyped (jsonText : string) : option VisionObject :=
  Some numberTyped.

(** The ferry hint as a parsed object. *)
Definition parseFerryObject (jsonText : string) : option VisionObject :=
  Some (declaredVision ferryHint).

(** Two reply texts that are not JSON, with and without braces, and
    what the six patterns capture in them: the bare name pattern
    captures the name, the others do not match. *)
Definition unquotedObject : string := "{name: Ferry Building}".
Definition unquotedLine : string := "name: Ferry Building".

Definition bareName (p : TapContext.Pattern) (text : string) : option string :=
  match p with
  | TapContext.NameBare =>
      if String.eqb text unquotedObject || String.eqb text unquotedLine
      then Some "Ferry Building" else None
  | _ => None
  end.

(** A configured process whose vision service answers with [text] and
    whose place services are down. *)
Definition replyWorld (text : string) : Env.t :=
  Env.mk (Some "key")
         (fun _ => Net.Ok (Net.mkGeminiData (Some text)))
         (fun _ => Net.Throws)
         (fun _ _ _ => Net.Throws)
         (fun _ => Net.Throws).

(** No reply to a nearby search at a position that is not two numbers. *)
Definition noSearchAt (latitude longitude : string) (radius : nat)
  : Net.Fetch Net.SearchData := Net.Throws.

End AnyExampleData.

(** The inputs of [GeoContext] among those of [GeoContextAny]. *)
Section DeclaredDirections.

Import GeoContextAny.

Definition declaredDirection (o : option Geo.Direction) : DirectionField :=
  match o with
  | Some d => AnyDirection (Some (Geo.dx d)) (Some (Geo.dz d))
  | None => NoDirection
  end.

Definition declaredGeoBody (b : GeoContext.Body) : Body :=
  mkBody (GeoContext.body_latitude b) (GeoContext.body_longitude b)
         (declaredDirection (GeoContext.body_direction b)).

Definition declaredGeoJson (j : GeoContext.Json) : Json :=
  match j with
  | GeoContext.Error message => Error message
  | GeoContext.Places places => Places (List.map ranked places)
  end.

(** Every rating the nearby search reports lies between 0 and 5. *)
Definition ratingsInRange (env : Env.t) : Prop :=
  forall la lo radius data results place r,
    Env.nearbySearch env la lo radius = Net.Ok data ->
    Net.results data = Some results ->
    In place results -> Place.rating place = Some r -> (0 <= r <= 5)%R.

(** The body [{latitude, longitude, direction: {}}] at the position of
    the examples. *)
Definition emptyDirectionBody : Body :=
  mkBody (Some 37.7749%R) (Some (-122.4194)%R) (AnyDirection None None).

End DeclaredDirections.

(* ================================================================== *)
(** * The embedding evaluated on sample inputs *)
(* ================================================================== *)

Section EmbeddingChecks.

Import PrimFloat.
Local Open Scope string_scope.

Example splitSpaces_runs :
  Js.splitSpaces "ferry  building" = ["ferry"; "building"] /\
  Js.splitSpaces " a b " = [""; "a"; "b"; ""] /\
  Js.splitSpaces "" = [""].
Proof. repeat split; reflexivity. Qed.

Example includes_and_case :
  Js.includes "ferry building marketplace" "building" = true /\
  Js.includes "ferry" "ferry building" = false /\
  Js.toLowerCase "Ferry BUILDING" = "ferry building".
Proof. repeat split; reflexivity. Qed.

Example matchBraces_greedy :
  TapContext.matchBraces "Sure: {a: {b}} done" = Some "{a: {b}}" /\
  TapContext.matchBraces "no object here" = None /\
  TapContext.matchBraces "} {" = None.
Proof. repeat split; reflexivity. Qed.

Example stripFences_fenced :
  TapContext.stripFences
    ("```json" ++ String TapContext.newline "{}" ++
     String TapContext.newline "```")
  = "{}".
Proof. reflexivity. Qed.

Example formatType_runs :
  TapContext.formatType "tourist_attraction" = "Tourist Attraction".
Proof. reflexivity. Qed.

Example getClientIdentifier_runs :
  RateLimit.getClientIdentifier
    (RateLimit.mkHeaders (Some "203.0.113.7, 10.0.0.1") None) = "203.0.113.7" /\
  RateLimit.getClientIdentifier (RateLimit.mkHeaders (Some "") (Some "10.0.0.2"))
  = "10.0.0.2" /\
  RateLimit.getClientIdentifier (RateLimit.mkHeaders None None) = "unknown".
Proof. repeat split; reflexivity. Qed.

Example base64Of_data_url :
  TapContext.base64Of "data:image/jpeg;base64,AAAA" = "AAAA" /\
  TapContext.base64Of "AAAA" = "AAAA".
Proof. split; reflexivity. Qed.

Example checkRateLimit_first_call :
  snd (RateLimit.checkRateLimit 1000 "203.0.113.7" ∅)
  = RateLimit.mkResult true 59 61000.
Proof. reflexivity. Qed.

Example smooth_runs :
  let run := snd (ConfidenceSmoothing.smoothAll ConfidenceSmoothing.new
                    [-(1 # 2); 3 # 2; 1 # 4])%Q in
  Forall2 Qeq run [0; 1 # 2; 3 # 8]%Q.
Proof. cbv zeta. vm_compute. repeat constructor. Qed.

Example normalize2D_runs :
  (VectorMath.normalize2D (VectorMath.mkVector2D 0 5)
   = VectorMath.mkVector2D 0 1)%float /\
  (VectorMath.distance2D (VectorMath.mkVector2D 0 0) (VectorMath.mkVector2D 3 4)
   = 5)%float.
Proof. split; vm_compute; reflexivity. Qed.

End EmbeddingChecks.

(* ================================================================== *)
(** * Properties: lib/vectorMath.ts *)
(* ================================================================== *)

Section VectorMathFacts.

Import PrimFloat VectorMath.
Import SpecFloat FloatOps FloatAxioms.
Local Open Scope float_scope.

(** A float that is [=== 0] is one of the two zeros. *)
Lemma eqb_zero_cases (x : float) :
  (x =? 0) = true -> x = 0 \/ x = -0.
Proof.
  intros H. rewrite eqb_spec in H.
  change (Prim2SF 0) with (S754_zero false) in H.
  rewrite <- (SF2Prim_Prim2SF x).
  destruct (Prim2SF x) as [s | s | | s m e].
  - destruct s; [right | left]; reflexivity.
  - destruct s; discriminate H.
  - discriminate H.
  - destruct s; discriminate H.
Qed.

Lemma zero2D_length (v : Vector2D) :
  isZero2D v = true -> sqrt (x2 v * x2 v + y2 v * y2 v) = 0.
Proof.
  unfold isZero2D. intros H. apply andb_prop in H. destruct H as [Hx Hy].
  destruct (eqb_zero_cases _ Hx) as [-> | ->];
    destruct (eqb_zero_cases _ Hy) as [-> | ->]; reflexivity.
Qed.

Lemma zero3D_magnitude (v : Vector3D) :
  isZero3D v = true -> magnitude3D v = 0.
Proof.
  unfold isZero3D, magnitude3D. intros H.
  apply andb_prop in H. destruct H as [H Hz].
  apply andb_prop in H. destruct H as [Hx Hy].
  destruct (eqb_zero_cases _ Hx) as [-> | ->];
    destruct (eqb_zero_cases _ Hy) as [-> | ->];
    destruct (eqb_zero_cases _ Hz) as [-> | ->]; reflexivity.
Qed.

Lemma angle_zero_magnitude (acos : float -> float) (a b : Vector3D) :
  (magnitude3D a =? 0) || (magnitude3D b =? 0) = true ->
  angleBetween3D acos a b = 0.
Proof. unfold angleBetween3D. cbv zeta. intros ->. reflexivity. Qed.

(** C9.  [normalize2D] of a zero vector is the zero vector, and
    [angleBetween3D] of two vectors one of which has magnitude zero (in
    particular, one of which is a zero vector) is [0]; neither result is
    NaN.  This holds whatever [Math.acos] computes, and whatever the
    other vector is (NaN and infinite components included). *)
Theorem zero_vectors_are_total (acos : float -> float) :
  (forall v : Vector2D,
      isZero2D v = true ->
      normalize2D v = mkVector2D 0 0 /\
      is_nan (x2 (normalize2D v)) = false /\
      is_nan (y2 (normalize2D v)) = false) /\
  (forall a b : Vector3D,
      (magnitude3D a =? 0) || (magnitude3D b =? 0) = true ->
      angleBetween3D acos a b = 0 /\
      is_nan (angleBetween3D acos a b) = false) /\
  (forall a b : Vector3D,
      isZero3D a = true \/ isZero3D b = true ->
      angleBetween3D acos a b = 0 /\
      is_nan (angleBetween3D acos a b) = false).
Proof.
  assert (Hmag : forall a b : Vector3D,
             (magnitude3D a =? 0) || (magnitude3D b =? 0) = true ->
             angleBetween3D acos a b = 0 /\
             is_nan (angleBetween3D acos a b) = false).
  { intros a b H. rewrite (angle_zero_magnitude acos a b H).
    split; reflexivity. }
  split; [| split].
  - intros v Hv.
    assert (E : normalize2D v = mkVector2D 0 0).
    { unfold normalize2D. cbv zeta. rewrite (zero2D_length v Hv). reflexivity. }
    rewrite E. repeat split; reflexivity.
  - exact Hmag.
  - intros a b [Ha | Hb]; apply Hmag.
    + rewrite (zero3D_magnitude a Ha). reflexivity.
    + rewrite (zero3D_magnitude b Hb). apply orb_true_r.
Qed.

(** The theorem at the zero vector with a negative zero, against a
    vector with a NaN component. *)
Lemma zero_vectors_are_total_witness :
  normalize2D (mkVector2D (-0) 0) = mkVector2D 0 0 /\
  angleBetween3D (fun x => x) (mkVector3D 0 (-0) 0) (mkVector3D nan 1 2) = 0.
Proof.
  destruct (zero_vectors_are_total (fun x => x)) as [H2 [_ H3]].
  split.
  - apply (H2 (mkVector2D (-0) 0)). reflexivity.
  - apply (H3 (mkVector3D 0 (-0) 0) (mkVector3D nan 1 2)). left. reflexivity.
Defined.

End VectorMathFacts.

(* ================================================================== *)
(** * Properties: lib/confidenceSmoothing.ts *)
(* ================================================================== *)

Section SmootherFacts.

Import ConfidenceSmoothing.
Local Open Scope Q_scope.

Lemma clamp_inUnit (v : Q) : inUnit (Qmax minConfidence (Qmin maxConfidence v)).
Proof.
  unfold inUnit, minConfidence, maxConfidence. split.
  - apply Q.le_max_l.
  - apply Q.max_lub; [discriminate |]. apply Q.le_min_l.
Qed.

Lemma clamp_id (v : Q) :
  inUnit v -> Qmax minConfidence (Qmin maxConfidence v) == v.
Proof.
  unfold inUnit, minConfidence, maxConfidence. intros [H0 H1].
  rewrite (Q.min_r 1 v H1). apply Q.max_r. exact H0.
Qed.

Lemma step_inUnit (ema hi : Q) :
  inUnit ema -> inUnit hi -> inUnit (alpha * hi + (1 - alpha) * ema).
Proof. unfold inUnit, alpha. intros [? ?] [? ?]. split; lra. Qed.

Lemma fold_inUnit (rest : list Q) (h0 : Q) :
  inUnit h0 -> Forall inUnit rest ->
  inUnit (fold_left (fun ema hi => alpha * hi + (1 - alpha) * ema) rest h0).
Proof.
  revert h0. induction rest as [| hi rest IH]; intros h0 H0 Hrest; simpl.
  - exact H0.
  - inversion Hrest; subst. apply IH; [apply step_inUnit |]; assumption.
Qed.

Lemma ema_inUnit (h : list Q) :
  Forall inUnit h -> inUnit (exponentialMovingAverage h).
Proof.
  intros H. destruct h as [| h0 [| h1 rest]].
  - simpl. split; discriminate.
  - simpl. inversion H; assumption.
  - unfold exponentialMovingAverage. inversion H; subst.
    apply fold_inUnit; assumption.
Qed.

(** The history stays inside the unit interval, and so does the value
    returned. *)
Lemma smooth_inUnit (s : ConfidenceSmoother) (v : Q) :
  Forall inUnit (history s) ->
  Forall inUnit (history (fst (smooth s v))) /\ inUnit (snd (smooth s v)).
Proof.
  intros Hs. unfold smooth. cbv zeta. simpl fst. simpl snd.
  set (pushed := (history s ++ [Qmax minConfidence (Qmin maxConfidence v)])%list).
  assert (Hp : Forall inUnit pushed).
  { apply Forall_app. split; [exact Hs |].
    constructor; [apply clamp_inUnit | constructor]. }
  assert (Hh : Forall inUnit
                 (if (maxHistorySize <? List.length pushed)%nat
                  then List.tl pushed else pushed)).
  { destruct (maxHistorySize <? List.length pushed)%nat; [| exact Hp].
    destruct pushed; [constructor | inversion Hp; assumption]. }
  split; [exact Hh | apply ema_inUnit; exact Hh].
Qed.

Lemma smoothAll_inUnit (inputs : list Q) (s : ConfidenceSmoother) :
  Forall inUnit (history s) -> Forall inUnit (snd (smoothAll s inputs)).
Proof.
  revert s. induction inputs as [| v vs IH]; intros s Hs; cbn [smoothAll].
  - constructor.
  - destruct (smooth s v) as [s1 r] eqn:E1.
    destruct (smoothAll s1 vs) as [s2 rs] eqn:E2. simpl.
    pose proof (smooth_inUnit s v Hs) as [Hh Hr]. rewrite E1 in Hh, Hr.
    constructor; [exact Hr |].
    specialize (IH s1 Hh). rewrite E2 in IH. exact IH.
Qed.



End SmootherFacts.

Section SmootherAnyFacts.
Import ConfidenceSmoothingAny.
Local Open Scope Q_scope.

Lemma fold_finite (l : list Q) (h0 : Q) :
  fold_left (fun ema hi => add (mul alpha hi) (mul (sub (Finite 1) alpha) ema))
            (List.map Finite l) (Finite h0)
  = Finite (fold_left (fun ema hi => ConfidenceSmoothing.alpha * hi +
                                     (1 - ConfidenceSmoothing.alpha) * ema) l h0).
Proof.
  revert h0. induction l as [| hi l IH]; intros h0; [reflexivity |].
  cbn [List.map fold_left]. rewrite <- IH. reflexivity.
Qed.

Lemma ema_finite (h : list Q) :
  exponentialMovingAverage (List.map Finite h)
  = Finite (ConfidenceSmoothing.exponentialMovingAverage h).
Proof.
  destruct h as [| h0 [| h1 rest]]; try reflexivity.
  exact (fold_finite (h1 :: rest) h0).
Qed.

(** On finite values the class computes what [ConfidenceSmoothing]
    computes. *)
Lemma smooth_finite (s : ConfidenceSmoothing.ConfidenceSmoother) (q : Q) :
  smooth (finiteSmoother s) (Finite q)
  = (finiteSmoother (fst (ConfidenceSmoothing.smooth s q)),
     Finite (snd (ConfidenceSmoothing.smooth s q))).
Proof.
  unfold smooth, ConfidenceSmoothing.smooth, finiteSmoother. cbv zeta.
  cbn [history ConfidenceSmoothing.history fst snd].
  change (Math_max minConfidence (Math_min maxConfidence (Finite q)))
    with (Finite (Qmax ConfidenceSmoothing.minConfidence
                       (Qmin ConfidenceSmoothing.maxConfidence q))).
  set (c := Qmax ConfidenceSmoothing.minConfidence
                 (Qmin ConfidenceSmoothing.maxConfidence q)).
  replace (List.map Finite (ConfidenceSmoothing.history s) ++ [Finite c])%list
    with (List.map Finite (ConfidenceSmoothing.history s ++ [c])%list)
    by (rewrite List.map_app; reflexivity).
  rewrite List.length_map.
  change maxHistorySize with ConfidenceSmoothing.maxHistorySize.
  destruct (ConfidenceSmoothing.maxHistorySize <?
            List.length (ConfidenceSmoothing.history s ++ [c]))%nat.
  - replace (List.tl (List.map Finite (ConfidenceSmoothing.history s ++ [c])%list))
      with (List.map Finite (List.tl (ConfidenceSmoothing.history s ++ [c])%list))
      by (destruct (ConfidenceSmoothing.history s ++ [c])%list; reflexivity).
    rewrite ema_finite. reflexivity.
  - rewrite ema_finite. reflexivity.
Qed.

(** The clamp sends every number but NaN into the unit interval, and
    NaN to NaN. *)
Lemma clamp_any (v : Number) :
  v <> NaN -> inUnitInterval (Math_max minConfidence (Math_min maxConfidence v)).
Proof.
  intros Hv. destruct v as [| | q |]; [contradiction | | |]; cbn.
  - split; discriminate.
  - exact (clamp_inUnit q).
  - split; discriminate.
Qed.

Lemma clamp_NaN : Math_max minConfidence (Math_min maxConfidence NaN) = NaN.
Proof. reflexivity. Qed.

Lemma inUnitInterval_finite (l : list Number) :
  Forall inUnitInterval l ->
  exists lq, l = List.map Finite lq /\ Forall inUnit lq.
Proof.
  induction 1 as [| n l Hn Hl [lq [-> Hq]]].
  - exists []. split; [reflexivity | constructor].
  - destruct n as [| | q |]; try contradiction.
    exists (q :: lq). split; [reflexivity | constructor; assumption].
Qed.

Lemma ema_any (h : list Number) :
  Forall inUnitInterval h -> inUnitInterval (exponentialMovingAverage h).
Proof.
  intros H. apply inUnitInterval_finite in H. destruct H as [lq [-> Hq]].
  rewrite ema_finite. exact (ema_inUnit lq Hq).
Qed.

Lemma smooth_any (s : ConfidenceSmoother) (v : Number) :
  v <> NaN ->
  Forall inUnitInterval (history s) ->
  Forall inUnitInterval (history (fst (smooth s v))) /\
  inUnitInterval (snd (smooth s v)).
Proof.
  intros Hv Hs. unfold smooth. cbv zeta. cbn [fst snd history].
  set (pushed := (history s ++
                  [Math_max minConfidence (Math_min maxConfidence v)])%list).
  assert (Hp : Forall inUnitInterval pushed).
  { apply Forall_app. split; [exact Hs |].
    constructor; [apply clamp_any; exact Hv | constructor]. }
  assert (Hh : Forall inUnitInterval
                 (if (maxHistorySize <? List.length pushed)%nat
                  then List.tl pushed else pushed)).
  { destruct (maxHistorySize <? List.length pushed)%nat; [| exact Hp].
    destruct pushed; [constructor | inversion Hp; assumption]. }
  split; [exact Hh | apply ema_any; exact Hh].
Qed.

Lemma smoothAll_any (inputs : list Number) (s : ConfidenceSmoother) :
  Forall (fun v => v <> NaN) inputs ->
  Forall inUnitInterval (history s) ->
  Forall inUnitInterval (snd (smoothAll s inputs)).
Proof.
  revert s. induction inputs as [| v vs IH]; intros s Hin Hs; cbn [smoothAll].
  - constructor.
  - inversion Hin as [| ? ? Hv Hvs]; subst.
    destruct (smooth s v) as [s1 r] eqn:E1.
    destruct (smoothAll s1 vs) as [s2 rs] eqn:E2. cbn [snd].
    pose proof (smooth_any s v Hv Hs) as [Hh Hr]. rewrite E1 in Hh, Hr.
    constructor; [exact Hr |].
    specialize (IH s1 Hvs Hh). rewrite E2 in IH. exact IH.
Qed.

(** [x + NaN], [x * NaN]: NaN. *)
Lemma step_NaN_l (hi : Number) :
  add (mul alpha hi) (mul (sub (Finite 1) alpha) NaN) = NaN.
Proof. destruct hi; reflexivity. Qed.

Lemma step_NaN_r (ema : Number) :
  add (mul alpha NaN) (mul (sub (Finite 1) alpha) ema) = NaN.
Proof. reflexivity. Qed.

Lemma fold_NaN (rest : list Number) :
  fold_left (fun ema hi => add (mul alpha hi) (mul (sub (Finite 1) alpha) ema))
            rest NaN = NaN.
Proof.
  induction rest as [| hi rest IH]; [reflexivity |].
  cbn [fold_left]. rewrite step_NaN_l. exact IH.
Qed.

Lemma fold_In_NaN (rest : list Number) (h0 : Number) :
  In NaN rest ->
  fold_left (fun ema hi => add (mul alpha hi) (mul (sub (Finite 1) alpha) ema))
            rest h0 = NaN.
Proof.
  revert h0. induction rest as [| hi rest IH]; intros h0; [intros [] |].
  intros [-> | Hin]; cbn [fold_left].
  - rewrite step_NaN_r. apply fold_NaN.
  - apply IH. exact Hin.
Qed.

(** A history that holds NaN averages to NaN. *)
Lemma ema_NaN (h : list Number) :
  In NaN h -> exponentialMovingAverage h = NaN.
Proof.
  destruct h as [| h0 [| h1 rest]].
  - intros [].
  - intros [-> | []]. reflexivity.
  - unfold exponentialMovingAverage. intros [-> | Hin].
    + apply fold_NaN.
    + apply fold_In_NaN. exact Hin.
Qed.

(** The value returned for NaN is NaN, whatever the history. *)
Lemma smooth_NaN (s : ConfidenceSmoother) : snd (smooth s NaN) = NaN.
Proof.
  unfold smooth. cbv zeta. cbn [snd]. rewrite clamp_NaN.
  apply ema_NaN.
  destruct (maxHistorySize <? List.length (history s ++ [NaN]))%nat eqn:E.
  - destruct (history s) as [| a l] eqn:Eh; [discriminate E |].
    cbn [List.app List.tl]. apply in_or_app. right. left. reflexivity.
  - apply in_or_app. right. left. reflexivity.
Qed.

(** C7.  Over numbers that include NaN and the two infinities.  On a new
    smoother [smooth v] returns [v] for every [v] of [[0,1]].  For every
    sequence of inputs none of which is NaN, finite or infinite, inside
    or outside [[0,1]], every value returned lies in [[0,1]].  The input
    NaN is not clamped: [smooth NaN] returns NaN, whatever the history
    holds. *)
Theorem smooth_first_and_range :
  (forall v : Number, inUnitInterval v -> sameNumber (snd (smooth new v)) v) /\
  (forall inputs : list Number,
      Forall (fun v => v <> NaN) inputs ->
      Forall inUnitInterval (snd (smoothAll new inputs))) /\
  (forall s : ConfidenceSmoother, snd (smooth s NaN) = NaN).
Proof.
  split; [| split].
  - intros [| | q |] Hv; try contradiction. cbn in Hv.
    change (snd (smooth new (Finite q)))
      with (Finite (Qmax ConfidenceSmoothing.minConfidence
                         (Qmin ConfidenceSmoothing.maxConfidence q))).
    cbn [sameNumber]. apply clamp_id. exact Hv.
  - intros inputs Hin. apply (smoothAll_any inputs new Hin). constructor.
  - exact smooth_NaN.
Qed.

(** The theorem at [0.8] on a new smoother, and at the run
    [-0.5, Infinity, 0.25, -Infinity]. *)
Lemma smooth_first_and_range_witness :
  sameNumber (snd (smooth new (Finite (8 # 10)))) (Finite (8 # 10)) /\
  Forall inUnitInterval
         (snd (smoothAll new [Finite (- (1 # 2)); Infinity; Finite (1 # 4);
                              NegInfinity])).
Proof.
  destruct smooth_first_and_range as [H1 [H2 _]]. split.
  - apply H1. split; discriminate.
  - apply H2. repeat constructor; discriminate.
Defined.

(** The range does not hold for every sequence of inputs: the run that
    consists of NaN returns NaN. *)
Lemma smooth_range_counterexample :
  ~ (forall inputs : list Number,
        Forall inUnitInterval (snd (smoothAll new inputs))).
Proof.
  intros H. specialize (H [NaN]). inversion H as [| ? ? Hr _]. exact Hr.
Qed.

End SmootherAnyFacts.

(* ================================================================== *)
(** * Properties: ranking *)
(* ================================================================== *)

Section Ranking.

Context {A : Type} (key : A -> R).

Lemma hasKey_self (a : A) : hasKey key (key a) a = true.
Proof. unfold hasKey. destruct (Req_dec_T (key a) (key a)); congruence. Qed.

Lemma hasKey_true (s : R) (a : A) : hasKey key s a = true -> key a = s.
Proof. unfold hasKey. destruct (Req_dec_T (key a) s); congruence. Qed.

Lemma leftmostMax_In (l : list A) (b : A) : leftmostMax key l = Some b -> In b l.
Proof.
  revert b. induction l as [| a l IH]; intros b H; simpl in H.
  - discriminate.
  - destruct (leftmostMax key l) as [c |].
    + destruct (Rlt_dec (key a) (key c)); inversion H; subst.
      * right. apply IH. reflexivity.
      * left. reflexivity.
    + inversion H. left. reflexivity.
Qed.

Lemma leftmostMax_max (l : list A) (b : A) :
  leftmostMax key l = Some b -> forall x, In x l -> (key x <= key b)%R.
Proof.
  revert b. induction l as [| a l IH]; intros b H x Hx; simpl in H.
  - destruct Hx.
  - destruct (leftmostMax key l) as [c |] eqn:E.
    + specialize (IH c eq_refl).
      destruct (Rlt_dec (key a) (key c)); inversion H; subst;
        destruct Hx as [-> | Hx]; try lra.
      * apply IH; assumption.
      * specialize (IH x Hx). lra.
    + inversion H; subst. destruct Hx as [-> | Hx]; [lra |].
      destruct l; [destruct Hx |]. simpl in E.
      destruct (leftmostMax key l); [destruct (Rlt_dec _ _) |]; discriminate.
Qed.

Lemma insertDesc_head (a : A) (l : list A) :
  hd_error (Js.insertDesc key a l) =
  match hd_error l with
  | None => Some a
  | Some b => if Rlt_dec (key a) (key b) then Some b else Some a
  end.
Proof.
  destruct l as [| b l]; simpl; [reflexivity |].
  destruct (Rlt_dec (key a) (key b)); reflexivity.
Qed.

(** The head of the sorted array is the leftmost maximum of the input. *)
Lemma sortDesc_head (l : list A) :
  hd_error (Js.sortDesc key l) = leftmostMax key l.
Proof.
  induction l as [| a l IH]; [reflexivity |].
  change (Js.sortDesc key (a :: l)) with (Js.insertDesc key a (Js.sortDesc key l)).
  rewrite insertDesc_head, IH. reflexivity.
Qed.

Lemma insertDesc_In (a x : A) (l : list A) :
  In x (Js.insertDesc key a l) <-> x = a \/ In x l.
Proof.
  induction l as [| b l IH]; simpl.
  - intuition.
  - destruct (Rlt_dec (key a) (key b)); simpl; rewrite ?IH; intuition.
Qed.

Lemma sortDesc_In (x : A) (l : list A) : In x (Js.sortDesc key l) <-> In x l.
Proof.
  induction l as [| a l IH]; [reflexivity |].
  change (Js.sortDesc key (a :: l)) with (Js.insertDesc key a (Js.sortDesc key l)).
  rewrite insertDesc_In, IH. simpl. intuition.
Qed.

Lemma insertDesc_filter (s : R) (a : A) (l : list A) :
  List.filter (hasKey key s) (Js.insertDesc key a l) =
  List.filter (hasKey key s) (a :: l).
Proof.
  induction l as [| b l IH]; [reflexivity |].
  cbn [Js.insertDesc]. destruct (Rlt_dec (key a) (key b)) as [Hlt | Hge].
  - cbn [List.filter] in *. rewrite IH.
    destruct (hasKey key s a) eqn:Ea, (hasKey key s b) eqn:Eb; try reflexivity.
    apply hasKey_true in Ea, Eb. lra.
  - reflexivity.
Qed.

Lemma insertDesc_descending (a : A) (l : list A) :
  Descending key l -> Descending key (Js.insertDesc key a l).
Proof.
  unfold Descending. induction l as [| b l IH]; intros Hl; simpl.
  - constructor; constructor.
  - destruct (Rlt_dec (key a) (key b)) as [Hlt | Hge].
    + inversion Hl as [| ? ? Hs Hall]; subst. constructor; [apply IH; exact Hs |].
      rewrite List.Forall_forall in *. intros x Hx. apply insertDesc_In in Hx.
      destruct Hx as [-> | Hx]; [lra | apply Hall; exact Hx].
    + constructor; [exact Hl |]. constructor; [lra |].
      inversion Hl as [| ? ? Hs Hall]; subst.
      rewrite List.Forall_forall in *. intros x Hx. specialize (Hall x Hx). lra.
Qed.

(** The code's sort is a stable descending rearrangement. *)
Lemma sortDesc_stable (l : list A) : StableDescending key l (Js.sortDesc key l).
Proof.
  split.
  - induction l as [| a l IH]; [constructor |].
    change (Js.sortDesc key (a :: l)) with (Js.insertDesc key a (Js.sortDesc key l)).
    apply insertDesc_descending. exact IH.
  - intros s. induction l as [| a l IH]; [reflexivity |].
    change (Js.sortDesc key (a :: l)) with (Js.insertDesc key a (Js.sortDesc key l)).
    rewrite insertDesc_filter. cbn [List.filter]. rewrite IH. reflexivity.
Qed.

Lemma stable_In (input output : list A) (x : A) :
  StableDescending key input output -> (In x output <-> In x input).
Proof.
  intros [_ H]. specialize (H (key x)).
  split; intros Hx.
  - assert (Hf : In x (List.filter (hasKey key (key x)) output))
      by (apply filter_In; split; [exact Hx | apply hasKey_self]).
    rewrite H in Hf. apply filter_In in Hf. tauto.
  - assert (Hf : In x (List.filter (hasKey key (key x)) input))
      by (apply filter_In; split; [exact Hx | apply hasKey_self]).
    rewrite <- H in Hf. apply filter_In in Hf. tauto.
Qed.

Lemma leftmostMax_first (l : list A) (h : A) (rest : list A) :
  (forall x, In x l -> (key x <= key h)%R) ->
  List.filter (hasKey key (key h)) l = h :: rest ->
  leftmostMax key l = Some h.
Proof.
  induction l as [| a l IH]; intros Hmax Hf; [discriminate |].
  cbn [List.filter] in Hf. cbn [leftmostMax].
  destruct (hasKey key (key h) a) eqn:Ea.
  - inversion Hf; subst a.
    destruct (leftmostMax key l) as [b |] eqn:Eb; [| reflexivity].
    apply leftmostMax_In in Eb.
    assert (key b <= key h)%R by (apply Hmax; right; exact Eb).
    destruct (Rlt_dec (key h) (key b)); [lra | reflexivity].
  - rewrite (IH (fun x Hx => Hmax x (or_intror Hx)) Hf).
    assert (key a <= key h)%R by (apply Hmax; left; reflexivity).
    unfold hasKey in Ea. destruct (Req_dec_T (key a) (key h)); [discriminate |].
    destruct (Rlt_dec (key a) (key h)); [reflexivity | lra].
Qed.

(** Every stable descending rearrangement has the same first element. *)
Lemma stable_head (input output : list A) :
  StableDescending key input output -> hd_error output = leftmostMax key input.
Proof.
  intros Hst. pose proof Hst as [Hdesc Hties].
  destruct output as [| h t]; simpl.
  - destruct input as [| a l]; [reflexivity |].
    assert (Hin : In a (a :: l)) by (left; reflexivity).
    apply (stable_In _ _ a Hst) in Hin. destruct Hin.
  - symmetry.
    assert (Hf : List.filter (hasKey key (key h)) (h :: t) =
                 h :: List.filter (hasKey key (key h)) t)
      by (cbn [List.filter]; rewrite hasKey_self; reflexivity).
    rewrite (Hties (key h)) in Hf.
    apply (leftmostMax_first input h (List.filter (hasKey key (key h)) t)); [| exact Hf].
    intros x Hx. apply (stable_In _ _ x Hst) in Hx.
    destruct Hx as [-> | Hx]; [lra |].
    inversion Hdesc as [| ? ? _ Hall]; subst.
    rewrite List.Forall_forall in Hall. apply Hall. exact Hx.
Qed.

End Ranking.

(* ================================================================== *)
(** * Properties: the two matching strategies *)
(* ================================================================== *)

Section GeodesyFacts.

Local Open Scope R_scope.

(** The quantity under the square roots lies in the unit interval,
    whatever the four angles are. *)
Lemma haversine_term_bounds (p1 p2 y : R) :
  let a := sin ((p2 - p1) / 2) * sin ((p2 - p1) / 2) +
           cos p1 * cos p2 * sin y * sin y in
  0 <= a <= 1.
Proof.
  cbv zeta.
  pose proof (cos_2a_sin ((p2 - p1) / 2)) as Hc.
  replace (2 * ((p2 - p1) / 2)) with (p2 - p1) in Hc by lra.
  pose proof (cos_minus p2 p1) as Hm. pose proof (cos_plus p2 p1) as Hp.
  pose proof (COS_bound (p2 - p1)) as [HC1 HC2].
  pose proof (COS_bound (p2 + p1)) as [HD1 HD2].
  pose proof (SIN_bound y) as [Hs1 Hs2].
  set (C := cos (p2 - p1)) in *. set (D := cos (p2 + p1)) in *.
  set (sx := sin ((p2 - p1) / 2)) in *. set (s := sin y * sin y).
  assert (Hs : 0 <= s <= 1) by (unfold s; split; nra).
  assert (Hxx : sx * sx = (1 - C) / 2) by lra.
  assert (Hcc : cos p1 * cos p2 = (C + D) / 2) by lra.
  replace (sx * sx + cos p1 * cos p2 * sin y * sin y)
    with ((1 - C) / 2 + (C + D) / 2 * s)
    by (unfold s; rewrite <- Hxx, <- Hcc; ring).
  assert (H1 : 0 <= (1 - C) * (1 - s)) by (apply Rmult_le_pos; lra).
  assert (H2 : 0 <= (1 + D) * s) by (apply Rmult_le_pos; lra).
  assert (H3 : 0 <= (1 + C) * (1 - s)) by (apply Rmult_le_pos; lra).
  assert (H4 : 0 <= (1 - D) * s) by (apply Rmult_le_pos; lra).
  split; lra.
Qed.

Lemma atan2_asin (a : R) :
  0 <= a <= 1 -> Js.atan2 (sqrt a) (sqrt (1 - a)) = asin (sqrt a).
Proof.
  intros [H0 H1]. destruct (Req_dec_T a 1) as [-> | Hne].
  - replace (1 - 1) with 0 by ring. rewrite sqrt_1, sqrt_0, asin_1.
    unfold Js.atan2.
    destruct (Rlt_dec 0 0); [lra |]. destruct (Rlt_dec 0 1); [reflexivity | lra].
  - assert (Hlt : a < 1) by lra.
    assert (Hpos : 0 < sqrt (1 - a)) by (apply sqrt_lt_R0; lra).
    assert (Hs0 : 0 <= sqrt a) by apply sqrt_pos.
    assert (Hs1 : sqrt a < 1)
      by (rewrite <- sqrt_1; apply sqrt_lt_1; lra).
    unfold Js.atan2. destruct (Rlt_dec 0 (sqrt (1 - a))); [| contradiction].
    rewrite asin_atan by lra. rewrite (Rsqr_sqrt a H0). reflexivity.
Qed.

(** The distance the handlers compute is the Haversine distance. *)
Lemma distance_is_haversine (userLat userLng placeLat placeLng : R) :
  Geo.distance userLat userLng placeLat placeLng
  = Spec.haversine userLat userLng placeLat placeLng.
Proof.
  unfold Geo.distance, Spec.haversine, Spec.hav. cbv zeta.
  set (a := sin ((placeLat - userLat) * PI / 180 / 2) *
            sin ((placeLat - userLat) * PI / 180 / 2) +
            cos (userLat * PI / 180) * cos (placeLat * PI / 180) *
            sin ((placeLng - userLng) * PI / 180 / 2) *
            sin ((placeLng - userLng) * PI / 180 / 2)).
  replace (sin ((placeLat - userLat) * PI / 180 / 2) *
           sin ((placeLat - userLat) * PI / 180 / 2) +
           cos (userLat * PI / 180) * cos (placeLat * PI / 180) *
           (sin ((placeLng - userLng) * PI / 180 / 2) *
            sin ((placeLng - userLng) * PI / 180 / 2)))
    with a by (unfold a; ring).
  assert (Ha : 0 <= a <= 1).
  { pose proof (haversine_term_bounds (userLat * PI / 180) (placeLat * PI / 180)
                  ((placeLng - userLng) * PI / 180 / 2)) as H.
    cbv zeta in H.
    replace ((placeLat * PI / 180 - userLat * PI / 180) / 2)
      with ((placeLat - userLat) * PI / 180 / 2) in H by (unfold Rdiv; ring).
    exact H. }
  rewrite (atan2_asin a Ha). ring.
Qed.

Lemma hypot_pos (x y : R) : 0 < x -> sqrt (x * x + y * y) = x * sqrt (1 + (y / x)²).
Proof.
  intros Hx.
  replace (x * x + y * y) with (x * x * (1 + (y / x)²))
    by (unfold Rsqr; field; lra).
  rewrite sqrt_mult_alt by nra. rewrite sqrt_square by lra. reflexivity.
Qed.

Lemma hypot_neg (x y : R) : x < 0 -> sqrt (x * x + y * y) = - x * sqrt (1 + (y / x)²).
Proof.
  intros Hx.
  replace (x * x + y * y) with ((- x) * (- x) * (1 + (y / x)²))
    by (unfold Rsqr; field; lra).
  rewrite sqrt_mult_alt by nra. rewrite sqrt_square by lra. reflexivity.
Qed.

Lemma root_pos (t : R) : 0 < sqrt (1 + t²).
Proof. apply sqrt_lt_R0. pose proof (Rle_0_sqr t). lra. Qed.

(** [Math.atan2(y, x)] is the polar angle of the point [(x, y)]. *)
Lemma atan2_polar (y x : R) :
  - PI < Js.atan2 y x <= PI /\
  x = sqrt (x * x + y * y) * cos (Js.atan2 y x) /\
  y = sqrt (x * x + y * y) * sin (Js.atan2 y x).
Proof.
  pose proof PI_RGT_0 as Hpi. unfold Js.atan2.
  destruct (Rlt_dec 0 x) as [Hx | Hx].
  - pose proof (atan_bound (y / x)) as [Hb1 Hb2].
    pose proof (root_pos (y / x)) as Hr.
    rewrite (hypot_pos x y Hx), cos_atan, sin_atan.
    split; [lra |]. split; field; lra.
  - destruct (Rlt_dec x 0) as [Hx' | Hx'].
    + pose proof (atan_bound (y / x)) as [Hb1 Hb2].
      pose proof (root_pos (y / x)) as Hr.
      rewrite (hypot_neg x y Hx').
      destruct (Rle_dec 0 y) as [Hy | Hy].
      * rewrite neg_cos, neg_sin, cos_atan, sin_atan.
        assert (Ha : atan (y / x) <= 0).
        { destruct (Req_dec_T y 0) as [-> | Hy0].
          - unfold Rdiv. rewrite Rmult_0_l, atan_0. lra.
          - left. rewrite <- atan_0. apply atan_increasing.
            assert (0 < y * / (- x)) by (apply Rmult_lt_0_compat; [lra | apply Rinv_0_lt_compat; lra]).
            replace (y / x) with (- (y * / (- x))) by (field; lra). lra. }
        split; [lra |]. split; field; lra.
      * replace (atan (y / x) - PI) with (- (- atan (y / x) + PI)) by ring.
        rewrite cos_neg, sin_neg, neg_cos, neg_sin, cos_neg, sin_neg, cos_atan, sin_atan.
        assert (Ha : 0 < atan (y / x)).
        { rewrite <- atan_0. apply atan_increasing.
          replace (y / x) with ((- y) * / (- x)) by (field; lra).
          apply Rmult_lt_0_compat; [lra | apply Rinv_0_lt_compat; lra]. }
        split; [lra |]. split; field; lra.
    + assert (x = 0) by lra. subst x.
      replace (0 * 0 + y * y) with (y * y) by ring.
      destruct (Rlt_dec 0 y) as [Hy | Hy].
      * rewrite cos_PI2, sin_PI2, sqrt_square by lra. split; [lra |]. split; ring.
      * destruct (Rlt_dec y 0) as [Hy' | Hy'].
        -- replace (- PI / 2) with (- (PI / 2)) by field.
           rewrite cos_neg, sin_neg, cos_PI2, sin_PI2.
           replace (y * y) with ((- y) * (- y)) by ring.
           rewrite sqrt_square by lra. split; [lra |]. split; ring.
        -- assert (y = 0) by lra. subst y.
           rewrite Rmult_0_l, sqrt_0. split; [lra |]. split; ring.
Qed.

Lemma atan2_origin : Js.atan2 0 0 = 0.
Proof.
  unfold Js.atan2. destruct (Rlt_dec 0 0); [lra |].
  destruct (Rlt_dec 0 0); [lra | reflexivity].
Qed.

Lemma atan2_compass (north east : R) :
  Spec.compassBearing north east (Js.atan2 east north * 180 / PI).
Proof.
  pose proof PI_RGT_0 as Hpi.
  pose proof (atan2_polar east north) as [[Hlo Hhi] [Hc Hs]].
  unfold Spec.compassBearing, Spec.rad.
  replace (Js.atan2 east north * 180 / PI * PI / 180) with (Js.atan2 east north)
    by (field; lra).
  split; [| split; [exact Hc | split; [exact Hs |]]].
  - split.
    + apply Rmult_lt_reg_r with (PI / 180); [lra |].
      replace (Js.atan2 east north * 180 / PI * (PI / 180)) with (Js.atan2 east north)
        by (field; lra). lra.
    + apply Rmult_le_reg_r with (PI / 180); [lra |].
      replace (Js.atan2 east north * 180 / PI * (PI / 180)) with (Js.atan2 east north)
        by (field; lra). lra.
  - intros -> ->. rewrite atan2_origin. field. lra.
Qed.

(** The quantities [x] and [y] of the handlers' bearing are the
    components, towards north and towards east, of the direction of the
    place as seen from the user. *)
Lemma bearing_components (lat1 lng1 lat2 lng2 : R) :
  Spec.dot (Spec.onSphere lat2 lng2) (Spec.northAt lat1 lng1)
  = cos (lat1 * PI / 180) * sin (lat2 * PI / 180) -
    sin (lat1 * PI / 180) * cos (lat2 * PI / 180) * cos ((lng2 - lng1) * PI / 180) /\
  Spec.dot (Spec.onSphere lat2 lng2) (Spec.eastAt lat1 lng1)
  = sin ((lng2 - lng1) * PI / 180) * cos (lat2 * PI / 180).
Proof.
  unfold Spec.dot, Spec.onSphere, Spec.northAt, Spec.eastAt, Spec.rad.
  replace ((lng2 - lng1) * PI / 180) with (lng2 * PI / 180 - lng1 * PI / 180)
    by (unfold Rdiv; ring).
  rewrite cos_minus, sin_minus. split; ring.
Qed.

Lemma bearing_is_initial (lat1 lng1 lat2 lng2 : R) :
  Spec.initialBearing lat1 lng1 lat2 lng2 (Geo.bearing lat1 lng1 lat2 lng2).
Proof.
  unfold Spec.initialBearing.
  destruct (bearing_components lat1 lng1 lat2 lng2) as [-> ->].
  unfold Geo.bearing. cbv zeta. apply atan2_compass.
Qed.

(** A direction that is not null has one compass bearing. *)
Lemma compassBearing_unique (north east a b : R) :
  Spec.compassBearing north east a -> Spec.compassBearing north east b -> a = b.
Proof.
  pose proof PI_RGT_0 as Hpi.
  intros [[Ha1 Ha2] [Hac [Has Ha0]]] [[Hb1 Hb2] [Hbc [Hbs Hb0]]].
  set (r := sqrt (north * north + east * east)) in *.
  assert (Hr0 : 0 <= r) by apply sqrt_pos.
  destruct (Req_dec_T r 0) as [Hz | Hnz].
  - assert (Hn : north = 0) by (rewrite Hac, Hz; ring).
    assert (He : east = 0) by (rewrite Has, Hz; ring).
    rewrite (Ha0 Hn He), (Hb0 Hn He). reflexivity.
  - assert (Hr : 0 < r) by lra.
    assert (Ec : cos (Spec.rad a) = cos (Spec.rad b)).
    { apply Rmult_eq_reg_l with r; [lra | lra]. }
    assert (Es : sin (Spec.rad a) = sin (Spec.rad b)).
    { apply Rmult_eq_reg_l with r; [lra | lra]. }
    assert (Hra : - PI < Spec.rad a <= PI) by (unfold Spec.rad; split; nra).
    assert (Hrb : - PI < Spec.rad b <= PI) by (unfold Spec.rad; split; nra).
    assert (E : Spec.rad a = Spec.rad b).
    { destruct (Rle_dec 0 (Spec.rad a)) as [Pa | Na].
      - assert (Sa : 0 <= sin (Spec.rad a)) by (apply sin_ge_0; lra).
        destruct (Rle_dec 0 (Spec.rad b)) as [Pb | Nb].
        + apply cos_inj; [lra | lra | exact Ec].
        + assert (sin (Spec.rad b) < 0) by (apply sin_lt_0_var; lra). lra.
      - assert (Sa : sin (Spec.rad a) < 0) by (apply sin_lt_0_var; lra).
        destruct (Rle_dec 0 (Spec.rad b)) as [Pb | Nb].
        + assert (0 <= sin (Spec.rad b)) by (apply sin_ge_0; lra). lra.
        + assert (E' : - Spec.rad a = - Spec.rad b).
          { apply cos_inj; [lra | lra |]. rewrite !cos_neg. exact Ec. }
          lra. }
    unfold Spec.rad in E. nra.
Qed.

End GeodesyFacts.

Section ScoringFacts.

Import TapContext.
Local Open Scope R_scope.

Lemma toLowerCase_empty (s : string) :
  Js.toLowerCase s = EmptyString -> s = EmptyString.
Proof. destruct s; [reflexivity | discriminate]. Qed.

Lemma truthyNum_Some (o : option R) :
  Js.truthyNum o = true <-> exists v, o = Some v /\ v <> 0.
Proof.
  unfold Js.truthyNum. destruct o as [v |].
  - destruct (Req_dec_T v 0) as [E | N]; split.
    + discriminate.
    + intros [w [Hw Hn]]. inversion Hw; subst. contradiction.
    + intros _. exists v. split; [reflexivity | exact N].
    + reflexivity.
  - split; [discriminate | intros [w [Hw _]]; discriminate].
Qed.

Lemma mapFilter_In {A B : Type} (f : A -> option B) (l : list A) (b : B) :
  In b (Js.mapFilter f l) <-> exists a, In a l /\ f a = Some b.
Proof.
  induction l as [| a l IH]; simpl.
  - split; [intros [] | intros [a [[] _]]].
  - destruct (f a) as [b' |] eqn:E; simpl; rewrite IH; split.
    + intros [-> | [a' [Ha' Hf]]]; [exists a | exists a']; auto.
    + intros [a' [[-> | Ha'] Hf]]; [left; congruence | right; exists a'; auto].
    + intros [a' [Ha' Hf]]. exists a'. auto.
    + intros [a' [[-> | Ha'] Hf]]; [congruence | exists a'; auto].
Qed.

(** With a name read by the vision model, the code's name similarity is
    the specification's. *)
Lemma nameScoreOf_spec (hint candidate : string) :
  hint <> EmptyString ->
  nameScoreOf (Some hint) candidate = Spec.nameScore hint candidate.
Proof.
  intros Hne. unfold nameScoreOf, Spec.nameScore, Spec.tokenOverlapRatio.
  cbv zeta.
  assert (Hp : negb (String.eqb (Js.toLowerCase hint) EmptyString) = true).
  { apply negb_true_iff. apply String.eqb_neq. intros E.
    apply Hne. apply toLowerCase_empty. exact E. }
  rewrite Hp. cbn [andb].
  rewrite (String.eqb_sym (Js.toLowerCase candidate) (Js.toLowerCase hint)).
  destruct (String.eqb (Js.toLowerCase hint) (Js.toLowerCase candidate));
    [reflexivity |].
  destruct (Js.includes (Js.toLowerCase candidate) (Js.toLowerCase hint) ||
            Js.includes (Js.toLowerCase hint) (Js.toLowerCase candidate));
    reflexivity.
Qed.

Lemma toMatch_Some (userLat userLng : R) (visionName : option string)
      (place : Place.t) (m : Match.t) :
  toMatch userLat userLng visionName place = Some m <->
  exists placeLat placeLng,
    Spec.usable place placeLat placeLng /\
    m = Match.mk place
          (Geo.distance userLat userLng placeLat placeLng)
          (nameScoreOf visionName (Place.name place))
          (nameScoreOf visionName (Place.name place) * 0.7 +
           (1 - Rmin (Geo.distance userLat userLng placeLat placeLng / 2000) 1) * 0.3).
Proof.
  unfold toMatch, Spec.usable. split.
  - destruct (Js.truthyNum (Place.lat place)) eqn:Ela; [| discriminate].
    destruct (Js.truthyNum (Place.lng place)) eqn:Eln; [| discriminate].
    apply truthyNum_Some in Ela, Eln.
    destruct Ela as [la [Hla Nla]], Eln as [ln [Hln Nln]].
    rewrite Hla, Hln. cbn [andb]. intros H. inversion H.
    exists la, ln. auto.
  - intros [la [ln [[Hla [Hln [Nla Nln]]] ->]]].
    assert (E1 : Js.truthyNum (Place.lat place) = true)
      by (apply truthyNum_Some; eauto).
    assert (E2 : Js.truthyNum (Place.lng place) = true)
      by (apply truthyNum_Some; eauto).
    rewrite E1, E2, Hla, Hln. reflexivity.
Qed.

Lemma acceptMatch_Some (ms : list Match.t) (p : Place.t) :
  acceptMatch ms = Some p <->
  exists m0, hd_error ms = Some m0 /\ Match.distance m0 < 2000 /\ Match.place m0 = p.
Proof.
  unfold acceptMatch. destruct ms as [| m0 rest]; simpl.
  - split; [discriminate | intros [m [H _]]; discriminate].
  - destruct (Rlt_dec (Match.distance m0) 2000) as [Hlt | Hge]; split.
    + intros H. inversion H. exists m0. auto.
    + intros [m [H [_ Hp]]]. inversion H; subst. reflexivity.
    + discriminate.
    + intros [m [H [Hd _]]]. inversion H; subst. contradiction.
Qed.

(** What the search loop's success means: some query was answered with
    results whose best match was taken. *)
Lemma textSearchLoop_accepts (env : Env.t)
      (latitude longitude : R) (visionName : option string)
      (queries : list string) (place : Place.t) (evs : list Http.Event) :
  textSearchLoop env latitude longitude visionName queries = (Some (Some place), evs) ->
  exists query data,
    In query queries /\
    Env.textSearch env query = Net.Ok data /\
    exists results,
      Net.results data = Some results /\
      acceptMatch (matches latitude longitude visionName results) = Some place.
Proof.
  revert evs. induction queries as [| q rest IH]; intros evs H.
  - discriminate.
  - cbn [textSearchLoop] in H. unfold bind, call in H.
    destruct (Env.textSearch env q) as [| st | data] eqn:Eq.
    + discriminate.
    + destruct (textSearchLoop env latitude longitude visionName rest)
        as [o evs'] eqn:El.
      inversion H; subst.
      destruct (IH evs' eq_refl) as [query [d [Hin Hrest]]].
      exists query, d. split; [right; exact Hin | exact Hrest].
    + destruct (String.eqb (Net.status data) "REQUEST_DENIED" ||
                String.eqb (Net.status data) "ZERO_RESULTS").
      { unfold ret in H. discriminate. }
      assert (Hcont :
                forall o evs',
                  textSearchLoop env latitude longitude visionName rest = (o, evs') ->
                  o = Some (Some place) ->
                  exists query d,
                    In query (q :: rest) /\
                    Env.textSearch env query = Net.Ok d /\
                    exists results,
                      Net.results d = Some results /\
                      acceptMatch (matches latitude longitude visionName results)
                      = Some place).
      { intros o evs' El Ho. subst o.
        destruct (IH evs' El) as [query [d [Hin Hrest]]].
        exists query, d. split; [right; exact Hin | exact Hrest]. }
      destruct (Net.results data) as [[| r0 rs] |] eqn:Er.
      * destruct (textSearchLoop env latitude longitude visionName rest)
          as [o evs'] eqn:El.
        inversion H; subst. apply (Hcont _ _ eq_refl eq_refl).
      * destruct (acceptMatch (matches latitude longitude visionName (r0 :: rs)))
          as [p |] eqn:Ea.
        -- unfold ret in H. inversion H; subst.
           exists q, data. split; [left; reflexivity |].
           split; [exact Eq |]. exists (r0 :: rs). auto.
        -- destruct (textSearchLoop env latitude longitude visionName rest)
             as [o evs'] eqn:El.
           inversion H; subst. apply (Hcont _ _ eq_refl eq_refl).
      * destruct (textSearchLoop env latitude longitude visionName rest)
          as [o evs'] eqn:El.
        inversion H; subst. apply (Hcont _ _ eq_refl eq_refl).
Qed.

(** The elements of [matches], one for each usable candidate. *)
Lemma matches_In (userLat userLng : R) (visionName : option string)
      (results : list Place.t) (m : Match.t) :
  In m (matches userLat userLng visionName results) <->
  exists place, In place results /\ toMatch userLat userLng visionName place = Some m.
Proof. unfold matches. rewrite sortDesc_In. apply mapFilter_In. Qed.

(** What strategy 1 does with one reply: the place it takes is that of
    the first match, which no match outscores and which is nearer than
    two kilometres. *)
Lemma acceptMatch_top (userLat userLng : R) (visionName : option string)
      (results : list Place.t) (p : Place.t) :
  acceptMatch (matches userLat userLng visionName results) = Some p ->
  exists m,
    In m (matches userLat userLng visionName results) /\
    Match.place m = p /\
    (forall m', In m' (matches userLat userLng visionName results) ->
                Match.score m' <= Match.score m) /\
    Match.distance m < 2000.
Proof.
  intros H. apply acceptMatch_Some in H. destruct H as [m0 [Hhd [Hd Hp]]].
  exists m0. unfold matches in *. rewrite sortDesc_head in Hhd.
  split; [| split; [exact Hp | split; [| exact Hd]]].
  - apply sortDesc_In. apply (leftmostMax_In _ _ _ Hhd).
  - intros m' Hm'. apply sortDesc_In in Hm'.
    apply (leftmostMax_max _ _ _ Hhd). exact Hm'.
Qed.

(** C1.  Strategy A, for a request at [(userLat, userLng)] whose vision
    hint carries the non-empty name [hint].  (1) Each scored candidate is
    a usable candidate of the reply; its distance is the great-circle
    (Haversine) distance from the device; its name score is 1 on a
    case-insensitive exact match, else 0.7 when one name contains the
    other, else the token-overlap ratio; its score is
    [0.7 * nameScore + 0.3 * (1 - min (distance / 2000) 1)].  (2) Every
    usable candidate is scored.  (3) The place taken from a reply is that
    of a top-scoring match, and its distance is below 2000 m.  (4) When
    the handler's strategy A yields a place, it was taken in that way
    from the reply to one of its queries. *)
Theorem strategy1_scoring (showNumber : R -> string) (env : Env.t)
        (userLat userLng : R) (v : VisionResult.t) (hint : string) :
  VisionResult.name v = Some hint ->
  hint <> EmptyString ->
  (forall results m,
      In m (matches userLat userLng (Some hint) results) ->
      In (Match.place m) results /\
      (exists placeLat placeLng,
          Spec.usable (Match.place m) placeLat placeLng /\
          Match.distance m = Spec.haversine userLat userLng placeLat placeLng) /\
      Match.nameScore m = Spec.nameScore hint (Place.name (Match.place m)) /\
      Match.score m = Spec.namedScore (Match.nameScore m) (Match.distance m)) /\
  (forall results place placeLat placeLng,
      In place results -> Spec.usable place placeLat placeLng ->
      exists m, In m (matches userLat userLng (Some hint) results) /\
                Match.place m = place) /\
  (forall results p,
      acceptMatch (matches userLat userLng (Some hint) results) = Some p ->
      exists m,
        In m (matches userLat userLng (Some hint) results) /\
        Match.place m = p /\
        (forall m', In m' (matches userLat userLng (Some hint) results) ->
                    Match.score m' <= Match.score m) /\
        Match.distance m < 2000) /\
  (forall place evs,
      strategy1 showNumber env userLat userLng (Some v) = (Some (Some place), evs) ->
      exists query data results m,
        Env.textSearch env query = Net.Ok data /\
        Net.results data = Some results /\
        In m (matches userLat userLng (Some hint) results) /\
        Match.place m = place /\
        (forall m', In m' (matches userLat userLng (Some hint) results) ->
                    Match.score m' <= Match.score m) /\
        Match.distance m < 2000).
Proof.
  intros Hname Hne. split; [| split; [| split]].
  - intros results m Hm. apply matches_In in Hm.
    destruct Hm as [place [Hin Hto]]. apply toMatch_Some in Hto.
    destruct Hto as [la [ln [Hus ->]]]. cbn [Match.place Match.distance
      Match.nameScore Match.score].
    split; [exact Hin |].
    split; [exists la, ln; split; [exact Hus | apply distance_is_haversine] |].
    split; [apply nameScoreOf_spec; exact Hne |].
    unfold Spec.namedScore. lra.
  - intros results place la ln Hin Hus.
    eexists. split.
    + apply matches_In. exists place. split; [exact Hin |].
      apply toMatch_Some. exists la, ln. split; [exact Hus | reflexivity].
    + reflexivity.
  - intros results p. apply acceptMatch_top.
  - intros place evs H. unfold strategy1 in H.
    assert (Ht : Js.truthy (VisionResult.name v) = true).
    { rewrite Hname. unfold Js.truthy. apply negb_true_iff.
      apply String.eqb_neq. exact Hne. }
    rewrite Ht, Hname in H.
    apply textSearchLoop_accepts in H.
    destruct H as [query [data [_ [Hq [results [Hr Ha]]]]]].
    apply acceptMatch_top in Ha. destruct Ha as [m [Hm [Hp [Htop Hd]]]].
    exists query, data, results, m. auto 6.
Qed.

Lemma ferryPlace_usable : Spec.usable ferryPlace 37.7955 (-122.3937).
Proof. unfold Spec.usable, ferryPlace. simpl. repeat split; lra. Qed.

(** The theorem at that request: the candidate is scored, with name
    score 1. *)
Lemma strategy1_scoring_witness :
  exists m,
    In m (matches 37.7749 (-122.4194) (Some "Ferry Building"%string) [ferryPlace]) /\
    Match.nameScore m = 1 /\
    Match.score m = Spec.namedScore 1 (Match.distance m).
Proof.
  destruct (strategy1_scoring (fun _ => EmptyString) silentEnv 37.7749 (-122.4194)
              ferryHint "Ferry Building"%string eq_refl ltac:(discriminate))
    as [H1 [H2 _]].
  destruct (H2 [ferryPlace] ferryPlace _ _ (or_introl eq_refl) ferryPlace_usable)
    as [m [Hm Hp]].
  exists m. destruct (H1 _ m Hm) as [_ [_ [Hns Hsc]]].
  rewrite Hp in Hns. split; [exact Hm |].
  assert (E : Match.nameScore m = 1).
  { rewrite Hns. unfold Spec.nameScore. cbn [Place.name ferryPlace].
    rewrite String.eqb_refl. reflexivity. }
  split; [exact E |]. rewrite Hsc, E. reflexivity.
Defined.

(** The specification's scenario: an exact name match 50 m away scores
    0.9925, above 0.985. *)
Lemma named_match_at_50m :
  Spec.namedScore 1 50 = 0.9925 /\ 0.985 <= Spec.namedScore 1 50.
Proof.
  assert (E : Spec.namedScore 1 50 = 0.9925).
  { unfold Spec.namedScore. rewrite Rmin_left by lra. lra. }
  split; [exact E | rewrite E; lra].
Qed.

(** ** Strategy 2 *)

Lemma typeMatch_spec (visionType : option string) (types : option (list string)) :
  typeMatch visionType types = true <-> Spec.typeBonusDue visionType types.
Proof.
  unfold typeMatch, Spec.typeBonusDue, Spec.typesContain. split.
  - destruct (Js.truthy visionType) eqn:Et; [| discriminate].
    destruct visionType as [ty |]; [| discriminate].
    destruct types as [ts |]; [| discriminate].
    intros H. apply List.existsb_exists in H. destruct H as [tag [Hin Hc]].
    apply orb_true_iff in Hc.
    exists ty, ts, tag. repeat split; auto.
    unfold Js.truthy in Et. apply negb_true_iff in Et.
    apply String.eqb_neq. exact Et.
  - intros [ty [ts [tag [-> [Hne [-> [Hin Hc]]]]]]].
    assert (Et : Js.truthy (Some ty) = true).
    { unfold Js.truthy. apply negb_true_iff. apply String.eqb_neq. exact Hne. }
    rewrite Et. apply List.existsb_exists. exists tag. split; [exact Hin |].
    apply orb_true_iff. exact Hc.
Qed.

Lemma toScored_Some (userLat userLng : R) (dir : Geo.Direction)
      (visionType : option string) (place : Place.t) (s : Scored.t) :
  toScored userLat userLng dir visionType place = Some s <->
  exists placeLat placeLng,
    Spec.usable place placeLat placeLng /\
    s = Scored.mk place
          (Geo.distance userLat userLng placeLat placeLng)
          (Geo.bearing userLat userLng placeLat placeLng)
          (let bearingDiff :=
             Rabs (Geo.bearing userLat userLng placeLat placeLng -
                   Geo.directionBearing dir) in
           let score1 :=
             1 / (1 + Geo.distance userLat userLng placeLat placeLng / 50) +
             (if Rlt_dec bearingDiff 45 then 1 - bearingDiff / 45 else 0) * 0.5 in
           if typeMatch visionType (Place.types place) then score1 + 0.3 else score1).
Proof.
  unfold toScored, Spec.usable. split.
  - destruct (Js.truthyNum (Place.lat place)) eqn:Ela; [| discriminate].
    destruct (Js.truthyNum (Place.lng place)) eqn:Eln; [| discriminate].
    apply truthyNum_Some in Ela, Eln.
    destruct Ela as [la [Hla Nla]], Eln as [ln [Hln Nln]].
    rewrite Hla, Hln. cbn [andb]. intros H. inversion H.
    exists la, ln. auto.
  - intros [la [ln [[Hla [Hln [Nla Nln]]] ->]]].
    assert (E1 : Js.truthyNum (Place.lat place) = true)
      by (apply truthyNum_Some; eauto).
    assert (E2 : Js.truthyNum (Place.lng place) = true)
      by (apply truthyNum_Some; eauto).
    rewrite E1, E2, Hla, Hln. reflexivity.
Qed.

Lemma placesWithScores_In (userLat userLng : R) (dir : Geo.Direction)
      (visionType : option string) (results : list Place.t) (s : Scored.t) :
  In s (placesWithScores userLat userLng dir visionType results) <->
  exists place, In place results /\
                toScored userLat userLng dir visionType place = Some s.
Proof. unfold placesWithScores. rewrite sortDesc_In. apply mapFilter_In. Qed.

Lemma acceptScored_top (userLat userLng : R) (dir : Geo.Direction)
      (visionType : option string) (results : list Place.t) (p : Place.t) :
  acceptScored (placesWithScores userLat userLng dir visionType results) = Some p ->
  exists s,
    In s (placesWithScores userLat userLng dir visionType results) /\
    Scored.place s = p /\
    (forall s', In s' (placesWithScores userLat userLng dir visionType results) ->
                Scored.score s' <= Scored.score s) /\
    Scored.distance s < 150 /\
    0.2 < Scored.score s.
Proof.
  unfold placesWithScores.
  pose proof (sortDesc_head Scored.score
                (Js.mapFilter (toScored userLat userLng dir visionType) results))
    as Hhd.
  destruct (Js.sortDesc Scored.score
              (Js.mapFilter (toScored userLat userLng dir visionType) results))
    as [| s0 rest] eqn:Es; unfold acceptScored; intros H; [discriminate H |].
  simpl in Hhd. symmetry in Hhd.
  destruct (Rlt_dec (Scored.distance s0) (INR searchRadius)) as [Hd |];
    [| discriminate H].
  destruct (Rlt_dec 0.2 (Scored.score s0)) as [Hs |]; [| discriminate H].
  inversion H; subst p. exists s0.
  split; [left; reflexivity |]. split; [reflexivity |].
  split; [| split; [| exact Hs]].
  - intros s' Hs'. rewrite <- Es in Hs'. apply sortDesc_In in Hs'.
    apply (leftmostMax_max _ _ _ Hhd). exact Hs'.
  - unfold searchRadius in Hd. simpl in Hd. lra.
Qed.

Lemma strategy2_accepts (env : Env.t) (latitude longitude : R)
      (dir : Geo.Direction) (v : option VisionResult.t)
      (place : Place.t) (evs : list Http.Event) :
  strategy2 env latitude longitude dir v = (Some (Some place), evs) ->
  exists data results,
    Env.nearbySearch env latitude longitude searchRadius = Net.Ok data /\
    Net.results data = Some results /\
    acceptScored (placesWithScores latitude longitude dir (typeOf v) results)
    = Some place.
Proof.
  unfold strategy2, bind, call, ret.
  destruct (Env.nearbySearch env latitude longitude searchRadius)
    as [| st | data] eqn:En; try discriminate.
  destruct (String.eqb (Net.status data) "REQUEST_DENIED"); [discriminate |].
  destruct (Net.results data) as [[| r0 rs] |] eqn:Er; try discriminate.
  intros H. inversion H. exists data, (r0 :: rs). auto.
Qed.

(** C2.  Strategy B, for a request at [(userLat, userLng)] with tap
    direction [dir] and vision hint [v] (possibly absent).  (1) Each
    scored candidate is a usable candidate of the nearby reply, with its
    great-circle distance from the device and the initial bearing from
    the device to it: the angle from north, clockwise, in [(-180, 180]],
    of the direction in which the candidate lies, resolved in the
    horizontal plane at the device.  Its score is
    [distanceScore + 0.5 * directionScore + typeBonus], where
    [distanceScore = 1 / (1 + distance / 50)], [directionScore] is
    [1 - bearingDiff / 45] below 45 degrees and 0 otherwise, with
    [bearingDiff = |bearing - atan2 (dir.x, dir.z) in degrees|], and
    [typeBonus] is 0.3 exactly when the hint has a type and that type and
    one of the candidate's tags contain one another, and 0 otherwise.
    (2) Every usable candidate is scored.  (3) The place taken is that of
    a top-scoring candidate whose distance is below the 150 m radius and
    whose score exceeds 0.2.  (4) When the handler's strategy B yields a
    place, it was taken in that way from the reply of the nearby search
    with radius 150.  (5) [atan2 (dir.x, dir.z)] in degrees is the
    compass bearing of the tap direction, [z] counting as north and [x]
    as east. *)
Theorem strategy2_scoring (env : Env.t) (userLat userLng : R)
        (dir : Geo.Direction) (v : option VisionResult.t) :
  (forall results s,
      In s (placesWithScores userLat userLng dir (typeOf v) results) ->
      In (Scored.place s) results /\
      (exists placeLat placeLng,
          Spec.usable (Scored.place s) placeLat placeLng /\
          Scored.distance s = Spec.haversine userLat userLng placeLat placeLng /\
          Scored.bearing s = Geo.bearing userLat userLng placeLat placeLng /\
          Spec.initialBearing userLat userLng placeLat placeLng (Scored.bearing s)) /\
      (exists bonus,
          (bonus = 0.3 <-> Spec.typeBonusDue (typeOf v) (Place.types (Scored.place s))) /\
          (bonus = 0 <-> ~ Spec.typeBonusDue (typeOf v) (Place.types (Scored.place s))) /\
          Scored.score s =
          Spec.directionalScore
            (Scored.distance s)
            (Rabs (Scored.bearing s - Js.atan2 (Geo.dx dir) (Geo.dz dir) * 180 / PI))
            bonus)) /\
  (forall results place placeLat placeLng,
      In place results -> Spec.usable place placeLat placeLng ->
      exists s, In s (placesWithScores userLat userLng dir (typeOf v) results) /\
                Scored.place s = place) /\
  (forall results p,
      acceptScored (placesWithScores userLat userLng dir (typeOf v) results) = Some p ->
      exists s,
        In s (placesWithScores userLat userLng dir (typeOf v) results) /\
        Scored.place s = p /\
        (forall s', In s' (placesWithScores userLat userLng dir (typeOf v) results) ->
                    Scored.score s' <= Scored.score s) /\
        Scored.distance s < 150 /\
        0.2 < Scored.score s) /\
  (forall place evs,
      strategy2 env userLat userLng dir v = (Some (Some place), evs) ->
      exists data results s,
        Env.nearbySearch env userLat userLng 150 = Net.Ok data /\
        Net.results data = Some results /\
        In s (placesWithScores userLat userLng dir (typeOf v) results) /\
        Scored.place s = place /\
        (forall s', In s' (placesWithScores userLat userLng dir (typeOf v) results) ->
                    Scored.score s' <= Scored.score s) /\
        Scored.distance s < 150 /\
        0.2 < Scored.score s) /\
  Spec.compassBearing (Geo.dz dir) (Geo.dx dir)
                      (Js.atan2 (Geo.dx dir) (Geo.dz dir) * 180 / PI).
Proof.
  split; [| split; [| split; [| split]]].
  5: apply atan2_compass.
  - intros results s Hs. apply placesWithScores_In in Hs.
    destruct Hs as [place [Hin Hto]]. apply toScored_Some in Hto.
    destruct Hto as [la [ln [Hus ->]]].
    cbn [Scored.place Scored.distance Scored.bearing Scored.score].
    split; [exact Hin |].
    split; [exists la, ln; split; [exact Hus |];
            split; [apply distance_is_haversine |];
            split; [reflexivity | apply bearing_is_initial] |].
    exists (Spec.typeBonus (typeMatch (typeOf v) (Place.types place))).
    pose proof (typeMatch_spec (typeOf v) (Place.types place)) as Hspec.
    unfold Spec.directionalScore, Spec.distanceScore, Spec.directionScore,
      Spec.typeBonus, Geo.directionBearing.
    destruct (typeMatch (typeOf v) (Place.types place)).
    + split; [| split].
      * split; [intros _; apply Hspec; reflexivity | reflexivity].
      * split; [intros E; lra |].
        intros N. exfalso. apply N. apply Hspec. reflexivity.
      * cbv zeta. destruct (Rlt_dec _ 45); lra.
    + assert (Hnot : ~ Spec.typeBonusDue (typeOf v) (Place.types place)).
      { intros D. apply Hspec in D. discriminate D. }
      split; [| split].
      * split; [intros E; lra | intros D; contradiction].
      * split; [intros _; exact Hnot | reflexivity].
      * cbv zeta. destruct (Rlt_dec _ 45); lra.
  - intros results place la ln Hin Hus.
    eexists. split.
    + apply placesWithScores_In. exists place. split; [exact Hin |].
      apply toScored_Some. exists la, ln. split; [exact Hus | reflexivity].
    + reflexivity.
  - intros results p. apply acceptScored_top.
  - intros place evs H. apply strategy2_accepts in H.
    destruct H as [data [results [Hn [Hr Ha]]]].
    apply acceptScored_top in Ha. destruct Ha as [s [Hs [Hp [Htop [Hd Hsc]]]]].
    exists data, results, s. auto 7.
Qed.

(** The theorem at the San Francisco request, tapped at the centre of
    the screen: the candidate's tag contains the hint's type, so the
    bonus is 0.3, and the bearing scored is the initial bearing from the
    device to the candidate. *)
Lemma strategy2_scoring_witness :
  exists s bonus,
    In s (placesWithScores 37.7749 (-122.4194) (direction 0.5 0.5)
            (Some "attraction"%string) [ferryPlace]) /\
    bonus = 0.3 /\
    Spec.initialBearing 37.7749 (-122.4194) 37.7955 (-122.3937) (Scored.bearing s) /\
    Scored.score s =
    Spec.directionalScore (Scored.distance s)
      (Rabs (Scored.bearing s -
             Js.atan2 (Geo.dx (direction 0.5 0.5)) (Geo.dz (direction 0.5 0.5))
             * 180 / PI))
      bonus.
Proof.
  pose (hint := VisionResult.mk None None (Some "attraction"%string)
                                None None None None).
  destruct (strategy2_scoring silentEnv 37.7749 (-122.4194) (direction 0.5 0.5)
              (Some hint)) as [H1 [H2 _]].
  destruct (H2 [ferryPlace] ferryPlace _ _ (or_introl eq_refl) ferryPlace_usable)
    as [s [Hs Hp]].
  destruct (H1 _ s Hs) as [_ [[pla [plo [Hus [_ [_ Hb]]]]] [bonus [Hdue [_ Hsc]]]]].
  exists s, bonus. split; [exact Hs |]. split; [| split; [| exact Hsc]].
  - apply Hdue. rewrite Hp.
    exists "attraction"%string, ["tourist_attraction"%string],
      "tourist_attraction"%string.
    repeat split; try reflexivity; try discriminate.
    + left. reflexivity.
    + left. reflexivity.
  - rewrite Hp in Hus. destruct Hus as [Hla [Hlo _]].
    cbn [ferryPlace Place.lat Place.lng] in Hla, Hlo.
    inversion Hla. inversion Hlo. subst pla plo. exact Hb.
Defined.

(** ** Determinism of the selection *)

Lemma acceptMatch_head (l1 l2 : list Match.t) :
  hd_error l1 = hd_error l2 -> acceptMatch l1 = acceptMatch l2.
Proof.
  destruct l1 as [| a l1], l2 as [| b l2]; simpl; intros H;
    try discriminate; [reflexivity |].
  inversion H; subst. reflexivity.
Qed.

Lemma acceptScored_head (l1 l2 : list Scored.t) :
  hd_error l1 = hd_error l2 -> acceptScored l1 = acceptScored l2.
Proof.
  destruct l1 as [| a l1], l2 as [| b l2]; simpl; intros H;
    try discriminate; [reflexivity |].
  inversion H; subst. reflexivity.
Qed.

(** C8.  For a fixed candidate list and a fixed hint, the selection of
    either strategy is determined by its inputs alone.  The array each
    strategy sorts is a function of the inputs; the handler's sorted
    array is a stable descending rearrangement of it; and any two runs
    that sort it as [Array.prototype.sort] is specified to (descending by
    score, ties in input order) select the same candidate, whatever the
    sorting algorithm. *)
Theorem ranking_is_deterministic (userLat userLng : R) (dir : Geo.Direction)
        (v : option VisionResult.t) (results : list Place.t) :
  let scoredA := Js.mapFilter (toMatch userLat userLng (nameOf v)) results in
  let scoredB := Js.mapFilter (toScored userLat userLng dir (typeOf v)) results in
  (StableDescending Match.score scoredA (matches userLat userLng (nameOf v) results) /\
   forall run1 run2,
     StableDescending Match.score scoredA run1 ->
     StableDescending Match.score scoredA run2 ->
     acceptMatch run1 = acceptMatch run2) /\
  (StableDescending Scored.score scoredB
     (placesWithScores userLat userLng dir (typeOf v) results) /\
   forall run1 run2,
     StableDescending Scored.score scoredB run1 ->
     StableDescending Scored.score scoredB run2 ->
     acceptScored run1 = acceptScored run2).
Proof.
  cbv zeta. split; split.
  - apply sortDesc_stable.
  - intros run1 run2 H1 H2. apply acceptMatch_head.
    rewrite (stable_head _ _ _ H1), (stable_head _ _ _ H2). reflexivity.
  - apply sortDesc_stable.
  - intros run1 run2 H1 H2. apply acceptScored_head.
    rewrite (stable_head _ _ _ H1), (stable_head _ _ _ H2). reflexivity.
Qed.

End ScoringFacts.

(* ================================================================== *)
(** * Properties: lib/rateLimit.ts *)
(* ================================================================== *)

Section RateLimitFacts.

Import RateLimit.
Local Open Scope Z_scope.

(** The call that opens a window. *)
Lemma check_opens (now : Z) (id : string) (store : Store) :
  (store !! id = None \/ exists e, store !! id = Some e /\ resetAt e <= now) ->
  snd (checkRateLimit now id store) = windowResult now 0 /\
  fst (checkRateLimit now id store) !! id
  = Some (mkEntry 1 (now + RATE_LIMIT_WINDOW_MS)).
Proof.
  intros H. unfold checkRateLimit. cbv zeta.
  assert (Hfresh :
            forall s1 : Store,
              s1 !! id = Some (mkEntry 1 (now + RATE_LIMIT_WINDOW_MS)) ->
              (if (1000 <? size s1)%nat then cleanupExpiredEntries now s1 else s1) !! id
              = Some (mkEntry 1 (now + RATE_LIMIT_WINDOW_MS))).
  { intros s1 Hs1. destruct (1000 <? size s1)%nat; [| exact Hs1].
    unfold cleanupExpiredEntries. apply map_lookup_filter_Some. split; [exact Hs1 |].
    unfold expired. simpl. apply Z.leb_gt. unfold RATE_LIMIT_WINDOW_MS. lia. }
  destruct H as [Hn | [e [He Hexp]]].
  - rewrite Hn. simpl. split; [reflexivity |].
    apply Hfresh. apply lookup_insert_eq.
  - rewrite He. assert (Ex : expired now e = true)
      by (unfold expired; apply Z.leb_le; exact Hexp).
    rewrite Ex. simpl. split; [reflexivity |].
    apply Hfresh. apply lookup_insert_eq.
Qed.

(** A later call of the same client inside the window. *)
Lemma check_inside (now t0 j : Z) (id : string) (store : Store) :
  1 <= j ->
  now < t0 + RATE_LIMIT_WINDOW_MS ->
  store !! id = Some (mkEntry (Z.min j RATE_LIMIT_MAX_REQUESTS)
                              (t0 + RATE_LIMIT_WINDOW_MS)) ->
  snd (checkRateLimit now id store) = windowResult t0 j /\
  fst (checkRateLimit now id store) !! id
  = Some (mkEntry (Z.min (j + 1) RATE_LIMIT_MAX_REQUESTS)
                  (t0 + RATE_LIMIT_WINDOW_MS)) /\
  (allowed (snd (checkRateLimit now id store)) = false ->
   fst (checkRateLimit now id store) = store).
Proof.
  intros Hj Hnow Hs. unfold checkRateLimit. cbv zeta. rewrite Hs.
  assert (Ex : expired now (mkEntry (Z.min j RATE_LIMIT_MAX_REQUESTS)
                                    (t0 + RATE_LIMIT_WINDOW_MS)) = false)
    by (unfold expired; simpl; apply Z.leb_gt; exact Hnow).
  rewrite Ex. cbn [count resetAt]. unfold windowResult, RATE_LIMIT_MAX_REQUESTS in *.
  destruct (60 <=? Z.min j 60) eqn:E60.
  - apply Z.leb_le in E60. assert (60 <= j) by lia.
    assert (Ej : (j <? 60) = false) by (apply Z.ltb_ge; lia). rewrite Ej.
    cbn [fst snd]. split; [reflexivity |]. split; [| reflexivity].
    rewrite Hs. f_equal. f_equal. lia.
  - apply Z.leb_gt in E60. assert (j < 60) by lia.
    assert (Ej : (j <? 60) = true) by (apply Z.ltb_lt; lia). rewrite Ej.
    cbn [fst snd allowed remaining result_resetAt count resetAt].
    split; [f_equal; lia |]. split; [| discriminate].
    rewrite lookup_insert_eq. f_equal. f_equal. lia.
Qed.

(** A call of another client inside the window leaves the entry alone. *)
Lemma check_other (now : Z) (id id' : string) (store : Store) (e : RateLimitEntry) :
  id' <> id ->
  now < resetAt e ->
  store !! id = Some e ->
  fst (checkRateLimit now id' store) !! id = Some e.
Proof.
  intros Hne Hnow Hs. unfold checkRateLimit. cbv zeta.
  assert (Hfresh :
            forall s1 : Store,
              s1 !! id = Some e ->
              (if (1000 <? size s1)%nat then cleanupExpiredEntries now s1 else s1) !! id
              = Some e).
  { intros s1 Hs1. destruct (1000 <? size s1)%nat; [| exact Hs1].
    unfold cleanupExpiredEntries. apply map_lookup_filter_Some. split; [exact Hs1 |].
    unfold expired. simpl. apply Z.leb_gt. exact Hnow. }
  assert (Hins : forall x, (<[id' := x]> store) !! id = Some e)
    by (intros x; rewrite lookup_insert_ne; [exact Hs | exact Hne]).
  destruct (store !! id') as [e' |].
  - destruct (expired now e'); [apply Hfresh, Hins |].
    destruct (RATE_LIMIT_MAX_REQUESTS <=? count e'); [exact Hs | apply Hins].
  - apply Hfresh, Hins.
Qed.

Lemma checkAll_cons (now : Z) (id : string) (calls : list (Z * string))
      (store : Store) :
  snd (checkAll ((now, id) :: calls) store) =
  snd (checkRateLimit now id store)
  :: snd (checkAll calls (fst (checkRateLimit now id store))).
Proof.
  cbn [checkAll]. destruct (checkRateLimit now id store) as [s1 r].
  cbn [fst snd]. destruct (checkAll calls s1) as [s2 rs]. reflexivity.
Qed.

(** The rest of the window, from the [j]-th call of [id] on. *)
Lemma window_run (id : string) (t0 : Z) (calls : list (Z * string)) :
  forall (j : Z) (store : Store),
    1 <= j ->
    Forall (fun c => fst c < t0 + RATE_LIMIT_WINDOW_MS) calls ->
    store !! id = Some (mkEntry (Z.min j RATE_LIMIT_MAX_REQUESTS)
                                (t0 + RATE_LIMIT_WINDOW_MS)) ->
    resultsFor id calls (snd (checkAll calls store))
    = windowResults t0 j (callsBy id calls).
Proof.
  induction calls as [| [now id'] calls IH]; intros j store Hj Hall Hs.
  - reflexivity.
  - inversion Hall as [| ? ? Hnow Hrest]; subst. simpl in Hnow.
    rewrite checkAll_cons. cbn [resultsFor callsBy].
    destruct (String.eqb id' id) eqn:Eid.
    + apply String.eqb_eq in Eid. subst id'.
      destruct (check_inside now t0 j id store Hj Hnow Hs) as [Hr [Hst _]].
      cbn [windowResults]. rewrite Hr. f_equal.
      apply IH; [lia | exact Hrest | exact Hst].
    + apply String.eqb_neq in Eid.
      apply IH; [exact Hj | exact Hrest |].
      apply (check_other now id id' store _ Eid); [exact Hnow | exact Hs].
Qed.

Lemma windowResults_allowed (t0 : Z) (n : nat) :
  forall j, 0 <= j ->
    (List.length (List.filter allowed (windowResults t0 j n))
     <= Z.to_nat (RATE_LIMIT_MAX_REQUESTS - j))%nat.
Proof.
  unfold RATE_LIMIT_MAX_REQUESTS.
  induction n as [| n IH]; intros j Hj; cbn [windowResults List.filter].
  - simpl. lia.
  - specialize (IH (j + 1) ltac:(lia)). unfold windowResult at 1.
    unfold RATE_LIMIT_MAX_REQUESTS.
    destruct (j <? 60) eqn:Ej; cbn [allowed].
    + apply Z.ltb_lt in Ej. cbn [List.length]. lia.
    + apply Z.ltb_ge in Ej. lia.
Qed.

Lemma windowResults_shape (t0 : Z) (n : nat) (j : Z) :
  Forall (fun r => result_resetAt r = t0 + RATE_LIMIT_WINDOW_MS /\
                   (allowed r = false -> remaining r = 0))
         (windowResults t0 j n).
Proof.
  revert j. induction n as [| n IH]; intros j; cbn [windowResults];
    constructor; [| apply IH].
  unfold windowResult. destruct (j <? RATE_LIMIT_MAX_REQUESTS); simpl;
    split; try reflexivity; discriminate.
Qed.

(** A denial changes nothing and reports the window's own reset time. *)
Lemma check_denied (now : Z) (id : string) (store : Store) :
  allowed (snd (checkRateLimit now id store)) = false ->
  exists e,
    store !! id = Some e /\ now < resetAt e /\
    RATE_LIMIT_MAX_REQUESTS <= count e /\
    checkRateLimit now id store = (store, mkResult false 0 (resetAt e)).
Proof.
  unfold checkRateLimit. cbv zeta.
  destruct (store !! id) as [e |] eqn:He; [| simpl; discriminate].
  destruct (expired now e) eqn:Ex; [simpl; discriminate |].
  destruct (RATE_LIMIT_MAX_REQUESTS <=? count e) eqn:Ec; [| simpl; discriminate].
  intros _. exists e. unfold expired in Ex.
  apply Z.leb_gt in Ex. apply Z.leb_le in Ec. auto.
Qed.

(** C6.  A client whose call at [t0] opens a window (no entry, or an
    expired one), followed by any run of calls by any clients with clock
    readings before [t0 + 60000]: the client's calls are answered, in
    order, allowed with remaining 59, 58, ..., 0 and then denied with
    remaining 0, all with reset time [t0 + 60000]; so at most 60 are
    allowed.  And a request to the tap-context endpoint whose check is
    denied is answered 429, with remaining 0 and the entry's reset time,
    with the store unchanged, whatever the body and the services are,
    and with no call made: the body is not read. *)
Theorem rate_limit_window (id : string) (t0 : Z) (store : Store)
        (calls : list (Z * string)) :
  (store !! id = None \/ exists e, store !! id = Some e /\ resetAt e <= t0) ->
  Forall (fun c => fst c < t0 + RATE_LIMIT_WINDOW_MS) calls ->
  let answers :=
    resultsFor id ((t0, id) :: calls) (snd (checkAll ((t0, id) :: calls) store)) in
  answers = windowResults t0 0 (S (callsBy id calls)) /\
  (List.length (List.filter allowed answers) <= 60)%nat /\
  Forall (fun r => result_resetAt r = t0 + RATE_LIMIT_WINDOW_MS /\
                   (allowed r = false -> remaining r = 0)) answers /\
  (forall JSON_parse regexGroup showNumber toFixed env now nowGeo hdrs body st,
      allowed (snd (checkRateLimit now (getClientIdentifier hdrs) st)) = false ->
      exists e,
        st !! getClientIdentifier hdrs = Some e /\
        TapContext.POST JSON_parse regexGroup showNumber toFixed
                        env now nowGeo hdrs body st
        = (st,
           Http.mkResponse 429 (Some (Http.mkHeaders 60 0 (resetAt e)))
             (TapContext.Error "Rate limit exceeded"),
           [])).
Proof.
  intros Hopen Hall. cbv zeta.
  assert (E : resultsFor id ((t0, id) :: calls)
                (snd (checkAll ((t0, id) :: calls) store))
              = windowResults t0 0 (S (callsBy id calls))).
  { rewrite checkAll_cons. cbn [resultsFor]. rewrite String.eqb_refl.
    destruct (check_opens t0 id store Hopen) as [Hr Hst].
    cbn [windowResults]. rewrite Hr. f_equal.
    apply (window_run id t0 calls 1 _ ltac:(lia) Hall).
    rewrite Hst. reflexivity. }
  rewrite E. split; [reflexivity |]. split; [| split].
  - apply (windowResults_allowed t0 (S (callsBy id calls)) 0). lia.
  - apply windowResults_shape.
  - intros JSON_parse regexGroup showNumber toFixed env now nowGeo hdrs body st Hden.
    destruct (check_denied now _ st Hden) as [e [He [_ [_ Hck]]]].
    exists e. split; [exact He |].
    unfold TapContext.POST. rewrite Hck. reflexivity.
Qed.

(** The theorem at 61 calls of one client inside one window, on an empty
    store: the first 60 are allowed and the 61st is denied. *)
Lemma rate_limit_window_witness :
  let calls := repeat (1500, "203.0.113.7"%string) 60 in
  let answers :=
    resultsFor "203.0.113.7" ((1000, "203.0.113.7"%string) :: calls)
      (snd (checkAll ((1000, "203.0.113.7"%string) :: calls) ∅)) in
  List.map allowed answers = repeat true 60 ++ [false] /\
  (List.length (List.filter allowed answers) <= 60)%nat.
Proof.
  cbv zeta.
  destruct (rate_limit_window "203.0.113.7" 1000 ∅
              (repeat (1500, "203.0.113.7"%string) 60))
    as [E [Hle _]].
  - left. reflexivity.
  - apply List.Forall_forall. intros c Hc. apply repeat_spec in Hc. subst c.
    reflexivity.
  - cbv zeta in E, Hle. split; [| exact Hle].
    rewrite E. reflexivity.
Defined.

End RateLimitFacts.

(* ================================================================== *)
(** * Properties: the tap-context handler *)
(* ================================================================== *)

Section HandlerFacts.

Import TapContext Http.
Local Open Scope string_scope.

Variable JSON_parse : string -> option VisionResult.t.
Variable regexGroup : Pattern -> string -> option string.
Variable showNumber : R -> string.
Variable toFixed : nat -> R -> string.

(** A valid request that passes the limiter runs the vision step and then [resolve]. *)
Lemma POST_valid (env : Env.t) (now nowGeo : Z) (hdrs : RateLimit.Headers)
      (b : Body) (store store1 : RateLimit.Store)
      (rateLimit : RateLimit.RateLimitResult) (img : string) (tx ty : R) :
  passesLimit now hdrs store store1 rateLimit ->
  validBody b img tx ty ->
  let vision := visionStep JSON_parse regexGroup env img in
  let rest := resolve showNumber toFixed env nowGeo hdrs rateLimit
                      (latitude b) (longitude b) tx ty (fst vision) store1 in
  POST JSON_parse regexGroup showNumber toFixed env now nowGeo hdrs (Some b) store
  = (fst (fst rest), snd (fst rest), (ReadBody :: snd vision ++ snd rest)%list).
Proof.
  intros [Hck Hal] [Himg [Hne [Hsz [Htx Hty]]]]. cbv zeta.
  unfold POST. rewrite Hck, Hal. cbn [negb].
  assert (Ht : Js.truthy (image b) = true).
  { rewrite Himg. unfold Js.truthy. apply negb_true_iff.
    apply String.eqb_neq. exact Hne. }
  rewrite Ht, Himg, Htx, Hty, Hsz.
  destruct (visionStep JSON_parse regexGroup env img) as [v evs1].
  cbn [fst snd].
  destruct (resolve showNumber toFixed env nowGeo hdrs rateLimit
                    (latitude b) (longitude b) tx ty v store1) as [[s2 r] evs].
  reflexivity.
Qed.

(** ** The vision step *)

Lemma visionStep_events (env : Env.t) (img : string) (e : Event) :
  In e (snd (visionStep JSON_parse regexGroup env img)) ->
  e = CallGemini (base64Of img).
Proof.
  unfold visionStep. destruct (Env.requireKey env); [| intros []].
  destruct (Env.gemini env (base64Of img)) as [| st | data].
  1, 2: intros [<- | []]; reflexivity.
  destruct (Net.text data) as [t |].
  - destruct (String.eqb t ""); intros [<- | []]; reflexivity.
  - intros [<- | []]; reflexivity.
Qed.

Lemma visionStep_failure (env : Env.t) (img : string) :
  VisionFailure env img -> fst (visionStep JSON_parse regexGroup env img) = None.
Proof.
  unfold visionStep. intros [Hk | Hg | st Hg | data Hg Ht | data t Hg Ht Hm].
  - rewrite Hk. reflexivity.
  - destruct (Env.requireKey env); [rewrite Hg |]; reflexivity.
  - destruct (Env.requireKey env); [rewrite Hg |]; reflexivity.
  - destruct (Env.requireKey env); [rewrite Hg |]; [| reflexivity].
    destruct Ht as [-> | ->]; reflexivity.
  - destruct (Env.requireKey env); [rewrite Hg, Ht |]; [| reflexivity].
    destruct (String.eqb t ""); [reflexivity |].
    unfold parseVisionText. rewrite Hm. reflexivity.
Qed.

Lemma visionStep_unparsable (env : Env.t) (img : string) (data : Net.GeminiData)
      (t jsonMatch : string) :
  Env.requireKey env <> None ->
  Env.gemini env (base64Of img) = Net.Ok data ->
  Net.text data = Some t -> t <> "" ->
  matchBraces (stripFences (Js.trim t)) = Some jsonMatch ->
  JSON_parse jsonMatch = None ->
  fst (visionStep JSON_parse regexGroup env img)
  = Some (VisionResult.mk (extract regexGroup NameQuoted NameBare t)
                          (extract regexGroup DescriptionQuoted DescriptionBare t)
                          (extract regexGroup TypeQuoted TypeBare t)
                          None None None None).
Proof.
  intros Hk Hg Ht Hne Hm Hp. unfold visionStep.
  destruct (Env.requireKey env); [| contradiction].
  rewrite Hg, Ht. apply String.eqb_neq in Hne. rewrite Hne.
  unfold parseVisionText. rewrite Hm, Hp. reflexivity.
Qed.

(** ** Every answer of [resolve] is a 200 *)

Lemma placeBlock_cases (env : Env.t) (rateLimit : RateLimit.RateLimitResult)
      (la lo : R) (dir : Geo.Direction) (v : option VisionResult.t)
      (r : Response Json) (evs : list Event) :
  placeBlock showNumber env rateLimit la lo dir v = (Some (Some r), evs) ->
  (exists pid data d,
      fst (findPlaceId showNumber env la lo dir v) = Some (Some pid) /\
      pid <> "" /\
      Env.placeDetails env pid = Net.Ok data /\
      Net.result data = Some d /\
      r = respond rateLimit (enriched showNumber v d)) \/
  (exists vr,
      v = Some vr /\
      r = respond rateLimit (visionOnly vr (Js.join nl2 (visionDetailParts vr)))).
Proof.
  unfold placeBlock, bind, apiKey, ret.
  destruct (Env.requireKey env) as [k |]; [| discriminate].
  destruct (findPlaceId showNumber env la lo dir v) as [[placeId |] evs0];
    [| discriminate].
  destruct (Js.truthy placeId) eqn:Et.
  - destruct placeId as [pid |]; [| discriminate Et].
    cbn [Js.orStr]. unfold Js.truthy in Et. apply negb_true_iff in Et.
    rewrite Et. unfold call.
    destruct (Env.placeDetails env pid) as [| st | data] eqn:Ed; try discriminate.
    destruct (Net.result data) as [d |] eqn:Er; [| discriminate].
    intros H. inversion H; subst. left. exists pid, data, d.
    repeat split; auto. apply String.eqb_neq. exact Et.
  - destruct v as [vr |]; [| discriminate].
    intros H. inversion H; subst. right. exists vr. auto.
Qed.

Lemma resolve_status (env : Env.t) (nowGeo : Z) (hdrs : RateLimit.Headers)
      (rateLimit : RateLimit.RateLimitResult) (latitude longitude : option R)
      (tx ty : R) (v : option VisionResult.t) (store : RateLimit.Store) :
  status (snd (fst (resolve showNumber toFixed env nowGeo hdrs rateLimit
                            latitude longitude tx ty v store))) = 200%nat.
Proof.
  assert (Hlast : status (lastResort toFixed env rateLimit v latitude longitude tx ty)
                  = 200%nat) by (unfold lastResort; destruct v; reflexivity).
  unfold resolve. cbv zeta.
  destruct (located latitude longitude) as [[la lo] |]; [| exact Hlast].
  destruct (placeBlock showNumber env rateLimit la lo (direction tx ty) v)
    as [[[r |] |] evs2] eqn:Ep; cbn [tryCatch].
  - cbn [fst snd]. apply placeBlock_cases in Ep.
    destruct Ep as [[pid [data [d [_ [_ [_ [_ ->]]]]]]] | [vr [_ ->]]]; reflexivity.
  - unfold geoBlock.
    destruct (GeoContext.POST env nowGeo hdrs _ store) as [[s' g] evs].
    destruct (ok g); [| exact Hlast].
    destruct (json g) as [msg | [| p ps]]; try reflexivity;
      destruct v; try reflexivity; exact Hlast.
  - unfold geoBlock.
    destruct (GeoContext.POST env nowGeo hdrs _ store) as [[s' g] evs].
    destruct (ok g); [| exact Hlast].
    destruct (json g) as [msg | [| p ps]]; try reflexivity;
      destruct v; try reflexivity; exact Hlast.
Qed.

Lemma bind_In_l {A B : Type} (m : M A) (k : A -> M B) (e : Event) :
  In e (snd m) -> In e (snd (bind m k)).
Proof.
  unfold bind. destruct m as [[a |] evs]; cbn [snd]; [| auto].
  destruct (k a) as [b evs']. cbn [snd]. intros H. apply in_or_app. left. exact H.
Qed.

Lemma bind_In_r {A B : Type} (m : M A) (k : A -> M B) (a : A) (e : Event) :
  fst m = Some a -> In e (snd (k a)) -> In e (snd (bind m k)).
Proof.
  unfold bind. destruct m as [o evs]. cbn [fst]. intros ->.
  destruct (k a) as [b evs']. cbn [snd]. intros H. apply in_or_app. right. exact H.
Qed.

Lemma call_In {A : Type} (e : Event) (reply : Net.Fetch A) : In e (snd (call e reply)).
Proof. destruct reply; left; reflexivity. Qed.

(** Without a hint, and with a key, the place block makes the nearby
    search. *)
Lemma placeBlock_searches (env : Env.t) (rateLimit : RateLimit.RateLimitResult)
      (la lo : R) (dir : Geo.Direction) :
  Env.requireKey env <> None ->
  In (CallNearbySearch searchRadius)
     (snd (placeBlock showNumber env rateLimit la lo dir None)).
Proof.
  intros Hk. unfold placeBlock.
  destruct (Env.requireKey env) as [k |] eqn:Ek; [| contradiction].
  apply (bind_In_r _ _ k); [unfold apiKey; rewrite Ek; reflexivity |].
  apply bind_In_l. unfold findPlaceId.
  apply (bind_In_r _ _ None); [reflexivity |]. cbn [Js.truthy].
  apply bind_In_l. unfold strategy2. apply bind_In_l. apply call_In.
Qed.

Lemma resolve_searches (env : Env.t) (nowGeo : Z) (hdrs : RateLimit.Headers)
      (rateLimit : RateLimit.RateLimitResult) (latitude longitude : option R)
      (la lo tx ty : R) (store : RateLimit.Store) :
  Env.requireKey env <> None ->
  located latitude longitude = Some (la, lo) ->
  In (CallNearbySearch searchRadius)
     (snd (resolve showNumber toFixed env nowGeo hdrs rateLimit
                   latitude longitude tx ty None store)).
Proof.
  intros Hk Hloc. unfold resolve. cbv zeta. rewrite Hloc.
  pose proof (placeBlock_searches env rateLimit la lo (direction tx ty) Hk) as Hin.
  destruct (placeBlock showNumber env rateLimit la lo (direction tx ty) None)
    as [[[r |] |] evs2]; cbn [tryCatch snd] in *.
  - exact Hin.
  - destruct (geoBlock env nowGeo hdrs rateLimit la lo (direction tx ty) None store)
      as [[s2 [r |]] evs3]; cbn [snd]; apply in_or_app; left; exact Hin.
  - destruct (geoBlock env nowGeo hdrs rateLimit la lo (direction tx ty) None store)
      as [[s2 [r |]] evs3]; cbn [snd]; apply in_or_app; left; exact Hin.
Qed.


(** ** Enrichment *)


Lemma fst_bind_None {A B : Type} (m : M A) (k : A -> M B) :
  fst m = None -> fst (bind m k) = None.
Proof. unfold bind. destruct m as [o evs]. cbn [fst]. intros ->. reflexivity. Qed.





(** ** The last fallbacks *)




Lemma mockResponse_cases (env : Env.t) (latitude longitude : option R) (tx ty : R) :
  mockResponse toFixed env latitude longitude tx ty =
  match located latitude longitude with
  | None => locationRequired
  | Some (la, lo) =>
      if Js.truthy (Env.GOOGLE_API_KEY env) then nothingFound toFixed la lo else keyMissing
  end.
Proof.
  unfold mockResponse.
  destruct (located latitude longitude) as [[la lo] |]; [| reflexivity].
  destruct (Js.truthy (Env.GOOGLE_API_KEY env)); reflexivity.
Qed.



(** ** A zero coordinate *)

Lemma located_zero (latitude longitude : option R) :
  latitude = Some 0%R \/ longitude = Some 0%R ->
  located latitude longitude = None.
Proof.
  unfold located, Js.truthyNum. intros [-> | ->].
  - destruct (Req_dec_T 0 0) as [_ | N]; [reflexivity | contradiction N; reflexivity].
  - destruct latitude as [la |]; [| reflexivity].
    destruct (Req_dec_T la 0); [reflexivity |].
    destruct (Req_dec_T 0 0) as [_ | N]; [reflexivity | contradiction N; reflexivity].
Qed.

Lemma resolve_unlocated (env : Env.t) (nowGeo : Z) (hdrs : RateLimit.Headers)
      (rateLimit : RateLimit.RateLimitResult) (latitude longitude : option R)
      (tx ty : R) (v : option VisionResult.t) (store : RateLimit.Store) :
  located latitude longitude = None ->
  resolve showNumber toFixed env nowGeo hdrs rateLimit latitude longitude tx ty v store
  = (store,
     match v with
     | Some visionResult =>
         respond rateLimit
           (visionOnly visionResult (Js.orStr (VisionResult.details visionResult) ""))
     | None => respond rateLimit locationRequired
     end,
     []).
Proof.
  intros Hloc. unfold resolve. cbv zeta. rewrite Hloc. unfold lastResort.
  rewrite mockResponse_cases, Hloc. reflexivity.
Qed.

(** C10.  A request whose latitude or longitude is exactly 0 is handled
    as the same request without a location: (1) the handler's store,
    response and calls are those of the request with both coordinates
    removed; (2) the only calls made are reading the body and the vision
    call: no text search, no nearby search, no details request and no
    geo-context fallback; (3) when the request is valid, passes the rate
    limiter and yields no vision hint, the answer is the
    [Location Required] result. *)
Theorem zero_coordinate_is_no_location (env : Env.t) (now nowGeo : Z)
        (hdrs : RateLimit.Headers) (b : Body) (store : RateLimit.Store) :
  latitude b = Some 0%R \/ longitude b = Some 0%R ->
  POST JSON_parse regexGroup showNumber toFixed env now nowGeo hdrs (Some b) store
  = POST JSON_parse regexGroup showNumber toFixed env now nowGeo hdrs
         (Some (mkBody (image b) (tapX b) (tapY b) None None)) store /\
  (forall e,
      In e (snd (POST JSON_parse regexGroup showNumber toFixed
                      env now nowGeo hdrs (Some b) store)) ->
      e = ReadBody \/ exists i, e = CallGemini i) /\
  (forall store1 rateLimit img tx ty,
      passesLimit now hdrs store store1 rateLimit ->
      validBody b img tx ty ->
      fst (visionStep JSON_parse regexGroup env img) = None ->
      snd (fst (POST JSON_parse regexGroup showNumber toFixed
                     env now nowGeo hdrs (Some b) store))
      = mkResponse 200 (Some (rateHeaders rateLimit))
          (Resolved
             (mkResolution "Location Required"
                "Please enable location permissions to get real information about places you tap on."
                None None None 0.3%R None))).
Proof.
  intros Hzero. pose proof (located_zero _ _ Hzero) as Hloc.
  assert (Hnone : located None None = None) by reflexivity.
  split; [| split].
  - unfold POST. cbn [image tapX tapY latitude longitude].
    destruct (RateLimit.checkRateLimit now (RateLimit.getClientIdentifier hdrs) store)
      as [store1 rateLimit].
    destruct (negb (RateLimit.allowed rateLimit)); [reflexivity |].
    destruct (if Js.truthy (image b) then image b else None) as [img |];
      [| reflexivity].
    destruct (tapX b) as [tx |]; [| reflexivity].
    destruct (tapY b) as [ty |]; [| reflexivity].
    destruct (tooLarge img); [reflexivity |].
    destruct (visionStep JSON_parse regexGroup env img) as [v evs1].
    rewrite (resolve_unlocated env nowGeo hdrs rateLimit _ _ tx ty v store1 Hloc).
    rewrite (resolve_unlocated env nowGeo hdrs rateLimit _ _ tx ty v store1 Hnone).
    reflexivity.
  - unfold POST.
    destruct (RateLimit.checkRateLimit now (RateLimit.getClientIdentifier hdrs) store)
      as [store1 rateLimit].
    destruct (negb (RateLimit.allowed rateLimit)); [intros e [] |].
    assert (Hread : forall e, In e [ReadBody] ->
                              e = ReadBody \/ exists i, e = CallGemini i)
      by (intros e [<- | []]; left; reflexivity).
    destruct (if Js.truthy (image b) then image b else None) as [img |];
      [| apply Hread].
    destruct (tapX b) as [tx |]; [| apply Hread].
    destruct (tapY b) as [ty |]; [| apply Hread].
    destruct (tooLarge img); [apply Hread |].
    pose proof (visionStep_events env img) as Hev.
    destruct (visionStep JSON_parse regexGroup env img) as [v evs1].
    rewrite (resolve_unlocated env nowGeo hdrs rateLimit _ _ tx ty v store1 Hloc).
    cbn [snd] in *. intros e [<- | He]; [left; reflexivity |].
    rewrite app_nil_r in He. right. exists (base64Of img). apply Hev. exact He.
  - intros store1 rateLimit img tx ty Hpass Hvalid Hv.
    rewrite (POST_valid env now nowGeo hdrs b store store1 rateLimit img tx ty
               Hpass Hvalid).
    cbn [fst snd]. rewrite Hv.
    rewrite (resolve_unlocated env nowGeo hdrs rateLimit _ _ tx ty None store1 Hloc).
    reflexivity.
Qed.

End HandlerFacts.

(* ================================================================== *)
(** * Worked requests *)
(* ================================================================== *)

Section WorkedRequests.

Import TapContext Http.
Local Open Scope R_scope.


Lemma atan2_0_1 : Js.atan2 0 1 = 0.
Proof.
  unfold Js.atan2. destruct (Rlt_dec 0 1) as [_ | N]; [| exfalso; lra].
  replace (0 / 1) with 0 by lra. apply atan_0.
Qed.

(** The great-circle distance from a point to itself is zero. *)
Lemma distance_self (la lo : R) : Geo.distance la lo la lo = 0.
Proof.
  unfold Geo.distance. cbv zeta.
  replace ((la - la) * PI / 180) with 0 by (unfold Rdiv; ring).
  replace ((lo - lo) * PI / 180) with 0 by (unfold Rdiv; ring).
  replace (0 / 2) with 0 by lra. rewrite sin_0.
  replace (0 * 0 + cos (la * PI / 180) * cos (la * PI / 180) * 0 * 0) with 0 by ring.
  rewrite sqrt_0. replace (1 - 0) with 1 by ring. rewrite sqrt_1.
  rewrite atan2_0_1. ring.
Qed.



(** ** The concrete world of the examples *)

Local Open Scope string_scope.



Lemma firstCheck_passes :
  passesLimit 1000 noHeaders ∅ (fst firstCheck) (snd firstCheck).
Proof. split; reflexivity. Qed.


Lemma small_image : tooLarge "aGVsbG8=" = false.
Proof.
  unfold tooLarge, maxSizeBytes.
  destruct (Rlt_dec _ _) as [H | _]; [| reflexivity].
  exfalso. simpl in H. lra.
Qed.

Lemma tapAt_valid (tx ty : R) : validBody (tapAt tx ty) "aGVsbG8=" tx ty.
Proof.
  unfold validBody, tapAt. cbn [image tapX tapY].
  split; [reflexivity |]. split; [discriminate |].
  split; [apply small_image |]. split; reflexivity.
Qed.

Lemma tapAtEquator_valid (tx ty : R) : validBody (tapAtEquator tx ty) "aGVsbG8=" tx ty.
Proof.
  unfold validBody, tapAtEquator. cbn [image tapX tapY].
  split; [reflexivity |]. split; [discriminate |].
  split; [apply small_image |]. split; reflexivity.
Qed.








Lemma herePlace_usable : Spec.usable herePlace 37.7749%R (-122.4194)%R.
Proof. unfold Spec.usable, herePlace. simpl. repeat split; lra. Qed.




(** C10 at a tap from latitude 0. *)
Lemma zero_coordinate_is_no_location_witness :
  snd (fst (POST noParse noGroup showExample fixedExample
                 emptyWorld 1000 1001 noHeaders (Some (tapAtEquator 0.5 0.5)) ∅))
  = mkResponse 200 (Some (rateHeaders (snd firstCheck)))
      (Resolved
         (mkResolution "Location Required"
            "Please enable location permissions to get real information about places you tap on."
            None None None 0.3%R None)).
Proof.
  destruct (zero_coordinate_is_no_location noParse noGroup showExample fixedExample
              emptyWorld 1000 1001 noHeaders (tapAtEquator 0.5 0.5) ∅)
    as [_ [_ H3]].
  - left. reflexivity.
  - apply (H3 (fst firstCheck) (snd firstCheck) "aGVsbG8=" 0.5%R 0.5%R).
    + exact firstCheck_passes.
    + apply tapAtEquator_valid.
    + reflexivity.
Defined.

Lemma hereTwin_usable : Spec.usable hereTwin 37.7749%R (-122.4194)%R.
Proof. unfold Spec.usable, hereTwin. simpl. repeat split; lra. Qed.

(** C8 at a reply holding two candidates that tie: the handler's sorted
    array and the unsorted array of scored candidates, which is itself a
    stable descending arrangement, select the same candidate, the first
    of the two. *)
Lemma ranking_is_deterministic_witness :
  acceptMatch (matches 37.7749 (-122.4194) (Some "Ferry Building")
                       [herePlace; hereTwin])
  = acceptMatch (Js.mapFilter (toMatch 37.7749 (-122.4194) (Some "Ferry Building"))
                              [herePlace; hereTwin]) /\
  acceptMatch (matches 37.7749 (-122.4194) (Some "Ferry Building")
                       [herePlace; hereTwin])
  = Some herePlace.
Proof.
  destruct (ranking_is_deterministic 37.7749 (-122.4194) (direction 0.5 0.5)
              (Some ferryHint) [herePlace; hereTwin]) as [[Hs Hdet] _].
  cbn [nameOf ferryHint VisionResult.name] in Hs, Hdet.
  assert (E1 : exists m,
             toMatch 37.7749 (-122.4194) (Some "Ferry Building") herePlace = Some m /\
             Match.place m = herePlace /\ Match.distance m = 0%R /\
             Match.score m
             = (nameScoreOf (Some "Ferry Building") "Ferry Building" * 0.7 +
                (1 - Rmin (0 / 2000) 1) * 0.3)%R).
  { eexists. split; [apply toMatch_Some; exists 37.7749%R, (-122.4194)%R;
                     split; [exact herePlace_usable | reflexivity] |].
    cbn [Match.place Match.distance Match.score herePlace Place.name].
    rewrite distance_self. repeat split. }
  assert (E2 : exists m,
             toMatch 37.7749 (-122.4194) (Some "Ferry Building") hereTwin = Some m /\
             Match.score m
             = (nameScoreOf (Some "Ferry Building") "Ferry Building" * 0.7 +
                (1 - Rmin (0 / 2000) 1) * 0.3)%R).
  { eexists. split; [apply toMatch_Some; exists 37.7749%R, (-122.4194)%R;
                     split; [exact hereTwin_usable | reflexivity] |].
    cbn [Match.score hereTwin Place.name]. rewrite distance_self. reflexivity. }
  destruct E1 as [m1 [T1 [P1 [D1 S1]]]]. destruct E2 as [m2 [T2 S2]].
  assert (Hlist : Js.mapFilter (toMatch 37.7749 (-122.4194) (Some "Ferry Building"))
                               [herePlace; hereTwin] = [m1; m2])
    by (cbn [Js.mapFilter]; rewrite T1, T2; reflexivity).
  rewrite Hlist in *.
  assert (Hown : StableDescending Match.score [m1; m2] [m1; m2]).
  { split; [| reflexivity]. unfold Descending.
    apply SSorted_cons;
      [apply SSorted_cons; [apply SSorted_nil | apply List.Forall_nil] |].
    apply List.Forall_cons; [rewrite S1, S2; lra | apply List.Forall_nil]. }
  assert (Heq : acceptMatch (matches 37.7749 (-122.4194) (Some "Ferry Building")
                                     [herePlace; hereTwin])
                = acceptMatch [m1; m2])
    by (apply Hdet; [exact Hs | exact Hown]).
  split; [exact Heq |]. rewrite Heq. unfold acceptMatch. rewrite D1, P1.
  destruct (Rlt_dec 0 2000); [reflexivity | exfalso; lra].
Defined.

End WorkedRequests.

(* ================================================================== *)
(** * Further properties: lib/rateLimit.ts *)
(* ================================================================== *)

Section LimiterInvariants.

Import RateLimit.
Local Open Scope Z_scope.

Lemma cleanup_lookup (now : Z) (store : Store) (k : string) (e : RateLimitEntry) :
  cleanupExpiredEntries now store !! k = Some e <->
  store !! k = Some e /\ expired now e = false.
Proof. unfold cleanupExpiredEntries. apply map_lookup_filter_Some. Qed.

(** X1.  A rate-limit check never loses, alters or adds an entry of
    another client that is still inside its window.  When the check opens
    a window and the map then holds more than 1000 entries, every entry
    left is unexpired; a check inside a window sweeps nothing. *)
Theorem sweep_spares_live_entries (now : Z) (id : string) (store : Store) :
  let store' := fst (checkRateLimit now id store) in
  (forall k e, k <> id -> store !! k = Some e -> expired now e = false ->
               store' !! k = Some e) /\
  (forall k e, k <> id -> store' !! k = Some e -> store !! k = Some e) /\
  (opensWindow now id store = true ->
   (1000 < size (<[id := mkEntry 1 (now + RATE_LIMIT_WINDOW_MS)]> store))%nat ->
   forall k e, store' !! k = Some e -> expired now e = false) /\
  (opensWindow now id store = false ->
   forall k, k <> id -> store' !! k = store !! k).
Proof.
  cbv zeta. unfold checkRateLimit, opensWindow. cbv zeta.
  set (s1 := <[id := mkEntry 1 (now + RATE_LIMIT_WINDOW_MS)]> store).
  assert (Hs1 : forall k, k <> id -> s1 !! k = store !! k)
    by (intros k Hk; unfold s1; apply lookup_insert_ne; congruence).
  assert (Hfresh1 :
            forall k e, k <> id -> store !! k = Some e -> expired now e = false ->
              (if (1000 <? size s1)%nat then cleanupExpiredEntries now s1 else s1) !! k
              = Some e).
  { intros k e Hk Hs He. destruct (1000 <? size s1)%nat.
    - apply cleanup_lookup. split; [rewrite Hs1; assumption | exact He].
    - rewrite Hs1; assumption. }
  assert (Hfresh2 :
            forall k e, k <> id ->
              (if (1000 <? size s1)%nat then cleanupExpiredEntries now s1 else s1) !! k
              = Some e -> store !! k = Some e).
  { intros k e Hk. destruct (1000 <? size s1)%nat.
    - intros H. apply cleanup_lookup in H. destruct H as [H _].
      rewrite <- Hs1; assumption.
    - intros H. rewrite <- Hs1; assumption. }
  assert (Hfresh3 :
            (1000 < size s1)%nat ->
            forall k e,
              (if (1000 <? size s1)%nat then cleanupExpiredEntries now s1 else s1) !! k
              = Some e -> expired now e = false).
  { intros Hsz k e. apply Nat.ltb_lt in Hsz. rewrite Hsz.
    intros H. apply cleanup_lookup in H. tauto. }
  destruct (store !! id) as [entry |] eqn:Eid.
  - destruct (expired now entry) eqn:Ex.
    + cbn [fst]. repeat split; auto; discriminate.
    + destruct (RATE_LIMIT_MAX_REQUESTS <=? count entry); cbn [fst].
      * repeat split; auto; try discriminate.
      * repeat split; try discriminate.
        -- intros k e Hk Hs _. rewrite lookup_insert_ne; congruence.
        -- intros k e Hk. rewrite lookup_insert_ne; congruence.
        -- intros _ k Hk. rewrite lookup_insert_ne; congruence.
  - cbn [fst]. repeat split; auto; discriminate.
Qed.

Lemma check_wellFormed (now : Z) (id : string) (store : Store) :
  wellFormed store ->
  wellFormed (fst (checkRateLimit now id store)) /\
  0 <= remaining (snd (checkRateLimit now id store)) <= RATE_LIMIT_MAX_REQUESTS - 1 /\
  (allowed (snd (checkRateLimit now id store)) = false ->
   remaining (snd (checkRateLimit now id store)) = 0) /\
  now < result_resetAt (snd (checkRateLimit now id store)).
Proof.
  intros Hwf. unfold checkRateLimit. cbv zeta.
  set (s1 := <[id := mkEntry 1 (now + RATE_LIMIT_WINDOW_MS)]> store).
  assert (Hw1 : wellFormed s1).
  { intros k e. unfold s1. destruct (decide (k = id)) as [-> | Hk].
    - rewrite lookup_insert_eq. intros [= <-]. simpl.
      unfold RATE_LIMIT_MAX_REQUESTS. lia.
    - rewrite lookup_insert_ne by congruence. apply Hwf. }
  assert (Hw2 : wellFormed
                  (if (1000 <? size s1)%nat then cleanupExpiredEntries now s1 else s1)).
  { destruct (1000 <? size s1)%nat; [| exact Hw1].
    intros k e H. apply cleanup_lookup in H. destruct H as [H _].
    exact (Hw1 k e H). }
  assert (Hfresh :
            0 <= RATE_LIMIT_MAX_REQUESTS - 1 <= RATE_LIMIT_MAX_REQUESTS - 1 /\
            (true = false -> RATE_LIMIT_MAX_REQUESTS - 1 = 0) /\
            now < now + RATE_LIMIT_WINDOW_MS)
    by (unfold RATE_LIMIT_MAX_REQUESTS, RATE_LIMIT_WINDOW_MS;
        repeat split; try lia; discriminate).
  destruct (store !! id) as [entry |] eqn:Eid.
  - destruct (expired now entry) eqn:Ex.
    + cbn [fst snd allowed remaining result_resetAt]. split; [exact Hw2 | exact Hfresh].
    + pose proof (Hwf id entry Eid) as Hc.
      unfold expired in Ex. apply Z.leb_gt in Ex.
      destruct (RATE_LIMIT_MAX_REQUESTS <=? count entry) eqn:E60;
        cbn [fst snd allowed remaining result_resetAt count resetAt].
      * split; [exact Hwf |]. unfold RATE_LIMIT_MAX_REQUESTS.
        repeat split; try lia.
      * apply Z.leb_gt in E60. split.
        -- intros k e. destruct (decide (k = id)) as [-> | Hk].
           ++ rewrite lookup_insert_eq. intros [= <-]. simpl. lia.
           ++ rewrite lookup_insert_ne by congruence. apply Hwf.
        -- unfold RATE_LIMIT_MAX_REQUESTS in *. repeat split; try lia; discriminate.
  - cbn [fst snd allowed remaining result_resetAt]. split; [exact Hw2 | exact Hfresh].
Qed.

(** X2.  Starting from a store whose counters lie between 1 and 60, any
    run of checks keeps them there; every answer reports between 0 and 59
    requests remaining, 0 when it refuses, and a reset time strictly
    after the clock reading of the call. *)
Theorem counters_stay_within_budget (calls : list (Z * string)) (store : Store) :
  wellFormed store ->
  wellFormed (fst (checkAll calls store)) /\
  Forall (fun r => 0 <= remaining r <= RATE_LIMIT_MAX_REQUESTS - 1 /\
                   (allowed r = false -> remaining r = 0))
         (snd (checkAll calls store)) /\
  Forall2 (fun c r => fst c < result_resetAt r) calls (snd (checkAll calls store)).
Proof.
  revert store. induction calls as [| [now id] rest IH]; intros store Hwf.
  - simpl. split; [exact Hwf | split; constructor].
  - pose proof (check_wellFormed now id store Hwf) as [Hw [Hr [Ha Ht]]].
    cbn [checkAll].
    destruct (checkRateLimit now id store) as [s1 r] eqn:E1.
    cbn [fst snd] in Hw, Hr, Ha, Ht.
    specialize (IH s1 Hw). destruct (checkAll rest s1) as [s2 rs] eqn:E2.
    cbn [fst snd] in IH |- *. destruct IH as [IH1 [IH2 IH3]].
    split; [exact IH1 |]. split.
    + apply List.Forall_cons; [split; assumption | exact IH2].
    + constructor; [exact Ht | exact IH3].
Qed.

Lemma counters_stay_within_budget_witness :
  Forall (fun r => 0 <= remaining r <= RATE_LIMIT_MAX_REQUESTS - 1 /\
                   (allowed r = false -> remaining r = 0))
         (snd (checkAll [(1000, "203.0.113.7"%string); (1500, "203.0.113.7"%string)] ∅)).
Proof.
  refine (proj1 (proj2 (counters_stay_within_budget
                          [(1000, "203.0.113.7"%string); (1500, "203.0.113.7"%string)]
                          ∅ _))).
  intros id e H. rewrite lookup_empty in H. discriminate H.
Defined.

Lemma beforeComma_prefix (f : string) :
  exists rest, f = (beforeComma f ++ rest)%string.
Proof.
  induction f as [| c r [rest IH]].
  - exists EmptyString. reflexivity.
  - simpl. destruct (Ascii.eqb c ","%char).
    + exists (String c r). reflexivity.
    + exists rest. exact (f_equal (String c) IH).
Qed.

Lemma beforeComma_no_comma (f : string) :
  Js.includes (beforeComma f) "," = false.
Proof.
  induction f as [| c r IH]; [reflexivity |].
  simpl. destruct (Ascii.eqb c ","%char) eqn:E; [reflexivity |].
  cbn [Js.includes Js.startsWith]. rewrite Ascii.eqb_sym, E. simpl. exact IH.
Qed.

(** X3.  The client identifier is never empty.  When the first
    comma-separated piece of [x-forwarded-for] is not empty it is the
    identifier: a prefix of the header that holds no comma.  Otherwise
    the identifier is [x-real-ip] if that is set and not empty, and the
    text [unknown] if not. *)
Theorem client_identifier_shape (h : Headers) :
  getClientIdentifier h <> ""%string /\
  (forall f, x_forwarded_for h = Some f -> beforeComma f <> ""%string ->
     getClientIdentifier h = beforeComma f /\
     (exists rest, f = (getClientIdentifier h ++ rest)%string) /\
     Js.includes (getClientIdentifier h) "," = false) /\
  ((x_forwarded_for h = None \/
    exists f, x_forwarded_for h = Some f /\ beforeComma f = ""%string) ->
   (forall ip, x_real_ip h = Some ip -> ip <> ""%string -> getClientIdentifier h = ip) /\
   (x_real_ip h = None \/ x_real_ip h = Some ""%string ->
    getClientIdentifier h = "unknown"%string)).
Proof.
  unfold getClientIdentifier, orElse.
  destruct h as [fw ip]. cbn [x_forwarded_for x_real_ip].
  split; [| split].
  - destruct fw as [f |]; cbn [option_map].
    + destruct (String.eqb (beforeComma f) "") eqn:E.
      * destruct ip as [i |]; [| discriminate].
        destruct (String.eqb i "") eqn:Ei; [discriminate |].
        apply String.eqb_neq in Ei. exact Ei.
      * apply String.eqb_neq in E. exact E.
    + destruct ip as [i |]; [| discriminate].
      destruct (String.eqb i "") eqn:Ei; [discriminate |].
      apply String.eqb_neq in Ei. exact Ei.
  - intros f [= ->] Hne. cbn [option_map].
    apply String.eqb_neq in Hne. rewrite Hne.
    split; [reflexivity |]. split; [apply beforeComma_prefix | apply beforeComma_no_comma].
  - intros Hfw.
    assert (Hfall : match option_map beforeComma fw with
                    | Some s => if String.eqb s "" then
                                  match ip with
                                  | Some s0 => if String.eqb s0 "" then "unknown"%string else s0
                                  | None => "unknown"%string
                                  end
                                else s
                    | None => match ip with
                              | Some s0 => if String.eqb s0 "" then "unknown"%string else s0
                              | None => "unknown"%string
                              end
                    end
                    = match ip with
                      | Some s0 => if String.eqb s0 "" then "unknown"%string else s0
                      | None => "unknown"%string
                      end).
    { destruct Hfw as [-> | [f [-> Hf]]]; cbn [option_map]; [reflexivity |].
      rewrite Hf. reflexivity. }
    rewrite Hfall. split.
    + intros i [= ->] Hi. apply String.eqb_neq in Hi. rewrite Hi. reflexivity.
    + intros [-> | ->]; reflexivity.
Qed.

End LimiterInvariants.

(* ================================================================== *)
(** * Further properties: lib/confidenceSmoothing.ts *)
(* ================================================================== *)

Section SmootherWindow.

Import ConfidenceSmoothing.
Local Open Scope Q_scope.

Lemma lastn_short {A : Type} (n : nat) (l : list A) :
  (List.length l <= n)%nat -> lastn n l = l.
Proof.
  intros H. unfold lastn. replace (List.length l - n)%nat with 0%nat by lia.
  reflexivity.
Qed.

Lemma lastn_length {A : Type} (n : nat) (l : list A) :
  (List.length (lastn n l) <= n)%nat.
Proof. unfold lastn. rewrite List.length_skipn. lia. Qed.

Lemma lastn_lastn_app {A : Type} (n : nat) (l m : list A) :
  lastn n (lastn n l ++ m) = lastn n (l ++ m).
Proof.
  destruct (Nat.le_gt_cases (List.length l) n) as [Hle | Hgt].
  - rewrite (lastn_short n l Hle). reflexivity.
  - unfold lastn. rewrite !List.length_app, List.length_skipn.
    rewrite !List.skipn_app, List.length_skipn, List.skipn_skipn.
    f_equal; f_equal; lia.
Qed.

Lemma smooth_history (s : ConfidenceSmoother) (v : Q) :
  (List.length (history s) <= maxHistorySize)%nat ->
  history (fst (smooth s v)) = lastn maxHistorySize (history s ++ [clamp v]).
Proof.
  unfold smooth, maxHistorySize. cbv zeta. cbn [fst history]. fold (clamp v).
  intros H.
  destruct (history s) as [| a [| b [| c [| d [| e [| f l]]]]]];
    try reflexivity.
  simpl in H. lia.
Qed.

Lemma smoothAll_history (inputs : list Q) :
  forall s : ConfidenceSmoother,
    (List.length (history s) <= maxHistorySize)%nat ->
    history (fst (smoothAll s inputs))
    = lastn maxHistorySize (history s ++ List.map clamp inputs).
Proof.
  induction inputs as [| v vs IH]; intros s Hs.
  - cbn [smoothAll fst List.map]. rewrite List.app_nil_r.
    symmetry. apply lastn_short. exact Hs.
  - cbn [smoothAll]. pose proof (smooth_history s v Hs) as H1.
    destruct (smooth s v) as [s1 r] eqn:E1. cbn [fst] in H1.
    assert (Hs1 : (List.length (history s1) <= maxHistorySize)%nat)
      by (rewrite H1; apply lastn_length).
    specialize (IH s1 Hs1). destruct (smoothAll s1 vs) as [s2 rs] eqn:E2.
    cbn [fst] in IH |- *. rewrite IH, H1, lastn_lastn_app.
    rewrite <- List.app_assoc. reflexivity.
Qed.

Lemma smooth_nonempty (s : ConfidenceSmoother) (v : Q) :
  history (fst (smooth s v)) <> [].
Proof.
  unfold smooth. cbv zeta. cbn [fst history].
  destruct (history s) as [| a l].
  - simpl. discriminate.
  - destruct (maxHistorySize <? List.length ((a :: l) ++ [_]))%nat.
    + simpl. destruct l; discriminate.
    + discriminate.
Qed.

(** X4.  After any sequence of [smooth] calls on a new smoother the
    history is the clamped values of the last five calls, so it never
    holds more than five entries, and the value the next call returns is
    the moving average of the last five clamped inputs: older inputs have
    no influence.  On any smoother, [getCurrent] after a call of [smooth]
    is the value that call returned; after [reset] it is 0, and the next
    [smooth] returns its clamped argument. *)
Theorem history_is_last_five (inputs : list Q) :
  let s := fst (smoothAll new inputs) in
  history s = lastn maxHistorySize (List.map clamp inputs) /\
  (List.length (history s) <= maxHistorySize)%nat /\
  (forall v,
      snd (smooth s v)
      = exponentialMovingAverage
          (lastn maxHistorySize (List.map clamp (inputs ++ [v])))) /\
  (forall (s0 : ConfidenceSmoother) (v : Q),
      getCurrent (fst (smooth s0 v)) = snd (smooth s0 v) /\
      getCurrent (reset s0) = 0 /\
      snd (smooth (reset s0) v) = clamp v /\
      history (fst (smooth (reset s0) v)) = [clamp v]).
Proof.
  cbv zeta.
  assert (H0 : (List.length (history new) <= maxHistorySize)%nat)
    by (unfold new, maxHistorySize; simpl; lia).
  pose proof (smoothAll_history inputs new H0) as H. cbn [new history app] in H.
  assert (HL : (List.length (history (fst (smoothAll new inputs)))
                <= maxHistorySize)%nat)
    by (rewrite H; apply lastn_length).
  split; [exact H |]. split; [exact HL |]. split.
  - intros v.
    pose proof (smooth_history (fst (smoothAll new inputs)) v HL) as Hv.
    change (snd (smooth (fst (smoothAll new inputs)) v))
      with (exponentialMovingAverage
              (history (fst (smooth (fst (smoothAll new inputs)) v)))).
    rewrite Hv, H, lastn_lastn_app, List.map_app. reflexivity.
  - intros s0 v. split; [| repeat split; reflexivity].
    pose proof (smooth_nonempty s0 v) as Hne.
    unfold getCurrent.
    change (snd (smooth s0 v))
      with (exponentialMovingAverage (history (fst (smooth s0 v)))).
    destruct (history (fst (smooth s0 v))); [contradiction | reflexivity].
Qed.





End SmootherWindow.

(* ================================================================== *)
(** * Further properties: the geodesy and the scores of the two routes *)
(* ================================================================== *)

Section GeodesyRanges.

Import TapContext.
Local Open Scope R_scope.

Lemma atan2_first_quadrant (y x : R) :
  0 <= y -> 0 <= x -> 0 <= Js.atan2 y x <= PI / 2.
Proof.
  intros Hy Hx. pose proof PI_RGT_0 as Hpi. unfold Js.atan2.
  destruct (Rlt_dec 0 x) as [Hpos |].
  - pose proof (atan_bound (y / x)) as [_ Hub].
    assert (Hq : 0 <= y / x)
      by (unfold Rdiv; apply Rmult_le_pos; [exact Hy |];
          left; apply Rinv_0_lt_compat; exact Hpos).
    split; [| lra].
    destruct Hq as [Hq | Hq].
    + pose proof (atan_increasing 0 (y / x) Hq) as H. rewrite atan_0 in H. lra.
    + rewrite <- Hq, atan_0. lra.
  - destruct (Rlt_dec x 0); [lra |].
    destruct (Rlt_dec 0 y); [lra |].
    destruct (Rlt_dec y 0); lra.
Qed.

Lemma distance_term_bounds (userLat userLng placeLat placeLng : R) :
  let dLat := (placeLat - userLat) * PI / 180 in
  let dLng := (placeLng - userLng) * PI / 180 in
  let a := sin (dLat / 2) * sin (dLat / 2) +
           cos (userLat * PI / 180) * cos (placeLat * PI / 180) *
           sin (dLng / 2) * sin (dLng / 2) in
  0 <= a <= 1.
Proof.
  cbv zeta.
  pose proof (haversine_term_bounds (userLat * PI / 180) (placeLat * PI / 180)
                ((placeLng - userLng) * PI / 180 / 2)) as H.
  cbv zeta in H.
  replace ((placeLat * PI / 180 - userLat * PI / 180) / 2)
    with ((placeLat - userLat) * PI / 180 / 2) in H by (unfold Rdiv; ring).
  exact H.
Qed.

Lemma distance_range (userLat userLng placeLat placeLng : R) :
  0 <= Geo.distance userLat userLng placeLat placeLng <= 6371000 * PI.
Proof.
  pose proof (distance_term_bounds userLat userLng placeLat placeLng) as Ha.
  unfold Geo.distance. cbv zeta in Ha |- *.
  set (a := sin ((placeLat - userLat) * PI / 180 / 2) *
            sin ((placeLat - userLat) * PI / 180 / 2) +
            cos (userLat * PI / 180) * cos (placeLat * PI / 180) *
            sin ((placeLng - userLng) * PI / 180 / 2) *
            sin ((placeLng - userLng) * PI / 180 / 2)) in *.
  pose proof (atan2_first_quadrant (sqrt a) (sqrt (1 - a))
                (sqrt_pos a) (sqrt_pos (1 - a))) as [H0 H1].
  split; lra.
Qed.

Lemma distance_sym (userLat userLng placeLat placeLng : R) :
  Geo.distance userLat userLng placeLat placeLng
  = Geo.distance placeLat placeLng userLat userLng.
Proof.
  unfold Geo.distance. cbv zeta.
  replace ((userLat - placeLat) * PI / 180 / 2)
    with (- ((placeLat - userLat) * PI / 180 / 2)) by (unfold Rdiv; ring).
  replace ((userLng - placeLng) * PI / 180 / 2)
    with (- ((placeLng - userLng) * PI / 180 / 2)) by (unfold Rdiv; ring).
  rewrite !sin_neg.
  set (s1 := sin ((placeLat - userLat) * PI / 180 / 2)).
  set (s2 := sin ((placeLng - userLng) * PI / 180 / 2)).
  set (c1 := cos (userLat * PI / 180)). set (c2 := cos (placeLat * PI / 180)).
  replace (- s1 * - s1 + c2 * c1 * - s2 * - s2)
    with (s1 * s1 + c1 * c2 * s2 * s2) by ring.
  reflexivity.
Qed.

(** X6.  The distance both routes compute is never negative and never
    more than half the circumference of the sphere; it is the same in
    both directions, and 0 from a point to itself. *)
Theorem distance_is_bounded_and_symmetric (userLat userLng placeLat placeLng : R) :
  0 <= Geo.distance userLat userLng placeLat placeLng <= 6371000 * PI /\
  Geo.distance userLat userLng placeLat placeLng
  = Geo.distance placeLat placeLng userLat userLng /\
  Geo.distance userLat userLng userLat userLng = 0.
Proof.
  split; [apply distance_range |]. split; [apply distance_sym | apply distance_self].
Qed.












End GeodesyRanges.

(* ================================================================== *)
(** * Further properties: app/api/geo-context/route.ts *)
(* ================================================================== *)

Section GeoContextFacts.

Import GeoContext Http.
Local Open Scope R_scope.

Lemma Descending_firstn {A : Type} (key : A -> R) (n : nat) (l : list A) :
  Descending key l -> Descending key (firstn n l).
Proof.
  unfold Descending. revert n. induction l as [| a l IH]; intros n H.
  - rewrite List.firstn_nil. constructor.
  - destruct n as [| n]; [constructor |]. cbn [firstn].
    inversion H as [| ? ? Hs Hf]; subst. constructor; [apply IH; exact Hs |].
    apply List.Forall_forall. intros x Hx.
    rewrite List.Forall_forall in Hf. apply Hf.
    rewrite <- (List.firstn_skipn n l). apply List.in_or_app. left. exact Hx.
Qed.

Lemma In_firstn {A : Type} (n : nat) (l : list A) (x : A) :
  In x (firstn n l) -> In x l.
Proof.
  intros H. rewrite <- (List.firstn_skipn n l). apply List.in_or_app. left. exact H.
Qed.

Lemma rankedPlaces_In (latitude longitude : R) (direction : Geo.Direction)
      (results : list Place.t) (g : GeoPlace) :
  In g (rankedPlaces latitude longitude direction results) ->
  exists place, In place (firstn 10 results) /\
                rank latitude longitude direction place = Some g.
Proof.
  unfold rankedPlaces. intros H. apply In_firstn in H.
  apply sortDesc_In in H. apply mapFilter_In in H. exact H.
Qed.

(** X10.  The list the geo-context route returns has at most five
    places, in descending order of confidence; each is the ranking of one
    of the first ten search results, and the first of the list has the
    greatest confidence of all that the first ten results yield. *)
Theorem ranked_places_shape (latitude longitude : R) (direction : Geo.Direction)
        (results : list Place.t) :
  let places := rankedPlaces latitude longitude direction results in
  (List.length places <= 5)%nat /\
  Descending confidence places /\
  (forall g, In g places ->
     exists place, In place (firstn 10 results) /\
                   rank latitude longitude direction place = Some g) /\
  (forall place g, In place (firstn 10 results) ->
     rank latitude longitude direction place = Some g ->
     exists best rest, places = best :: rest /\ confidence g <= confidence best).
Proof.
  cbv zeta. split; [apply List.firstn_le_length |]. split; [| split].
  - unfold rankedPlaces. apply Descending_firstn.
    exact (proj1 (sortDesc_stable confidence _)).
  - intros g Hg. apply rankedPlaces_In. exact Hg.
  - intros place g Hp Hr. unfold rankedPlaces.
    set (cands := Js.mapFilter (rank latitude longitude direction) (firstn 10 results)).
    assert (Hg : In g (Js.sortDesc confidence cands)).
    { apply sortDesc_In. apply mapFilter_In. exists place. split; assumption. }
    pose proof (proj1 (sortDesc_stable confidence cands)) as Hd.
    unfold Descending in Hd.
    destruct (Js.sortDesc confidence cands) as [| best rest]; [contradiction |].
    exists best, (firstn 4 rest). split; [reflexivity |].
    inversion Hd as [| ? ? _ Hf]; subst. destruct Hg as [<- | Hg]; [lra |].
    rewrite List.Forall_forall in Hf. apply Hf. exact Hg.
Qed.

Lemma rank_range (latitude longitude : R) (direction : Geo.Direction)
      (place : Place.t) (g : GeoPlace) :
  rank latitude longitude direction place = Some g ->
  (forall r, Place.rating place = Some r -> 0 <= r <= 5) ->
  0.12 <= confidence g <= 1 /\ 0 <= distance g.
Proof.
  unfold rank. intros H Hr.
  destruct (Js.truthyNum (Place.lat place) && Js.truthyNum (Place.lng place));
    [| discriminate H].
  destruct (Place.lat place) as [pla |]; [| discriminate H].
  destruct (Place.lng place) as [plo |]; [| discriminate H].
  cbv zeta in H. inversion H; subst g; clear H. cbn [confidence distance].
  pose proof (distance_range latitude longitude pla plo) as [Hd _].
  set (d := Geo.distance latitude longitude pla plo) in *.
  pose proof (Rmax_l 0.3 (1 - d / 1000)) as M1.
  assert (M2 : Rmax 0.3 (1 - d / 1000) <= 1) by (apply Rmax_lub; lra).
  set (diff := Rabs (Geo.bearing latitude longitude pla plo -
                     Geo.directionBearing direction)).
  assert (Hdiff : 0 <= diff) by apply Rabs_pos.
  pose proof (Rmin_r (diff / 90) 1) as D1.
  assert (D0 : 0 <= Rmin (diff / 90) 1) by (apply Rmin_glb; lra).
  match goal with
  | |- context [Rmax _ _ * 0.4 + ?m * 0.3 + _] =>
      assert (HR : 0 <= m <= 1);
        [destruct (Place.rating place) as [r |]; [| lra];
         specialize (Hr r eq_refl); destruct (Req_dec_T r 0); lra
        | set (ratingScore := m) in * ]
  end.
  split; [split; lra | exact Hd].
Qed.



Lemma geoPOST_valid_reply (env : Env.t) (now : Z) (hdrs : RateLimit.Headers)
        (store store1 : RateLimit.Store) (rateLimit : RateLimit.RateLimitResult)
        (la lo : R) (dir : Geo.Direction) :
  passesLimit now hdrs store store1 rateLimit ->
  outOfRange la lo = false ->
  let out := POST env now hdrs (Some (mkBody (Some la) (Some lo) (Some dir))) store in
  exists places,
    fst out = (store1, mkResponse 200 (Some (rateHeaders rateLimit)) (Places places)) /\
    (List.length places <= 5)%nat /\
    (Env.requireKey env = None -> places = [] /\ snd out = [ReadBody]) /\
    (Env.requireKey env <> None -> snd out = [ReadBody; CallNearbySearch 500]) /\
    (forall data r0 rs,
        Env.requireKey env <> None ->
        Env.nearbySearch env la lo 500 = Net.Ok data ->
        Net.status data = "OK"%string ->
        Net.results data = Some (r0 :: rs) ->
        places = rankedPlaces la lo dir (r0 :: rs)) /\
    ((Env.nearbySearch env la lo 500 = Net.Throws \/
      (exists st, Env.nearbySearch env la lo 500 = Net.NotOk st) \/
      (exists data, Env.nearbySearch env la lo 500 = Net.Ok data /\
                    (Net.status data <> "OK"%string \/
                     Net.results data = None \/ Net.results data = Some []))) ->
     places = []).
Proof.
  intros [Hcheck Hallowed] Hrange. cbv zeta. unfold POST.
  rewrite Hcheck, Hallowed. cbn [negb body_latitude body_longitude body_direction].
  rewrite Hrange.
  destruct (Env.requireKey env) as [k |] eqn:Ek.
  - destruct (Env.nearbySearch env la lo 500) as [| st | data] eqn:En.
    + exists []. cbn [fst snd]. split; [reflexivity |]. split; [simpl; lia |].
      split; [discriminate |]. split; [reflexivity |].
      split; [intros ? ? ? _ H; discriminate H | reflexivity].
    + exists []. cbn [fst snd]. split; [reflexivity |]. split; [simpl; lia |].
      split; [discriminate |]. split; [reflexivity |].
      split; [intros ? ? ? _ H; discriminate H | reflexivity].
    + destruct (Net.results data) as [[| r0 rs] |] eqn:Er.
      * exists []. cbn [fst snd]. split; [reflexivity |]. split; [simpl; lia |].
        split; [discriminate |]. split; [reflexivity |].
        split; [| reflexivity].
        intros d r0' rs' _ Hd _ H. inversion Hd; subst d.
        rewrite Er in H. discriminate H.
      * destruct (String.eqb (Net.status data) "OK") eqn:Es.
        -- exists (rankedPlaces la lo dir (r0 :: rs)). cbn [fst snd].
           split; [reflexivity |].
           split; [unfold rankedPlaces; apply List.firstn_le_length |].
           split; [discriminate |]. split; [reflexivity |]. split.
           ++ intros d r0' rs' _ Hd _ Hres. inversion Hd; subst d.
              rewrite Er in Hres. inversion Hres; subst. reflexivity.
           ++ apply String.eqb_eq in Es.
              intros [H | [[st H] | [d [Hd [H | [H | H]]]]]];
                try discriminate H; inversion Hd; subst d;
                  [contradiction | rewrite Er in H; discriminate H
                   | rewrite Er in H; discriminate H].
        -- exists []. cbn [fst snd]. split; [reflexivity |]. split; [simpl; lia |].
           split; [discriminate |]. split; [reflexivity |]. split; [| reflexivity].
           intros d r0' rs' _ Hd Hs _. inversion Hd; subst d.
           apply String.eqb_neq in Es. contradiction.
      * exists []. cbn [fst snd]. split; [reflexivity |]. split; [simpl; lia |].
        split; [discriminate |]. split; [reflexivity |].
        split; [| reflexivity].
        intros d r0' rs' _ Hd _ H. inversion Hd; subst d.
        rewrite Er in H. discriminate H.
  - exists []. cbn [fst snd]. split; [reflexivity |]. split; [simpl; lia |].
    split; [intros _; split; reflexivity |]. split; [intros H; contradiction |].
    split; [intros ? ? ? H; contradiction | reflexivity].
Qed.

(** X12.  Once the limiter lets a request through and the body names a
    position inside the coordinate ranges, the geo-context route answers
    200 with a list of at most five places and the rate-limit headers,
    whatever the Places service does.  Without the API key it makes no
    search; a search that throws, is not OK, reports a status other than
    OK, or holds no result yields the empty list. *)
Theorem geo_context_fails_soft (env : Env.t) (now : Z) (hdrs : RateLimit.Headers)
        (store store1 : RateLimit.Store) (rateLimit : RateLimit.RateLimitResult)
        (la lo : R) (dir : Geo.Direction) :
  passesLimit now hdrs store store1 rateLimit ->
  outOfRange la lo = false ->
  let out := POST env now hdrs (Some (mkBody (Some la) (Some lo) (Some dir))) store in
  exists places,
    fst out = (store1, mkResponse 200 (Some (rateHeaders rateLimit)) (Places places)) /\
    (List.length places <= 5)%nat /\
    (Env.requireKey env = None -> places = [] /\ snd out = [ReadBody]) /\
    (Env.requireKey env <> None -> snd out = [ReadBody; CallNearbySearch 500]) /\
    (forall data r0 rs,
        Env.requireKey env <> None ->
        Env.nearbySearch env la lo 500 = Net.Ok data ->
        Net.status data = "OK"%string ->
        Net.results data = Some (r0 :: rs) ->
        places = rankedPlaces la lo dir (r0 :: rs)) /\
    ((Env.nearbySearch env la lo 500 = Net.Throws \/
      (exists st, Env.nearbySearch env la lo 500 = Net.NotOk st) \/
      (exists data, Env.nearbySearch env la lo 500 = Net.Ok data /\
                    (Net.status data <> "OK"%string \/
                     Net.results data = None \/ Net.results data = Some []))) ->
     places = []).
Proof. exact (geoPOST_valid_reply env now hdrs store store1 rateLimit la lo dir). Qed.

Lemma outOfRange_false (la lo : R) :
  outOfRange la lo = false <-> -90 <= la <= 90 /\ -180 <= lo <= 180.
Proof.
  unfold outOfRange.
  destruct (Rlt_dec la (-90)), (Rlt_dec 90 la), (Rlt_dec lo (-180)),
    (Rlt_dec 180 lo); cbn [orb]; split; intros H;
    try discriminate H; try reflexivity; try lra.
Qed.

Lemma geo_context_fails_soft_witness :
  exists places,
    fst (POST keylessWorld 1000 noHeaders
              (Some (mkBody (Some 37.7749) (Some (-122.4194))
                            (Some (TapContext.direction 0.5 0.5)))) ∅)
    = (fst firstCheck,
       mkResponse 200 (Some (rateHeaders (snd firstCheck))) (Places places)) /\
    (List.length places <= 5)%nat.
Proof.
  destruct (geo_context_fails_soft keylessWorld 1000 noHeaders ∅
              (fst firstCheck) (snd firstCheck) 37.7749 (-122.4194)
              (TapContext.direction 0.5 0.5) firstCheck_passes)
    as [places [H1 [H2 _]]].
  - apply outOfRange_false. lra.
  - exists places. split; [exact H1 | exact H2].
Defined.

(** X13.  The geo-context route answers 400 to a body whose latitude or
    longitude is not a number or whose direction is missing, and to a
    position outside [-90, 90] by [-180, 180]; the bounds themselves are
    accepted.  A rejected request has been counted by the limiter and
    makes no search. *)
Theorem geo_context_validates (env : Env.t) (now : Z) (hdrs : RateLimit.Headers)
        (b : Body) (store store1 : RateLimit.Store)
        (rateLimit : RateLimit.RateLimitResult) :
  passesLimit now hdrs store store1 rateLimit ->
  (body_latitude b = None \/ body_longitude b = None \/ body_direction b = None ->
   POST env now hdrs (Some b) store
   = (store1, mkResponse 400 None (Error "Location and direction required"),
      [ReadBody])) /\
  (forall la lo dir,
      b = mkBody (Some la) (Some lo) (Some dir) ->
      (la < -90 \/ 90 < la \/ lo < -180 \/ 180 < lo ->
       POST env now hdrs (Some b) store
       = (store1, mkResponse 400 None (Error "Invalid coordinates"), [ReadBody])) /\
      (-90 <= la <= 90 -> -180 <= lo <= 180 ->
       status (snd (fst (POST env now hdrs (Some b) store))) = 200%nat)) /\
  POST env now hdrs None store
  = (store1, mkResponse 500 None (Error "Geo lookup failed"), [ReadBody]).
Proof.
  intros [Hcheck Hallowed]. split; [| split].
  - intros H. unfold POST. rewrite Hcheck, Hallowed. cbn [negb].
    destruct (body_latitude b), (body_longitude b), (body_direction b);
      try reflexivity; destruct H as [H | [H | H]]; discriminate H.
  - intros la lo dir ->. split.
    + intros H. unfold POST. rewrite Hcheck, Hallowed.
      cbn [negb body_latitude body_longitude body_direction].
      destruct (outOfRange la lo) eqn:E; [reflexivity |].
      apply outOfRange_false in E. exfalso. lra.
    + intros Hla Hlo.
      assert (E : outOfRange la lo = false) by (apply outOfRange_false; split; assumption).
      destruct (geoPOST_valid_reply env now hdrs store store1 rateLimit la lo dir
                  (conj Hcheck Hallowed) E) as [places [H _]].
      cbv zeta in H. rewrite H. reflexivity.
  - unfold POST. rewrite Hcheck, Hallowed. reflexivity.
Qed.

Lemma geo_context_validates_witness :
  POST emptyWorld 1000 noHeaders
       (Some (mkBody (Some 91) (Some 0) (Some (TapContext.direction 0.5 0.5)))) ∅
  = (fst firstCheck, mkResponse 400 None (Error "Invalid coordinates"), [ReadBody]).
Proof.
  refine (proj1 (proj1 (proj2 (geo_context_validates emptyWorld 1000 noHeaders
                          (mkBody (Some 91) (Some 0) (Some (TapContext.direction 0.5 0.5)))
                          ∅ (fst firstCheck) (snd firstCheck) firstCheck_passes))
                   91 0 (TapContext.direction 0.5 0.5) eq_refl) _).
  right. left. lra.
Defined.

End GeoContextFacts.

(* ================================================================== *)
(** * Further properties: app/api/tap-context/route.ts *)
(* ================================================================== *)

Section TapContextLadder.

Import TapContext Http.
Local Open Scope string_scope.

Variable JSON_parse : string -> option VisionResult.t.
Variable regexGroup : Pattern -> string -> option string.
Variable showNumber : R -> string.
Variable toFixed : nat -> R -> string.

Lemma tooLarge_threshold (img : string) :
  tooLarge img = true <-> (6990507 <= Z.of_nat (String.length img))%Z.
Proof.
  unfold tooLarge, maxSizeBytes. rewrite INR_IZR_INZ.
  set (z := Z.of_nat (String.length img)).
  destruct (Rlt_dec (5 * 1024 * 1024) (IZR z * 3 / 4)) as [H | H]; split; intros H'.
  - assert (H3 : (IZR 20971520 < IZR (3 * z))%R) by (rewrite mult_IZR; lra).
    apply lt_IZR in H3. lia.
  - reflexivity.
  - discriminate H'.
  - exfalso. apply H. apply IZR_le in H'. lra.
Qed.

(** X14.  Validation by the tap-context route.  A body without an image,
    with an empty image, or whose [tapX] or [tapY] is not a number is
    answered 400; so is an image of 6,990,507 characters or more (more
    than 5 MB once decoded), and no shorter one.  A body that cannot be
    read is answered 500.  In each case the request has been counted by
    the limiter and nothing but the body has been read. *)
Theorem tap_context_validates (env : Env.t) (now nowGeo : Z) (hdrs : RateLimit.Headers)
        (b : Body) (store store1 : RateLimit.Store)
        (rateLimit : RateLimit.RateLimitResult) :
  passesLimit now hdrs store store1 rateLimit ->
  (image b = None \/ image b = Some "" \/ tapX b = None \/ tapY b = None ->
   POST JSON_parse regexGroup showNumber toFixed env now nowGeo hdrs (Some b) store
   = (store1, mkResponse 400 None (Error "Image and tap coordinates required"),
      [ReadBody])) /\
  (forall img tx ty,
      image b = Some img -> img <> "" -> tapX b = Some tx -> tapY b = Some ty ->
      ((6990507 <= Z.of_nat (String.length img))%Z ->
       POST JSON_parse regexGroup showNumber toFixed env now nowGeo hdrs (Some b) store
       = (store1, mkResponse 400 None (Error "Frame too large"), [ReadBody])) /\
      ((Z.of_nat (String.length img) < 6990507)%Z ->
       status (snd (fst (POST JSON_parse regexGroup showNumber toFixed
                              env now nowGeo hdrs (Some b) store))) = 200%nat)) /\
  POST JSON_parse regexGroup showNumber toFixed env now nowGeo hdrs None store
  = (store1, mkResponse 500 None (Error "Context lookup failed"), [ReadBody]).
Proof.
  intros Hpass. pose proof Hpass as [Hck Hal]. split; [| split].
  - intros H. unfold POST. rewrite Hck, Hal. cbn [negb].
    destruct (image b) as [img |] eqn:Ei.
    + destruct (String.eqb img "") eqn:Ee.
      * unfold Js.truthy. rewrite Ee. reflexivity.
      * unfold Js.truthy. rewrite Ee. cbn [negb].
        apply String.eqb_neq in Ee.
        destruct (tapX b), (tapY b); try reflexivity.
        destruct H as [H | [H | [H | H]]]; try discriminate H.
        inversion H. contradiction.
    + reflexivity.
  - intros img tx ty Hi Hne Hx Hy. split.
    + intros Hbig. apply tooLarge_threshold in Hbig.
      unfold POST. rewrite Hck, Hal. cbn [negb].
      rewrite Hi, Hx, Hy. unfold Js.truthy.
      apply String.eqb_neq in Hne. rewrite Hne. cbn [negb]. rewrite Hbig. reflexivity.
    + intros Hsmall.
      assert (Hs : tooLarge img = false).
      { destruct (tooLarge img) eqn:E; [| reflexivity].
        apply tooLarge_threshold in E. lia. }
      rewrite (POST_valid JSON_parse regexGroup showNumber toFixed env now nowGeo hdrs
                 b store store1 rateLimit img tx ty Hpass
                 (conj Hi (conj Hne (conj Hs (conj Hx Hy))))).
      cbn [fst snd]. apply resolve_status.
  - unfold POST. rewrite Hck, Hal. reflexivity.
Qed.

End TapContextLadder.

Lemma tap_context_validates_witness :
  TapContext.POST noParse noGroup showExample fixedExample emptyWorld 1000 1001 noHeaders
       (Some (TapContext.mkBody (Some ""%string) (Some 0.5%R) (Some 0.5%R) None None)) ∅
  = (fst firstCheck,
     Http.mkResponse 400 None (TapContext.Error "Image and tap coordinates required"),
     [Http.ReadBody]).
Proof.
  refine (proj1 (tap_context_validates noParse noGroup showExample fixedExample
                   emptyWorld 1000 1001 noHeaders _ ∅ (fst firstCheck) (snd firstCheck)
                   firstCheck_passes) _).
  right. left. reflexivity.
Defined.

Section FormattingFacts.

Import TapContext.
Local Open Scope string_scope.

Lemma strlen_app (a b : string) :
  String.length (a ++ b) = (String.length a + String.length b)%nat.
Proof. induction a as [| c a IH]; [reflexivity |]. exact (f_equal S IH). Qed.

Lemma append_nil_r (a : string) : a ++ "" = a.
Proof. induction a as [| c a IH]; [reflexivity |]. exact (f_equal (String c) IH). Qed.

Lemma append_assoc (a b c : string) : (a ++ b) ++ c = a ++ (b ++ c).
Proof. induction a as [| x a IH]; [reflexivity |]. exact (f_equal (String x) IH). Qed.

Lemma splitCharFrom_nonempty (sep : ascii) (s cur : string) :
  Js.splitCharFrom sep cur s <> [].
Proof.
  revert cur. induction s as [| c r IH]; intros cur; cbn [Js.splitCharFrom].
  - discriminate.
  - destruct (Ascii.eqb c sep); [discriminate | apply IH].
Qed.

Lemma join_cons (sep p : string) (l : list string) :
  l <> [] -> Js.join sep (p :: l) = p ++ sep ++ Js.join sep l.
Proof. destruct l; [contradiction | reflexivity]. Qed.

(** Splitting at a character and joining with it gives the text back. *)
Lemma join_splitCharFrom (sep : ascii) (s cur : string) :
  Js.join (String sep "") (Js.splitCharFrom sep cur s) = cur ++ s.
Proof.
  revert cur. induction s as [| c r IH]; intros cur; cbn [Js.splitCharFrom].
  - cbn [Js.join]. symmetry. apply append_nil_r.
  - destruct (Ascii.eqb c sep) eqn:E.
    + apply Ascii.eqb_eq in E. subst c.
      rewrite join_cons by apply splitCharFrom_nonempty.
      rewrite IH. reflexivity.
    + rewrite IH. rewrite append_assoc. reflexivity.
Qed.

Lemma capitalize_length (w : string) :
  String.length (capitalize w) = String.length w.
Proof. destruct w; reflexivity. Qed.

Lemma join_map_length (sep : string) (l : list string) :
  String.length (Js.join sep (List.map capitalize l))
  = String.length (Js.join sep l).
Proof.
  induction l as [| p l IH]; [reflexivity |].
  destruct l as [| q l].
  - cbn [List.map Js.join]. apply capitalize_length.
  - change (List.map capitalize (p :: q :: l))
      with (capitalize p :: List.map capitalize (q :: l)).
    rewrite !join_cons by (cbn [List.map]; discriminate).
    rewrite !strlen_app, IH, capitalize_length. reflexivity.
Qed.

Lemma mapChars_length (f : ascii -> ascii) (s : string) :
  String.length (Js.mapChars f s) = String.length s.
Proof. induction s as [| c s IH]; [reflexivity |]. simpl. rewrite IH. reflexivity. Qed.

Lemma formatType_length (s : string) :
  String.length (formatType s) = String.length s.
Proof.
  unfold formatType. rewrite join_map_length. unfold Js.splitChar.
  rewrite join_splitCharFrom. exact (mapChars_length _ s).
Qed.

Lemma formatType_nonempty (s : string) : s <> "" -> formatType s <> "".
Proof.
  intros Hs H. pose proof (formatType_length s) as HL. rewrite H in HL.
  destruct s; [contradiction | discriminate HL].
Qed.

Lemma orStr_nonempty (a : option string) (b : string) :
  b <> "" -> Js.orStr a b <> "".
Proof.
  intros Hb. unfold Js.orStr. destruct a as [s |]; [| exact Hb].
  destruct (String.eqb s "") eqn:E; [exact Hb |]. apply String.eqb_neq. exact E.
Qed.


End FormattingFacts.

Section TapContextAnswers.

Import TapContext Http.
Local Open Scope string_scope.

Variable JSON_parse : string -> option VisionResult.t.
Variable regexGroup : Pattern -> string -> option string.
Variable showNumber : R -> string.
Variable toFixed : nat -> R -> string.


Lemma enriched_titled (v : option VisionResult.t) (d : DetailedPlace.t) :
  title (enriched showNumber v d) <> "" /\ subtitle (enriched showNumber v d) <> "".
Proof.
  unfold enriched. cbn [title subtitle]. split.
  - apply orStr_nonempty, orStr_nonempty. discriminate.
  - apply formatType_nonempty, orStr_nonempty, orStr_nonempty. discriminate.
Qed.

Lemma visionOnly_titled (vr : VisionResult.t) (detailsText : string) :
  title (visionOnly vr detailsText) <> "" /\ subtitle (visionOnly vr detailsText) <> "".
Proof.
  unfold visionOnly, visionSubtitle. cbn [title subtitle]. split.
  - apply orStr_nonempty. discriminate.
  - destruct (VisionResult.type vr) as [t0 |]; [| discriminate].
    unfold Js.truthy. destruct (String.eqb t0 "") eqn:E; cbn [negb]; [discriminate |].
    apply formatType_nonempty. apply String.eqb_neq. exact E.
Qed.

Lemma placeCard_titled (v : option VisionResult.t) (g : GeoContext.GeoPlace) :
  title (placeCard v g) <> "" /\ subtitle (placeCard v g) <> "".
Proof.
  unfold placeCard. cbv zeta. cbn [title subtitle]. split.
  - apply orStr_nonempty, orStr_nonempty. discriminate.
  - apply formatType_nonempty, orStr_nonempty, orStr_nonempty. discriminate.
Qed.

Lemma mockResponse_titled (env : Env.t) (latitude longitude : option R) (tx ty : R) :
  title (mockResponse toFixed env latitude longitude tx ty) <> "" /\
  subtitle (mockResponse toFixed env latitude longitude tx ty) <> "".
Proof.
  rewrite (mockResponse_cases toFixed).
  destruct (located latitude longitude) as [[la lo] |].
  - destruct (Js.truthy (Env.GOOGLE_API_KEY env)); split; discriminate.
  - split; discriminate.
Qed.




End TapContextAnswers.


Section CallBudget.

Import TapContext Http.
Local Open Scope string_scope.

Variable JSON_parse : string -> option VisionResult.t.
Variable regexGroup : Pattern -> string -> option string.
Variable showNumber : R -> string.
Variable toFixed : nat -> R -> string.

Lemma countKind_app (k : Kind) (a b : list Event) :
  countKind k (a ++ b) = (countKind k a + countKind k b)%nat.
Proof. unfold countKind. rewrite List.filter_app, List.length_app. reflexivity. Qed.

Lemma countKind_cons (k : Kind) (e : Event) (l : list Event) :
  countKind k (e :: l) = (callsOf (kindOf e) k + countKind k l)%nat.
Proof.
  unfold countKind, callsOf. cbn [List.filter].
  destruct (sameKind (kindOf e) k); reflexivity.
Qed.

Lemma bind_count {A B : Type} (k : Kind) (m : M A) (kf : A -> M B) (a b : nat) :
  (countKind k (snd m) <= a)%nat ->
  (forall x, countKind k (snd (kf x)) <= b)%nat ->
  (countKind k (snd (bind m kf)) <= a + b)%nat.
Proof.
  intros Hm Hk. unfold bind. destruct m as [[x |] evs]; cbn [snd] in *.
  - specialize (Hk x). destruct (kf x) as [y evs']. cbn [snd] in *.
    rewrite countKind_app. lia.
  - lia.
Qed.

Lemma call_count {A : Type} (k : Kind) (e : Event) (reply : Net.Fetch A) :
  countKind k (snd (call e reply)) = callsOf (kindOf e) k.
Proof.
  destruct reply; cbn [call snd]; rewrite countKind_cons; unfold countKind; simpl; lia.
Qed.

Lemma textSearchLoop_count (k : Kind) (env : Env.t) (la lo : R)
      (visionName : option string) (queries : list string) :
  (countKind k (snd (textSearchLoop env la lo visionName queries))
   <= List.length queries * callsOf TextSearch k)%nat.
Proof.
  induction queries as [| q rest IH]; [simpl; unfold countKind; simpl; lia |].
  cbn [textSearchLoop List.length].
  replace (S (List.length rest) * callsOf TextSearch k)%nat
    with (callsOf TextSearch k + List.length rest * callsOf TextSearch k)%nat by lia.
  apply bind_count.
  - rewrite call_count. cbn [kindOf]. lia.
  - intros [data |]; [| exact IH].
    destruct (String.eqb (Net.status data) "REQUEST_DENIED" ||
              String.eqb (Net.status data) "ZERO_RESULTS");
      [unfold countKind; simpl; lia |].
    destruct (Net.results data) as [[| r0 rs] |]; try exact IH.
    destruct (acceptMatch (matches la lo visionName (r0 :: rs)));
      [unfold countKind; simpl; lia | exact IH].
Qed.

Lemma findPlaceId_count (k : Kind) (env : Env.t) (la lo : R) (dir : Geo.Direction)
      (v : option VisionResult.t) :
  (countKind k (snd (findPlaceId showNumber env la lo dir v))
   <= 3 * callsOf TextSearch k + callsOf NearbySearch k)%nat.
Proof.
  unfold findPlaceId. apply bind_count.
  - unfold strategy1. destruct v as [r |]; [| unfold countKind; simpl; lia].
    destruct (Js.truthy (VisionResult.name r)); [| unfold countKind; simpl; lia].
    apply (textSearchLoop_count k env la lo (VisionResult.name r)
             (searchQueries showNumber r la lo)).
  - intros found1.
    destruct (Js.truthy match found1 with
                        | Some place => Place.place_id place
                        | None => None
                        end); [unfold countKind; simpl; lia |].
    replace (callsOf NearbySearch k) with (callsOf NearbySearch k + 0)%nat by lia.
    apply bind_count; [| intros x; unfold countKind; simpl; lia].
    unfold strategy2.
    replace (callsOf NearbySearch k) with (callsOf NearbySearch k + 0)%nat by lia.
    apply bind_count; [rewrite call_count; cbn [kindOf]; lia |].
    intros [data |]; [| unfold countKind; simpl; lia].
    destruct (String.eqb (Net.status data) "REQUEST_DENIED");
      [unfold countKind; simpl; lia |].
    destruct (Net.results data) as [[| r0 rs] |]; unfold countKind; simpl; lia.
Qed.

Lemma sameKind_refl (k : Kind) : sameKind k k = true.
Proof. destruct k; reflexivity. Qed.

Lemma countKind_In (e : Event) (evs : list Event) :
  In e evs -> (1 <= countKind (kindOf e) evs)%nat.
Proof.
  induction evs as [| x evs IH]; [contradiction |].
  intros [-> | H]; rewrite countKind_cons.
  - unfold callsOf. rewrite sameKind_refl. lia.
  - specialize (IH H). lia.
Qed.

Lemma strategy1_count (k : Kind) (env : Env.t) (la lo : R)
      (v : option VisionResult.t) :
  (countKind k (snd (strategy1 showNumber env la lo v)) <= 3 * callsOf TextSearch k)%nat.
Proof.
  unfold strategy1. destruct v as [r |]; [| unfold countKind; simpl; lia].
  destruct (Js.truthy (VisionResult.name r)); [| unfold countKind; simpl; lia].
  apply (textSearchLoop_count k env la lo (VisionResult.name r)
           (searchQueries showNumber r la lo)).
Qed.

(** Strategy 1 makes text searches only. *)
Lemma strategy1_kinds (env : Env.t) (la lo : R) (v : option VisionResult.t) (e : Event) :
  In e (snd (strategy1 showNumber env la lo v)) -> kindOf e = TextSearch.
Proof.
  intros H. apply countKind_In in H.
  pose proof (strategy1_count (kindOf e) env la lo v) as Hc.
  unfold callsOf in Hc.
  destruct (kindOf e); cbn [sameKind] in Hc; auto; lia.
Qed.

(** The two strategies make text searches and nearby searches only. *)
Lemma findPlaceId_kinds (env : Env.t) (la lo : R) (dir : Geo.Direction)
      (v : option VisionResult.t) (e : Event) :
  In e (snd (findPlaceId showNumber env la lo dir v)) ->
  kindOf e = TextSearch \/ kindOf e = NearbySearch.
Proof.
  intros H. apply countKind_In in H.
  pose proof (findPlaceId_count (kindOf e) env la lo dir v) as Hc.
  unfold callsOf in Hc.
  destruct (kindOf e); cbn [sameKind] in Hc; auto; lia.
Qed.

Lemma placeBlock_count (k : Kind) (env : Env.t) (rateLimit : RateLimit.RateLimitResult)
      (la lo : R) (dir : Geo.Direction) (v : option VisionResult.t) :
  (countKind k (snd (placeBlock showNumber env rateLimit la lo dir v))
   <= 3 * callsOf TextSearch k + callsOf NearbySearch k + callsOf DetailsCall k)%nat.
Proof.
  unfold placeBlock.
  replace (3 * callsOf TextSearch k + callsOf NearbySearch k + callsOf DetailsCall k)%nat
    with (0 + ((3 * callsOf TextSearch k + callsOf NearbySearch k) + callsOf DetailsCall k))%nat
    by lia.
  apply bind_count.
  - unfold apiKey. destruct (Env.requireKey env); unfold countKind; simpl; lia.
  - intros _. apply bind_count; [apply findPlaceId_count |].
    intros placeId. destruct (Js.truthy placeId).
    + replace (callsOf DetailsCall k) with (callsOf DetailsCall k + 0)%nat by lia.
      apply bind_count; [rewrite call_count; cbn [kindOf]; lia |].
      intros [data |]; [| unfold countKind; simpl; lia].
      destruct (Net.result data); unfold countKind; simpl; lia.
    + destruct v; unfold countKind; simpl; lia.
Qed.

Lemma geoPOST_count (k : Kind) (env : Env.t) (now : Z) (hdrs : RateLimit.Headers)
      (body : option GeoContext.Body) (store : RateLimit.Store) :
  (countKind k (snd (GeoContext.POST env now hdrs body store))
   <= callsOf BodyRead k + callsOf NearbySearch k)%nat.
Proof.
  unfold GeoContext.POST.
  destruct (RateLimit.checkRateLimit now (RateLimit.getClientIdentifier hdrs) store)
    as [s1 rl].
  destruct (negb (RateLimit.allowed rl)); [unfold countKind; simpl; lia |].
  destruct body as [b |]; [| cbn [snd]; rewrite countKind_cons; unfold countKind; simpl; lia].
  destruct (GeoContext.body_latitude b), (GeoContext.body_longitude b),
    (GeoContext.body_direction b);
    try (cbn [snd]; rewrite countKind_cons; unfold countKind; simpl; lia).
  destruct (GeoContext.outOfRange r r0);
    [cbn [snd]; rewrite countKind_cons; unfold countKind; simpl; lia |].
  destruct (Env.requireKey env);
    [| cbn [snd]; rewrite countKind_cons; unfold countKind; simpl; lia].
  destruct (Env.nearbySearch env r r0 500) as [| st | data];
    try (cbn [snd]; rewrite !countKind_cons; unfold countKind; simpl; lia).
  destruct (Net.results data) as [[| r0' rs] |];
    try (cbn [snd]; rewrite !countKind_cons; unfold countKind; simpl; lia).
  destruct (String.eqb (Net.status data) "OK");
    cbn [snd]; rewrite !countKind_cons; unfold countKind; simpl; lia.
Qed.

Lemma geoPOST_store (env : Env.t) (now : Z) (hdrs : RateLimit.Headers)
      (body : option GeoContext.Body) (store : RateLimit.Store) :
  fst (fst (GeoContext.POST env now hdrs body store))
  = fst (RateLimit.checkRateLimit now (RateLimit.getClientIdentifier hdrs) store).
Proof.
  unfold GeoContext.POST.
  destruct (RateLimit.checkRateLimit now (RateLimit.getClientIdentifier hdrs) store)
    as [s1 rl].
  destruct (negb (RateLimit.allowed rl)); [reflexivity |].
  destruct body as [b |]; [| reflexivity].
  destruct (GeoContext.body_latitude b), (GeoContext.body_longitude b),
    (GeoContext.body_direction b); try reflexivity.
  destruct (GeoContext.outOfRange r r0); [reflexivity |].
  destruct (Env.requireKey env); [| reflexivity].
  destruct (Env.nearbySearch env r r0 500) as [| st | data]; try reflexivity.
  destruct (Net.results data) as [[| r0' rs] |]; try reflexivity.
  destruct (String.eqb (Net.status data) "OK"); reflexivity.
Qed.

Lemma geoBlock_count (k : Kind) (env : Env.t) (nowGeo : Z) (hdrs : RateLimit.Headers)
      (rateLimit : RateLimit.RateLimitResult) (la lo : R) (dir : Geo.Direction)
      (v : option VisionResult.t) (store : RateLimit.Store) :
  (countKind k (snd (geoBlock env nowGeo hdrs rateLimit la lo dir v store))
   <= callsOf GeoContextCall k + callsOf BodyRead k + callsOf NearbySearch k)%nat /\
  countKind GeoContextCall (snd (geoBlock env nowGeo hdrs rateLimit la lo dir v store))
  = 1%nat /\
  fst (fst (geoBlock env nowGeo hdrs rateLimit la lo dir v store))
  = fst (RateLimit.checkRateLimit nowGeo (RateLimit.getClientIdentifier hdrs) store).
Proof.
  unfold geoBlock.
  pose proof (geoPOST_count k env nowGeo hdrs
                (Some (GeoContext.mkBody (Some la) (Some lo) (Some dir))) store) as Hc.
  pose proof (geoPOST_count GeoContextCall env nowGeo hdrs
                (Some (GeoContext.mkBody (Some la) (Some lo) (Some dir))) store) as Hg.
  pose proof (geoPOST_store env nowGeo hdrs
                (Some (GeoContext.mkBody (Some la) (Some lo) (Some dir))) store) as Hs.
  destruct (GeoContext.POST env nowGeo hdrs
              (Some (GeoContext.mkBody (Some la) (Some lo) (Some dir))) store)
    as [[s' g] evs].
  cbn [fst snd] in *. rewrite !countKind_cons. cbn [kindOf].
  unfold callsOf in *. cbn [sameKind] in *. split; [lia |]. split; [lia | exact Hs].
Qed.

Lemma resolve_count (k : Kind) (env : Env.t) (nowGeo : Z) (hdrs : RateLimit.Headers)
      (rateLimit : RateLimit.RateLimitResult) (latitude longitude : option R)
      (tx ty : R) (v : option VisionResult.t) (store : RateLimit.Store) :
  let out := resolve showNumber toFixed env nowGeo hdrs rateLimit
                     latitude longitude tx ty v store in
  (countKind k (snd out)
   <= 3 * callsOf TextSearch k + 2 * callsOf NearbySearch k + callsOf DetailsCall k
      + callsOf GeoContextCall k + callsOf BodyRead k)%nat /\
  ((countKind GeoContextCall (snd out) = 0%nat /\ fst (fst out) = store) \/
   (countKind GeoContextCall (snd out) = 1%nat /\
    fst (fst out)
    = fst (RateLimit.checkRateLimit nowGeo (RateLimit.getClientIdentifier hdrs) store))).
Proof.
  cbv zeta. unfold resolve. cbv zeta.
  destruct (located latitude longitude) as [[la lo] |];
    [| cbn [fst snd]; split; [unfold countKind; simpl; lia | left; split; reflexivity]].
  pose proof (placeBlock_count k env rateLimit la lo (direction tx ty) v) as Hp.
  pose proof (placeBlock_count GeoContextCall env rateLimit la lo (direction tx ty) v)
    as Hp0.
  unfold callsOf in Hp0. cbn [sameKind] in Hp0.
  pose proof (geoBlock_count k env nowGeo hdrs rateLimit la lo (direction tx ty) v store)
    as [Hg [Hg1 Hgs]].
  assert (Hfall :
            forall evs2,
              (countKind k evs2
               <= 3 * callsOf TextSearch k + callsOf NearbySearch k + callsOf DetailsCall k)%nat ->
              countKind GeoContextCall evs2 = 0%nat ->
              let out :=
                match geoBlock env nowGeo hdrs rateLimit la lo (direction tx ty) v store with
                | (store2, Some response, evs3) => (store2, response, (evs2 ++ evs3)%list)
                | (store2, None, evs3) =>
                    (store2,
                     lastResort toFixed env rateLimit v latitude longitude tx ty,
                     (evs2 ++ evs3)%list)
                end in
              (countKind k (snd out)
               <= 3 * callsOf TextSearch k + 2 * callsOf NearbySearch k + callsOf DetailsCall k
                  + callsOf GeoContextCall k + callsOf BodyRead k)%nat /\
              ((countKind GeoContextCall (snd out) = 0%nat /\ fst (fst out) = store) \/
               (countKind GeoContextCall (snd out) = 1%nat /\
                fst (fst out)
                = fst (RateLimit.checkRateLimit nowGeo
                         (RateLimit.getClientIdentifier hdrs) store)))).
  { intros evs2 H2 H20. cbv zeta.
    destruct (geoBlock env nowGeo hdrs rateLimit la lo (direction tx ty) v store)
      as [[s2 [resp |]] evs3]; cbn [fst snd] in *;
      rewrite !countKind_app; (split; [lia | right; split; [lia | exact Hgs]]). }
  destruct (placeBlock showNumber env rateLimit la lo (direction tx ty) v)
    as [[[r |] |] evs2]; cbn [tryCatch snd] in *.
  - cbn [fst snd]. split; [lia | left; split; [lia | reflexivity]].
  - apply Hfall; [exact Hp | lia].
  - apply Hfall; [exact Hp | lia].
Qed.

Lemma visionStep_count (k : Kind) (env : Env.t) (img : string) :
  (countKind k (snd (visionStep JSON_parse regexGroup env img)) <= callsOf VisionCall k)%nat.
Proof.
  unfold visionStep. destruct (Env.requireKey env); [| unfold countKind; simpl; lia].
  destruct (Env.gemini env (base64Of img)) as [| st | data];
    try (cbn [snd]; rewrite countKind_cons; unfold countKind; simpl; lia).
  destruct (Net.text data) as [t |];
    [| cbn [snd]; rewrite countKind_cons; unfold countKind; simpl; lia].
  destruct (String.eqb t "");
    cbn [snd]; rewrite countKind_cons; unfold countKind; simpl; lia.
Qed.

Lemma POST_count (env : Env.t) (now nowGeo : Z) (hdrs : RateLimit.Headers)
      (body : option Body) (store : RateLimit.Store) (k : Kind) :
  let s1 := fst (RateLimit.checkRateLimit now (RateLimit.getClientIdentifier hdrs) store) in
  let out := POST JSON_parse regexGroup showNumber toFixed
                  env now nowGeo hdrs body store in
  (countKind k (snd out) <= perTap k)%nat /\
  ((countKind GeoContextCall (snd out) = 0%nat /\ fst (fst out) = s1) \/
   (countKind GeoContextCall (snd out) = 1%nat /\
    fst (fst out)
    = fst (RateLimit.checkRateLimit nowGeo (RateLimit.getClientIdentifier hdrs) s1))).
Proof.
  cbv zeta. unfold POST.
  destruct (RateLimit.checkRateLimit now (RateLimit.getClientIdentifier hdrs) store)
    as [s1 rl].
  cbn [fst].
  assert (Hsimple :
            forall evs : list Event,
              evs = [] \/ evs = [ReadBody] ->
              (countKind k evs <= perTap k)%nat /\
              countKind GeoContextCall evs = 0%nat).
  { intros evs [-> | ->]; split; try reflexivity; destruct k; unfold countKind; simpl; lia. }
  destruct (negb (RateLimit.allowed rl)).
  { cbn [fst snd]. destruct (Hsimple [] (or_introl eq_refl)) as [H1 H2].
    split; [exact H1 | left; split; [exact H2 | reflexivity]]. }
  destruct body as [b |].
  2:{ cbn [fst snd]. destruct (Hsimple [ReadBody] (or_intror eq_refl)) as [H1 H2].
      split; [exact H1 | left; split; [exact H2 | reflexivity]]. }
  destruct (if Js.truthy (image b) then image b else None) as [img |].
  2:{ cbn [fst snd]. destruct (Hsimple [ReadBody] (or_intror eq_refl)) as [H1 H2].
      split; [exact H1 | left; split; [exact H2 | reflexivity]]. }
  destruct (tapX b) as [tx |].
  2:{ cbn [fst snd]. destruct (Hsimple [ReadBody] (or_intror eq_refl)) as [H1 H2].
      split; [exact H1 | left; split; [exact H2 | reflexivity]]. }
  destruct (tapY b) as [ty |].
  2:{ cbn [fst snd]. destruct (Hsimple [ReadBody] (or_intror eq_refl)) as [H1 H2].
      split; [exact H1 | left; split; [exact H2 | reflexivity]]. }
  destruct (tooLarge img).
  { cbn [fst snd]. destruct (Hsimple [ReadBody] (or_intror eq_refl)) as [H1 H2].
    split; [exact H1 | left; split; [exact H2 | reflexivity]]. }
  pose proof (visionStep_count k env img) as Hv.
  pose proof (visionStep_count GeoContextCall env img) as Hv0.
  destruct (visionStep JSON_parse regexGroup env img) as [v evs1]. cbn [snd] in Hv, Hv0.
  pose proof (resolve_count k env nowGeo hdrs rl (latitude b) (longitude b) tx ty v s1)
    as [Hr Hs].
  cbv zeta in Hr, Hs.
  destruct (resolve showNumber toFixed env nowGeo hdrs rl (latitude b) (longitude b)
                    tx ty v s1) as [[s2 resp] evs].
  cbn [fst snd] in *. rewrite !countKind_cons, !countKind_app. cbn [kindOf].
  unfold callsOf in *. cbn [sameKind] in *. split.
  - destruct k; cbn [sameKind perTap] in *; lia.
  - destruct Hs as [[H0 Hst] | [H1 Hst]]; [left | right]; split; try exact Hst; lia.
Qed.

(** X18.  One request to the tap-context route, whatever its body and
    whatever the services answer, causes at most one vision call, three
    text searches, two nearby searches, one details request and one
    nested geo-context request, and reads at most two bodies (its own and
    the nested request's). *)
Theorem calls_per_tap_are_bounded
        (env : Env.t) (now nowGeo : Z) (hdrs : RateLimit.Headers)
        (body : option Body) (store : RateLimit.Store) (k : Kind) :
  (countKind k (snd (POST JSON_parse regexGroup showNumber toFixed
                          env now nowGeo hdrs body store)) <= perTap k)%nat.
Proof. exact (proj1 (POST_count env now nowGeo hdrs body store k)). Qed.

(** X19.  One request to the tap-context route is counted by the limiter
    once, or twice: the store it leaves is that of its own check, or,
    exactly when it made the nested geo-context request, that of a second
    check of the same client at the nested handler's clock reading. *)
Theorem tap_is_counted_once_or_twice
        (env : Env.t) (now nowGeo : Z) (hdrs : RateLimit.Headers)
        (body : option Body) (store : RateLimit.Store) :
  let id := RateLimit.getClientIdentifier hdrs in
  let s1 := fst (RateLimit.checkRateLimit now id store) in
  let out := POST JSON_parse regexGroup showNumber toFixed
                  env now nowGeo hdrs body store in
  (countKind GeoContextCall (snd out) = 0%nat /\ fst (fst out) = s1) \/
  (countKind GeoContextCall (snd out) = 1%nat /\
   fst (fst out) = fst (RateLimit.checkRateLimit nowGeo id s1)).
Proof. exact (proj2 (POST_count env now nowGeo hdrs body store BodyRead)). Qed.

End CallBudget.

Section TapContextPaths.

Import TapContext Http.
Local Open Scope string_scope.

Variable JSON_parse : string -> option VisionResult.t.
Variable regexGroup : Pattern -> string -> option string.
Variable showNumber : R -> string.
Variable toFixed : nat -> R -> string.

Lemma visionStep_Some (env : Env.t) (img : string) (vr : VisionResult.t) :
  fst (visionStep JSON_parse regexGroup env img) = Some vr ->
  Env.requireKey env <> None /\
  snd (visionStep JSON_parse regexGroup env img) = [CallGemini (base64Of img)].
Proof.
  unfold visionStep. destruct (Env.requireKey env) as [k |]; [| discriminate].
  intros H. split; [discriminate |].
  destruct (Env.gemini env (base64Of img)) as [| st | data]; try reflexivity.
  destruct (Net.text data) as [t |]; [| reflexivity].
  destruct (String.eqb t ""); reflexivity.
Qed.



(** X22.  How strategy 1 ends.  With a named hint, the first query is
    the name itself.  A reply to it with status REQUEST_DENIED or
    ZERO_RESULTS ends the loop after that one search, with no place.  A
    search that throws ends the whole place block: no later query, no
    nearby search of radius 150 and no details request is made.  And when
    strategy 1 takes a place that has an id, that id is the result, found
    with text searches alone. *)
Theorem strategy1_control_flow (env : Env.t) (la lo : R) (dir : Geo.Direction)
        (vr : VisionResult.t) (n : string) :
  VisionResult.name vr = Some n -> n <> "" ->
  (forall data,
      Env.textSearch env n = Net.Ok data ->
      Net.status data = "REQUEST_DENIED" \/ Net.status data = "ZERO_RESULTS" ->
      strategy1 showNumber env la lo (Some vr) = (Some None, [CallTextSearch n])) /\
  (Env.textSearch env n = Net.Throws ->
   Env.requireKey env <> None ->
   forall rateLimit,
     placeBlock showNumber env rateLimit la lo dir (Some vr)
     = (None, [CallTextSearch n])) /\
  (forall place pid evs,
      strategy1 showNumber env la lo (Some vr) = (Some (Some place), evs) ->
      Place.place_id place = Some pid -> pid <> "" ->
      findPlaceId showNumber env la lo dir (Some vr) = (Some (Some pid), evs) /\
      forall e, In e evs -> kindOf e = TextSearch).
Proof.
  intros Hn Hne.
  assert (Htr : Js.truthy (VisionResult.name vr) = true).
  { rewrite Hn. unfold Js.truthy. apply String.eqb_neq in Hne. rewrite Hne. reflexivity. }
  split; [| split].
  - intros data Hd Hs. unfold strategy1. rewrite Htr.
    unfold searchQueries. rewrite Hn. cbn [Js.template textSearchLoop].
    rewrite Hd. unfold bind, call, ret.
    assert (E : String.eqb (Net.status data) "REQUEST_DENIED" ||
                String.eqb (Net.status data) "ZERO_RESULTS" = true).
    { destruct Hs as [-> | ->]; reflexivity. }
    rewrite E. reflexivity.
  - intros Hthrow Hkey rateLimit. unfold placeBlock, apiKey.
    destruct (Env.requireKey env) as [k |]; [| contradiction].
    unfold findPlaceId, strategy1. rewrite Htr.
    unfold searchQueries. rewrite Hn. cbn [Js.template textSearchLoop].
    rewrite Hthrow. reflexivity.
  - intros place pid evs Hs1 Hid Hpid. split.
    + unfold findPlaceId. rewrite Hs1. unfold bind, ret. rewrite Hid.
      unfold Js.truthy. apply String.eqb_neq in Hpid. rewrite Hpid. cbn [negb].
      rewrite List.app_nil_r. reflexivity.
    + intros e He. apply (strategy1_kinds showNumber env la lo (Some vr)).
      rewrite Hs1. exact He.
Qed.

End TapContextPaths.

Section LastToken.

Import TapContext Http.
Local Open Scope Z_scope.

Variable showNumber : R -> string.
Variable toFixed : nat -> R -> string.

Lemma last_token_entry (now : Z) (id : string) (store store1 : RateLimit.Store)
      (rl : RateLimit.RateLimitResult) :
  RateLimit.checkRateLimit now id store = (store1, rl) ->
  RateLimit.allowed rl = true ->
  RateLimit.remaining rl = 0 ->
  store1 !! id
  = Some (RateLimit.mkEntry RateLimit.RATE_LIMIT_MAX_REQUESTS (RateLimit.result_resetAt rl)).
Proof.
  unfold RateLimit.checkRateLimit. cbv zeta.
  assert (Hfresh : forall s : RateLimit.Store,
             (s, RateLimit.mkResult true (RateLimit.RATE_LIMIT_MAX_REQUESTS - 1)
                   (now + RateLimit.RATE_LIMIT_WINDOW_MS)) = (store1, rl) ->
             RateLimit.remaining rl = 0 -> False).
  { intros s H Hr. inversion H; subst rl. cbn in Hr. discriminate Hr. }
  destruct (store !! id) as [entry |].
  - destruct (RateLimit.expired now entry).
    + intros H _ Hr. exfalso. exact (Hfresh _ H Hr).
    + destruct (RateLimit.RATE_LIMIT_MAX_REQUESTS <=? RateLimit.count entry).
      * intros H Ha. inversion H; subst rl. discriminate Ha.
      * intros H _ Hr. inversion H; subst rl store1.
        cbn [RateLimit.remaining RateLimit.result_resetAt RateLimit.count
             RateLimit.resetAt] in *.
        rewrite lookup_insert_eq. f_equal. f_equal. lia.
  - intros H _ Hr. exfalso. exact (Hfresh _ H Hr).
Qed.

Lemma full_window_refuses (nowGeo t : Z) (id : string) (store : RateLimit.Store) :
  store !! id = Some (RateLimit.mkEntry RateLimit.RATE_LIMIT_MAX_REQUESTS t) ->
  nowGeo < t ->
  RateLimit.checkRateLimit nowGeo id store = (store, RateLimit.mkResult false 0 t).
Proof.
  intros Hs Ht. unfold RateLimit.checkRateLimit. cbv zeta. rewrite Hs.
  unfold RateLimit.expired. cbn [RateLimit.resetAt RateLimit.count].
  assert (E : (t <=? nowGeo) = false) by (apply Z.leb_gt; exact Ht).
  rewrite E. reflexivity.
Qed.

(** X23.  The tap that uses the last request of a window cannot use the
    nearby fallback: its nested geo-context request, made before the
    window ends, is refused by the limiter, so the fallback makes no
    search and returns nothing, and the tap is answered by the place
    block or, failing that, by the last resort. *)
Theorem last_token_disables_nearby_fallback
        (env : Env.t) (now nowGeo : Z) (hdrs : RateLimit.Headers)
        (store store1 : RateLimit.Store) (rateLimit : RateLimit.RateLimitResult)
        (v : option VisionResult.t) :
  passesLimit now hdrs store store1 rateLimit ->
  RateLimit.remaining rateLimit = 0 ->
  nowGeo < RateLimit.result_resetAt rateLimit ->
  (forall la lo dir,
      geoBlock env nowGeo hdrs rateLimit la lo dir v store1
      = (store1, None, [CallGeoContext])) /\
  (forall latitude longitude tx ty la lo,
      located latitude longitude = Some (la, lo) ->
      fst (resolve showNumber toFixed env nowGeo hdrs rateLimit
                   latitude longitude tx ty v store1)
      = (store1,
         match fst (tryCatch (placeBlock showNumber env rateLimit la lo
                                         (direction tx ty) v)) with
         | Some response => response
         | None => lastResort toFixed env rateLimit v latitude longitude tx ty
         end)).
Proof.
  intros [Hck Hal] Hrem Hgeo.
  pose proof (last_token_entry _ _ _ _ _ Hck Hal Hrem) as Hentry.
  pose proof (full_window_refuses nowGeo _ _ _ Hentry Hgeo) as Hdenied.
  assert (HG : forall la lo dir,
             geoBlock env nowGeo hdrs rateLimit la lo dir v store1
             = (store1, None, [CallGeoContext])).
  { intros la lo dir. unfold geoBlock, GeoContext.POST. rewrite Hdenied. reflexivity. }
  split; [exact HG |].
  intros latitude longitude tx ty la lo Hloc. unfold resolve. cbv zeta.
  rewrite Hloc, HG.
  destruct (tryCatch (placeBlock showNumber env rateLimit la lo (direction tx ty) v))
    as [[response |] evs2]; reflexivity.
Qed.

End LastToken.

Section FurtherWorkedRequests.

Import TapContext Http.
Local Open Scope string_scope.

Lemma lastCheck_passes :
  passesLimit 2000 noHeaders busyStore (fst lastCheck) (snd lastCheck).
Proof. split; reflexivity. Qed.

Lemma last_token_disables_nearby_fallback_witness :
  geoBlock nearbyWorld 2001 noHeaders (snd lastCheck) 37.7749%R (-122.4194)%R
           (direction 0.5 0.5) None (fst lastCheck)
  = (fst lastCheck, None, [CallGeoContext]).
Proof.
  refine (proj1 (last_token_disables_nearby_fallback showExample fixedExample
                   nearbyWorld 2000 2001 noHeaders busyStore
                   (fst lastCheck) (snd lastCheck) None lastCheck_passes _ _) _ _ _).
  - reflexivity.
  - reflexivity.
Defined.


Lemma tapNowhere_valid (tx ty : R) : validBody (tapNowhere tx ty) "aGVsbG8=" tx ty.
Proof.
  unfold validBody, tapNowhere. cbn [image tapX tapY].
  split; [reflexivity |]. split; [discriminate |].
  split; [apply small_image |]. split; reflexivity.
Qed.





Lemma rank_here (dir : Geo.Direction) :
  exists g, GeoContext.rank 37.7749 (-122.4194) dir herePlace = Some g.
Proof.
  unfold GeoContext.rank, herePlace. cbn [Place.lat Place.lng].
  unfold Js.truthyNum.
  destruct (Req_dec_T 37.7749 0) as [E |]; [exfalso; lra |].
  destruct (Req_dec_T (-122.4194) 0) as [E |]; [exfalso; lra |].
  cbn [andb]. eexists. reflexivity.
Qed.



Lemma strategy1_control_flow_witness :
  strategy1 showExample emptyWorld 37.7749%R (-122.4194)%R (Some ferryHint)
  = (Some None, [CallTextSearch "Ferry Building"]).
Proof.
  refine (proj1 (strategy1_control_flow showExample emptyWorld 37.7749%R (-122.4194)%R
                   (direction 0.5 0.5) ferryHint "Ferry Building" eq_refl _)
            noResults eq_refl _).
  - discriminate.
  - right. reflexivity.
Defined.

End FurtherWorkedRequests.

(* ================================================================== *)
(** * Further properties: app/api/nano-banana-proxy/route.ts, and the
      limiter shared by the three routes *)
(* ================================================================== *)

Section ProxyFacts.

Import Http.
Local Open Scope string_scope.

Lemma proxy_tooLarge_threshold (s : string) :
  NanoBanana.tooLarge (Some (NanoBanana.Text s)) = true
  <-> (6990507 <= Z.of_nat (String.length s))%Z.
Proof.
  unfold NanoBanana.tooLarge, NanoBanana.maxSizeBytes. rewrite INR_IZR_INZ.
  set (z := Z.of_nat (String.length s)).
  destruct (Rlt_dec (5 * 1024 * 1024) (IZR z * 3 / 4)) as [H | H]; split; intros H'.
  - assert (H3 : (IZR 20971520 < IZR (3 * z))%R) by (rewrite mult_IZR; lra).
    apply lt_IZR in H3. lia.
  - reflexivity.
  - discriminate H'.
  - exfalso. apply H. apply IZR_le in H'. lra.
Qed.

(** X24.  The gesture proxy answers 400 to a missing or falsy frame and
    to a text frame of 6,990,507 characters or more, and 500 to a body it
    cannot read.  Every other frame, a shorter text or a truthy value
    that is not a string (which is never measured), gets the same fixed
    detection with the rate-limit headers; no service is called. *)
Theorem proxy_validates_and_answers (now : Z) (hdrs : RateLimit.Headers)
        (b : NanoBanana.Body) (store store1 : RateLimit.Store)
        (rateLimit : RateLimit.RateLimitResult) :
  passesLimit now hdrs store store1 rateLimit ->
  (NanoBanana.present (NanoBanana.frame b) = false ->
   NanoBanana.POST now hdrs (Some b) store
   = (store1, mkResponse 400 None (NanoBanana.Error "Frame data required"),
      [ReadBody])) /\
  (forall s,
      NanoBanana.frame b = Some (NanoBanana.Text s) -> s <> "" ->
      ((6990507 <= Z.of_nat (String.length s))%Z ->
       NanoBanana.POST now hdrs (Some b) store
       = (store1, mkResponse 400 None (NanoBanana.Error "Frame too large"),
          [ReadBody])) /\
      ((Z.of_nat (String.length s) < 6990507)%Z ->
       NanoBanana.POST now hdrs (Some b) store
       = (store1,
          mkResponse 200 (Some (rateHeaders rateLimit))
            (NanoBanana.Detected NanoBanana.mockResponse),
          [ReadBody]))) /\
  (NanoBanana.frame b = Some (NanoBanana.Other true) ->
   NanoBanana.POST now hdrs (Some b) store
   = (store1,
      mkResponse 200 (Some (rateHeaders rateLimit))
        (NanoBanana.Detected NanoBanana.mockResponse),
      [ReadBody])) /\
  NanoBanana.POST now hdrs None store
  = (store1, mkResponse 500 None (NanoBanana.Error "Inference failed"), [ReadBody]).
Proof.
  intros [Hck Hal]. unfold NanoBanana.POST. rewrite Hck, Hal. cbn [negb].
  split; [| split; [| split]].
  - intros ->. reflexivity.
  - intros s Hf Hne. rewrite Hf. cbn [NanoBanana.present].
    apply String.eqb_neq in Hne. rewrite Hne. cbn [negb]. split.
    + intros Hbig. apply proxy_tooLarge_threshold in Hbig. rewrite Hbig. reflexivity.
    + intros Hsmall.
      destruct (NanoBanana.tooLarge (Some (NanoBanana.Text s))) eqn:E; [| reflexivity].
      apply proxy_tooLarge_threshold in E. lia.
  - intros ->. reflexivity.
  - reflexivity.
Qed.

Lemma proxy_validates_and_answers_witness :
  NanoBanana.POST 1000 noHeaders
    (Some (NanoBanana.mkBody (Some (NanoBanana.Other true)))) ∅
  = (fst firstCheck,
     mkResponse 200 (Some (rateHeaders (snd firstCheck)))
       (NanoBanana.Detected NanoBanana.mockResponse),
     [ReadBody]).
Proof.
  exact (proj1 (proj2 (proj2 (proxy_validates_and_answers 1000 noHeaders
                                (NanoBanana.mkBody (Some (NanoBanana.Other true)))
                                ∅ (fst firstCheck) (snd firstCheck) firstCheck_passes)))
           eq_refl).
Defined.

Lemma tap_status_not_429 (JSON_parse : string -> option VisionResult.t)
      (regexGroup : TapContext.Pattern -> string -> option string)
      (showNumber : R -> string) (toFixed : nat -> R -> string)
      (env : Env.t) (now nowGeo : Z) (hdrs : RateLimit.Headers)
      (body : option TapContext.Body) (store : RateLimit.Store) :
  RateLimit.allowed
    (snd (RateLimit.checkRateLimit now (RateLimit.getClientIdentifier hdrs) store))
  = true ->
  status (snd (fst (TapContext.POST JSON_parse regexGroup showNumber toFixed
                      env now nowGeo hdrs body store))) <> 429%nat.
Proof.
  intros Hal. unfold TapContext.POST.
  destruct (RateLimit.checkRateLimit now (RateLimit.getClientIdentifier hdrs) store)
    as [s1 rl]. cbn [snd] in Hal. rewrite Hal. cbn [negb].
  destruct body as [b |]; [| cbn; discriminate].
  destruct (if Js.truthy (TapContext.image b) then TapContext.image b else None)
    as [img |]; [| cbn; discriminate].
  destruct (TapContext.tapX b) as [tx |]; [| cbn; discriminate].
  destruct (TapContext.tapY b) as [ty |]; [| cbn; discriminate].
  destruct (TapContext.tooLarge img); [cbn; discriminate |].
  destruct (TapContext.visionStep JSON_parse regexGroup env img) as [v evs1].
  pose proof (resolve_status showNumber toFixed env nowGeo hdrs rl
                (TapContext.latitude b) (TapContext.longitude b) tx ty v s1) as Hs.
  destruct (TapContext.resolve showNumber toFixed env nowGeo hdrs rl
              (TapContext.latitude b) (TapContext.longitude b) tx ty v s1)
    as [[s2 resp] evs].
  cbn [fst snd] in *. rewrite Hs. discriminate.
Qed.

Lemma geo_status_not_429 (env : Env.t) (now : Z) (hdrs : RateLimit.Headers)
      (body : option GeoContext.Body) (store : RateLimit.Store) :
  RateLimit.allowed
    (snd (RateLimit.checkRateLimit now (RateLimit.getClientIdentifier hdrs) store))
  = true ->
  status (snd (fst (GeoContext.POST env now hdrs body store))) <> 429%nat.
Proof.
  intros Hal. unfold GeoContext.POST.
  destruct (RateLimit.checkRateLimit now (RateLimit.getClientIdentifier hdrs) store)
    as [s1 rl]. cbn [snd] in Hal. rewrite Hal. cbn [negb].
  destruct body as [b |]; [| cbn; discriminate].
  destruct (GeoContext.body_latitude b), (GeoContext.body_longitude b),
    (GeoContext.body_direction b); try (cbn; discriminate).
  destruct (GeoContext.outOfRange r r0); [cbn; discriminate |].
  destruct (Env.requireKey env); [| cbn; discriminate].
  destruct (Env.nearbySearch env r r0 500) as [| st | data]; try (cbn; discriminate).
  destruct (Net.results data) as [[| r0' rs] |]; try (cbn; discriminate).
  destruct (String.eqb (Net.status data) "OK"); cbn; discriminate.
Qed.

Lemma proxy_status_not_429 (now : Z) (hdrs : RateLimit.Headers)
      (body : option NanoBanana.Body) (store : RateLimit.Store) :
  RateLimit.allowed
    (snd (RateLimit.checkRateLimit now (RateLimit.getClientIdentifier hdrs) store))
  = true ->
  status (snd (fst (NanoBanana.POST now hdrs body store))) <> 429%nat /\
  fst (fst (NanoBanana.POST now hdrs body store))
  = fst (RateLimit.checkRateLimit now (RateLimit.getClientIdentifier hdrs) store).
Proof.
  intros Hal. unfold NanoBanana.POST.
  destruct (RateLimit.checkRateLimit now (RateLimit.getClientIdentifier hdrs) store)
    as [s1 rl]. cbn [snd] in Hal. rewrite Hal. cbn [negb].
  destruct body as [b |]; [| cbn; split; [discriminate | reflexivity]].
  destruct (negb (NanoBanana.present (NanoBanana.frame b)));
    [cbn; split; [discriminate | reflexivity] |].
  destruct (NanoBanana.tooLarge (NanoBanana.frame b));
    cbn; split; try discriminate; reflexivity.
Qed.

(** X25.  The three routes consult the limiter in the same way.  For the
    same client, clock reading and store, either all three answer 429,
    make no call and leave the store as it is, or none answers 429; and a
    request to the geo-context route or to the proxy, whatever its body,
    leaves the store that a single check of the client leaves. *)
Theorem one_budget_for_all_routes
        (JSON_parse : string -> option VisionResult.t)
        (regexGroup : TapContext.Pattern -> string -> option string)
        (showNumber : R -> string) (toFixed : nat -> R -> string)
        (env : Env.t) (now nowGeo : Z) (hdrs : RateLimit.Headers)
        (tapBody : option TapContext.Body) (geoBody : option GeoContext.Body)
        (proxyBody : option NanoBanana.Body) (store : RateLimit.Store) :
  let check :=
    RateLimit.checkRateLimit now (RateLimit.getClientIdentifier hdrs) store in
  let tap := TapContext.POST JSON_parse regexGroup showNumber toFixed
                             env now nowGeo hdrs tapBody store in
  let geo := GeoContext.POST env now hdrs geoBody store in
  let proxy := NanoBanana.POST now hdrs proxyBody store in
  (RateLimit.allowed (snd check) = false /\
   status (snd (fst tap)) = 429%nat /\ status (snd (fst geo)) = 429%nat /\
   status (snd (fst proxy)) = 429%nat /\
   fst (fst tap) = store /\ fst (fst geo) = store /\ fst (fst proxy) = store /\
   snd tap = [] /\ snd geo = [] /\ snd proxy = []) \/
  (RateLimit.allowed (snd check) = true /\
   status (snd (fst tap)) <> 429%nat /\ status (snd (fst geo)) <> 429%nat /\
   status (snd (fst proxy)) <> 429%nat /\
   fst (fst geo) = fst check /\ fst (fst proxy) = fst check).
Proof.
  cbv zeta.
  destruct (RateLimit.allowed
              (snd (RateLimit.checkRateLimit now (RateLimit.getClientIdentifier hdrs)
                      store))) eqn:Hal.
  - right. split; [reflexivity |].
    split; [apply tap_status_not_429; exact Hal |].
    split; [apply geo_status_not_429; exact Hal |].
    destruct (proxy_status_not_429 now hdrs proxyBody store Hal) as [H1 H2].
    split; [exact H1 |]. split; [apply geoPOST_store | exact H2].
  - left. split; [reflexivity |].
    destruct (check_denied now (RateLimit.getClientIdentifier hdrs) store Hal)
      as [e [_ [_ [_ Hck]]]].
    unfold TapContext.POST, GeoContext.POST, NanoBanana.POST. rewrite Hck.
    cbn [negb RateLimit.allowed fst snd]. repeat split; reflexivity.
Qed.

End ProxyFacts.

(* ================================================================== *)
(** * Further properties: lib/frameUtils.ts and app/page.tsx *)
(* ================================================================== *)

Section ScreenGeometry.

Local Open Scope Q_scope.

Lemma crop_axis (frame tap roiSize : Q) :
  0 <= frame -> 0 <= roiSize -> roiSize <= 1 ->
  let roi := frame * roiSize in
  let crop := Qmax 0 (Qmin (frame - roi) (tap * frame - roi / 2)) in
  0 <= crop /\ crop + roi <= frame /\
  (roiSize / 2 <= tap -> tap <= 1 - roiSize / 2 -> crop + roi / 2 == tap * frame) /\
  (tap <= roiSize / 2 -> crop == 0) /\
  (1 - roiSize / 2 <= tap -> crop == frame - roi).
Proof.
  intros Hf Hr0 Hr1. cbv zeta. unfold Qdiv. change (/ 2) with (1 # 2).
  set (roi := frame * roiSize). set (t := tap * frame).
  assert (Hroi : 0 <= roi /\ roi <= frame).
  { assert (P1 : 0 <= frame * roiSize) by (apply Qmult_le_0_compat; assumption).
    assert (P2 : 0 <= frame * (1 - roiSize)) by (apply Qmult_le_0_compat; lra).
    unfold roi. split; nra. }
  assert (Hlow : tap <= roiSize * (1 # 2) -> t - roi * (1 # 2) <= 0).
  { intros H. assert (P : 0 <= (roiSize * (1 # 2) - tap) * frame)
      by (apply Qmult_le_0_compat; lra).
    unfold t, roi. nra. }
  assert (Hmid1 : roiSize * (1 # 2) <= tap -> 0 <= t - roi * (1 # 2)).
  { intros H. assert (P : 0 <= (tap - roiSize * (1 # 2)) * frame)
      by (apply Qmult_le_0_compat; lra).
    unfold t, roi. nra. }
  assert (Hmid2 : tap <= 1 - roiSize * (1 # 2) -> t - roi * (1 # 2) <= frame - roi).
  { intros H. assert (P : 0 <= (1 - roiSize * (1 # 2) - tap) * frame)
      by (apply Qmult_le_0_compat; lra).
    unfold t, roi. nra. }
  assert (Hhigh : 1 - roiSize * (1 # 2) <= tap -> frame - roi <= t - roi * (1 # 2)).
  { intros H. assert (P : 0 <= (tap - (1 - roiSize * (1 # 2))) * frame)
      by (apply Qmult_le_0_compat; lra).
    unfold t, roi. nra. }
  destruct Hroi as [Hroi0 Hroi1].
  destruct (Q.min_spec (frame - roi) (t - roi * (1 # 2))) as [[Hc Hm] | [Hc Hm]];
    destruct (Q.max_spec 0 (Qmin (frame - roi) (t - roi * (1 # 2)))) as [[Hd HM] | [Hd HM]];
    set (mn := Qmin (frame - roi) (t - roi * (1 # 2))) in *;
    set (mx := Qmax 0 mn) in *;
    (split; [lra |]); (split; [lra |]); (split; [intros H1 H2; specialize (Hmid1 H1);
      specialize (Hmid2 H2); lra |]);
    (split; [intros H1; specialize (Hlow H1); lra |]);
    intros H1; specialize (Hhigh H1); lra.
Qed.

(** X26.  For a frame of non-negative size and a region size between 0
    and 1, the rectangle [extractROI] crops lies inside the frame for
    every tap position, also one outside the unit square.  It is centred
    on the tap when the tap is at least half a region away from the
    edges, and is pushed against the edge when the tap is nearer. *)
Theorem roi_stays_inside_the_frame (frameWidth frameHeight tapX tapY roiSize : Q) :
  0 <= frameWidth -> 0 <= frameHeight -> 0 <= roiSize -> roiSize <= 1 ->
  let r := FrameUtils.extractROI_rect frameWidth frameHeight tapX tapY roiSize in
  (0 <= FrameUtils.cropX r /\
   FrameUtils.cropX r + FrameUtils.roiWidth r <= frameWidth /\
   0 <= FrameUtils.cropY r /\
   FrameUtils.cropY r + FrameUtils.roiHeight r <= frameHeight) /\
  (roiSize / 2 <= tapX -> tapX <= 1 - roiSize / 2 ->
   FrameUtils.cropX r + FrameUtils.roiWidth r / 2 == tapX * frameWidth) /\
  (roiSize / 2 <= tapY -> tapY <= 1 - roiSize / 2 ->
   FrameUtils.cropY r + FrameUtils.roiHeight r / 2 == tapY * frameHeight) /\
  (tapX <= roiSize / 2 -> FrameUtils.cropX r == 0) /\
  (1 - roiSize / 2 <= tapX ->
   FrameUtils.cropX r + FrameUtils.roiWidth r == frameWidth).
Proof.
  intros Hw Hh Hr0 Hr1. cbv zeta. unfold FrameUtils.extractROI_rect. cbv zeta.
  cbn [FrameUtils.cropX FrameUtils.cropY FrameUtils.roiWidth FrameUtils.roiHeight].
  pose proof (crop_axis frameWidth tapX roiSize Hw Hr0 Hr1) as [X1 [X2 [X3 [X4 X5]]]].
  pose proof (crop_axis frameHeight tapY roiSize Hh Hr0 Hr1) as [Y1 [Y2 [Y3 [Y4 Y5]]]].
  cbv zeta in *.
  split; [repeat split; assumption |].
  split; [exact X3 |]. split; [exact Y3 |]. split; [exact X4 |].
  intros H. specialize (X5 H). rewrite X5. ring.
Qed.

Lemma roi_stays_inside_the_frame_witness :
  let r := FrameUtils.extractROI_rect 1280 720 (95 # 100) (1 # 2) FrameUtils.pageRoiSize in
  0 <= FrameUtils.cropX r /\
  FrameUtils.cropX r + FrameUtils.roiWidth r <= 1280 /\
  0 <= FrameUtils.cropY r /\
  FrameUtils.cropY r + FrameUtils.roiHeight r <= 720.
Proof.
  refine (proj1 (roi_stays_inside_the_frame 1280 720 (95 # 100) (1 # 2)
                   FrameUtils.pageRoiSize _ _ _ _));
    apply Qle_bool_iff; reflexivity.
Defined.

(** X27.  The context card is placed at least 20 px from the top, and
    its left edge is at most the window width less 320 px, so a card
    320 px wide never runs past the right edge.  The 20 px margin on the
    left holds exactly when the window is at least 340 px wide; in a
    narrower window the left edge is the window width less 320 px,
    wherever the tap was. *)
Theorem card_stays_on_screen (card_x card_y innerWidth innerHeight : Q) :
  let s := Page.ContextCardDisplay card_x card_y innerWidth innerHeight in
  20 <= Page.top s /\
  Page.left s + 320 <= innerWidth /\
  (340 <= innerWidth -> 20 <= Page.left s) /\
  (innerWidth < 340 -> Page.left s == innerWidth - 320 /\ Page.left s < 20) /\
  (100 <= card_y * innerHeight - 20 -> Page.top s == card_y * innerHeight - 100).
Proof.
  cbv zeta. unfold Page.ContextCardDisplay. cbv zeta. cbn [Page.left Page.top].
  set (x := card_x * innerWidth). set (y := card_y * innerHeight).
  destruct (Q.max_spec 20 (y - 100)) as [[Hy HY] | [Hy HY]];
    destruct (Q.max_spec 20 (x - 150)) as [[Hx HX] | [Hx HX]];
    set (my := Qmax 20 (y - 100)) in *; set (mx := Qmax 20 (x - 150)) in *;
    destruct (Q.min_spec mx (innerWidth - 320)) as [[Hm HM] | [Hm HM]];
    set (mn := Qmin mx (innerWidth - 320)) in *;
    repeat split; intros; lra.
Qed.

End ScreenGeometry.

(* ================================================================== *)
(** * Further properties: lib/vectorMath.ts *)
(* ================================================================== *)

Section VectorMathClamp.

Import PrimFloat VectorMath.
Import SpecFloat FloatOps FloatAxioms.
Local Open Scope float_scope.

Lemma SFcompare_antisym (x y : spec_float) :
  SFcompare y x = option_map CompOpp (SFcompare x y).
Proof.
  destruct x as [s | s | | s m e], y as [s' | s' | | s' m' e'];
    try destruct s; try destruct s'; try reflexivity; cbn [SFcompare option_map];
    rewrite (Z.compare_antisym e e'); destruct (e ?= e')%Z; cbn [CompOpp];
    try reflexivity; f_equal.
  - rewrite CompOpp_involutive. exact (Pos.compare_cont_antisym m' m Eq).
  - symmetry. exact (Pos.compare_cont_antisym m m' Eq).
Qed.

Lemma SFcompare_None (x y : spec_float) :
  SFcompare x y = None -> SFcompare x x = None \/ SFcompare y y = None.
Proof.
  destruct x as [s | s | | s m e], y as [s' | s' | | s' m' e'];
    cbn [SFcompare]; intros H; try discriminate H; auto.
Qed.

Lemma ltb_leb (x y : float) : (x <? y) = true -> (x <=? y) = true.
Proof.
  rewrite ltb_spec, leb_spec. unfold SFltb, SFleb.
  destruct (SFcompare (Prim2SF x) (Prim2SF y)) as [[| |] |]; auto.
Qed.

Lemma not_nan_compare (x : float) :
  is_nan x = false -> SFcompare (Prim2SF x) (Prim2SF x) = Some Eq.
Proof.
  unfold is_nan. rewrite eqb_spec. unfold SFeqb.
  destruct (SFcompare (Prim2SF x) (Prim2SF x)) as [[| |] |]; cbn [negb];
    intros H; try discriminate H; reflexivity.
Qed.

(** Two numbers neither of which is below the other compare equal. *)
Lemma neither_below (x y : float) :
  is_nan x = false -> is_nan y = false ->
  (x <? y) = false -> (y <? x) = false ->
  (x <=? y) = true /\ (y <=? x) = true.
Proof.
  intros Hx Hy. apply not_nan_compare in Hx. apply not_nan_compare in Hy.
  rewrite !ltb_spec, !leb_spec. unfold SFltb, SFleb.
  rewrite (SFcompare_antisym (Prim2SF x) (Prim2SF y)).
  destruct (SFcompare (Prim2SF x) (Prim2SF y)) as [[| |] |] eqn:E;
    cbn [option_map CompOpp]; intros H1 H2; try discriminate; auto.
  apply SFcompare_None in E. destruct E as [E | E]; congruence.
Qed.

Lemma max_with_minus_one (m : float) :
  is_nan m = false -> (m <=? 1) = true ->
  (-1 <=? Math_max (-1) m) = true /\ (Math_max (-1) m <=? 1) = true.
Proof.
  intros Hm H1. unfold Math_max. change (is_nan (-1)) with false. rewrite Hm.
  cbn [orb]. destruct (-1 <? m) eqn:E1.
  - split; [apply ltb_leb; exact E1 | exact H1].
  - destruct (m <? -1) eqn:E2.
    + split; reflexivity.
    + change (get_sign (-1)) with true. cbv iota.
      destruct (neither_below (-1) m eq_refl Hm E1 E2) as [H _].
      split; [exact H | exact H1].
Qed.

Lemma clamp_range (q : float) :
  (is_nan q = true -> is_nan (Math_max (-1) (Math_min 1 q)) = true) /\
  (is_nan q = false ->
   (-1 <=? Math_max (-1) (Math_min 1 q)) = true /\
   (Math_max (-1) (Math_min 1 q) <=? 1) = true).
Proof.
  unfold Math_min. change (is_nan 1) with false. cbn [orb]. split; intros Hq; rewrite Hq.
  - reflexivity.
  - destruct (1 <? q) eqn:E1.
    + split; reflexivity.
    + destruct (q <? 1) eqn:E2.
      * apply max_with_minus_one; [exact Hq | apply ltb_leb; exact E2].
      * change (get_sign 1) with false. cbv iota.
        destruct (neither_below 1 q eq_refl Hq E1 E2) as [_ H].
        apply max_with_minus_one; [exact Hq | exact H].
Qed.

(** X28.  [normalize3D] of a vector whose three components are zero, of
    either sign, is the zero vector. *)
Theorem normalize3D_zero_vector (v : Vector3D) :
  isZero3D v = true ->
  normalize3D v = mkVector3D 0 0 0 /\
  is_nan (x3 (normalize3D v)) = false /\
  is_nan (y3 (normalize3D v)) = false /\
  is_nan (z3 (normalize3D v)) = false.
Proof.
  intros H. pose proof (zero3D_magnitude v H) as Hm.
  unfold magnitude3D in Hm. unfold normalize3D. cbv zeta. rewrite Hm.
  repeat split; reflexivity.
Qed.

Lemma normalize3D_zero_vector_witness :
  normalize3D (mkVector3D 0 (-0) 0) = mkVector3D 0 0 0.
Proof. exact (proj1 (normalize3D_zero_vector (mkVector3D 0 (-0) 0) eq_refl)). Defined.

(** X29.  [angleBetween3D] returns 0 or applies [Math.acos] to the
    clamped cosine, and the clamped cosine is never outside the domain of
    the arc cosine: it is NaN when the quotient is NaN, and otherwise
    lies between -1 and 1, whatever rounding did to the quotient. *)
Theorem acos_argument_is_clamped (acos : float -> float) (a b : Vector3D) :
  let q := dot3D a b / (magnitude3D a * magnitude3D b) in
  let c := Math_max (-1) (Math_min 1 q) in
  (angleBetween3D acos a b = 0 \/ angleBetween3D acos a b = acos c) /\
  (is_nan q = true -> is_nan c = true) /\
  (is_nan q = false -> (-1 <=? c) = true /\ (c <=? 1) = true).
Proof.
  cbv zeta. split.
  - unfold angleBetween3D. cbv zeta.
    destruct ((magnitude3D a =? 0) || (magnitude3D b =? 0)); [left | right]; reflexivity.
  - apply clamp_range.
Qed.

End VectorMathClamp.

(* ================================================================== *)
(** * Further properties: the details text of the enriched answer *)
(* ================================================================== *)

Section ReviewSnippet.

Import TapContext.
Local Open Scope string_scope.

Variable showNumber : R -> string.

Lemma substring0_length (n : nat) :
  forall s, String.length (String.substring 0 n s) = Nat.min n (String.length s).
Proof.
  induction n as [| n IH]; intros s.
  - destruct s; reflexivity.
  - destruct s as [| c s]; [reflexivity |].
    change (String.substring 0 (S n) (String c s))
      with (String c (String.substring 0 n s)).
    change (String.length (String c (String.substring 0 n s)))
      with (S (String.length (String.substring 0 n s))).
    rewrite IH. reflexivity.
Qed.

Lemma substring0_all (n : nat) :
  forall s, (String.length s <= n)%nat -> String.substring 0 n s = s.
Proof.
  induction n as [| n IH]; intros s H.
  - destruct s; [reflexivity | simpl in H; lia].
  - destruct s as [| c s]; [reflexivity |].
    change (String.substring 0 (S n) (String c s))
      with (String c (String.substring 0 n s)).
    rewrite IH; [reflexivity | simpl in H; lia].
Qed.

Lemma substring0_prefix (n : nat) :
  forall s, Js.startsWith s (String.substring 0 n s) = true.
Proof.
  induction n as [| n IH]; intros s.
  - destruct s; reflexivity.
  - destruct s as [| c s]; [reflexivity |].
    change (String.substring 0 (S n) (String c s))
      with (String c (String.substring 0 n s)).
    cbn [Js.startsWith]. rewrite Ascii.eqb_refl, IH. reflexivity.
Qed.

(** X30.  When the details reply holds a first review with text, the
    last entry of the details of the enriched answer quotes it: whole
    when it has at most 200 characters, and otherwise its first 200
    characters followed by three dots, 203 characters in all. *)
Theorem top_review_is_truncated (v : option VisionResult.t) (d : DetailedPlace.t)
        (s : string) :
  DetailedPlace.top_review_text d = Some s -> s <> "" ->
  exists body,
    List.last (detailsParts showNumber v d) ""
    = "💬 Review: " ++ dquote ++ body ++ dquote /\
    (String.length body <= 203)%nat /\
    Js.startsWith s (Js.substring0 200 s) = true /\
    ((String.length s <= 200)%nat -> body = s) /\
    ((200 < String.length s)%nat ->
     body = Js.substring0 200 s ++ "..." /\ String.length body = 203%nat).
Proof.
  intros Hd Hne.
  exists (Js.substring0 200 s ++ (if (200 <? String.length s)%nat then "..." else "")).
  split; [| split; [| split; [| split]]].
  - unfold detailsParts. cbv zeta. rewrite Hd. unfold part at 7.
    unfold Js.truthy. apply String.eqb_neq in Hne. rewrite Hne. cbn [negb].
    rewrite !List.app_assoc, List.last_last.
    rewrite (append_assoc (Js.substring0 200 s)). reflexivity.
  - rewrite strlen_app. unfold Js.substring0. rewrite substring0_length.
    destruct (200 <? String.length s)%nat; simpl String.length; lia.
  - apply substring0_prefix.
  - intros H. assert (E : (200 <? String.length s)%nat = false)
      by (apply Nat.ltb_ge; exact H).
    rewrite E. unfold Js.substring0. rewrite (substring0_all 200 s H).
    apply append_nil_r.
  - intros H. assert (E : (200 <? String.length s)%nat = true)
      by (apply Nat.ltb_lt; exact H).
    rewrite E. split; [reflexivity |].
    rewrite strlen_app. unfold Js.substring0. rewrite substring0_length.
    simpl String.length. lia.
Qed.

End ReviewSnippet.

Lemma top_review_is_truncated_witness :
  exists body,
    List.last (TapContext.detailsParts showExample None
                 (DetailedPlace.mk None None None None None None None None
                                   (Some "Lovely views."%string) None None))
              ""%string
    = ("💬 Review: " ++ TapContext.dquote ++ body ++ TapContext.dquote)%string /\
    (String.length body <= 203)%nat.
Proof.
  destruct (top_review_is_truncated showExample None
              (DetailedPlace.mk None None None None None None None None
                                (Some "Lovely views."%string) None None)
              "Lovely views."%string eq_refl ltac:(discriminate))
    as [body [H1 [H2 _]]].
  exists body. split; [exact H1 | exact H2].
Defined.

(* ================================================================== *)
(** * Properties: the two handlers at any input *)
(* ================================================================== *)

Section Agreement.

Import TapContextAny Http.
Local Open Scope string_scope.

Variable JSON_parse : string -> option VisionResult.t.
Variable regexGroup : TapContext.Pattern -> string -> option string.
Variable showNumber : R -> string.
Variable toFixed : nat -> R -> string.
Variable nearbySearchAt : string -> string -> nat -> Net.Fetch Net.SearchData.

Lemma bind_ret {A B : Type} (a : A) (k : A -> TapContext.M B) :
  TapContext.bind (TapContext.ret a) k = k a.
Proof. unfold TapContext.bind, TapContext.ret. destruct (k a). reflexivity. Qed.

Lemma bind_throw {A B : Type} (k : A -> TapContext.M B) :
  TapContext.bind throw k = throw.
Proof. reflexivity. Qed.

Lemma bind_ext {A B : Type} (m : TapContext.M A) (k1 k2 : A -> TapContext.M B) :
  (forall a, k1 a = k2 a) -> TapContext.bind m k1 = TapContext.bind m k2.
Proof.
  intros H. unfold TapContext.bind. destruct m as [[a |] evs]; [| reflexivity].
  rewrite H. reflexivity.
Qed.

Lemma truthy_declared (o : option string) : truthy (declaredField o) = Js.truthy o.
Proof. destruct o; reflexivity. Qed.

Lemma orText_declared (o : option string) (b : string) :
  orText (declaredField o) b = Js.orStr o b.
Proof.
  destruct o as [s |]; [| reflexivity].
  unfold orText. cbn. destruct (String.eqb s ""); reflexivity.
Qed.

Lemma orNull_declared (o : option string) :
  orNull (declaredField o) = TapContext.orNull o.
Proof.
  destruct o as [s |]; [| reflexivity].
  unfold orNull, TapContext.orNull. cbn. destruct (String.eqb s ""); reflexivity.
Qed.

Lemma part_declared (o : option string) (g : string -> string) :
  part (declaredField o) g = TapContext.part o g.
Proof.
  destruct o as [s |]; [| reflexivity].
  unfold part, TapContext.part. cbn. destruct (String.eqb s ""); reflexivity.
Qed.

Lemma stringOf_declared (o : option string) : stringOf (declaredField o) = o.
Proof. destruct o; reflexivity. Qed.

Lemma fieldOf_declared (v : option VisionResult.t) (f : VisionResult.t -> option string)
      (g : VisionObject -> Field) :
  (forall r, g (declaredVision r) = declaredField (f r)) ->
  fieldOf (option_map declaredVision v) g
  = declaredField (match v with Some r => f r | None => None end).
Proof. intros H. destruct v as [r |]; [apply H | reflexivity]. Qed.

Lemma visionSubtitle_declared (v : VisionResult.t) :
  visionSubtitle (declaredVision v) = Some (TapContext.visionSubtitle v).
Proof.
  unfold visionSubtitle, TapContext.visionSubtitle. cbn [declaredVision type].
  destruct (VisionResult.type v) as [s |]; reflexivity.
Qed.

Lemma visionDetailParts_declared (v : VisionResult.t) :
  visionDetailParts (declaredVision v) = TapContext.visionDetailParts v.
Proof.
  unfold visionDetailParts, TapContext.visionDetailParts.
  cbn [declaredVision details significance architecturalStyle].
  rewrite !part_declared. reflexivity.
Qed.

Lemma visionOnly_declared (v : VisionResult.t) (detailsText : string) :
  visionOnly (declaredVision v) detailsText
  = Some (TapContext.visionOnly v detailsText).
Proof.
  unfold visionOnly, TapContext.visionOnly. rewrite visionSubtitle_declared.
  cbn [declaredVision name description year].
  rewrite !orText_declared, orNull_declared. reflexivity.
Qed.

Lemma formattedType_declared (o : option string) (fallback : string) :
  formattedType (declaredField o) fallback
  = Some (TapContext.formatType (Js.orStr o fallback)).
Proof.
  rewrite <- orText_declared. destruct o as [s |]; reflexivity.
Qed.

Lemma combinedDescription_declared (v : option VisionResult.t) (d : DetailedPlace.t) :
  combinedDescription (option_map declaredVision v) d
  = TapContext.combinedDescription v d.
Proof.
  unfold combinedDescription, TapContext.combinedDescription. cbv zeta.
  rewrite (fieldOf_declared v VisionResult.description description)
    by reflexivity.
  rewrite truthy_declared.
  destruct (match v with Some r => VisionResult.description r | None => None end)
    as [s |]; cbn [declaredField shown Js.truthy Js.orStr].
  - destruct (String.eqb s ""); reflexivity.
  - reflexivity.
Qed.

Lemma detailsParts_declared (v : option VisionResult.t) (d : DetailedPlace.t) :
  detailsParts showNumber (option_map declaredVision v) d
  = TapContext.detailsParts showNumber v d.
Proof.
  unfold detailsParts, TapContext.detailsParts. cbv zeta.
  rewrite (fieldOf_declared v VisionResult.details details) by reflexivity.
  rewrite (fieldOf_declared v VisionResult.significance significance) by reflexivity.
  rewrite (fieldOf_declared v VisionResult.architecturalStyle architecturalStyle)
    by reflexivity.
  rewrite (fieldOf_declared v VisionResult.year year) by reflexivity.
  rewrite !part_declared. f_equal. f_equal.
  destruct (match v with Some r => VisionResult.details r | None => None end)
    as [ds |]; [| reflexivity].
  cbn [declaredField truthy shown differs Js.truthy].
  destruct (DetailedPlace.editorial_overview d) as [o |]; reflexivity.
Qed.

Lemma enriched_declared (v : option VisionResult.t) (d : DetailedPlace.t) :
  enriched showNumber (option_map declaredVision v) d
  = Some (TapContext.enriched showNumber v d).
Proof.
  unfold enriched, TapContext.enriched.
  rewrite (fieldOf_declared v VisionResult.type type) by reflexivity.
  rewrite (fieldOf_declared v VisionResult.name name) by reflexivity.
  rewrite (fieldOf_declared v VisionResult.year year) by reflexivity.
  rewrite formattedType_declared, orText_declared, orNull_declared.
  rewrite combinedDescription_declared, detailsParts_declared. reflexivity.
Qed.

Lemma placeCard_declared (v : option VisionResult.t) (g : GeoContext.GeoPlace) :
  placeCard (option_map declaredVision v) g = Some (TapContext.placeCard v g).
Proof.
  unfold placeCard, TapContext.placeCard. cbv zeta.
  rewrite (fieldOf_declared v VisionResult.type type) by reflexivity.
  rewrite (fieldOf_declared v VisionResult.name name) by reflexivity.
  rewrite (fieldOf_declared v VisionResult.year year) by reflexivity.
  rewrite (fieldOf_declared v VisionResult.description description) by reflexivity.
  rewrite (fieldOf_declared v VisionResult.details details) by reflexivity.
  rewrite (fieldOf_declared v VisionResult.significance significance) by reflexivity.
  rewrite formattedType_declared, !orText_declared, orNull_declared, !truthy_declared.
  unfold TapContext.nameOf, TapContext.typeOf.
  f_equal. f_equal. f_equal.
  destruct (match v with Some r => VisionResult.details r | None => None end)
    as [ds |];
    destruct (match v with Some r => VisionResult.significance r | None => None end)
    as [sg |]; cbn [declaredField shown Js.truthy Js.orStr];
    try destruct (String.eqb ds "") eqn:Ed; try destruct (String.eqb sg "") eqn:Es;
    cbn [negb]; rewrite ?Ed, ?Es; reflexivity.
Qed.

Lemma searchQueries_declared (r : VisionResult.t) (la lo : R) :
  searchQueries showNumber (declaredVision r) (Number la) (Number lo)
  = TapContext.searchQueries showNumber r la lo.
Proof.
  unfold searchQueries, TapContext.searchQueries. cbv zeta.
  cbn [declaredVision name type shownCoordinate].
  rewrite orText_declared.
  destruct (VisionResult.name r); reflexivity.
Qed.

Lemma takeMatch_declared (la lo : R) (o : option string) (results : list Place.t) :
  takeMatch (Some (la, lo)) (declaredField o) results
  = TapContext.ret (TapContext.acceptMatch (TapContext.matches la lo o results)).
Proof. destruct o; reflexivity. Qed.

Lemma textSearchLoop_declared (env : Env.t) (la lo : R) (o : option string)
      (queries : list string) :
  textSearchLoop env (Some (la, lo)) (declaredField o) queries
  = TapContext.textSearchLoop env la lo o queries.
Proof.
  induction queries as [| q rest IH]; [reflexivity |].
  cbn [textSearchLoop TapContext.textSearchLoop].
  apply bind_ext. intros [data |]; [| exact IH].
  destruct (String.eqb (Net.status data) "REQUEST_DENIED" ||
            String.eqb (Net.status data) "ZERO_RESULTS"); [reflexivity |].
  destruct (Net.results data) as [[| r0 rs] |]; try exact IH.
  rewrite takeMatch_declared, bind_ret.
  destruct (TapContext.acceptMatch (TapContext.matches la lo o (r0 :: rs)));
    [reflexivity | exact IH].
Qed.

Lemma strategy1_declared (env : Env.t) (la lo : R) (v : option VisionResult.t) :
  strategy1 showNumber env (Number la) (Number lo) (option_map declaredVision v)
  = TapContext.strategy1 showNumber env la lo v.
Proof.
  destruct v as [r |]; [| reflexivity].
  unfold strategy1, TapContext.strategy1. cbn [option_map].
  change (name (declaredVision r)) with (declaredField (VisionResult.name r)).
  rewrite truthy_declared.
  destruct (Js.truthy (VisionResult.name r)); [| reflexivity].
  rewrite searchQueries_declared. apply textSearchLoop_declared.
Qed.

Lemma takeScored_declared (la lo : R) (dir : Geo.Direction) (o : option string)
      (results : list Place.t) :
  takeScored (Some (la, lo)) dir (declaredField o) results
  = TapContext.ret (TapContext.acceptScored
                      (TapContext.placesWithScores la lo dir o results)).
Proof. destruct o; reflexivity. Qed.

Lemma strategy2_declared (env : Env.t) (la lo : R) (dir : Geo.Direction)
      (v : option VisionResult.t) :
  strategy2 showNumber nearbySearchAt env (Number la) (Number lo) dir
            (option_map declaredVision v)
  = TapContext.strategy2 env la lo dir v.
Proof.
  unfold strategy2, TapContext.strategy2. cbn [nearbySearch].
  apply bind_ext. intros [data |]; [| reflexivity].
  destruct (String.eqb (Net.status data) "REQUEST_DENIED"); [reflexivity |].
  destruct (Net.results data) as [[| r0 rs] |]; try reflexivity.
  rewrite (fieldOf_declared v VisionResult.type type) by reflexivity.
  apply takeScored_declared.
Qed.

Lemma findPlaceId_declared (env : Env.t) (la lo : R) (dir : Geo.Direction)
      (v : option VisionResult.t) :
  findPlaceId showNumber nearbySearchAt env (Number la) (Number lo) dir
              (option_map declaredVision v)
  = TapContext.findPlaceId showNumber env la lo dir v.
Proof.
  unfold findPlaceId, TapContext.findPlaceId.
  rewrite strategy1_declared. apply bind_ext. intros found1.
  rewrite strategy2_declared. reflexivity.
Qed.

Lemma placeBlock_declared (env : Env.t) (rateLimit : RateLimit.RateLimitResult)
      (la lo : R) (dir : Geo.Direction) (v : option VisionResult.t) :
  placeBlock showNumber nearbySearchAt env rateLimit (Number la) (Number lo) dir
             (option_map declaredVision v)
  = TapContext.placeBlock showNumber env rateLimit la lo dir v.
Proof.
  unfold placeBlock, TapContext.placeBlock.
  apply bind_ext. intros _. rewrite findPlaceId_declared.
  apply bind_ext. intros placeId.
  destruct (Js.truthy placeId).
  - apply bind_ext. intros [data |]; [| reflexivity].
    destruct (Net.result data) as [d |]; [| reflexivity].
    rewrite enriched_declared. reflexivity.
  - destruct v as [r |]; [| reflexivity]. cbn [option_map].
    rewrite visionDetailParts_declared, visionOnly_declared. reflexivity.
Qed.

Lemma geoBlock_declared (env : Env.t) (nowGeo : Z) (hdrs : RateLimit.Headers)
      (rateLimit : RateLimit.RateLimitResult) (la lo : R) (dir : Geo.Direction)
      (v : option VisionResult.t) (store : RateLimit.Store) :
  geoBlock env nowGeo hdrs rateLimit (Number la) (Number lo) dir
           (option_map declaredVision v) store
  = TapContext.geoBlock env nowGeo hdrs rateLimit la lo dir v store.
Proof.
  unfold geoBlock, TapContext.geoBlock. cbn [asNumber].
  destruct (GeoContext.POST env nowGeo hdrs
              (Some (GeoContext.mkBody (Some la) (Some lo) (Some dir))) store)
    as [[store' g] evs].
  destruct (ok g); [| reflexivity].
  destruct (json g) as [msg | [| bestPlace others]].
  - destruct v as [r |]; [| reflexivity]. cbn [option_map].
    rewrite visionDetailParts_declared, visionOnly_declared. reflexivity.
  - destruct v as [r |]; [| reflexivity]. cbn [option_map].
    rewrite visionDetailParts_declared, visionOnly_declared. reflexivity.
  - rewrite placeCard_declared. reflexivity.
Qed.

Lemma located_declared (latitude longitude : option R) :
  located (declaredCoordinate latitude) (declaredCoordinate longitude)
  = match TapContext.located latitude longitude with
    | Some _ => true
    | None => false
    end.
Proof.
  unfold located, TapContext.located.
  destruct latitude as [la |], longitude as [lo |]; cbn [declaredCoordinate truthyCoordinate];
    try reflexivity.
  - destruct (Js.truthyNum (Some la)), (Js.truthyNum (Some lo)); reflexivity.
  - destruct (Js.truthyNum (Some la)); reflexivity.
Qed.

Lemma located_inv (latitude longitude : option R) (la lo : R) :
  TapContext.located latitude longitude = Some (la, lo) ->
  latitude = Some la /\ longitude = Some lo.
Proof.
  unfold TapContext.located.
  destruct (Js.truthyNum latitude && Js.truthyNum longitude); [| discriminate].
  destruct latitude, longitude; try discriminate.
  intros H. inversion H. auto.
Qed.

Lemma mockResponse_declared (env : Env.t) (latitude longitude : option R) (tx ty : R) :
  mockResponse toFixed env (declaredCoordinate latitude) (declaredCoordinate longitude)
               tx ty
  = Some (TapContext.mockResponse toFixed env latitude longitude tx ty).
Proof.
  unfold mockResponse, TapContext.mockResponse. rewrite located_declared.
  destruct (TapContext.located latitude longitude) as [[la lo] |] eqn:El;
    [| reflexivity].
  apply located_inv in El. destruct El as [-> ->].
  destruct (negb (Js.truthy (Env.GOOGLE_API_KEY env))); reflexivity.
Qed.

Lemma lastResort_declared (env : Env.t) (rateLimit : RateLimit.RateLimitResult)
      (v : option VisionResult.t) (latitude longitude : option R) (tx ty : R) :
  lastResort toFixed env rateLimit (option_map declaredVision v)
             (declaredCoordinate latitude) (declaredCoordinate longitude) tx ty
  = TapContext.lastResort toFixed env rateLimit v latitude longitude tx ty.
Proof.
  unfold lastResort, TapContext.lastResort. destruct v as [r |]; cbn [option_map].
  - rewrite visionOnly_declared.
    change (details (declaredVision r)) with (declaredField (VisionResult.details r)).
    rewrite orText_declared. reflexivity.
  - rewrite mockResponse_declared. reflexivity.
Qed.

(** On inputs of the declared shape the two models of the pipeline
    agree. *)
Lemma resolve_declared (env : Env.t) (nowGeo : Z) (hdrs : RateLimit.Headers)
      (rateLimit : RateLimit.RateLimitResult) (latitude longitude : option R)
      (tx ty : R) (v : option VisionResult.t) (store : RateLimit.Store) :
  resolve showNumber toFixed nearbySearchAt env nowGeo hdrs rateLimit
          (declaredCoordinate latitude) (declaredCoordinate longitude) tx ty
          (option_map declaredVision v) store
  = TapContext.resolve showNumber toFixed env nowGeo hdrs rateLimit
                       latitude longitude tx ty v store.
Proof.
  unfold resolve, TapContext.resolve. cbv zeta.
  rewrite located_declared, lastResort_declared.
  destruct (TapContext.located latitude longitude) as [[la lo] |] eqn:El;
    [| reflexivity].
  apply located_inv in El. destruct El as [-> ->]. cbn [declaredCoordinate].
  rewrite placeBlock_declared, geoBlock_declared. reflexivity.
Qed.

Lemma parseVisionText_declared (text : string) :
  parseVisionText (declaredParse JSON_parse) regexGroup text
  = option_map declaredVision (TapContext.parseVisionText JSON_parse regexGroup text).
Proof.
  unfold parseVisionText, TapContext.parseVisionText, declaredParse.
  destruct (TapContext.matchBraces (TapContext.stripFences (Js.trim text)))
    as [jsonMatch |]; [| reflexivity].
  destruct (JSON_parse jsonMatch); reflexivity.
Qed.

Lemma visionStep_declared (env : Env.t) (img : string) :
  visionStep (declaredParse JSON_parse) regexGroup env (ImageText img)
  = (option_map declaredVision (fst (TapContext.visionStep JSON_parse regexGroup env img)),
     snd (TapContext.visionStep JSON_parse regexGroup env img)).
Proof.
  unfold visionStep, TapContext.visionStep. cbn [base64Of].
  destruct (Env.requireKey env); [| reflexivity].
  destruct (Env.gemini env (TapContext.base64Of img)) as [| st | data];
    try reflexivity.
  destruct (Net.text data) as [t |]; [| reflexivity].
  destruct (String.eqb t ""); [reflexivity |].
  rewrite parseVisionText_declared. reflexivity.
Qed.

(** The handler of [TapContext] is the handler of [TapContextAny] at
    the inputs of the declared shape. *)
Lemma POST_declared (env : Env.t) (now nowGeo : Z) (hdrs : RateLimit.Headers)
      (body : option TapContext.Body) (store : RateLimit.Store) :
  POST (declaredParse JSON_parse) regexGroup showNumber toFixed nearbySearchAt
       env now nowGeo hdrs (option_map declaredBody body) store
  = TapContext.POST JSON_parse regexGroup showNumber toFixed
                    env now nowGeo hdrs body store.
Proof.
  unfold POST, TapContext.POST. cbv zeta.
  destruct (RateLimit.checkRateLimit now (RateLimit.getClientIdentifier hdrs) store)
    as [store1 rateLimit].
  destruct (negb (RateLimit.allowed rateLimit)); [reflexivity |].
  destruct body as [b |]; [| reflexivity]. cbn [option_map].
  cbn [declaredBody image tapX tapY latitude longitude].
  destruct (TapContext.image b) as [img |]; cbn [declaredImage truthyImage Js.truthy];
    [| destruct (TapContext.tapX b), (TapContext.tapY b); reflexivity].
  destruct (negb (String.eqb img ""));
    [| destruct (TapContext.tapX b), (TapContext.tapY b); reflexivity].
  destruct (TapContext.tapX b) as [tx |]; [| reflexivity].
  destruct (TapContext.tapY b) as [ty |]; [| reflexivity].
  cbn [tooLarge]. destruct (TapContext.tooLarge img); [reflexivity |].
  rewrite visionStep_declared.
  destruct (TapContext.visionStep JSON_parse regexGroup env img) as [v evs1].
  cbn [fst snd]. rewrite resolve_declared. reflexivity.
Qed.

End Agreement.

Section AnyFacts.

Import TapContextAny Http.
Local Open Scope string_scope.

Variable JSON_parse : string -> option VisionObject.
Variable regexGroup : TapContext.Pattern -> string -> option string.
Variable showNumber : R -> string.
Variable toFixed : nat -> R -> string.
Variable nearbySearchAt : string -> string -> nat -> Net.Fetch Net.SearchData.

Lemma POST_valid_any (env : Env.t) (now nowGeo : Z) (hdrs : RateLimit.Headers)
      (b : Body) (store store1 : RateLimit.Store)
      (rateLimit : RateLimit.RateLimitResult) (tx ty : R) :
  passesLimit now hdrs store store1 rateLimit ->
  validAnyBody b tx ty ->
  let vision := visionStep JSON_parse regexGroup env (image b) in
  let rest := resolve showNumber toFixed nearbySearchAt env nowGeo hdrs rateLimit
                      (latitude b) (longitude b) tx ty (fst vision) store1 in
  POST JSON_parse regexGroup showNumber toFixed nearbySearchAt
       env now nowGeo hdrs (Some b) store
  = (fst (fst rest), snd (fst rest), (ReadBody :: snd vision ++ snd rest)%list).
Proof.
  intros [Hck Hal] [Himg [Hsz [Htx Hty]]]. cbv zeta.
  unfold POST. rewrite Hck, Hal. cbn [negb].
  rewrite Himg, Htx, Hty, Hsz.
  destruct (visionStep JSON_parse regexGroup env (image b)) as [v evs1].
  cbn [fst snd].
  destruct (resolve showNumber toFixed nearbySearchAt env nowGeo hdrs rateLimit
                    (latitude b) (longitude b) tx ty v store1) as [[s2 r] evs].
  reflexivity.
Qed.

(** ** The vision step *)

Lemma visionStep_failure_any (env : Env.t) (img : Image) :
  VisionFailureAny env img -> fst (visionStep JSON_parse regexGroup env img) = None.
Proof.
  unfold visionStep.
  intros [Hk | Hs | sent Hs Hg | sent st Hs Hg | sent data Hs Hg Ht
          | sent data t Hs Hg Ht Hm];
    destruct (Env.requireKey env); try reflexivity; try discriminate;
    rewrite Hs; try reflexivity; rewrite Hg; try reflexivity.
  - destruct Ht as [-> | ->]; reflexivity.
  - rewrite Ht. destruct (String.eqb t ""); [reflexivity |].
    unfold parseVisionText. rewrite Hm. reflexivity.
Qed.

Lemma extract_Extracted (quoted bare : TapContext.Pattern) (text : string) :
  Extracted regexGroup quoted bare text
            (match TapContext.extract regexGroup quoted bare text with
             | Some s => Text s
             | None => Absent
             end).
Proof.
  unfold TapContext.extract.
  destruct (regexGroup quoted text) as [g |] eqn:Eq.
  - apply FromQuoted. exact Eq.
  - destruct (regexGroup bare text) as [g |] eqn:Eb.
    + apply (FromBare _ _ _ _ g); assumption.
    + apply NothingExtracted; assumption.
Qed.

Lemma visionStep_unparsable_any (env : Env.t) (img : Image) (sent : string)
      (data : Net.GeminiData) (t jsonMatch : string) :
  Env.requireKey env <> None ->
  base64Of img = Some sent ->
  Env.gemini env sent = Net.Ok data ->
  Net.text data = Some t -> t <> "" ->
  TapContext.matchBraces (TapContext.stripFences (Js.trim t)) = Some jsonMatch ->
  JSON_parse jsonMatch = None ->
  exists hint,
    fst (visionStep JSON_parse regexGroup env img) = Some hint /\
    Extracted regexGroup TapContext.NameQuoted TapContext.NameBare t (name hint) /\
    Extracted regexGroup TapContext.TypeQuoted TapContext.TypeBare t (type hint) /\
    Extracted regexGroup TapContext.DescriptionQuoted TapContext.DescriptionBare t
              (description hint) /\
    details hint = Absent /\ year hint = Absent /\
    architecturalStyle hint = Absent /\ significance hint = Absent.
Proof.
  intros Hk Hs Hg Ht Hne Hm Hp. unfold visionStep.
  destruct (Env.requireKey env); [| contradiction].
  rewrite Hs, Hg, Ht. apply String.eqb_neq in Hne. rewrite Hne.
  unfold parseVisionText. rewrite Hm, Hp. cbn [fst].
  eexists. split; [reflexivity |].
  unfold extractFallback. cbn [name type description details year
                                 architecturalStyle significance].
  repeat split; try reflexivity; apply extract_Extracted.
Qed.

(** What the vision step sent when it yields a hint. *)
Lemma visionStep_Some_any (env : Env.t) (img : Image) (vr : VisionObject) :
  fst (visionStep JSON_parse regexGroup env img) = Some vr ->
  Env.requireKey env <> None /\
  exists sent, base64Of img = Some sent /\
               snd (visionStep JSON_parse regexGroup env img) = [CallGemini sent].
Proof.
  unfold visionStep. destruct (Env.requireKey env) as [k |]; [| discriminate].
  destruct (base64Of img) as [sent |]; [| discriminate].
  intros H. split; [discriminate |]. exists sent. split; [reflexivity |].
  destruct (Env.gemini env sent) as [| st | data]; try reflexivity.
  destruct (Net.text data) as [t |]; [| reflexivity].
  destruct (String.eqb t ""); reflexivity.
Qed.

(** ** Where an answer cannot be built *)

Lemma visionSubtitle_None (vr : VisionObject) :
  visionSubtitle vr = None <-> exists s, type vr = Other true s.
Proof.
  unfold visionSubtitle. split.
  - destruct (type vr) as [| s | [|] s]; try discriminate. eauto.
  - intros [s ->]. reflexivity.
Qed.

Lemma visionOnly_None (vr : VisionObject) (detailsText : string) :
  visionOnly vr detailsText = None <-> exists s, type vr = Other true s.
Proof.
  rewrite <- visionSubtitle_None. unfold visionOnly.
  destruct (visionSubtitle vr); split; intros H; try discriminate; reflexivity.
Qed.

Lemma visionOnly_Some (vr : VisionObject) (detailsText : string)
      (r : TapContext.ResolutionResult) :
  visionOnly vr detailsText = Some r ->
  TapContext.confidence r = 0.7%R /\ TapContext.url r = None /\
  TapContext.title r = orText (name vr) "Building" /\
  visionSubtitle vr = Some (TapContext.subtitle r).
Proof.
  unfold visionOnly. destruct (visionSubtitle vr) as [sub |]; [| discriminate].
  intros H. inversion H. cbn. auto.
Qed.

Lemma formattedType_None (ty : Field) (fallback : string) :
  formattedType ty fallback = None <-> exists s, ty = Other true s.
Proof.
  unfold formattedType. split.
  - destruct ty as [| s | [|] s]; try discriminate. eauto.
  - intros [s ->]. reflexivity.
Qed.

Lemma enriched_None (v : option VisionObject) (d : DetailedPlace.t) :
  enriched showNumber v d = None <-> exists s, fieldOf v type = Other true s.
Proof.
  rewrite <- (formattedType_None (fieldOf v type)
                (Js.orStr (TapContext.firstType d) "Location")).
  unfold enriched.
  destruct (formattedType (fieldOf v type)
              (Js.orStr (TapContext.firstType d) "Location"));
    split; intros H; try discriminate; reflexivity.
Qed.

Lemma placeCard_None (v : option VisionObject) (g : GeoContext.GeoPlace) :
  placeCard v g = None <-> exists s, fieldOf v type = Other true s.
Proof.
  rewrite <- (formattedType_None (fieldOf v type)
                (Js.orStr (Some (GeoContext.type g)) "Location")).
  unfold placeCard. cbv zeta.
  destruct (formattedType (fieldOf v type)
              (Js.orStr (Some (GeoContext.type g)) "Location"));
    split; intros H; try discriminate; reflexivity.
Qed.

Lemma mockResponse_None (env : Env.t) (latitude longitude : Coordinate) (tx ty : R) :
  mockResponse toFixed env latitude longitude tx ty = None <->
  located latitude longitude = true /\
  Js.truthy (Env.GOOGLE_API_KEY env) = true /\
  (asNumber latitude = None \/ asNumber longitude = None).
Proof.
  unfold mockResponse.
  destruct (located latitude longitude).
  - destruct (Js.truthy (Env.GOOGLE_API_KEY env)); cbn [negb].
    + destruct (asNumber latitude) as [la |], (asNumber longitude) as [lo |];
        split; intros H; try discriminate; try reflexivity; auto.
      destruct H as [_ [_ [H | H]]]; discriminate.
    + split; [discriminate | intros [_ [H _]]; discriminate].
  - split; [discriminate | intros [H _]; discriminate].
Qed.

Lemma mockResponse_Some (env : Env.t) (latitude longitude : Coordinate) (tx ty : R)
      (r : TapContext.ResolutionResult) :
  mockResponse toFixed env latitude longitude tx ty = Some r ->
  TapContext.confidence r = 0.3%R /\ TapContext.description r = None /\
  TapContext.url r = None /\
  TapContext.title r <> "" /\ TapContext.subtitle r <> "".
Proof.
  unfold mockResponse, fixedMessage.
  destruct (located latitude longitude).
  - destruct (negb (Js.truthy (Env.GOOGLE_API_KEY env))).
    + intros H. inversion H. cbn. repeat split; discriminate.
    + destruct (asNumber latitude) as [la |], (asNumber longitude) as [lo |];
        try discriminate.
      intros H. inversion H. cbn. repeat split; discriminate.
  - intros H. inversion H. cbn. repeat split; discriminate.
Qed.

(** ** The exits of [resolve] *)

Lemma placeBlock_cases_any (env : Env.t) (rateLimit : RateLimit.RateLimitResult)
      (latitude longitude : Coordinate) (dir : Geo.Direction)
      (v : option VisionObject) (response : Response TapContext.Json)
      (evs : list Event) :
  placeBlock showNumber nearbySearchAt env rateLimit latitude longitude dir v
  = (Some (Some response), evs) ->
  exists r,
    response = TapContext.respond rateLimit r /\
    ((exists d, enriched showNumber v d = Some r) \/
     (exists vr, v = Some vr /\
                 visionOnly vr (Js.join TapContext.nl2 (visionDetailParts vr)) = Some r)).
Proof.
  unfold placeBlock, TapContext.bind, TapContext.apiKey, TapContext.ret.
  destruct (Env.requireKey env) as [k |]; [| discriminate].
  destruct (findPlaceId showNumber nearbySearchAt env latitude longitude dir v)
    as [[placeId |] evs0]; [| discriminate].
  destruct (Js.truthy placeId).
  - unfold TapContext.call.
    destruct (Env.placeDetails env (Js.orStr placeId "")) as [| st | data];
      try discriminate.
    destruct (Net.result data) as [d |]; [| discriminate].
    unfold answer. destruct (enriched showNumber v d) as [r |] eqn:Er;
      [| discriminate].
    intros H. inversion H; subst. exists r. split; [reflexivity |]. left. eauto.
  - destruct v as [vr |]; [| discriminate].
    unfold answer.
    destruct (visionOnly vr (Js.join TapContext.nl2 (visionDetailParts vr)))
      as [r |] eqn:Er; [| discriminate].
    intros H. inversion H; subst. exists r. split; [reflexivity |]. right. eauto.
Qed.

Lemma lastResort_exit (env : Env.t) (nowGeo : Z) (hdrs : RateLimit.Headers)
      (rateLimit : RateLimit.RateLimitResult)
      (latitude longitude : Coordinate) (tx ty : R)
      (v : option VisionObject) (store : RateLimit.Store) :
  exitOf showNumber toFixed env nowGeo hdrs rateLimit latitude longitude tx ty v store
         (lastResort toFixed env rateLimit v latitude longitude tx ty).
Proof.
  unfold lastResort, exitOf. destruct v as [vr |].
  - destruct (visionOnly vr (orText (details vr) "")) as [r |] eqn:Er.
    + left. exists r. split; [reflexivity |]. right. left. eauto.
    + right. split; [reflexivity |]. left. apply visionOnly_None in Er.
      destruct Er as [s Hs]. eauto.
  - destruct (mockResponse toFixed env latitude longitude tx ty) as [r |] eqn:Er.
    + left. exists r. split; [reflexivity |]. right. right. right. auto.
    + right. split; [reflexivity |]. right. apply mockResponse_None in Er. auto.
Qed.

Lemma resolve_exits_any (env : Env.t) (nowGeo : Z) (hdrs : RateLimit.Headers)
      (rateLimit : RateLimit.RateLimitResult)
      (latitude longitude : Coordinate) (tx ty : R)
      (v : option VisionObject) (store : RateLimit.Store) :
  exitOf showNumber toFixed env nowGeo hdrs rateLimit latitude longitude tx ty v store
         (snd (fst (resolve showNumber toFixed nearbySearchAt env nowGeo hdrs rateLimit
                            latitude longitude tx ty v store))).
Proof.
  pose proof (lastResort_exit env nowGeo hdrs rateLimit latitude longitude tx ty v store)
    as Hlast.
  unfold resolve. cbv zeta.
  destruct (located latitude longitude) eqn:Eloc; [| exact Hlast].
  assert (Hgeo :
            forall evs2,
              exitOf showNumber toFixed env nowGeo hdrs rateLimit latitude longitude tx ty v store
                (snd (fst (match geoBlock env nowGeo hdrs rateLimit latitude longitude
                                          (TapContext.direction tx ty) v store with
                           | (store2, Some response, evs3) =>
                               (store2, response, (evs2 ++ evs3)%list)
                           | (store2, None, evs3) =>
                               (store2,
                                lastResort toFixed env rateLimit v latitude longitude
                                           tx ty,
                                (evs2 ++ evs3)%list)
                           end)))).
  { intros evs2. unfold geoBlock.
    destruct (GeoContext.POST env nowGeo hdrs
                (Some (GeoContext.mkBody (asNumber latitude) (asNumber longitude)
                         (Some (TapContext.direction tx ty))))
                store) as [[s' g] evs] eqn:Eg.
    destruct (ok g); [| exact Hlast].
    assert (Hvision :
              exitOf showNumber toFixed env nowGeo hdrs rateLimit latitude longitude tx ty v store
                (snd (fst (match
                              (s',
                               option_map (TapContext.respond rateLimit)
                                 match v with
                                 | Some visionResult =>
                                     visionOnly visionResult
                                       (Js.join " " (visionDetailParts visionResult))
                                 | None => None
                                 end,
                               CallGeoContext :: evs) with
                           | (store2, Some response, evs3) =>
                               (store2, response, (evs2 ++ evs3)%list)
                           | (store2, None, evs3) =>
                               (store2,
                                lastResort toFixed env rateLimit v latitude longitude
                                           tx ty,
                                (evs2 ++ evs3)%list)
                           end)))).
    { destruct v as [vr |]; [| exact Hlast].
      destruct (visionOnly vr (Js.join " " (visionDetailParts vr))) as [r |] eqn:Er;
        [| exact Hlast].
      left. exists r. split; [reflexivity |]. right. left. eauto. }
    destruct (json g) as [msg | [| p ps]] eqn:Ej; try exact Hvision.
    destruct (placeCard v p) as [r |] eqn:Er; [| exact Hlast].
    left. exists r. split; [reflexivity |]. right. right. left.
    exists p, ps. rewrite Eg. cbn [fst snd]. auto. }
  destruct (placeBlock showNumber nearbySearchAt env rateLimit latitude longitude
                       (TapContext.direction tx ty) v)
    as [[[response |] |] evs2] eqn:Ep; cbn [TapContext.tryCatch].
  - cbn [fst snd]. apply placeBlock_cases_any in Ep.
    destruct Ep as [r [-> [[d Hd] | [vr [Hv Hr]]]]]; left; exists r;
      (split; [reflexivity |]); [left | right; left]; eauto.
  - apply Hgeo.
  - apply Hgeo.
Qed.

End AnyFacts.

Section AnyAnswers.

Import TapContextAny Http.
Local Open Scope string_scope.

Variable JSON_parse : string -> option VisionObject.
Variable regexGroup : TapContext.Pattern -> string -> option string.
Variable showNumber : R -> string.
Variable toFixed : nat -> R -> string.
Variable nearbySearchAt : string -> string -> nat -> Net.Fetch Net.SearchData.

(** ** The searches after a vision failure *)

Lemma placeBlock_searches_any (env : Env.t) (rateLimit : RateLimit.RateLimitResult)
      (latitude longitude : Coordinate) (dir : Geo.Direction) :
  Env.requireKey env <> None ->
  In (CallNearbySearch TapContext.searchRadius)
     (snd (placeBlock showNumber nearbySearchAt env rateLimit latitude longitude
                      dir None)).
Proof.
  intros Hk. unfold placeBlock.
  destruct (Env.requireKey env) as [k |] eqn:Ek; [| contradiction].
  apply (bind_In_r _ _ k); [unfold TapContext.apiKey; rewrite Ek; reflexivity |].
  apply bind_In_l. unfold findPlaceId.
  apply (bind_In_r _ _ None); [reflexivity |]. cbn [Js.truthy].
  apply bind_In_l. unfold strategy2. apply bind_In_l. apply call_In.
Qed.

Lemma resolve_searches_any (env : Env.t) (nowGeo : Z) (hdrs : RateLimit.Headers)
      (rateLimit : RateLimit.RateLimitResult) (latitude longitude : Coordinate)
      (tx ty : R) (store : RateLimit.Store) :
  Env.requireKey env <> None ->
  located latitude longitude = true ->
  In (CallNearbySearch TapContext.searchRadius)
     (snd (resolve showNumber toFixed nearbySearchAt env nowGeo hdrs rateLimit
                   latitude longitude tx ty None store)).
Proof.
  intros Hk Hloc. unfold resolve. cbv zeta. rewrite Hloc.
  pose proof (placeBlock_searches_any env rateLimit latitude longitude
                (TapContext.direction tx ty) Hk) as Hin.
  destruct (placeBlock showNumber nearbySearchAt env rateLimit latitude longitude
                       (TapContext.direction tx ty) None)
    as [[[r |] |] evs2]; cbn [TapContext.tryCatch snd] in *.
  - exact Hin.
  - destruct (geoBlock env nowGeo hdrs rateLimit latitude longitude
                       (TapContext.direction tx ty) None store)
      as [[s2 [r |]] evs3]; cbn [snd]; apply in_or_app; left; exact Hin.
  - destruct (geoBlock env nowGeo hdrs rateLimit latitude longitude
                       (TapContext.direction tx ty) None store)
      as [[s2 [r |]] evs3]; cbn [snd]; apply in_or_app; left; exact Hin.
Qed.

(** A request whose coordinates are numbers or falsy, and whose hint,
    if any, has a type that is a string or falsy, is answered 200. *)
Lemma resolve_answers (env : Env.t) (nowGeo : Z) (hdrs : RateLimit.Headers)
      (rateLimit : RateLimit.RateLimitResult) (latitude longitude : Coordinate)
      (tx ty : R) (v : option VisionObject) (store : RateLimit.Store) :
  numberOrFalsy latitude -> numberOrFalsy longitude ->
  stringOrFalsy (fieldOf v type) ->
  exists r,
    snd (fst (resolve showNumber toFixed nearbySearchAt env nowGeo hdrs rateLimit
                      latitude longitude tx ty v store))
    = TapContext.respond rateLimit r.
Proof.
  intros Hla Hlo Hty.
  destruct (resolve_exits_any showNumber toFixed nearbySearchAt env nowGeo hdrs
              rateLimit latitude longitude tx ty v store)
    as [[r [Hr _]] | [_ [[vr [s [-> Hs]]] | [_ [Hloc [_ Hn]]]]]].
  - exists r. exact Hr.
  - exfalso. apply (Hty s). exact Hs.
  - exfalso. unfold located in Hloc. apply andb_true_iff in Hloc.
    destruct Hloc as [H1 H2].
    destruct (Hla H1) as [la ->], (Hlo H2) as [lo ->].
    destruct Hn as [Hn | Hn]; discriminate Hn.
Qed.

(** A hint whose type is truthy and not a string ends every path in
    the outermost [catch]. *)
Lemma resolve_fails (env : Env.t) (nowGeo : Z) (hdrs : RateLimit.Headers)
      (rateLimit : RateLimit.RateLimitResult) (latitude longitude : Coordinate)
      (tx ty : R) (vr : VisionObject) (s : string) (store : RateLimit.Store) :
  type vr = Other true s ->
  snd (fst (resolve showNumber toFixed nearbySearchAt env nowGeo hdrs rateLimit
                    latitude longitude tx ty (Some vr) store))
  = failed.
Proof.
  intros Hs.
  assert (Hty : exists s0, fieldOf (Some vr) type = Other true s0) by (exists s; exact Hs).
  destruct (resolve_exits_any showNumber toFixed nearbySearchAt env nowGeo hdrs
              rateLimit latitude longitude tx ty (Some vr) store)
    as [[r [_ [[d Hd] | [[vr' [dt [Hv Hr]]] | [[g [ps [_ [_ Hc]]]] | [Hv _]]]]]]
        | [Hf _]].
  - rewrite (proj2 (enriched_None showNumber (Some vr) d) Hty) in Hd. discriminate Hd.
  - inversion Hv; subst vr'.
    assert (Hn : visionOnly vr dt = None) by (apply visionOnly_None; eauto).
    rewrite Hn in Hr. discriminate Hr.
  - rewrite (proj2 (placeCard_None (Some vr) g) Hty) in Hc. discriminate Hc.
  - discriminate Hv.
  - exact Hf.
Qed.

End AnyAnswers.

Section AnyClaims.

Import TapContextAny Http.
Local Open Scope string_scope.

Variable JSON_parse : string -> option VisionObject.
Variable regexGroup : TapContext.Pattern -> string -> option string.
Variable showNumber : R -> string.
Variable toFixed : nat -> R -> string.
Variable nearbySearchAt : string -> string -> nat -> Net.Fetch Net.SearchData.

(** C5.  (1) When the vision step fails (no key, an image that cannot
    be sent, a thrown call, a reply that is not OK, a reply without
    text, or text that holds no brace-delimited span) the vision hint is
    null.  (2) When the reply text holds a brace-delimited span that
    [JSON.parse] rejects, the hint is built from the raw text by pattern
    matching: each of name, type and description is what the quoted
    pattern captures, else what the bare pattern captures, trimmed and
    freed of its enclosing quotes, and is absent when neither pattern
    matches; the other fields are absent.  (3) After a failure, a valid
    request that passes the limiter is answered by the rest of the
    handler run without a hint, the vision step having aborted nothing:
    when the body's latitude and longitude are numbers or falsy the
    answer is a 200, and with a key and a location the nearby candidate
    search is made.  A text without a brace is not searched for patterns,
    and a reply that [JSON.parse] accepts is the hint as it is parsed. *)
Theorem vision_failure_never_aborts (env : Env.t) (img : Image) :
  (VisionFailureAny env img ->
   fst (visionStep JSON_parse regexGroup env img) = None) /\
  (forall sent data t jsonMatch,
      Env.requireKey env <> None ->
      base64Of img = Some sent ->
      Env.gemini env sent = Net.Ok data ->
      Net.text data = Some t -> t <> "" ->
      TapContext.matchBraces (TapContext.stripFences (Js.trim t)) = Some jsonMatch ->
      JSON_parse jsonMatch = None ->
      exists hint,
        fst (visionStep JSON_parse regexGroup env img) = Some hint /\
        Extracted regexGroup TapContext.NameQuoted TapContext.NameBare t (name hint) /\
        Extracted regexGroup TapContext.TypeQuoted TapContext.TypeBare t (type hint) /\
        Extracted regexGroup TapContext.DescriptionQuoted TapContext.DescriptionBare t
                  (description hint) /\
        details hint = Absent /\ year hint = Absent /\
        architecturalStyle hint = Absent /\ significance hint = Absent) /\
  (forall now nowGeo hdrs b store store1 rateLimit tx ty,
      image b = img ->
      passesLimit now hdrs store store1 rateLimit ->
      validAnyBody b tx ty ->
      VisionFailureAny env img ->
      let vision := visionStep JSON_parse regexGroup env img in
      let rest := resolve showNumber toFixed nearbySearchAt env nowGeo hdrs rateLimit
                          (latitude b) (longitude b) tx ty None store1 in
      POST JSON_parse regexGroup showNumber toFixed nearbySearchAt
           env now nowGeo hdrs (Some b) store
      = (fst (fst rest), snd (fst rest), (ReadBody :: snd vision ++ snd rest)%list) /\
      (numberOrFalsy (latitude b) -> numberOrFalsy (longitude b) ->
       exists r,
         snd (fst rest)
         = mkResponse 200 (Some (rateHeaders rateLimit)) (TapContext.Resolved r)) /\
      (Env.requireKey env <> None ->
       located (latitude b) (longitude b) = true ->
       In (CallNearbySearch TapContext.searchRadius)
          (snd (POST JSON_parse regexGroup showNumber toFixed nearbySearchAt
                     env now nowGeo hdrs (Some b) store)))).
Proof.
  split; [apply visionStep_failure_any |].
  split; [intros sent data t jsonMatch; apply visionStep_unparsable_any |].
  intros now nowGeo hdrs b store store1 rateLimit tx ty Himg Hp Hv Hf. cbv zeta.
  subst img.
  pose proof (POST_valid_any JSON_parse regexGroup showNumber toFixed nearbySearchAt
                env now nowGeo hdrs b store store1 rateLimit tx ty Hp Hv) as HP.
  cbv zeta in HP. rewrite (visionStep_failure_any JSON_parse regexGroup env (image b) Hf) in HP.
  split; [exact HP |]. split.
  - intros Hla Hlo.
    apply (resolve_answers showNumber toFixed nearbySearchAt env nowGeo hdrs rateLimit
             (latitude b) (longitude b) tx ty None store1 Hla Hlo).
    intros s. discriminate.
  - intros Hk Hloc. rewrite HP. cbn [snd]. right. apply in_or_app. right.
    apply (resolve_searches_any showNumber toFixed nearbySearchAt env nowGeo hdrs
             rateLimit _ _ tx ty store1 Hk Hloc).
Qed.

(** X15.  Every answer to a tap that passes the limiter and the
    validation is of one of five kinds: the enriched place (confidence
    0.9), an answer built from the vision hint alone (confidence 0.7, no
    link), the card of the first place of the nested geo-context reply,
    the fixed message of confidence 0.3 (only when there is no vision
    hint), or the 500 of the outermost [catch].  The 500 is answered
    only when the hint's type is truthy and not a string, or when there
    is no hint, the key is set and a truthy latitude or longitude is not
    a number; a hint whose type is truthy and not a string is always
    answered 500; and a request whose coordinates are numbers or falsy,
    with a hint whose type is a string or falsy or with none, is always
    answered 200. *)
Theorem every_answer_is_of_five_kinds
        (env : Env.t) (now nowGeo : Z) (hdrs : RateLimit.Headers)
        (b : Body) (store store1 : RateLimit.Store)
        (rateLimit : RateLimit.RateLimitResult) (tx ty : R) :
  passesLimit now hdrs store store1 rateLimit ->
  validAnyBody b tx ty ->
  let v := fst (visionStep JSON_parse regexGroup env (image b)) in
  let response :=
    snd (fst (POST JSON_parse regexGroup showNumber toFixed nearbySearchAt
                   env now nowGeo hdrs (Some b) store)) in
  ((exists r,
       response = mkResponse 200 (Some (rateHeaders rateLimit)) (TapContext.Resolved r) /\
       ((exists d, enriched showNumber v d = Some r /\
                   TapContext.confidence r = 0.9%R) \/
        (exists vr detailsText,
            v = Some vr /\ visionOnly vr detailsText = Some r /\
            TapContext.confidence r = 0.7%R /\ TapContext.url r = None) \/
        (exists g ps,
            located (latitude b) (longitude b) = true /\
            json (snd (fst (GeoContext.POST env nowGeo hdrs
                              (Some (GeoContext.mkBody (asNumber (latitude b))
                                       (asNumber (longitude b))
                                       (Some (TapContext.direction tx ty))))
                              store1)))
            = GeoContext.Places (g :: ps) /\
            placeCard v g = Some r) \/
        (v = None /\
         mockResponse toFixed env (latitude b) (longitude b) tx ty = Some r /\
         TapContext.confidence r = 0.3%R /\ TapContext.description r = None /\
         TapContext.url r = None))) \/
   (response = mkResponse 500 None (TapContext.Error "Context lookup failed") /\
    ((exists vr s, v = Some vr /\ type vr = Other true s) \/
     (v = None /\ located (latitude b) (longitude b) = true /\
      Js.truthy (Env.GOOGLE_API_KEY env) = true /\
      (asNumber (latitude b) = None \/ asNumber (longitude b) = None))))) /\
  (forall vr s,
      v = Some vr -> type vr = Other true s ->
      response = mkResponse 500 None (TapContext.Error "Context lookup failed")) /\
  (numberOrFalsy (latitude b) -> numberOrFalsy (longitude b) ->
   stringOrFalsy (fieldOf v type) ->
   exists r,
     response = mkResponse 200 (Some (rateHeaders rateLimit)) (TapContext.Resolved r)).
Proof.
  intros Hpass Hvalid. cbv zeta.
  rewrite (POST_valid_any JSON_parse regexGroup showNumber toFixed nearbySearchAt
             env now nowGeo hdrs b store store1 rateLimit tx ty Hpass Hvalid).
  cbn [fst snd].
  set (v := fst (visionStep JSON_parse regexGroup env (image b))).
  split; [| split].
  - destruct (resolve_exits_any showNumber toFixed nearbySearchAt env nowGeo hdrs
                rateLimit (latitude b) (longitude b) tx ty v store1)
      as [[r [Hr Hk]] | [Hf Hc]].
    + left. exists r. split; [exact Hr |].
      destruct Hk as [[d Hd] | [[vr [dt [Hv Hd]]] | [[g [ps H]] | [Hv Hd]]]].
      * left. exists d. split; [exact Hd |].
        unfold enriched in Hd.
        destruct (formattedType (fieldOf v type)
                    (Js.orStr (TapContext.firstType d) "Location"));
          [| discriminate Hd].
        inversion Hd. reflexivity.
      * right. left. exists vr, dt.
        destruct (visionOnly_Some vr dt r Hd) as [Hc [Hu _]]. auto.
      * right. right. left. exists g, ps. exact H.
      * right. right. right.
        destruct (mockResponse_Some toFixed env _ _ tx ty r Hd) as [Hc [Hde [Hu _]]].
        auto.
    + right. split; [exact Hf | exact Hc].
  - intros vr s Hv Hs. rewrite Hv.
    apply (resolve_fails showNumber toFixed nearbySearchAt env nowGeo hdrs rateLimit
             (latitude b) (longitude b) tx ty vr s store1 Hs).
  - intros Hla Hlo Hty.
    apply (resolve_answers showNumber toFixed nearbySearchAt env nowGeo hdrs rateLimit
             (latitude b) (longitude b) tx ty v store1 Hla Hlo Hty).
Qed.

(** ** Titles *)

Lemma orText_nonempty (f : Field) (fallback : string) :
  stringOrFalsy f -> fallback <> "" -> orText f fallback <> "".
Proof.
  intros Hf Hb. unfold orText.
  destruct f as [| s | [|] s]; cbn [truthy shown]; try exact Hb.
  - destruct (String.eqb s "") eqn:E; cbn [negb]; [exact Hb |].
    apply String.eqb_neq. exact E.
  - exfalso. apply (Hf s). reflexivity.
Qed.

Lemma formattedType_nonempty (ty : Field) (fallback sub : string) :
  fallback <> "" -> formattedType ty fallback = Some sub -> sub <> "".
Proof.
  intros Hb. unfold formattedType.
  destruct ty as [| s | [|] s]; try discriminate; intros H; inversion H;
    apply formatType_nonempty; apply orText_nonempty; try exact Hb;
    intros s0; discriminate.
Qed.

Lemma visionSubtitle_nonempty (vr : VisionObject) (sub : string) :
  visionSubtitle vr = Some sub -> sub <> "".
Proof.
  unfold visionSubtitle.
  destruct (type vr) as [| s | [|] s]; try discriminate; cbn [truthy shown];
    intros H; inversion H; try discriminate.
  destruct (String.eqb s "") eqn:E; cbn [negb]; [discriminate |].
  apply formatType_nonempty. apply String.eqb_neq. exact E.
Qed.

(** X16.  When the body's latitude and longitude are numbers or falsy
    and the name and the type of the vision hint, if there is one, are
    strings or falsy, the answer to a request that passes the limiter and
    the validation is a 200 whose title and subtitle are not empty: each
    chain of defaults ends in a literal, and formatting a type name never
    empties it. *)
Theorem every_answer_is_titled
        (env : Env.t) (now nowGeo : Z) (hdrs : RateLimit.Headers)
        (b : Body) (store store1 : RateLimit.Store)
        (rateLimit : RateLimit.RateLimitResult) (tx ty : R) :
  passesLimit now hdrs store store1 rateLimit ->
  validAnyBody b tx ty ->
  let v := fst (visionStep JSON_parse regexGroup env (image b)) in
  numberOrFalsy (latitude b) -> numberOrFalsy (longitude b) ->
  stringOrFalsy (fieldOf v name) -> stringOrFalsy (fieldOf v type) ->
  exists r,
    snd (fst (POST JSON_parse regexGroup showNumber toFixed nearbySearchAt
                   env now nowGeo hdrs (Some b) store))
    = mkResponse 200 (Some (rateHeaders rateLimit)) (TapContext.Resolved r) /\
    TapContext.title r <> "" /\ TapContext.subtitle r <> "".
Proof.
  intros Hpass Hvalid. cbv zeta. intros Hla Hlo Hname Hty.
  rewrite (POST_valid_any JSON_parse regexGroup showNumber toFixed nearbySearchAt
             env now nowGeo hdrs b store store1 rateLimit tx ty Hpass Hvalid).
  cbn [fst snd].
  set (v := fst (visionStep JSON_parse regexGroup env (image b))) in *.
  destruct (resolve_exits_any showNumber toFixed nearbySearchAt env nowGeo hdrs
              rateLimit (latitude b) (longitude b) tx ty v store1)
    as [[r [Hr Hk]] | [Hf Hc]].
  - exists r. split; [exact Hr |].
    destruct Hk as [[d Hd] | [[vr [dt [Hv Hd]]] | [[g [ps [_ [_ Hd]]]] | [Hv Hd]]]].
    + unfold enriched in Hd.
      destruct (formattedType (fieldOf v type)
                  (Js.orStr (TapContext.firstType d) "Location")) as [sub |] eqn:Es;
        [| discriminate Hd].
      inversion Hd. cbn [TapContext.title TapContext.subtitle]. split.
      * apply orText_nonempty; [exact Hname |]. apply orStr_nonempty. discriminate.
      * eapply formattedType_nonempty; [| exact Es]. apply orStr_nonempty. discriminate.
    + destruct (visionOnly_Some vr dt r Hd) as [_ [_ [Ht Hs]]]. split.
      * rewrite Ht. apply orText_nonempty; [| discriminate].
        rewrite Hv in Hname. exact Hname.
      * apply (visionSubtitle_nonempty vr). exact Hs.
    + unfold placeCard in Hd. cbv zeta in Hd.
      destruct (formattedType (fieldOf v type)
                  (Js.orStr (Some (GeoContext.type g)) "Location")) as [sub |] eqn:Es;
        [| discriminate Hd].
      inversion Hd. cbn [TapContext.title TapContext.subtitle]. split.
      * apply orText_nonempty; [exact Hname |].
        exact (orStr_nonempty (Some (GeoContext.name g)) "Unknown Place"
                 ltac:(discriminate)).
      * eapply formattedType_nonempty; [| exact Es].
        exact (orStr_nonempty (Some (GeoContext.type g)) "Location"
                 ltac:(discriminate)).
    + destruct (mockResponse_Some toFixed env _ _ tx ty r Hd) as [_ [_ [_ H]]].
      exact H.
  - exfalso. destruct Hc as [[vr [s [Hv Hs]]] | [_ [Hloc [_ Hn]]]].
    + rewrite Hv in Hty. apply (Hty s). exact Hs.
    + unfold located in Hloc. apply andb_true_iff in Hloc. destruct Hloc as [H1 H2].
      destruct (Hla H1) as [la Ela], (Hlo H2) as [lo Elo]. rewrite Ela, Elo in Hn.
      destruct Hn as [Hn | Hn]; discriminate Hn.
Qed.

(** ** The calls of the two strategies *)

Lemma takeMatch_silent (pos : option (R * R)) (visionName : Field)
      (results : list Place.t) :
  snd (takeMatch pos visionName results) = [].
Proof.
  unfold takeMatch.
  destruct visionName as [| s | t s]; try (destruct pos as [[la lo] |]; reflexivity).
  destruct (existsb scoredAt results); reflexivity.
Qed.

Lemma takeScored_silent (pos : option (R * R)) (dir : Geo.Direction)
      (visionType : Field) (results : list Place.t) :
  snd (takeScored pos dir visionType results) = [].
Proof.
  unfold takeScored. cbv zeta.
  match goal with |- context [if ?c then _ else _] => destruct c end;
    [reflexivity |].
  destruct pos as [[la lo] |]; reflexivity.
Qed.

Lemma textSearchLoop_count_any (k : Kind) (env : Env.t) (pos : option (R * R))
      (visionName : Field) (queries : list string) :
  (countKind k (snd (textSearchLoop env pos visionName queries))
   <= List.length queries * callsOf TextSearch k)%nat.
Proof.
  induction queries as [| q rest IH]; [simpl; unfold countKind; simpl; lia |].
  cbn [textSearchLoop List.length].
  replace (S (List.length rest) * callsOf TextSearch k)%nat
    with (callsOf TextSearch k + List.length rest * callsOf TextSearch k)%nat by lia.
  apply bind_count.
  - rewrite call_count. cbn [kindOf]. lia.
  - intros [data |]; [| exact IH].
    destruct (String.eqb (Net.status data) "REQUEST_DENIED" ||
              String.eqb (Net.status data) "ZERO_RESULTS");
      [unfold countKind; simpl; lia |].
    destruct (Net.results data) as [[| r0 rs] |]; try exact IH.
    replace (List.length rest * callsOf TextSearch k)%nat
      with (0 + List.length rest * callsOf TextSearch k)%nat by lia.
    apply bind_count.
    + rewrite takeMatch_silent. unfold countKind. simpl. lia.
    + intros [place |]; [unfold countKind; simpl; lia | exact IH].
Qed.

Lemma findPlaceId_count_any (k : Kind) (env : Env.t) (latitude longitude : Coordinate)
      (dir : Geo.Direction) (v : option VisionObject) :
  (countKind k (snd (findPlaceId showNumber nearbySearchAt env latitude longitude dir v))
   <= 3 * callsOf TextSearch k + callsOf NearbySearch k)%nat.
Proof.
  unfold findPlaceId. apply bind_count.
  - unfold strategy1. destruct v as [r |]; [| unfold countKind; simpl; lia].
    destruct (truthy (name r)); [| unfold countKind; simpl; lia].
    apply (textSearchLoop_count_any k env (position latitude longitude) (name r)
             (searchQueries showNumber r latitude longitude)).
  - intros found1.
    destruct (Js.truthy match found1 with
                        | Some place => Place.place_id place
                        | None => None
                        end); [unfold countKind; simpl; lia |].
    replace (callsOf NearbySearch k) with (callsOf NearbySearch k + 0)%nat by lia.
    apply bind_count; [| intros x; unfold countKind; simpl; lia].
    unfold strategy2.
    replace (callsOf NearbySearch k) with (callsOf NearbySearch k + 0)%nat by lia.
    apply bind_count; [rewrite call_count; cbn [kindOf]; lia |].
    intros [data |]; [| unfold countKind; simpl; lia].
    destruct (String.eqb (Net.status data) "REQUEST_DENIED");
      [unfold countKind; simpl; lia |].
    destruct (Net.results data) as [[| r0 rs] |]; try (unfold countKind; simpl; lia).
    rewrite takeScored_silent. unfold countKind. simpl. lia.
Qed.

Lemma findPlaceId_kinds_any (env : Env.t) (latitude longitude : Coordinate)
      (dir : Geo.Direction) (v : option VisionObject) (e : Event) :
  In e (snd (findPlaceId showNumber nearbySearchAt env latitude longitude dir v)) ->
  kindOf e = TextSearch \/ kindOf e = NearbySearch.
Proof.
  intros H. apply countKind_In in H.
  pose proof (findPlaceId_count_any (kindOf e) env latitude longitude dir v) as Hc.
  unfold callsOf in Hc.
  destruct (kindOf e); cbn [sameKind] in Hc; auto; lia.
Qed.

(** X20.  A vision hint whose type is a string or falsy, with no place
    to attach it to, is answered from the hint alone, with confidence
    0.7.  Without a location the handler makes no call but the vision
    call.  With a location, when the two strategies end with no place id,
    the calls are the vision call and the searches of the strategies: no
    details request and no geo-context request is made, and the
    rate-limit store is not touched again. *)
Theorem hint_without_place_is_answered_alone
        (env : Env.t) (now nowGeo : Z) (hdrs : RateLimit.Headers)
        (b : Body) (store store1 : RateLimit.Store)
        (rateLimit : RateLimit.RateLimitResult) (tx ty : R)
        (vr : VisionObject) :
  passesLimit now hdrs store store1 rateLimit ->
  validAnyBody b tx ty ->
  fst (visionStep JSON_parse regexGroup env (image b)) = Some vr ->
  stringOrFalsy (type vr) ->
  exists sent alone withParts,
    base64Of (image b) = Some sent /\
    visionOnly vr (orText (details vr) "") = Some alone /\
    visionOnly vr (Js.join TapContext.nl2 (visionDetailParts vr)) = Some withParts /\
    TapContext.confidence alone = 0.7%R /\
    TapContext.confidence withParts = 0.7%R /\
    (located (latitude b) (longitude b) = false ->
     POST JSON_parse regexGroup showNumber toFixed nearbySearchAt
          env now nowGeo hdrs (Some b) store
     = (store1, TapContext.respond rateLimit alone, [ReadBody; CallGemini sent])) /\
    (forall placeId,
        located (latitude b) (longitude b) = true ->
        fst (findPlaceId showNumber nearbySearchAt env (latitude b) (longitude b)
                         (TapContext.direction tx ty) (Some vr)) = Some placeId ->
        Js.truthy placeId = false ->
        POST JSON_parse regexGroup showNumber toFixed nearbySearchAt
             env now nowGeo hdrs (Some b) store
        = (store1, TapContext.respond rateLimit withParts,
           ReadBody :: CallGemini sent
             :: snd (findPlaceId showNumber nearbySearchAt env (latitude b)
                                 (longitude b) (TapContext.direction tx ty)
                                 (Some vr)))) /\
    (forall e,
        In e (snd (findPlaceId showNumber nearbySearchAt env (latitude b) (longitude b)
                               (TapContext.direction tx ty) (Some vr))) ->
        kindOf e = TextSearch \/ kindOf e = NearbySearch).
Proof.
  intros Hpass Hvalid Hv Hty.
  pose proof (visionStep_Some_any JSON_parse regexGroup env (image b) vr Hv)
    as [Hkey [sent [Hsent Hevs]]].
  pose proof (POST_valid_any JSON_parse regexGroup showNumber toFixed nearbySearchAt
                env now nowGeo hdrs b store store1 rateLimit tx ty Hpass Hvalid) as HP.
  cbv zeta in HP. rewrite Hv, Hevs in HP.
  assert (Hsub : exists sub, visionSubtitle vr = Some sub).
  { destruct (visionSubtitle vr) as [sub |] eqn:Es; [eauto |].
    apply visionSubtitle_None in Es. destruct Es as [s Hs].
    exfalso. apply (Hty s). exact Hs. }
  destruct Hsub as [sub Hsub].
  assert (Honly : forall dt, exists r, visionOnly vr dt = Some r /\
                                       TapContext.confidence r = 0.7%R).
  { intros dt. unfold visionOnly. rewrite Hsub. eexists. split; reflexivity. }
  destruct (Honly (orText (details vr) "")) as [alone [Ha Hca]].
  destruct (Honly (Js.join TapContext.nl2 (visionDetailParts vr)))
    as [withParts [Hw Hcw]].
  exists sent, alone, withParts.
  split; [exact Hsent |]. split; [exact Ha |]. split; [exact Hw |].
  split; [exact Hca |]. split; [exact Hcw |].
  split; [| split].
  - intros Hloc. rewrite HP. unfold resolve. cbv zeta. rewrite Hloc.
    unfold lastResort. rewrite Ha. reflexivity.
  - intros placeId Hloc Hfind Htr. rewrite HP.
    unfold resolve. cbv zeta. rewrite Hloc.
    unfold placeBlock, TapContext.bind, TapContext.apiKey, TapContext.ret.
    destruct (Env.requireKey env) as [k |]; [| contradiction].
    destruct (findPlaceId showNumber nearbySearchAt env (latitude b) (longitude b)
                          (TapContext.direction tx ty) (Some vr))
      as [o evsF] eqn:EF.
    cbn [fst snd] in Hfind |- *. subst o. rewrite Htr.
    unfold answer. rewrite Hw. unfold TapContext.ret.
    cbn [TapContext.tryCatch fst snd app]. rewrite List.app_nil_r. reflexivity.
  - intros e. apply findPlaceId_kinds_any.
Qed.

End AnyClaims.

Section AnyWorkedRequests.

Import TapContextAny Http.
Local Open Scope string_scope.

Lemma declared_valid (b : TapContext.Body) (img : string) (tx ty : R) :
  validBody b img tx ty -> validAnyBody (declaredBody b) tx ty.
Proof.
  intros [Himg [Hne [Hsz [Htx Hty]]]].
  unfold validAnyBody, declaredBody. cbn [image tapX tapY]. rewrite Himg.
  cbn [declaredImage truthyImage tooLarge].
  split; [apply negb_true_iff; apply String.eqb_neq; exact Hne |].
  split; [exact Hsz |]. split; assumption.
Qed.

Lemma textLatitude_valid (tx ty : R) : validAnyBody (tapWithTextLatitude tx ty) tx ty.
Proof.
  unfold validAnyBody, tapWithTextLatitude. cbn [image tapX tapY sampleImage].
  split; [reflexivity |]. split; [apply small_image |]. split; reflexivity.
Qed.

Lemma declared_numberOrFalsy (o : option R) : numberOrFalsy (declaredCoordinate o).
Proof. destruct o as [r |]; intros H; [eauto | discriminate H]. Qed.

Lemma emptyWorld_fails : VisionFailureAny emptyWorld sampleImage.
Proof. apply (AnyCallNotOk _ _ "aGVsbG8=" 503); reflexivity. Qed.

(** The theorem at a reply that is no JSON, [{name: Ferry Building}],
    from which the bare name pattern extracts the name; and at the
    process whose vision service is down, which answers the tap
    all the same. *)
Lemma vision_failure_never_aborts_witness :
  (exists hint,
      fst (visionStep rejectAll bareName (replyWorld unquotedObject) sampleImage)
      = Some hint /\
      name hint = Text "Ferry Building" /\ type hint = Absent) /\
  fst (visionStep rejectAll bareName emptyWorld sampleImage) = None /\
  (exists r,
      snd (fst (POST rejectAll bareName showExample fixedExample noSearchAt
                     emptyWorld 1000 1001 noHeaders
                     (Some (declaredBody (tapAt 0.5 0.5))) ∅))
      = mkResponse 200 (Some (rateHeaders (snd firstCheck))) (TapContext.Resolved r)).
Proof.
  destruct (vision_failure_never_aborts rejectAll bareName showExample fixedExample
              noSearchAt (replyWorld unquotedObject) sampleImage) as [_ [H2 _]].
  destruct (vision_failure_never_aborts rejectAll bareName showExample fixedExample
              noSearchAt emptyWorld sampleImage) as [H1 [_ H3]].
  split; [| split].
  - destruct (H2 "aGVsbG8=" (Net.mkGeminiData (Some unquotedObject)) unquotedObject
                unquotedObject ltac:(discriminate) eq_refl eq_refl eq_refl
                ltac:(discriminate) eq_refl eq_refl)
      as [hint [Hh [Hn [Ht _]]]].
    exists hint. split; [exact Hh |]. split.
    + inversion Hn as [g Hg | g Hq Hg | Hq Hg]; try discriminate.
      vm_compute in Hg. inversion Hg. reflexivity.
    + inversion Ht as [g Hg | g Hq Hg | Hq Hg]; try discriminate. reflexivity.
  - apply H1. exact emptyWorld_fails.
  - destruct (H3 1000%Z 1001%Z noHeaders (declaredBody (tapAt 0.5 0.5)) ∅
                (fst firstCheck) (snd firstCheck) 0.5%R 0.5%R eq_refl
                firstCheck_passes (declared_valid _ _ _ _ (tapAt_valid _ _))
                emptyWorld_fails)
      as [HP [H200 _]].
    destruct (H200 (declared_numberOrFalsy _) (declared_numberOrFalsy _)) as [r Hr].
    exists r. rewrite HP. exact Hr.
Defined.

(** The claim as it is worded fails for a reply that holds no brace:
    the text cannot be parsed as JSON, the bare name pattern would
    capture a name in it, and the hint is null all the same. *)
Lemma vision_extraction_counterexample :
  (forall jsonText, rejectAll jsonText = None) /\
  Extracted bareName TapContext.NameQuoted TapContext.NameBare unquotedLine
            (Text "Ferry Building") /\
  fst (visionStep rejectAll bareName (replyWorld unquotedLine) sampleImage) = None /\
  ~ (exists hint,
        fst (visionStep rejectAll bareName (replyWorld unquotedLine) sampleImage)
        = Some hint /\
        Extracted bareName TapContext.NameQuoted TapContext.NameBare unquotedLine
                  (name hint)).
Proof.
  split; [reflexivity |]. split; [| split].
  - apply (FromBare bareName _ _ _ "Ferry Building"); reflexivity.
  - reflexivity.
  - intros [hint [H _]]. discriminate H.
Qed.

Lemma numberTyped_hint :
  fst (visionStep parseNumberTyped noGroup (replyWorld "{}") sampleImage)
  = Some numberTyped.
Proof. reflexivity. Qed.

(** The theorem at a reply whose type is the number 7: the tap is
    answered 500. *)
Lemma every_answer_is_of_five_kinds_witness :
  snd (fst (POST parseNumberTyped noGroup showExample fixedExample noSearchAt
                 (replyWorld "{}") 1000 1001 noHeaders
                 (Some (declaredBody (tapAt 0.5 0.5))) ∅))
  = mkResponse 500 None (TapContext.Error "Context lookup failed").
Proof.
  destruct (every_answer_is_of_five_kinds parseNumberTyped noGroup showExample
              fixedExample noSearchAt (replyWorld "{}") 1000%Z 1001%Z noHeaders
              (declaredBody (tapAt 0.5 0.5)) ∅ (fst firstCheck) (snd firstCheck)
              0.5%R 0.5%R firstCheck_passes
              (declared_valid _ _ _ _ (tapAt_valid _ _)))
    as [_ [H _]].
  exact (H numberTyped "7" numberTyped_hint eq_refl).
Defined.

Lemma truthy_longitude : Js.truthyNum (Some (-122.4194)%R) = true.
Proof. apply truthyNum_Some. exists (-122.4194)%R. split; [reflexivity | lra]. Qed.

(** A latitude sent as a text: the searches are made with it, the
    nested geo-context request refuses it, and the last fallback
    throws at [latitude.toFixed]. *)
Example text_latitude_is_answered_500 :
  POST rejectAll noGroup showExample fixedExample noSearchAt
       emptyWorld 1000 1001 noHeaders (Some (tapWithTextLatitude 0.5 0.5)) ∅
  = (fst (RateLimit.checkRateLimit 1001 (RateLimit.getClientIdentifier noHeaders)
            (fst firstCheck)),
     mkResponse 500 None (TapContext.Error "Context lookup failed"),
     [ReadBody; CallGemini "aGVsbG8="; CallNearbySearch 150; CallGeoContext;
      ReadBody]).
Proof.
  rewrite (POST_valid_any rejectAll noGroup showExample fixedExample noSearchAt
             emptyWorld 1000 1001 noHeaders (tapWithTextLatitude 0.5 0.5) ∅
             (fst firstCheck) (snd firstCheck) 0.5%R 0.5%R
             firstCheck_passes (textLatitude_valid _ _)).
  assert (Hloc : located (NotNumber true "37.7749" (Some 37.7749%R))
                         (Number (-122.4194)%R) = true).
  { unfold located. cbn [truthyCoordinate]. rewrite truthy_longitude. reflexivity. }
  unfold resolve. cbv zeta.
  cbn [tapWithTextLatitude latitude longitude image sampleImage].
  rewrite Hloc.
  change (visionStep rejectAll noGroup emptyWorld (ImageText "aGVsbG8="))
    with (@None VisionObject, [CallGemini "aGVsbG8="]).
  cbn [fst snd].
  change (placeBlock showExample noSearchAt emptyWorld (snd firstCheck)
            (NotNumber true "37.7749" (Some 37.7749%R)) (Number (-122.4194)%R)
            (TapContext.direction 0.5 0.5) None)
    with (@None (option (Response TapContext.Json)), [CallNearbySearch 150]).
  cbn [TapContext.tryCatch].
  unfold geoBlock. cbn [asNumber].
  change (GeoContext.POST emptyWorld 1001 noHeaders
            (Some (GeoContext.mkBody None (Some (-122.4194)%R)
                     (Some (TapContext.direction 0.5 0.5))))
            (fst firstCheck))
    with (fst (RateLimit.checkRateLimit 1001 (RateLimit.getClientIdentifier noHeaders)
                 (fst firstCheck)),
          mkResponse 400 None (GeoContext.Error "Location and direction required"),
          [ReadBody]).
  cbn [ok status andb Nat.leb fst snd option_map app].
  unfold lastResort, mockResponse. rewrite Hloc. reflexivity.
Qed.

(** The theorem at the process whose services find nothing. *)
Lemma every_answer_is_titled_witness :
  exists r,
    snd (fst (POST rejectAll noGroup showExample fixedExample noSearchAt
                   emptyWorld 1000 1001 noHeaders
                   (Some (declaredBody (tapAt 0.5 0.5))) ∅))
    = mkResponse 200 (Some (rateHeaders (snd firstCheck))) (TapContext.Resolved r) /\
    TapContext.title r <> "" /\ TapContext.subtitle r <> "".
Proof.
  refine (every_answer_is_titled rejectAll noGroup showExample fixedExample noSearchAt
            emptyWorld 1000%Z 1001%Z noHeaders (declaredBody (tapAt 0.5 0.5)) ∅
            (fst firstCheck) (snd firstCheck) 0.5%R 0.5%R
            firstCheck_passes (declared_valid _ _ _ _ (tapAt_valid _ _))
            (declared_numberOrFalsy _) (declared_numberOrFalsy _) _ _);
    intros s; discriminate.
Defined.

Lemma ferryObject_hint :
  fst (visionStep parseFerryObject noGroup hintWorld sampleImage)
  = Some (declaredVision ferryHint).
Proof. reflexivity. Qed.

(** The theorem at a tap without a position, in the process whose
    vision service names the ferry building. *)
Lemma hint_without_place_is_answered_alone_witness :
  exists alone,
    visionOnly (declaredVision ferryHint) "" = Some alone /\
    POST parseFerryObject noGroup showExample fixedExample noSearchAt
         hintWorld 1000 1001 noHeaders (Some (declaredBody (tapNowhere 0.5 0.5))) ∅
    = (fst firstCheck, TapContext.respond (snd firstCheck) alone,
       [ReadBody; CallGemini "aGVsbG8="]).
Proof.
  destruct (hint_without_place_is_answered_alone
              parseFerryObject noGroup showExample fixedExample noSearchAt
              hintWorld 1000%Z 1001%Z noHeaders (declaredBody (tapNowhere 0.5 0.5)) ∅
              (fst firstCheck) (snd firstCheck) 0.5%R 0.5%R (declaredVision ferryHint)
              firstCheck_passes (declared_valid _ _ _ _ (tapNowhere_valid _ _))
              ferryObject_hint ltac:(intros s; discriminate))
    as [sent [alone [withParts [Hs [Ha [_ [_ [_ [H _]]]]]]]]].
  exists alone. split; [exact Ha |].
  inversion Hs; subst sent. apply H. reflexivity.
Defined.

End AnyWorkedRequests.

Section GeoAnyFacts.

Import GeoContextAny Http.
Local Open Scope R_scope.

Lemma rank_direction (latitude longitude : R) (d : Geo.Direction) (place : Place.t) :
  GeoContext.rank latitude longitude (Geo.mkDirection (Geo.dx d) 0 (Geo.dz d)) place
  = GeoContext.rank latitude longitude d place.
Proof. reflexivity. Qed.

Lemma mapFilter_ext {A B : Type} (f g : A -> option B) (l : list A) :
  (forall a, f a = g a) -> Js.mapFilter f l = Js.mapFilter g l.
Proof.
  intros H. induction l as [| a l IH]; [reflexivity |].
  cbn [Js.mapFilter]. rewrite H, IH. reflexivity.
Qed.

Lemma rankedPlaces_declared (latitude longitude : R) (d : Geo.Direction)
      (results : list Place.t) :
  rankedPlaces latitude longitude (declaredDirection (Some d)) results
  = List.map ranked (GeoContext.rankedPlaces latitude longitude d results).
Proof.
  unfold rankedPlaces. cbn [declaredDirection numeric].
  unfold GeoContext.rankedPlaces.
  rewrite (mapFilter_ext _ _ _ (rank_direction latitude longitude d)). reflexivity.
Qed.

(** The handler of [GeoContext] is the handler of [GeoContextAny] at
    the directions of the declared shape. *)
Lemma geoPOST_declared (env : Env.t) (now : Z) (hdrs : RateLimit.Headers)
      (body : option GeoContext.Body) (store : RateLimit.Store) :
  POST env now hdrs (option_map declaredGeoBody body) store
  = (let '(store', response, evs) := GeoContext.POST env now hdrs body store in
     (store',
      mkResponse (status response) (headers response) (declaredGeoJson (json response)),
      evs)).
Proof.
  unfold POST, GeoContext.POST. cbv zeta.
  destruct (RateLimit.checkRateLimit now (RateLimit.getClientIdentifier hdrs) store)
    as [store1 rateLimit].
  destruct (negb (RateLimit.allowed rateLimit)); [reflexivity |].
  destruct body as [b |]; [| reflexivity]. cbn [option_map].
  cbn [declaredGeoBody body_latitude body_longitude body_direction].
  destruct (GeoContext.body_latitude b) as [la |]; [| reflexivity].
  destruct (GeoContext.body_longitude b) as [lo |]; [| reflexivity].
  destruct (GeoContext.body_direction b) as [d |]; [| reflexivity].
  cbn [declaredDirection].
  destruct (GeoContext.outOfRange la lo); [reflexivity |].
  destruct (Env.requireKey env); [| reflexivity].
  destruct (Env.nearbySearch env la lo 500) as [| st | data]; try reflexivity.
  destruct (Net.results data) as [[| r0 rs] |]; try reflexivity.
  destruct (String.eqb (Net.status data) "OK"); [| reflexivity].
  change (AnyDirection (Some (Geo.dx d)) (Some (Geo.dz d)))
    with (declaredDirection (Some d)).
  rewrite rankedPlaces_declared. reflexivity.
Qed.

Lemma rankNaN_Some (latitude longitude : R) (place : Place.t) (g : GeoPlace) :
  rankNaN latitude longitude place = Some g ->
  confidence g = None /\ 0 <= distance g.
Proof.
  unfold rankNaN.
  destruct (Js.truthyNum (Place.lat place) && Js.truthyNum (Place.lng place));
    [| discriminate].
  destruct (Place.lat place) as [pla |]; [| discriminate].
  destruct (Place.lng place) as [plo |]; [| discriminate].
  intros H. inversion H. cbn [confidence distance]. split; [reflexivity |].
  exact (proj1 (distance_range latitude longitude pla plo)).
Qed.

Lemma rankedPlaces_range (latitude longitude : R) (d : DirectionField)
      (results : list Place.t) :
  (forall place r, In place results -> Place.rating place = Some r -> 0 <= r <= 5) ->
  Forall (fun g =>
            0 <= distance g /\
            match numeric d with
            | Some _ => exists c, confidence g = Some c /\ 0.12 <= c <= 1
            | None => confidence g = None
            end)
         (rankedPlaces latitude longitude d results).
Proof.
  intros Hr. apply List.Forall_forall. intros g Hg. unfold rankedPlaces in Hg.
  destruct (numeric d) as [dir |].
  - apply List.in_map_iff in Hg. destruct Hg as [g0 [<- Hg0]].
    apply rankedPlaces_In in Hg0. destruct Hg0 as [place [Hp Hg0]].
    apply In_firstn in Hp.
    pose proof (rank_range _ _ _ _ _ Hg0 (fun r => Hr place r Hp)) as [Hc Hd].
    cbn [ranked distance confidence]. split; [exact Hd |].
    exists (GeoContext.confidence g0). split; [reflexivity | exact Hc].
  - apply In_firstn in Hg. apply mapFilter_In in Hg.
    destruct Hg as [place [_ Hg]]. apply rankNaN_Some in Hg. tauto.
Qed.

Lemma geoPOST_range (env : Env.t) (now : Z) (hdrs : RateLimit.Headers)
      (b : Body) (store : RateLimit.Store) (places : list GeoPlace) :
  ratingsInRange env ->
  json (snd (fst (POST env now hdrs (Some b) store))) = Places places ->
  Forall (fun g =>
            0 <= distance g /\
            match numeric (body_direction b) with
            | Some _ => exists c, confidence g = Some c /\ 0.12 <= c <= 1
            | None => confidence g = None
            end)
         places.
Proof.
  intros Hr. unfold POST. cbv zeta.
  destruct (RateLimit.checkRateLimit now (RateLimit.getClientIdentifier hdrs) store)
    as [store1 rateLimit].
  destruct (negb (RateLimit.allowed rateLimit)); [discriminate |].
  destruct (body_latitude b) as [la |]; [| discriminate].
  destruct (body_longitude b) as [lo |]; [| discriminate].
  destruct (body_direction b) as [| x z] eqn:Ed; [discriminate |].
  destruct (GeoContext.outOfRange la lo); [discriminate |].
  assert (Hnil : Places [] = Places places ->
                 Forall (fun g =>
                           0 <= distance g /\
                           match numeric (AnyDirection x z) with
                           | Some _ => exists c, confidence g = Some c /\ 0.12 <= c <= 1
                           | None => confidence g = None
                           end) places).
  { intros H. inversion H. constructor. }
  destruct (Env.requireKey env); [| exact Hnil].
  destruct (Env.nearbySearch env la lo 500) as [| st | data] eqn:En;
    try exact Hnil.
  destruct (Net.results data) as [[| r0 rs] |] eqn:Eres; try exact Hnil.
  destruct (String.eqb (Net.status data) "OK"); [| exact Hnil].
  cbn [fst snd json]. intros H. inversion H.
  apply rankedPlaces_range. intros place r Hin Hrat.
  exact (Hr la lo 500%nat data (r0 :: rs) place r En Eres Hin Hrat).
Qed.

(** The confidence of a place ranked for a direction of numbers is never
    0, so the tap-context route, which answers
    [bestPlace.confidence || 0.8], answers the place's own confidence. *)
Lemma card_keeps_confidence (latitude longitude : R) (direction : Geo.Direction)
      (results : list Place.t) (v : option VisionResult.t) (g : GeoContext.GeoPlace) :
  (forall place r, In place results -> Place.rating place = Some r -> 0 <= r <= 5) ->
  In g (GeoContext.rankedPlaces latitude longitude direction results) ->
  TapContext.confidence (TapContext.placeCard v g) = GeoContext.confidence g.
Proof.
  intros Hr Hg.
  apply rankedPlaces_In in Hg. destruct Hg as [place [Hp Hg]].
  apply In_firstn in Hp.
  pose proof (rank_range _ _ _ _ _ Hg (fun r => Hr place r Hp)) as [Hc _].
  unfold TapContext.placeCard. cbv zeta. cbn [TapContext.confidence].
  unfold Js.truthyNum.
  destruct (Req_dec_T (GeoContext.confidence g) 0); [exfalso; lra | reflexivity].
Qed.

Lemma geoPOST_card (env : Env.t) (now : Z) (hdrs : RateLimit.Headers)
      (la lo : R) (dir : Geo.Direction) (store : RateLimit.Store)
      (places : list GeoContext.GeoPlace) (v : option VisionResult.t) :
  ratingsInRange env ->
  json (snd (fst (GeoContext.POST env now hdrs
                    (Some (GeoContext.mkBody (Some la) (Some lo) (Some dir))) store)))
  = GeoContext.Places places ->
  Forall (fun g => TapContext.confidence (TapContext.placeCard v g)
                   = GeoContext.confidence g)
         places.
Proof.
  intros Hr. unfold GeoContext.POST. cbv zeta.
  destruct (RateLimit.checkRateLimit now (RateLimit.getClientIdentifier hdrs) store)
    as [store1 rateLimit].
  destruct (negb (RateLimit.allowed rateLimit)); [discriminate |].
  cbn [GeoContext.body_latitude GeoContext.body_longitude GeoContext.body_direction].
  destruct (GeoContext.outOfRange la lo); [discriminate |].
  assert (Hnil : GeoContext.Places [] = GeoContext.Places places ->
                 Forall (fun g => TapContext.confidence (TapContext.placeCard v g)
                                  = GeoContext.confidence g) places).
  { intros H. inversion H. constructor. }
  destruct (Env.requireKey env); [| exact Hnil].
  destruct (Env.nearbySearch env la lo 500) as [| st | data] eqn:En;
    try exact Hnil.
  destruct (Net.results data) as [[| r0 rs] |] eqn:Eres; try exact Hnil.
  destruct (String.eqb (Net.status data) "OK"); [| exact Hnil].
  cbn [fst snd json]. intros H. inversion H.
  apply List.Forall_forall. intros g Hg.
  apply (card_keeps_confidence la lo dir (r0 :: rs) v g); [| exact Hg].
  intros place r Hin Hrat.
  exact (Hr la lo 500%nat data (r0 :: rs) place r En Eres Hin Hrat).
Qed.

(** X11.  When every rating the nearby search reports lies between 0 and
    5, each place the geo-context route returns has a distance that is
    not negative, and a confidence that depends on the direction of the
    request alone: between 0.12 and 1 when [direction.x] and
    [direction.z] convert to finite numbers, and NaN when one of them
    converts to NaN, as both do in the empty object, which passes the
    test [!direction].  The
    tap-context route sends a direction of numbers: for each place of the
    reply to its nested request the confidence is not 0, and the card
    built from the place, [bestPlace.confidence || 0.8], carries the
    place's own confidence. *)
Theorem geo_confidence_range (env : Env.t) (now : Z) (hdrs : RateLimit.Headers)
        (store : RateLimit.Store) :
  ratingsInRange env ->
  (forall b places,
      json (snd (fst (POST env now hdrs (Some b) store))) = Places places ->
      Forall (fun g =>
                0 <= distance g /\
                match numeric (body_direction b) with
                | Some _ => exists c, confidence g = Some c /\ 0.12 <= c <= 1
                | None => confidence g = None
                end)
             places) /\
  (forall la lo dir places v,
      json (snd (fst (GeoContext.POST env now hdrs
                        (Some (GeoContext.mkBody (Some la) (Some lo) (Some dir)))
                        store)))
      = GeoContext.Places places ->
      Forall (fun g => 0.12 <= GeoContext.confidence g <= 1 /\
                       TapContext.confidence (TapContext.placeCard v g)
                       = GeoContext.confidence g)
             places).
Proof.
  intros Hr. split.
  - intros b places. apply geoPOST_range. exact Hr.
  - intros la lo dir places v Hj.
    pose proof (geoPOST_card env now hdrs la lo dir store places v Hr Hj) as Hcard.
    pose proof (geoPOST_range env now hdrs
                  (declaredGeoBody (GeoContext.mkBody (Some la) (Some lo) (Some dir)))
                  store (List.map ranked places) Hr) as Hrange.
    change (Some (declaredGeoBody (GeoContext.mkBody (Some la) (Some lo) (Some dir))))
      with (option_map declaredGeoBody
              (Some (GeoContext.mkBody (Some la) (Some lo) (Some dir)))) in Hrange.
    rewrite geoPOST_declared in Hrange.
    destruct (GeoContext.POST env now hdrs
                (Some (GeoContext.mkBody (Some la) (Some lo) (Some dir))) store)
      as [[store' response] evs].
    cbn [fst snd json] in Hj, Hrange. rewrite Hj in Hrange.
    specialize (Hrange eq_refl).
    rewrite List.Forall_forall in Hcard, Hrange |- *.
    intros g Hg. split; [| apply Hcard; exact Hg].
    destruct (Hrange (ranked g) (List.in_map ranked places g Hg)) as [_ Hc].
    cbn [declaredGeoBody body_direction GeoContext.body_direction declaredDirection
                         numeric] in Hc.
    destruct Hc as [c [Ec Hc]]. cbn [ranked confidence] in Ec. inversion Ec; subst c.
    exact Hc.
Qed.

Lemma nearbyWorld_ratings : ratingsInRange nearbyWorld.
Proof.
  intros la lo radius data results place r Hn Hres Hin Hrat.
  unfold nearbyWorld in Hn. cbn [Env.nearbySearch] in Hn.
  destruct (radius =? 500)%nat; [| discriminate Hn].
  inversion Hn; subst data. cbn [Net.results] in Hres. inversion Hres; subst results.
  destruct Hin as [<- | []]. discriminate Hrat.
Qed.

(** The theorem at a direction without numbers, [{}]: the one place
    the search finds is returned with a confidence of NaN. *)
Lemma geo_confidence_range_witness :
  exists g,
    json (snd (fst (POST nearbyWorld 1000 noHeaders (Some emptyDirectionBody) ∅)))
    = Places [g] /\
    confidence g = None /\ 0 <= distance g.
Proof.
  destruct (rank_here (Geo.mkDirection 0 0 1)) as [g0 Hg0].
  assert (Hout : GeoContext.outOfRange 37.7749 (-122.4194) = false).
  { apply outOfRange_false. split; lra. }
  assert (Hj : exists g,
             json (snd (fst (POST nearbyWorld 1000 noHeaders
                                  (Some emptyDirectionBody) ∅)))
             = Places [g]).
  { unfold POST. cbv zeta.
    change (RateLimit.checkRateLimit 1000 (RateLimit.getClientIdentifier noHeaders) ∅)
      with firstCheck.
    destruct firstCheck as [store1 rateLimit] eqn:Ef.
    assert (Hal : RateLimit.allowed rateLimit = true)
      by (change rateLimit with (snd (store1, rateLimit)); rewrite <- Ef; reflexivity).
    rewrite Hal. cbn [negb emptyDirectionBody body_latitude body_longitude
                           body_direction].
    rewrite Hout.
    change (Env.requireKey nearbyWorld) with (Some "key"%string).
    cbn [nearbyWorld Env.nearbySearch Nat.eqb Net.results Net.status].
    change (String.eqb "OK" "OK") with true. cbn [fst snd json].
    unfold rankedPlaces. cbn [numeric firstn Js.mapFilter].
    unfold GeoContext.rank in Hg0. unfold rankNaN.
    destruct (Js.truthyNum (Place.lat herePlace) && Js.truthyNum (Place.lng herePlace));
      [| discriminate Hg0].
    cbn [herePlace Place.lat Place.lng]. eexists. reflexivity. }
  destruct Hj as [g Hj]. exists g. split; [exact Hj |].
  pose proof (proj1 (geo_confidence_range nearbyWorld 1000%Z noHeaders ∅
                       nearbyWorld_ratings) emptyDirectionBody [g] Hj) as HF.
  inversion HF as [| ? ? [Hd Hc] _]; subst. cbn [emptyDirectionBody body_direction numeric] in Hc.
  split; [exact Hc | exact Hd].
Defined.

End GeoAnyFacts.
